(* ===== verification/_CoqProject ===== *)
-Q . S2P
Prelude.v
CppString.v
Floats.v
Json.v
Types.v
Codec.v
Utf8.v
ServerOptions.v
ServerOptionsTheorems.v
Sqlite.v
StoreInterface.v
Store.v
StoreInvariant.v
Knowledge.v
StoreTransactions.v
StoreReads.v
Schema.v
StoreSearch.v
Samples.v
StoreTheorems.v
EventLog.v
Refinement.v
LongTermTheorems.v
LongTermRefinement.v
MemoryRefinement.v
SearchTheorems.v
Consolidation.v
Curl.v
CurlTheorems.v
ModelClients.v
ModelTheorems.v
ContextBuilder.v
ContextTheorems.v
ContextRefinement.v
PayloadService.v
PayloadTheorems.v
PayloadConcurrency.v
Runtime.v
Mcp.v
Http.v
TransportSamples.v
McpTheorems.v
HttpTheorems.v
ServerSetup.v
ServerSetupTheorems.v
ServerLifecycle.v
ConsolidationTheorems.v
ConsolidationProgress.v
ConsolidationKnowledge.v
ConsolidationConcurrency.v
