(* ===== verification/Prelude.v ===== *)
(** * agent-memory-cpp: verification development

    The program keeps the memory of conversational agents: an append-only log of events, payload files
    for large tool results, and a long-term memory of summaries, entities and relations that a
    consolidation derives from the log by rules or by a language model. It is a library
    ([BuiltinMemoryRuntime]) and a server that offers the same operations over HTTP and MCP.

    ** Parts and their files

    - [Prelude], [CppString], [Floats], [Json], [Utf8]: the language: outcomes with exceptions, a
      state monad, machine integers, [std::string] as a list of bytes, IEEE floats (SpecFloat, 53 and
      24 bits), nlohmann::json values with their order of keys and their accessors, and json_helpers.h.
    - [Types]: the structs of src/include/agent_memory and the results of store.h. [StoreInterface]: the
      virtual classes of store.h as type classes; the services are written against them, [StoreSearch]
      has the instances for SQLite.
    - [Sqlite], [Store], [StoreSearch], [Schema] (src/src/storage/sqlite_store.cpp): a connection with an
      optional transaction and arbitrary faults; the tables, one definition per SQL statement, and one
      per method of [MemorySqliteStore]; the search; [Initialize] on any old database.
    - [Consolidation] (src/src/consolidation): batch builder, rule-based and model-backed processor,
      writer, service. [ContextBuilder], [PayloadService], [Runtime] (src/src/core): context packages,
      payload files over a file system with faults, and [BuiltinMemoryRuntime], an instance of the class
      [MemoryRuntime] that the transports use.
    - [Codec] (src/src/serialization): the JSON form of every request and response, with diagnostics.
    - [Mcp], [Http] (src/src/transport): both protocols over any [MemoryRuntime], with the routing of
      cpp-httplib that decides which handler runs and the parts of a reply that a Range header asks for.
    - [Curl], [ModelClients] (src/src/utils/curl_client.cpp, src/src/model): the HTTP client with its
      retries, the model configuration, the factory and both providers.
    - [ServerOptions], [ServerSetup] (src/src/server): configuration file, command line, setup, [main].
      [ServerLifecycle]: the process after the setup as a transition system of the main thread, the stop
      thread, signals and the network.

    A stateful call is a function from its state to an [Outcome] and the new state ([M]); an exception is
    [Throw] with its text and keeps the state it left. A method of a C++ class is a definition of the
    same name on a record of its fields; helpers that only one method uses are its loop bodies.

    ** What the theorems show

    - The store ([StoreTheorems], [StoreInvariant], [StoreTransactions], [StoreReads]): any sequence of
      calls under any faults keeps the invariant of the tables; transactions are atomic, but not for work
      that goes on after a fault that rolled back; an exception inside one leaves it open.
      [EventLog], [LongTermTheorems], [SearchTheorems]: what saving promises to loading, incremental
      reading, search.
    - The contract of the store: [Refinement] shows by a forward simulation, faults included, that the
      calls on events and cursors refine an abstract log; [LongTermRefinement] that the calls and
      transactions on summaries, entities and relations refine a knowledge, whose changes are the few
      steps of [Knowledge]; [MemoryRefinement] composes both with the payload references.
      [ContextRefinement]: a context package over the store shows exactly such a memory.
    - [ConsolidationTheorems], [ConsolidationProgress], [ConsolidationConcurrency]: a consolidation is all
      or nothing, and does nothing when it allows no events; repeating it drains the log; events appended
      while it runs are neither lost nor processed twice, also under faults. [ConsolidationKnowledge]:
      over a store that remembers a memory, it moves the cursor behind its batch and makes exactly the
      updates of the batch. [ModelTheorems]: what becomes of it when the model fails, and which
      configurations give a client.
    - [ContextTheorems], [PayloadTheorems], [PayloadConcurrency]: well-formed packages; content is never
      lost, files stay contained, the round trip; cleanup threads never disturb a write.
    - [Codec]: round trips of requests and responses. [McpTheorems], [HttpTheorems]: every message is
      answered, the bearer token is a gate, only payloads are served, both transports agree.
    - [CurlTheorems]: the retry loop ends, requests are sent as given, share handles have one owner.
      [ServerOptionsTheorems], [ServerSetupTheorems]: the schema of the configuration file and the options
      that a document gives, the meaning of the command line,
      strict mode, and what holds of every server that is put to listen. [ServerLifecycle]: how the
      process ends, that a signal stops a server that runs, and that an earlier one is lost.
    - [Samples], [TransportSamples]: concrete parameters; a witness follows each theorem with hypotheses.

    ** Parameters and hypotheses

    - [SqlEnv]: which database calls fail, when and how, and the current time. [SqlPlan]: the order of a
      scan. [FtsEngine]: what FTS5 finds for a query, of which only is assumed that the rows exist and
      have finite ranks.
    - [FsEnv]: which file operations fail, how much a failed write leaves, the random numbers, and what
      paths resolve to. [LibCurl]: libcurl and the clock. [JsonText]: reading and writing JSON text;
      [JsonTextLaws] states the UTF-8 behaviour of the library where a theorem needs it. [PathMatch]:
      matching a path with a route pattern; [route_error]: which patterns the library refuses;
      [MultipartBoundary]: the random boundary of a reply with several ranges. Opening the database
      ([Initialize], which makes files) and listening (which changes files while it serves) are
      arguments of the start of the server. The files of an open database are not part of the modelled
      file system: their content is the state of the store.
    - Model clients and their transport are functions that may throw. Where a theorem is about success,
      it asks for texts of the values that are written ([update_writable], [has_text]): the library
      throws on text that is not UTF-8.

    ** Loops and bounds

    C++ loops are structural recursions where they go over a container; the others have the fuel their
    bound gives: the length of the string ([pop_slashes]), the binary length of the number ([decimal]),
    the 16 digits of a 64-bit number ([to_hex]), the attempts of a request ([request_loop],
    whose fuel is the loop bound itself). Integers are [Z]: [wrap32] and [wrap64] are written where the code casts; counters of a
    container's size are not wrapped unless the code stores them in an [int].

    ** Not modelled

    Sockets and the pool of request threads of the server (the mutexes make each call of the store or the
    payload service one step; [ConsolidationConcurrency] and [PayloadConcurrency] interleave such steps
    and the cleanup thread), log lines on the standard streams, the help text, memory exhaustion, the
    export macro, and third-party code (SQLite, nlohmann::json, libcurl, and cpp-httplib beyond its
    routing and what listen and stop do to a running server), of which the parameters above are all that
    is used. The C++ tests and the build files are not part of the model. *)

From Stdlib Require Import ZArith Lia.
From stdpp Require Import base list strings gmap sorting.

Declare Scope am_scope.
Delimit Scope am_scope with am.
Open Scope am_scope.

(** ** Effects: state passing with C++ exceptions *)

(** A C++ call either returns or throws; [what] is the text of [e.what()]. *)
Inductive Outcome (A : Type) : Type :=
| Ret (a : A)
| Throw (what : string).

Arguments Ret {A} a.
Arguments Throw {A} what.

(** A stateful call: the state it leaves behind is kept when it throws. *)
Definition M (S A : Type) : Type := S → Outcome A * S.

Definition ret {S A} (a : A) : M S A := λ s, (Ret a, s).

Definition throw {S A} (what : string) : M S A := λ s, (Throw what, s).

Definition bind {S A B} (m : M S A) (k : A → M S B) : M S B := λ s,
  match m s with
  | (Ret a, s') => k a s'
  | (Throw w, s') => (Throw w, s')
  end.

(** [try { m } catch (const std::exception& e) { h(e.what()) }] *)
Definition try_catch {S A} (m : M S A) (h : string → M S A) : M S A := λ s,
  match m s with
  | (Ret a, s') => (Ret a, s')
  | (Throw w, s') => h w s'
  end.

(** A pure call that may throw, used in a stateful one. *)
Definition lift_outcome {S A} (o : Outcome A) : M S A := λ s, (o, s).

Definition obind {A B} (o : Outcome A) (k : A → Outcome B) : Outcome B :=
  match o with
  | Ret a => k a
  | Throw w => Throw w
  end.

Definition omap_outcome {A B} (f : A → B) (o : Outcome A) : Outcome B :=
  match o with
  | Ret a => Ret (f a)
  | Throw w => Throw w
  end.

(** Running a call on a component [T] of a larger state [S]. *)
Definition zoom {S T A} (get : S → T) (put : T → S → S) (m : M T A) : M S A := λ s,
  let '(r, t) := m (get s) in (r, put t s).

Notation "'let*' x ':=' m 'in' k" := (bind m (λ x, k))
  (at level 10, x pattern, m at level 200, k at level 200) : am_scope.

Notation "'let?' x ':=' m 'in' k" := (obind m (λ x, k))
  (at level 10, x pattern, m at level 200, k at level 200) : am_scope.

(** ** Machine integers *)

Definition int_min : Z := - 2 ^ 31.
Definition int_max : Z := 2 ^ 31 - 1.
Definition int64_min : Z := - 2 ^ 63.
Definition int64_max : Z := 2 ^ 63 - 1.

(** [static_cast<int>] and [static_cast<long long>] of a wider integer. *)
Definition wrap32 (z : Z) : Z := (z + 2 ^ 31) mod 2 ^ 32 - 2 ^ 31.
Definition wrap64 (z : Z) : Z := (z + 2 ^ 63) mod 2 ^ 64 - 2 ^ 63.

Definition in_int (z : Z) : Prop := (int_min ≤ z ≤ int_max)%Z.
Definition in_int64 (z : Z) : Prop := (int64_min ≤ z ≤ int64_max)%Z.

#[export] Instance in_int_dec z : Decision (in_int z).
Proof. unfold in_int. apply _. Defined.

#[export] Instance in_int64_dec z : Decision (in_int64 z).
Proof. unfold in_int64. apply _. Defined.

(** ** Sorting: a stable insertion sort by a boolean order *)

Section Sort.
Context {A : Type} (le : A → A → bool).

Fixpoint insert_by (x : A) (l : list A) : list A :=
  match l with
  | [] => [x]
  | y :: l' => if le x y then x :: y :: l' else y :: insert_by x l'
  end.

Definition sort_by (l : list A) : list A := foldr insert_by [] l.
End Sort.

(** The rows of [ORDER BY k DESC] are the reversal of those of a stable sort on the reversed order;
    [desc] turns an order round. *)
Definition desc {A} (le : A → A → bool) (x y : A) : bool := le y x.

(** ** Tactics *)

(** Case analysis on every match and conditional of the goal. *)
Ltac split_cases :=
  repeat match goal with
    | |- context [match ?x with _ => _ end] => destruct x eqn:?; simplify_eq/=
    end.

(** Take apart a hypothesis on a monadic computation one bind at a time. *)
Ltac run_bind H :=
  unfold bind, ret, throw, lift_outcome in H;
  repeat case_match; simplify_eq/=.

Create HintDb am.
Create Rewrite HintDb am.

(** ** Lemmas: integers *)

Lemma wrap32_in_int z : in_int (wrap32 z).
Proof.
  unfold in_int, wrap32, int_min, int_max.
  pose proof (Z.mod_pos_bound (z + 2 ^ 31) (2 ^ 32)). lia.
Qed.

Lemma wrap32_id z : in_int z → wrap32 z = z.
Proof.
  unfold in_int, wrap32, int_min, int_max. intros H.
  rewrite Z.mod_small; lia.
Qed.

Lemma wrap64_in_int64 z : in_int64 (wrap64 z).
Proof.
  unfold in_int64, wrap64, int64_min, int64_max.
  pose proof (Z.mod_pos_bound (z + 2 ^ 63) (2 ^ 64)). lia.
Qed.

Lemma wrap64_id z : in_int64 z → wrap64 z = z.
Proof.
  unfold in_int64, wrap64, int64_min, int64_max. intros H.
  rewrite Z.mod_small; lia.
Qed.

Lemma in_int_in_int64 z : in_int z → in_int64 z.
Proof. unfold in_int, in_int64, int_min, int_max, int64_min, int64_max. lia. Qed.

#[export] Hint Resolve wrap32_in_int wrap64_in_int64 in_int_in_int64 : am.
#[export] Hint Rewrite wrap32_id wrap64_id using (solve [auto with am]) : am.

(** ** Lemmas: sorting *)

Section SortLemmas.
Context {A : Type} (le : A → A → bool).

Lemma insert_by_Permutation x l : insert_by le x l ≡ₚ x :: l.
Proof.
  induction l as [|y l IH]; simpl; [done|].
  destruct (le x y); [done|]. rewrite IH. constructor.
Qed.

Lemma sort_by_Permutation l : sort_by le l ≡ₚ l.
Proof.
  induction l as [|x l IH]; simpl; [done|].
  by rewrite insert_by_Permutation, IH.
Qed.

Lemma elem_of_sort_by x l : x ∈ sort_by le l ↔ x ∈ l.
Proof. by rewrite sort_by_Permutation. Qed.

Lemma length_sort_by l : length (sort_by le l) = length l.
Proof. by rewrite sort_by_Permutation. Qed.

(** The order need only be transitive on the elements of the list. *)
Lemma insert_by_StronglySorted_on (P : A → Prop) x l :
  (∀ a b c, P a → P b → P c → le a b = true → le b c = true → le a c = true) →
  (∀ a b, P a → P b → le a b = true ∨ le b a = true) → P x → Forall P l →
  StronglySorted (λ a b, le a b = true) l →
  StronglySorted (λ a b, le a b = true) (insert_by le x l).
Proof.
  intros Htr Htot Hx HP. induction 1 as [|y l Hl IH Hall]; simpl.
  { repeat constructor. }
  apply Forall_cons in HP as [Hy HP]. destruct (le x y) eqn:E.
  - constructor; [by constructor|]. constructor; [done|].
    rewrite Forall_forall in *. intros z Hz. eapply (Htr x y z); auto.
  - constructor; [by apply IH|]. rewrite insert_by_Permutation.
    constructor; [|done]. destruct (Htot x y); [done|done|congruence|done].
Qed.

Lemma sort_by_StronglySorted_on (P : A → Prop) l :
  (∀ a b c, P a → P b → P c → le a b = true → le b c = true → le a c = true) →
  (∀ a b, P a → P b → le a b = true ∨ le b a = true) → Forall P l →
  StronglySorted (λ a b, le a b = true) (sort_by le l).
Proof.
  intros Htr Htot. induction l as [|x l IH]; simpl; [constructor|]. intros [Hx HP]%Forall_cons.
  apply (insert_by_StronglySorted_on P); [done|done|done| |by apply IH].
  by rewrite sort_by_Permutation.
Qed.

Lemma sort_by_StronglySorted l :
  (∀ a b c, le a b = true → le b c = true → le a c = true) →
  (∀ a b, le a b = true ∨ le b a = true) →
  StronglySorted (λ a b, le a b = true) (sort_by le l).
Proof.
  intros Htr Htot. apply (sort_by_StronglySorted_on (λ _, True)); [eauto|auto|by apply Forall_true].
Qed.

Lemma sort_by_sorted_id l :
  StronglySorted (λ a b, le a b = true) l → sort_by le l = l.
Proof.
  induction 1 as [|x l Hl IH Hall]; simpl; [done|].
  rewrite IH. destruct l as [|y l]; [done|]. simpl.
  inv Hall. by rewrite H1.
Qed.
End SortLemmas.

(** Sorting images is sorting what they are images of. *)
Lemma sort_by_fmap {A B} (f : A → B) (le : B → B → bool) l :
  sort_by le (f <$> l) = f <$> sort_by (λ x y, le (f x) (f y)) l.
Proof.
  assert (∀ x l, insert_by le (f x) (f <$> l) = f <$> insert_by (λ x y, le (f x) (f y)) x l) as Hins.
  { intros x l'. induction l' as [|y l' IH]; [done|]. cbn. destruct (le (f x) (f y)); [done|].
    cbn. by rewrite <- IH. }
  induction l as [|x l IH]; [done|]. rewrite fmap_cons.
  change (insert_by le (f x) (sort_by le (f <$> l)) = f <$> insert_by (λ x y, le (f x) (f y)) x (sort_by (λ x y, le (f x) (f y)) l)).
  by rewrite IH, Hins.
Qed.

(** ** Lemmas: lists *)

Lemma filter_all {A} (P : A → Prop) `{∀ x, Decision (P x)} (l : list A) :
  Forall P l → filter P l = l.
Proof. induction 1; [done|]. rewrite filter_cons_True by done. by f_equal. Qed.

Lemma filter_none {A} (P : A → Prop) `{∀ x, Decision (P x)} (l : list A) :
  Forall (λ x, ¬ P x) l → filter P l = [].
Proof. induction 1; [done|]. by rewrite filter_cons_False. Qed.

Lemma filter_ext_elem {A} (P Q : A → Prop) `{∀ x, Decision (P x)} `{∀ x, Decision (Q x)} (l : list A) :
  (∀ x, x ∈ l → P x ↔ Q x) → filter P l = filter Q l.
Proof.
  induction l as [|x l IH]; intros Hpq; [done|]. rewrite !filter_cons, IH by (intros; apply Hpq; by right).
  specialize (Hpq x ltac:(by left)). repeat case_decide; tauto.
Qed.

Lemma filter_fmap {A B} (f : A → B) (P : B → Prop) `{∀ x, Decision (P x)} (l : list A) :
  filter P (f <$> l) = f <$> filter (λ x, P (f x)) l.
Proof. induction l as [|x l IH]; [done|]. rewrite fmap_cons, !filter_cons, IH. by case_decide. Qed.

Lemma elem_of_take_1 {A} (x : A) n l : x ∈ take n l → x ∈ l.
Proof. intros H. rewrite <- (take_drop n l). set_solver. Qed.

#[export] Hint Resolve elem_of_take_1 : am.

Lemma StronglySorted_take {A} (R : A → A → Prop) n l : StronglySorted R l → StronglySorted R (take n l).
Proof.
  intros Hl. revert n. induction Hl as [|x l Hl IH Hall]; intros [|n]; simpl; [constructor..|].
  constructor; [done|]. by apply Forall_take.
Qed.

Lemma StronglySorted_weaken {A} (R1 R2 : A → A → Prop) l :
  (∀ x y, R1 x y → R2 x y) → StronglySorted R1 l → StronglySorted R2 l.
Proof.
  intros HR. induction 1 as [|x l Hl IH Hall]; constructor; [done|].
  eapply Forall_impl; [exact Hall|]. intros y. apply HR.
Qed.

(** ** Lemmas: the state and exception monad *)

Lemma bind_ret_l {S A B} (a : A) (k : A → M S B) s : bind (ret a) k s = k a s.
Proof. done. Qed.

Lemma bind_Ret_inv {S A B} (m : M S A) (k : A → M S B) s b s' :
  bind m k s = (Ret b, s') → ∃ a s1, m s = (Ret a, s1) ∧ k a s1 = (Ret b, s').
Proof. unfold bind. destruct (m s) as [[a|w] s1]; naive_solver. Qed.

Lemma bind_run {S A B} (m : M S A) (k : A → M S B) s a s1 :
  m s = (Ret a, s1) → bind m k s = k a s1.
Proof. unfold bind. by intros ->. Qed.

Lemma bind_throw {S A B} (m : M S A) (k : A → M S B) s w s1 :
  m s = (Throw w, s1) → bind m k s = (Throw w, s1).
Proof. unfold bind. by intros ->. Qed.
