(* ===== verification/CppString.v ===== *)
(** * C++ strings

    [std::string] as the byte string [string], the parts of the C and C++ string library the
    source calls ([find], [rfind], [substr], [tolower], [stream >> term], [std::to_string],
    [std::stoll], [std::stoi]), all in the "C" locale, and the helpers of
    src/src/utils/string_util.cpp. *)

From Stdlib Require Import ZArith Lia Ascii String.
From stdpp Require Import base list strings gmap.
From S2P Require Import Prelude.

Open Scope am_scope.

(** ** Bytes *)

Definition byte_code (c : ascii) : Z := Z.of_N (N_of_ascii c).

Definition NUL : ascii := "000"%char.

Definition isdigit (c : ascii) : bool := (48 <=? byte_code c)%Z && (byte_code c <=? 57)%Z.

Definition isupper (c : ascii) : bool := (65 <=? byte_code c)%Z && (byte_code c <=? 90)%Z.

Definition islower (c : ascii) : bool := (97 <=? byte_code c)%Z && (byte_code c <=? 122)%Z.

Definition isalnum (c : ascii) : bool := isdigit c || isupper c || islower c.

(** space, \t, \n, \v, \f, \r *)
Definition isspace (c : ascii) : bool :=
  (byte_code c =? 32)%Z || ((9 <=? byte_code c)%Z && (byte_code c <=? 13)%Z).

Definition tolower (c : ascii) : ascii :=
  if isupper c then ascii_of_N (N_of_ascii c + 32) else c.

(** ** Strings *)

Definition is_empty (s : string) : bool :=
  match s with EmptyString => true | String _ _ => false end.

Definition str_size (s : string) : Z := Z.of_nat (String.length s).

Fixpoint str_map (f : ascii → ascii) (s : string) : string :=
  match s with
  | EmptyString => EmptyString
  | String c s' => String (f c) (str_map f s')
  end.

Fixpoint str_forall (p : ascii → bool) (s : string) : bool :=
  match s with
  | EmptyString => true
  | String c s' => p c && str_forall p s'
  end.

Fixpoint str_filter (p : ascii → bool) (s : string) : string :=
  match s with
  | EmptyString => EmptyString
  | String c s' => if p c then String c (str_filter p s') else str_filter p s'
  end.

(** The part of [s] a C function reads through [s.c_str()]: the bytes before the first NUL. *)
Fixpoint c_str (s : string) : string :=
  match s with
  | EmptyString => EmptyString
  | String c s' => if decide (c = NUL) then EmptyString else String c (c_str s')
  end.

Definition nul_free (s : string) : Prop := c_str s = s.

#[export] Instance nul_free_dec s : Decision (nul_free s).
Proof. unfold nul_free. apply _. Defined.

(** [s.find(needle) != npos] *)
Fixpoint str_contains (needle s : string) : bool :=
  String.prefix needle s ||
  match s with
  | EmptyString => false
  | String _ s' => str_contains needle s'
  end.

(** [s.find(c)], [s.rfind(c)] *)
Fixpoint find_char (c : ascii) (s : string) : option nat :=
  match s with
  | EmptyString => None
  | String d s' => if decide (d = c) then Some 0 else S <$> find_char c s'
  end.

Fixpoint rfind_char (c : ascii) (s : string) : option nat :=
  match s with
  | EmptyString => None
  | String d s' =>
      match rfind_char c s' with
      | Some n => Some (S n)
      | None => if decide (d = c) then Some 0 else None
      end
  end.

(** The last byte, and the string without it ([s.back()], [s.pop_back()]). *)
Fixpoint str_back (s : string) : option ascii :=
  match s with
  | EmptyString => None
  | String c EmptyString => Some c
  | String _ s' => str_back s'
  end.

Fixpoint pop_back (s : string) : string :=
  match s with
  | EmptyString => EmptyString
  | String c EmptyString => EmptyString
  | String c s' => String c (pop_back s')
  end.

(** [url.size() >= suffix.size() && url.substr(url.size() - suffix.size()) == suffix] *)
Definition ends_with (suffix s : string) : bool :=
  (String.length suffix <=? String.length s)%nat &&
  bool_decide (substring (String.length s - String.length suffix) (String.length suffix) s = suffix).

(** [std::string::operator<], [memcmp] order on unsigned bytes. *)
Definition str_lt (s1 s2 : string) : bool :=
  match String.compare s1 s2 with Lt => true | _ => false end.

Definition str_le (s1 s2 : string) : bool := negb (str_lt s2 s1).

(** [std::stringstream stream{s}; while (stream >> term)]: the maximal runs of non-space bytes.
    [cur] is the term read so far. *)
Fixpoint split_ws_go (s : string) (cur : string) : list string :=
  match s with
  | EmptyString => if is_empty cur then [] else [cur]
  | String c s' =>
      if isspace c
      then (if is_empty cur then [] else [cur]) ++ split_ws_go s' EmptyString
      else split_ws_go s' (cur +:+ String c EmptyString)
  end.

Definition split_ws (s : string) : list string := split_ws_go s EmptyString.

(** ** Numbers *)

Definition digit_char (d : Z) : ascii := ascii_of_N (Z.to_N (48 + d)).

Definition digit_value (c : ascii) : Z := byte_code c - 48.

Fixpoint dec_go (fuel : nat) (n : Z) (acc : string) : string :=
  match fuel with
  | O => acc
  | S fuel' =>
      let acc' := String (digit_char (n mod 10)) acc in
      if (n <? 10)%Z then acc' else dec_go fuel' (n / 10) acc'
  end.

(** The decimal digits of a natural number; [log2 n + 1] digits are always enough. *)
Definition decimal (n : Z) : string := dec_go (S (Z.to_nat (Z.log2 n))) n EmptyString.

(** [std::to_string] *)
Definition to_string (z : Z) : string :=
  if (z <? 0)%Z then String "-"%char (decimal (- z)) else decimal z.

(** Reads the digits at the front of [s]; [seen] says whether one was read already. *)
Fixpoint read_digits (s : string) (acc : Z) (seen : bool) : option Z :=
  match s with
  | EmptyString => if seen then Some acc else None
  | String c s' =>
      if isdigit c then read_digits s' (10 * acc + digit_value c) true
      else if seen then Some acc else None
  end.

Fixpoint skip_ws (s : string) : string :=
  match s with
  | EmptyString => EmptyString
  | String c s' => if isspace c then skip_ws s' else s
  end.

(** [strtoll(s, &end, 10)] without the range check: [None] when no digit is read. *)
Definition strtol (s : string) : option Z :=
  match skip_ws s with
  | EmptyString => None
  | String c s' =>
      if decide (c = "-"%char) then Z.opp <$> read_digits s' 0 false
      else if decide (c = "+"%char) then read_digits s' 0 false
      else read_digits (String c s') 0 false
  end.

(** [std::stoll], [std::stoi]: [None] where they throw [invalid_argument] or [out_of_range]. *)
Definition stoll (s : string) : option Z :=
  match strtol (c_str s) with
  | Some z => if decide (in_int64 z) then Some z else None
  | None => None
  end.

Definition stoi (s : string) : option Z :=
  match strtol (c_str s) with
  | Some z => if decide (in_int z) then Some z else None
  | None => None
  end.

Definition hex_char (d : Z) : ascii :=
  if (d <? 10)%Z then ascii_of_N (Z.to_N (48 + d)) else ascii_of_N (Z.to_N (87 + d)).

Fixpoint hex_go (fuel : nat) (n : Z) (acc : string) : string :=
  match fuel with
  | O => acc
  | S fuel' =>
      let acc' := String (hex_char (n mod 16)) acc in
      if (n <? 16)%Z then acc' else hex_go fuel' (n / 16) acc'
  end.

(** [stream << std::hex << n] for an [unsigned long long]: at most 16 digits. *)
Definition to_hex (n : Z) : string := hex_go 16 n EmptyString.

(** ** string_util.cpp *)

Definition ToLower (value : string) : string := str_map tolower value.

Definition EqualsIgnoreCase (left right : string) : bool :=
  if negb (String.length left =? String.length right)%nat then false
  else bool_decide (ToLower left = ToLower right).

(** ** Lemmas: append and length *)

Lemma str_app_nil_r s : (s +:+ EmptyString) = s.
Proof. induction s; simpl; [done|]. unfold String.app in *. simpl. by f_equal. Qed.

Lemma str_app_cons c s1 s2 : (String c s1 +:+ s2) = String c (s1 +:+ s2).
Proof. done. Qed.

Lemma str_app_assoc s1 s2 s3 : ((s1 +:+ s2) +:+ s3) = (s1 +:+ s2 +:+ s3).
Proof. induction s1 as [|c s1 IH]; [done|]. by rewrite !str_app_cons, IH. Qed.

Lemma length_str_app s1 s2 :
  String.length (s1 +:+ s2) = (String.length s1 + String.length s2)%nat.
Proof. induction s1 as [|c s1 IH]; [done|]. rewrite str_app_cons. simpl. by rewrite IH. Qed.

(** ** Lemmas: the end of a string *)

Lemma substring_all s : substring 0 (String.length s) s = s.
Proof. induction s as [|c s IH]; [done|]. simpl. by rewrite IH. Qed.

Lemma prefix_substring p s :
  String.prefix p s = true → s = (p +:+ substring (String.length p) (String.length s - String.length p) s).
Proof.
  revert s. induction p as [|c p IH]; intros s Hp.
  - simpl. rewrite Nat.sub_0_r. by rewrite substring_all.
  - destruct s as [|d s]; [done|]. simpl in Hp. destruct (ascii_dec c d) as [->|]; [|done].
    rewrite str_app_cons. simpl. f_equal. by apply IH.
Qed.

Lemma str_back_is_some s : s ≠ "" → str_back s ≠ None.
Proof.
  destruct s as [|c s]; [done|]. intros _. revert c. induction s as [|d s IH]; intros c; [done|]. apply IH.
Qed.

Lemma str_back_app s1 s2 : s2 ≠ "" → str_back (s1 +:+ s2) = str_back s2.
Proof.
  intros Hs. induction s1 as [|c s1 IH]; [done|]. rewrite str_app_cons.
  destruct (s1 +:+ s2) as [|d s] eqn:E; [|by rewrite <- IH].
  destruct s1; [|by rewrite str_app_cons in E]. change (s2 = "") in E. done.
Qed.

Lemma str_back_snoc s c : str_back (s +:+ String c EmptyString) = Some c.
Proof.
  induction s as [|d s IH]; [done|]. rewrite str_app_cons. destruct s as [|x s]; [done|].
  rewrite str_app_cons in *. simpl in *. done.
Qed.

Lemma str_back_cons c s : ∃ p, str_back (String c s) = Some p.
Proof. revert c. induction s as [|d s IH]; intros c; [by eexists|]. apply IH. Qed.

Lemma pop_back_snoc s c : pop_back (s +:+ String c EmptyString) = s.
Proof.
  induction s as [|d s IH]; [done|]. rewrite str_app_cons. destruct s as [|x s]; [done|].
  rewrite str_app_cons in *. simpl in *. by rewrite IH.
Qed.

Lemma substring_suffix s n : (n ≤ String.length s)%nat →
  ∃ p, s = (p +:+ substring (String.length s - n) n s) ∧ String.length p = (String.length s - n)%nat.
Proof.
  induction s as [|c s IH]; intros Hn.
  - exists EmptyString. cbn in Hn. replace n with 0%nat by lia. done.
  - cbn [String.length] in *. destruct (decide (n = S (String.length s))) as [->|Hne].
    + exists EmptyString. rewrite Nat.sub_diag. split; [|done].
      symmetry. apply (substring_all (String c s)).
    + destruct IH as (p & Hp & Hl); [lia|]. exists (String c p).
      replace (S (String.length s) - n)%nat with (S (String.length s - n)) by lia. cbn [substring String.length].
      rewrite str_app_cons, <- Hp, Hl. done.
Qed.

Lemma str_app_inj_length s1 s2 t1 t2 :
  String.length s1 = String.length s2 → (s1 +:+ t1) = (s2 +:+ t2) → s1 = s2 ∧ t1 = t2.
Proof.
  revert s2. induction s1 as [|c s1 IH]; intros [|d s2] Hl He; try done.
  rewrite !str_app_cons in He. injection He as -> He. injection Hl as Hl. by destruct (IH s2 Hl He) as [-> ->].
Qed.

Lemma ends_with_spec t s : ends_with t s = true ↔ ∃ p, s = (p +:+ t).
Proof.
  unfold ends_with. rewrite andb_true_iff, Nat.leb_le, bool_decide_eq_true. split.
  - intros [Hl He]. destruct (substring_suffix s (String.length t) Hl) as (p & Hp & _).
    exists p. by rewrite He in Hp.
  - intros [p ->]. rewrite length_str_app. split; [lia|].
    destruct (substring_suffix (p +:+ t) (String.length t)) as (q & Hq & Hl); rewrite length_str_app in *; [lia|].
    symmetry. apply (str_app_inj_length p q); [lia|done].
Qed.

Lemma length_str_map f s : String.length (str_map f s) = String.length s.
Proof. induction s; simpl; auto. Qed.

Lemma str_map_app f s1 s2 : str_map f (s1 +:+ s2) = (str_map f s1 +:+ str_map f s2).
Proof. induction s1 as [|c s1 IH]; [done|]. rewrite str_app_cons. simpl. by rewrite IH. Qed.

Lemma str_forall_app p s1 s2 :
  str_forall p (s1 +:+ s2) = str_forall p s1 && str_forall p s2.
Proof.
  induction s1 as [|c s1 IH]; [done|]. rewrite str_app_cons. simpl.
  by rewrite IH, andb_assoc.
Qed.

Lemma str_forall_filter p s : str_forall p (str_filter p s) = true.
Proof. induction s; simpl; [done|]. destruct (p a) eqn:E; simpl; [by rewrite E|done]. Qed.

(** ** Lemmas: [c_str] *)

Lemma c_str_idemp s : c_str (c_str s) = c_str s.
Proof.
  induction s as [|c s IH]; simpl; [done|]. destruct (decide (c = NUL)); simpl; [done|].
  rewrite decide_False by done. by rewrite IH.
Qed.

Lemma c_str_nul_free s : nul_free (c_str s).
Proof. apply c_str_idemp. Qed.

Lemma nul_free_app s1 s2 : nul_free s1 → nul_free s2 → nul_free (s1 +:+ s2).
Proof.
  unfold nul_free. induction s1 as [|c s1 IH]; [done|]. rewrite str_app_cons. simpl.
  destruct (decide (c = NUL)); [done|]. intros [= H1] H2. by rewrite IH.
Qed.

#[export] Hint Resolve c_str_nul_free nul_free_app : am.

(** ** Lemmas: numbers *)

Lemma byte_code_of_N n : (n < 256)%N → byte_code (ascii_of_N n) = Z.of_N n.
Proof. intros H. unfold byte_code. by rewrite N_ascii_embedding. Qed.

Lemma digit_char_code d : (0 ≤ d < 10)%Z → byte_code (digit_char d) = (48 + d)%Z.
Proof.
  intros H. unfold digit_char. rewrite byte_code_of_N by lia. lia.
Qed.

Lemma isdigit_digit_char d : (0 ≤ d < 10)%Z → isdigit (digit_char d) = true.
Proof. intros H. unfold isdigit. rewrite digit_char_code by done. lia. Qed.

Lemma digit_value_digit_char d : (0 ≤ d < 10)%Z → digit_value (digit_char d) = d.
Proof. intros H. unfold digit_value. rewrite digit_char_code by done. lia. Qed.

Lemma read_digit d s acc seen :
  (0 ≤ d < 10)%Z → read_digits (String (digit_char d) s) acc seen = read_digits s (10 * acc + d) true.
Proof.
  intros H. simpl. by rewrite isdigit_digit_char, digit_value_digit_char by done.
Qed.

Lemma read_digits_dec_go fuel n acc seen :
  (0 ≤ n < 2 ^ Z.of_nat fuel)%Z → (0 < fuel)%nat →
  read_digits (dec_go fuel n acc) 0 seen = read_digits acc n true.
Proof.
  revert n acc seen. induction fuel as [|fuel IH]; intros n acc seen Hn Hf; [lia|].
  pose proof (Z.mod_pos_bound n 10) as Hm. pose proof (Z.div_mod n 10) as Hd.
  rewrite Nat2Z.inj_succ, Z.pow_succ_r in Hn by lia.
  cbn [dec_go]. destruct (n <? 10)%Z eqn:E.
  - rewrite read_digit by lia. f_equal. rewrite Z.mod_small by lia. lia.
  - destruct fuel as [|fuel]; [simpl in Hn; lia|].
    rewrite IH; [|split; lia|lia].
    rewrite read_digit by lia. f_equal. lia.
Qed.

Lemma decimal_fuel n : (0 ≤ n)%Z → (n < 2 ^ Z.of_nat (S (Z.to_nat (Z.log2 n))))%Z.
Proof.
  intros H. rewrite Nat2Z.inj_succ, Z2Nat.id by apply Z.log2_nonneg.
  destruct (decide (n = 0)%Z) as [->|]; [done|]. apply Z.log2_spec; lia.
Qed.

Lemma read_digits_decimal n : (0 ≤ n)%Z → read_digits (decimal n) 0 false = Some n.
Proof.
  intros H. unfold decimal. rewrite read_digits_dec_go; [done| |lia].
  split; [done|]. apply decimal_fuel. done.
Qed.

(** Every byte of a printed number is a digit. *)
Lemma str_forall_dec_go fuel n acc :
  (0 ≤ n)%Z → str_forall isdigit acc = true → str_forall isdigit (dec_go fuel n acc) = true.
Proof.
  revert n acc. induction fuel as [|fuel IH]; intros n acc Hn Hacc; [done|].
  cbn [dec_go]. assert (str_forall isdigit (String (digit_char (n mod 10)) acc) = true) as H.
  { simpl. rewrite isdigit_digit_char by (apply Z.mod_pos_bound; lia). done. }
  destruct (n <? 10)%Z; [done|]. apply IH; [|done]. by apply Z.div_pos.
Qed.

Lemma str_forall_decimal n : (0 ≤ n)%Z → str_forall isdigit (decimal n) = true.
Proof. intros H. by apply str_forall_dec_go. Qed.

Lemma isdigit_not_sign c : isdigit c = true → isspace c = false ∧ c ≠ "-"%char ∧ c ≠ "+"%char ∧ c ≠ NUL.
Proof.
  intros H. split; [|split; [|split]]; [|intros ->; done|intros ->; done|intros ->; done].
  unfold isdigit, isspace in *. lia.
Qed.

Lemma digits_nul_free s : str_forall isdigit s = true → nul_free s.
Proof.
  unfold nul_free. induction s as [|c s IH]; [done|]. simpl. intros [Hc Hs]%andb_prop.
  apply isdigit_not_sign in Hc as (_ & _ & _ & Hc). rewrite decide_False by done. by rewrite IH.
Qed.

Lemma decimal_head n : (0 ≤ n)%Z → ∃ c s, decimal n = String c s ∧ isdigit c = true.
Proof.
  intros H. pose proof (str_forall_decimal n H) as Hd. pose proof (read_digits_decimal n H) as Hr.
  destruct (decimal n) as [|c s]; [done|]. simpl in Hd. apply andb_prop in Hd as [? _]. eauto.
Qed.

Lemma to_string_nul_free z : nul_free (to_string z).
Proof.
  unfold to_string. destruct (z <? 0)%Z eqn:E.
  - pose proof (digits_nul_free _ (str_forall_decimal (- z) ltac:(lia))) as H.
    unfold nul_free in *. simpl. by rewrite H.
  - apply digits_nul_free, str_forall_decimal. lia.
Qed.

Lemma strtol_to_string z : strtol (to_string z) = Some z.
Proof.
  unfold to_string, strtol. destruct (z <? 0)%Z eqn:E.
  - simpl. rewrite read_digits_decimal by lia. simpl. f_equal. lia.
  - pose proof (read_digits_decimal z ltac:(lia)) as Hr.
    destruct (decimal_head z ltac:(lia)) as (c & s & Heq & Hc). rewrite Heq in *.
    destruct (isdigit_not_sign c Hc) as (Hsp & Hm & Hp & _). simpl. rewrite Hsp.
    by rewrite !decide_False by done.
Qed.

Lemma stoll_to_string z : in_int64 z → stoll (to_string z) = Some z.
Proof.
  intros H. unfold stoll. rewrite to_string_nul_free, strtol_to_string.
  by rewrite decide_True.
Qed.

Lemma stoi_to_string z : in_int z → stoi (to_string z) = Some z.
Proof.
  intros H. unfold stoi. rewrite to_string_nul_free, strtol_to_string.
  by rewrite decide_True.
Qed.

Lemma to_string_inj z1 z2 : to_string z1 = to_string z2 → z1 = z2.
Proof. intros H. apply (f_equal strtol) in H. rewrite !strtol_to_string in H. congruence. Qed.

Lemma to_string_not_empty z : is_empty (to_string z) = false.
Proof.
  unfold to_string. destruct (z <? 0)%Z eqn:E; [done|].
  destruct (decimal_head z ltac:(lia)) as (? & ? & -> & _). done.
Qed.

Lemma stoi_in_int s z : stoi s = Some z → in_int z.
Proof. unfold stoi. destruct (strtol _); [|done]. case_decide; naive_solver. Qed.

#[export] Hint Resolve to_string_nul_free stoi_in_int : am.
#[export] Hint Rewrite stoll_to_string using (solve [auto with am]) : am.

(** ** Lemmas: order on strings *)

Lemma str_compare_refl s : String.compare s s = Eq.
Proof.
  induction s as [|c s IH]; simpl; [done|]. unfold Ascii.compare. by rewrite N.compare_refl.
Qed.

Lemma str_lt_irrefl s : str_lt s s = false.
Proof. unfold str_lt. by rewrite str_compare_refl. Qed.

Lemma ascii_compare_spec c1 c2 :
  Ascii.compare c1 c2 = (byte_code c1 ?= byte_code c2)%Z.
Proof. unfold Ascii.compare, byte_code. by rewrite N2Z.inj_compare. Qed.

Lemma byte_code_inj c1 c2 : byte_code c1 = byte_code c2 → c1 = c2.
Proof.
  unfold byte_code. intros H. apply N2Z.inj in H.
  by rewrite <- (ascii_N_embedding c1), <- (ascii_N_embedding c2), H.
Qed.

Lemma str_lt_trans s1 s2 s3 : str_lt s1 s2 = true → str_lt s2 s3 = true → str_lt s1 s3 = true.
Proof.
  unfold str_lt. revert s2 s3. induction s1 as [|c1 s1 IH]; intros [|c2 s2] [|c3 s3]; simpl; try done.
  rewrite !ascii_compare_spec.
  destruct (Z.compare_spec (byte_code c1) (byte_code c2)) as [H12|H12|H12],
    (Z.compare_spec (byte_code c2) (byte_code c3)) as [H23|H23|H23], 
    (Z.compare_spec (byte_code c1) (byte_code c3)) as [H13|H13|H13]; try done; try lia.
  intros. by apply (IH s2 s3).
Qed.

Lemma str_le_total s1 s2 : str_le s1 s2 = true ∨ str_le s2 s1 = true.
Proof.
  unfold str_le, str_lt. rewrite (String.compare_antisym s2 s1).
  destruct (String.compare s1 s2); simpl; auto.
Qed.

Lemma str_le_antisym s1 s2 : str_le s1 s2 = true → str_le s2 s1 = true → s1 = s2.
Proof.
  unfold str_le, str_lt. rewrite (String.compare_antisym s2 s1).
  destruct (String.compare s1 s2) eqn:E; simpl; try done.
  intros _ _. by apply String.compare_eq_iff.
Qed.

Lemma str_le_lt_eq s1 s2 : str_le s1 s2 = true ↔ str_lt s1 s2 = true ∨ s1 = s2.
Proof.
  unfold str_le, str_lt. rewrite (String.compare_antisym s2 s1).
  destruct (String.compare s1 s2) eqn:E; simpl; split; try naive_solver.
  - intros _. right. by apply String.compare_eq_iff.
  - intros [?| ->]; [done|]. by rewrite str_compare_refl in E.
Qed.

Lemma str_le_trans s1 s2 s3 : str_le s1 s2 = true → str_le s2 s3 = true → str_le s1 s3 = true.
Proof.
  rewrite !str_le_lt_eq. intros [?| ->] [?| ->]; auto. left. by eapply str_lt_trans.
Qed.
