(* ===== verification/Floats.v ===== *)
(** * Floating-point values

    [double] (binary64) and [float] (binary32) as the standard library's [spec_float], with the
    conversions, the arithmetic and the text formatting the source uses. Rounding is to nearest
    even, the mode the program never changes. *)

From Stdlib Require Import ZArith Lia SpecFloat Ascii String.
From stdpp Require Import base list strings.
From S2P Require Import Prelude CppString.

Open Scope am_scope.

Definition f64 := spec_float.
Definition f32 := spec_float.

#[export] Instance spec_float_eq_dec : EqDecision spec_float.
Proof. solve_decision. Defined.

(** ** Conversions *)

Definition round_to (prec emax : Z) (x : spec_float) : spec_float :=
  match x with
  | S754_finite s m e => binary_round prec emax s m e
  | _ => x
  end.

(** [static_cast<float>(double)], [static_cast<double>(float)] and integers to floats. *)
Definition f32_of_f64 (x : f64) : f32 := round_to 24 128 x.
Definition f64_of_f32 (x : f32) : f64 := round_to 53 1024 x.
Definition f64_of_Z (z : Z) : f64 := binary_normalize 53 1024 z 0 false.
Definition f32_of_Z (z : Z) : f32 := binary_normalize 24 128 z 0 false.

(** A decimal literal [n / d], correctly rounded. *)
Definition f64_lit (n d : Z) : f64 := SFdiv 53 1024 (f64_of_Z n) (f64_of_Z d).
Definition f32_lit (n d : Z) : f32 := SFdiv 24 128 (f32_of_Z n) (f32_of_Z d).

(** The values a variable of the type can hold. *)
Definition is_f32 (x : f32) : bool := valid_binary 24 128 x.
Definition is_f64 (x : f64) : bool := valid_binary 53 1024 x.

Definition is_nan (x : spec_float) : bool :=
  match x with S754_nan => true | _ => false end.

(** ** Arithmetic on doubles *)

Definition f64_zero : f64 := S754_zero false.
Definition f64_one : f64 := f64_of_Z 1.
Definition f64_add (x y : f64) : f64 := SFadd 53 1024 x y.
Definition f64_mul (x y : f64) : f64 := SFmul 53 1024 x y.
Definition f64_div (x y : f64) : f64 := SFdiv 53 1024 x y.

Definition f_lt (x y : spec_float) : bool := SFltb x y.
Definition f_le (x y : spec_float) : bool := SFleb x y.
Definition f_eq (x y : spec_float) : bool := SFeqb x y.

(** [std::max(a, b)] is [(a < b) ? b : a]. *)
Definition f64_max (a b : f64) : f64 := if f_lt a b then b else a.

(** ** [stream << x] for a float or a double: the format %g with six digits *)

(** The rational number [num / den] of a finite value. *)
Definition float_ratio (m : positive) (e : Z) : Z * Z :=
  if (0 <=? e)%Z then (Zpos m * 2 ^ e, 1)%Z else (Zpos m, 2 ^ (- e))%Z.

(** [10 ^ k * num / den], rounded half to even. *)
Definition scaled (num den k : Z) : Z :=
  let n := if (0 <=? k)%Z then (num * 10 ^ k)%Z else num in
  let d := if (0 <=? k)%Z then den else (den * 10 ^ (- k))%Z in
  let q := (n / d)%Z in
  let r := (n mod d)%Z in
  if (2 * r <? d)%Z then q
  else if (d <? 2 * r)%Z then (q + 1)%Z
  else if Z.even q then q else (q + 1)%Z.

(** The decimal exponent: the greatest [x] with [10 ^ x * den <= num], from a guess below it. *)
Fixpoint dec_exponent (fuel : nat) (num den x : Z) : Z :=
  match fuel with
  | O => x
  | S fuel' =>
      let ge := if (0 <=? x + 1)%Z then (den * 10 ^ (x + 1) <=? num)%Z
                else (den <=? num * 10 ^ (- (x + 1)))%Z in
      if ge then dec_exponent fuel' num den (x + 1) else x
  end.

Fixpoint strip_zeros (s : string) : string :=
  match s with
  | EmptyString => EmptyString
  | String c s' =>
      let t := strip_zeros s' in
      if is_empty t && bool_decide (c = "0"%char) then EmptyString else String c t
  end.

Fixpoint zeros (n : nat) : string :=
  match n with O => EmptyString | S n' => String "0" (zeros n') end.

Definition with_fraction (int_part frac : string) : string :=
  let f := strip_zeros frac in
  if is_empty f then int_part else int_part +:+ "." +:+ f.

Definition format_finite (m : positive) (e : Z) : string :=
  let '(num, den) := float_ratio m e in
  let guess := ((Zpos (digits2_pos m) + e - 1) * 30103 / 100000 - 1)%Z in
  let x0 := dec_exponent 4 num den guess in
  let d0 := scaled num den (5 - x0) in
  let '(d, x) := if (d0 =? 1000000)%Z then (100000, x0 + 1)%Z else (d0, x0) in
  let ds := decimal d in
  if (-4 <=? x)%Z && (x <? 6)%Z then
    if (0 <=? x)%Z then
      let k := S (Z.to_nat x) in
      with_fraction (substring 0 k ds) (substring k (6 - k) ds)
    else with_fraction "0" (zeros (Z.to_nat (- x - 1)) +:+ ds)
  else
    let ex := decimal (Z.abs x) in
    with_fraction (substring 0 1 ds) (substring 1 5 ds) +:+ "e" +:+
    (if (x <? 0)%Z then "-" else "+") +:+
    (if (Z.abs x <? 10)%Z then "0" +:+ ex else ex).

Definition format_float (x : spec_float) : string :=
  match x with
  | S754_nan => "nan"
  | S754_infinity s => if s then "-inf" else "inf"
  | S754_zero s => if s then "-0" else "0"
  | S754_finite s m e => if s then "-" +:+ format_finite m e else format_finite m e
  end.

(** ** Examples *)

Example format_half : format_float (f32_lit 1 2) = "0.5".
Proof. vm_compute. reflexivity. Qed.

Example format_06 : format_float (f64_of_f32 (f32_lit 6 10)) = "0.6".
Proof. vm_compute. reflexivity. Qed.

Example format_third : format_float (f64_lit 2 3) = "0.666667".
Proof. vm_compute. reflexivity. Qed.

Example format_small : format_float (f64_lit 1 12345678) = "8.1e-08".
Proof. vm_compute. reflexivity. Qed.

Example format_big : format_float (f64_of_Z 123456789) = "1.23457e+08".
Proof. vm_compute. reflexivity. Qed.

Example format_int : format_float (f64_of_Z 100) = "100".
Proof. vm_compute. reflexivity. Qed.

(** ** Lemmas: widening a float and narrowing it again is the identity *)

Lemma iter_pos_Pos_iter {A} (f : A → A) p x : SpecFloat.iter_pos f p x = Pos.iter f x p.
Proof.
  revert x. induction p as [p IH|p IH|]; intros x; simpl; [| |done].
  - by rewrite !IH, !Pos.iter_swap.
  - by rewrite !IH.
Qed.

Lemma digits2_pos_iter_xO m k :
  Zpos (digits2_pos (Pos.iter xO m k)) = (Zpos (digits2_pos m) + Zpos k)%Z.
Proof.
  induction k as [|k IH] using Pos.peano_ind; [simpl; lia|].
  rewrite Pos.iter_succ. simpl. lia.
Qed.

Lemma shr_1_iter_xO m k :
  Pos.iter shr_1 (Build_shr_record (Zpos (Pos.iter xO m k)) false false) k
  = Build_shr_record (Zpos m) false false.
Proof.
  revert m. induction k as [|k IH] using Pos.peano_ind; intros m; [done|].
  rewrite !Pos.iter_succ, <- Pos.iter_swap. simpl. apply IH.
Qed.

(** Rounding a mantissa that is already at its exponent keeps it. *)
Lemma binary_round_aux_exact prec emax s m e k :
  fexp prec emax (Zpos (digits2_pos m) + e) = e →
  (e <= emax - prec)%Z →
  binary_round_aux prec emax s
    (Zpos (match k with Zpos p => Pos.iter xO m p | _ => m end)) (e - Z.max 0 k) loc_Exact
  = S754_finite s m e.
Proof.
  intros Hf He. unfold binary_round_aux, shr_fexp.
  assert (∀ mm : positive, mm = match k with Zpos p => Pos.iter xO m p | _ => m end →
    Zdigits2 (Zpos mm) = (Zpos (digits2_pos m) + Z.max 0 k)%Z) as Hdig.
  { intros mm ->. destruct k; simpl; [lia| |lia]. rewrite digits2_pos_iter_xO. lia. }
  rewrite Hdig by done.
  replace (Zpos (digits2_pos m) + Z.max 0 k + (e - Z.max 0 k))%Z
    with (Zpos (digits2_pos m) + e)%Z by lia.
  rewrite Hf. replace (e - (e - Z.max 0 k))%Z with (Z.max 0 k) by lia.
  assert (shr (shr_record_of_loc (Zpos match k with Zpos p => Pos.iter xO m p | _ => m end) loc_Exact)
    (e - Z.max 0 k) (Z.max 0 k) = (Build_shr_record (Zpos m) false false, e)) as ->.
  { destruct k as [|p|p]; simpl; [by rewrite Z.sub_0_r| |by rewrite Z.sub_0_r].
    unfold shr. simpl. rewrite iter_pos_Pos_iter, shr_1_iter_xO. f_equal. lia. }
  cbn [shr_m loc_of_shr_record round_nearest_even Zdigits2].
  rewrite Hf, Z.sub_diag. cbn [shr shr_m shr_record_of_loc].
  by rewrite (proj2 (Z.leb_le _ _) He).
Qed.

Lemma binary_round_exact prec emax s m e :
  (fexp prec emax (Zpos (digits2_pos m) + e) <= e)%Z →
  (e <= emax - prec)%Z →
  ∃ m' e', binary_round prec emax s m e = S754_finite s m' e' ∧
    (e' <= e)%Z ∧ m' = match (e - e')%Z with Zpos p => Pos.iter xO m p | _ => m end.
Proof.
  intros Hle He. set (e' := fexp prec emax (Zpos (digits2_pos m) + e)) in *.
  unfold binary_round. fold e'. unfold shl_align.
  destruct (e' - e)%Z as [|p|p] eqn:Ed; [|lia|].
  - exists m, e. rewrite Z.sub_diag. split; [|done].
    rewrite <- (binary_round_aux_exact prec emax s m e 0); [|fold e'; lia|done].
    by rewrite Z.max_id, Z.sub_0_r.
  - exists (Pos.iter xO m p), e'. replace (e - e')%Z with (Zpos p) by lia. split; [|done].
    rewrite <- (binary_round_aux_exact prec emax s (Pos.iter xO m p) e' 0); [|  |lia].
    + by rewrite Z.max_id, Z.sub_0_r.
    + rewrite digits2_pos_iter_xO. unfold e'. f_equal. fold e'. lia.
Qed.

Lemma f32_f64_f32 x : is_f32 x = true → f32_of_f64 (f64_of_f32 x) = x.
Proof.
  unfold is_f32, f32_of_f64, f64_of_f32. destruct x as [?|?| |s m e]; [done..|].
  simpl. unfold bounded, canonical_mantissa. intros [Hc He]%andb_prop.
  apply Z.eqb_eq in Hc. apply Z.leb_le in He.
  destruct (binary_round_exact 53 1024 s m e) as (m' & e' & -> & Hle & Hm').
  { unfold fexp, emin in *. lia. }
  { lia. }
  simpl. unfold binary_round, shl_align.
  assert (Zpos (digits2_pos m') + e' = Zpos (digits2_pos m) + e)%Z as Hd.
  { rewrite Hm'. destruct (e - e')%Z as [|p|p] eqn:E; [|rewrite digits2_pos_iter_xO|]; lia. }
  rewrite Hd, Hc. destruct (e - e')%Z as [|p|p] eqn:E; [| |lia].
  - subst m'. rewrite <- (binary_round_aux_exact 24 128 s m e 0); [|done|lia].
    f_equal; lia.
  - rewrite Hm'. rewrite <- (binary_round_aux_exact 24 128 s m e (Zpos p)); [|done|lia].
    f_equal; lia.
Qed.

(** ** Lemmas: the order on floats *)

Definition f_not_nan (x : spec_float) : Prop := is_nan x = false.

Definition f_finite (x : spec_float) : bool :=
  match x with S754_nan | S754_infinity _ => false | _ => true end.

Lemma f_lt_irrefl x : f_lt x x = false.
Proof.
  unfold f_lt, SFltb. destruct x as [[]|[]| |[] m e]; simpl; try done;
    rewrite Z.compare_refl; change (Pos.compare_cont Eq m m) with (m ?= m)%positive;
    by rewrite Pos.compare_refl.
Qed.

(** A key that orders the non-NaN values lexicographically: class and sign, exponent, mantissa. *)
Definition f_key (x : spec_float) : Z * (Z * Z) :=
  match x with
  | S754_nan => (0, (0, 0))%Z
  | S754_infinity true => (-2, (0, 0))%Z
  | S754_infinity false => (2, (0, 0))%Z
  | S754_zero _ => (0, (0, 0))%Z
  | S754_finite false m e => (1, (e, Zpos m))%Z
  | S754_finite true m e => (-1, (- e, - Zpos m))%Z
  end.

Definition key_lt (a b : Z * (Z * Z)) : Prop :=
  (a.1 < b.1 ∨ a.1 = b.1 ∧ (a.2.1 < b.2.1 ∨ a.2.1 = b.2.1 ∧ a.2.2 < b.2.2))%Z.

Lemma SFcompare_key x y :
  f_not_nan x → f_not_nan y →
  match SFcompare x y with
  | Some Lt => key_lt (f_key x) (f_key y)
  | Some Gt => key_lt (f_key y) (f_key x)
  | Some Eq => f_key x = f_key y
  | None => False
  end.
Proof.
  unfold f_not_nan, key_lt.
  destruct x as [[]|[]| |[] m1 e1], y as [[]|[]| |[] m2 e2]; simpl; try done; try lia;
    intros _ _; destruct (Z.compare_spec e1 e2); simpl; try lia;
    change (Pos.compare_cont Eq m1 m2) with (m1 ?= m2)%positive;
    destruct (Pos.compare_spec m1 m2); simpl; subst; try done; lia.
Qed.

Lemma f_lt_key x y : f_not_nan x → f_not_nan y → f_lt x y = true ↔ key_lt (f_key x) (f_key y).
Proof.
  intros Hx Hy. pose proof (SFcompare_key x y Hx Hy) as H. unfold f_lt, SFltb.
  destruct (SFcompare x y) as [[]|]; [| | |done]; unfold key_lt in *.
  - rewrite H. split; [done|lia].
  - tauto.
  - split; [done|lia].
Qed.

Lemma f_eq_key x y : f_not_nan x → f_not_nan y → f_eq x y = true ↔ f_key x = f_key y.
Proof.
  intros Hx Hy. pose proof (SFcompare_key x y Hx Hy) as H. unfold f_eq, SFeqb.
  destruct (SFcompare x y) as [[]|]; [by split| | |done]; unfold key_lt in *;
    (split; [done|]); intros Heq; rewrite Heq in H; lia.
Qed.

Lemma f_le_not_lt x y : f_not_nan x → f_not_nan y → f_le x y = negb (f_lt y x).
Proof.
  intros Hx Hy. destruct (f_lt y x) eqn:E; simpl.
  - apply f_lt_key in E; [|done|done]. pose proof (SFcompare_key x y Hx Hy) as H. unfold f_le, SFleb.
    destruct (SFcompare x y) as [[]|]; [|  |done|done]; unfold key_lt in *; [rewrite H in E|]; lia.
  - apply not_true_iff_false in E. rewrite f_lt_key in E by done. pose proof (SFcompare_key x y Hx Hy) as H.
    unfold f_le, SFleb. by destruct (SFcompare x y) as [[]|].
Qed.

(** The tests [t < lo] and [t > hi] both fail for the numbers from [lo] to [hi], and for NaN. *)
Lemma f_range_tests lo hi t :
  f_not_nan lo → f_not_nan hi →
  f_lt t lo = false ∧ f_lt hi t = false ↔ (f_le lo t = true ∧ f_le t hi = true) ∨ is_nan t = true.
Proof.
  intros Hlo Hhi. destruct (is_nan t) eqn:Hn.
  { destruct t; try done. by destruct lo as [[]|[]| |[] ? ?], hi as [[]|[]| |[] ? ?]; split; auto. }
  rewrite !f_le_not_lt, !negb_true_iff by done. naive_solver.
Qed.

(** ** Lemmas: results that are numbers *)

Section NotNan.
Context (prec emax : Z).

Lemma shr_1_nonneg r : (0 ≤ shr_m r)%Z → (0 ≤ shr_m (shr_1 r))%Z.
Proof. destruct r as [[|[p|p|]|p] ? ?]; simpl; lia. Qed.

Lemma shr_nonneg r e n : (0 ≤ shr_m r)%Z → (0 ≤ shr_m (shr r e n).1)%Z.
Proof.
  intros Hr. destruct n as [|p|p]; simpl; [done| |done]. rewrite iter_pos_Pos_iter.
  induction p as [|p IH] using Pos.peano_ind; simpl; [by apply shr_1_nonneg|].
  rewrite Pos.iter_succ. by apply shr_1_nonneg.
Qed.

Lemma shr_fexp_nonneg m e l : (0 ≤ m)%Z → (0 ≤ shr_m (shr_fexp prec emax m e l).1)%Z.
Proof.
  intros Hm. unfold shr_fexp. apply shr_nonneg. by destruct l as [|[]].
Qed.

Lemma round_nearest_even_nonneg m l : (0 ≤ m)%Z → (0 ≤ round_nearest_even m l)%Z.
Proof. intros Hm. destruct l as [|[]]; simpl; [lia| |lia|lia]. destruct (Z.even m); lia. Qed.

Lemma binary_round_aux_not_nan s m e l : (0 ≤ m)%Z → f_not_nan (binary_round_aux prec emax s m e l).
Proof.
  intros Hm. unfold binary_round_aux. pose proof (shr_fexp_nonneg m e l Hm) as H1.
  destruct (shr_fexp prec emax m e l) as [r1 e1]. simpl in H1.
  pose proof (shr_fexp_nonneg (round_nearest_even (shr_m r1) (loc_of_shr_record r1)) e1 loc_Exact
    (round_nearest_even_nonneg _ _ H1)) as H2.
  destruct (shr_fexp prec emax _ e1 loc_Exact) as [r2 e2]. simpl in H2.
  destruct (shr_m r2) as [|p|p]; [done| |lia]. by case_match.
Qed.

Lemma binary_round_not_nan s m e : f_not_nan (binary_round prec emax s m e).
Proof.
  unfold binary_round. destruct (shl_align _ _ _) as [m' e']. by apply binary_round_aux_not_nan.
Qed.

Lemma binary_normalize_not_nan z e s : f_not_nan (binary_normalize prec emax z e s).
Proof. destruct z; simpl; [done|apply binary_round_not_nan..]. Qed.

Lemma round_to_not_nan x : f_not_nan x → f_not_nan (round_to prec emax x).
Proof. destruct x; simpl; [done|done|done|]. intros _. apply binary_round_not_nan. Qed.

(** The sum with a finite number, the product with a finite number that is not zero, and the quotient of
    a finite number that is not zero. *)
Lemma SFadd_finite_not_nan x s m e : f_not_nan x → f_not_nan (SFadd prec emax x (S754_finite s m e)).
Proof. destruct x; simpl; [done|done|done|]. intros _. apply binary_normalize_not_nan. Qed.

Lemma SFmul_finite_not_nan x s m e : f_not_nan x → f_not_nan (SFmul prec emax x (S754_finite s m e)).
Proof. destruct x; simpl; [done|done|done|]. intros _. by apply binary_round_aux_not_nan. Qed.

Lemma SFdiv_finite_not_nan s m e y : f_not_nan y → f_not_nan (SFdiv prec emax (S754_finite s m e) y).
Proof.
  destruct y as [?|?| |s' m' e']; simpl; [done|done|done|]. intros _.
  destruct (SFdiv_core_binary _ _ _ _ _ _) as [[q e''] l] eqn:E. apply binary_round_aux_not_nan.
  unfold SFdiv_core_binary in E.
  match type of E with context [Z.div_eucl ?a ?b] =>
    assert (0 ≤ a)%Z as Ha; [|pose proof (Z_div_mod a b) as Hdm; destruct (Z.div_eucl a b) as [q0 r0] eqn:Eq] end.
  { repeat case_match; try apply Z.shiftl_nonneg; lia. }
  injection E as <- _ _. specialize (Hdm ltac:(lia)). nia.
Qed.
End NotNan.
