(* ===== verification/Json.v ===== *)
(** * JSON values and src/src/serialization/json_helpers.h

    [json] is the value type of nlohmann::json as the source uses it: the three kinds of number it
    tells apart, and objects kept in the order of their keys ([std::map]). Its text form ([parse],
    [dump]) belongs to the library and is the interface [JsonText]. *)

From Stdlib Require Import ZArith Lia Ascii String SpecFloat.
From stdpp Require Import base list strings gmap.
From S2P Require Import Prelude CppString Floats.

Open Scope am_scope.

(** ** Values *)

Inductive json : Type :=
| JNull
| JBool (b : bool)
| JInteger (z : Z)
| JUnsigned (n : Z)
| JFloat (x : f64)
| JString (s : string)
| JArray (l : list json)
| JObject (m : list (string * json)).

(** [parse(text)] and [dump()]; [parse] throws on text that is not JSON, [dump] on a string that is
    not UTF-8. *)
Class JsonText : Type := {
  json_parse : string → Outcome json;
  json_dump : json → Outcome string
}.

(** [parse(text, nullptr, false)]: no exception, a discarded value instead ([None]). *)
Definition json_parse_noexcept `{JsonText} (text : string) : option json :=
  match json_parse text with Ret j => Some j | Throw _ => None end.

Definition is_object (j : json) : bool := match j with JObject _ => true | _ => false end.
Definition is_array (j : json) : bool := match j with JArray _ => true | _ => false end.
Definition is_string (j : json) : bool := match j with JString _ => true | _ => false end.
Definition is_boolean (j : json) : bool := match j with JBool _ => true | _ => false end.
Definition is_null (j : json) : bool := match j with JNull => true | _ => false end.
Definition is_number_integer (j : json) : bool :=
  match j with JInteger _ | JUnsigned _ => true | _ => false end.
Definition is_number_unsigned (j : json) : bool := match j with JUnsigned _ => true | _ => false end.
Definition is_number (j : json) : bool :=
  match j with JInteger _ | JUnsigned _ | JFloat _ => true | _ => false end.

Definition type_name (j : json) : string :=
  match j with
  | JNull => "null"
  | JBool _ => "boolean"
  | JInteger _ | JUnsigned _ | JFloat _ => "number"
  | JString _ => "string"
  | JArray _ => "array"
  | JObject _ => "object"
  end.

(** ** Objects *)

Fixpoint obj_lookup (key : string) (m : list (string * json)) : option json :=
  match m with
  | [] => None
  | (k, v) :: m' => if decide (k = key) then Some v else obj_lookup key m'
  end.

(** [m[key] = v] in a [std::map]. *)
Fixpoint obj_set (key : string) (v : json) (m : list (string * json)) : list (string * json) :=
  match m with
  | [] => [(key, v)]
  | (k, w) :: m' =>
      match String.compare key k with
      | Lt => (key, v) :: (k, w) :: m'
      | Eq => (key, v) :: m'
      | Gt => (k, w) :: obj_set key v m'
      end
  end.

(** An initializer list of pairs: the first value given to a key stays. *)
Definition mk_object (l : list (string * json)) : json :=
  JObject (foldl (λ m '(k, v), match obj_lookup k m with
                               | Some _ => m
                               | None => obj_set k v m
                               end) [] l).

Definition json_object : json := JObject [].

Definition json_contains (j : json) (key : string) : bool :=
  match j with
  | JObject m => match obj_lookup key m with Some _ => true | None => false end
  | _ => false
  end.

(** [j[key]] of an object that contains [key]. *)
Definition json_at (j : json) (key : string) : json :=
  match j with
  | JObject m => default JNull (obj_lookup key m)
  | _ => JNull
  end.

(** [j[key] = v] on an object. *)
Definition json_set (j : json) (key : string) (v : json) : json :=
  match j with
  | JObject m => JObject (obj_set key v m)
  | _ => j
  end.

(** [j.empty()] *)
Definition json_empty (j : json) : bool :=
  match j with
  | JNull => true
  | JArray l => match l with [] => true | _ => false end
  | JObject m => match m with [] => true | _ => false end
  | _ => false
  end.

(** ** [get<T>()] *)

(** [get<long long>()] of a number: the bits of an unsigned number are kept. *)
Definition get_ll (j : json) : Z :=
  match j with
  | JInteger z => z
  | JUnsigned n => wrap64 n
  | _ => 0
  end.

Definition get_f64 (j : json) : f64 :=
  match j with
  | JInteger z => f64_of_Z z
  | JUnsigned n => f64_of_Z n
  | JFloat x => x
  | _ => f64_zero
  end.

Definition get_f32 (j : json) : f32 :=
  match j with
  | JInteger z => f32_of_Z z
  | JUnsigned n => f32_of_Z n
  | JFloat x => f32_of_f64 x
  | _ => S754_zero false
  end.

Definition get_string (j : json) : Outcome string :=
  match j with
  | JString s => Ret s
  | _ => Throw ("[json.exception.type_error.302] type must be string, but is " +:+ type_name j)
  end.

(** [j.value(key, fallback)] with a string, or a json, as the fallback. *)
Definition json_value_string (j : json) (key fallback : string) : Outcome string :=
  match j with
  | JObject m =>
      match obj_lookup key m with
      | Some v => get_string v
      | None => Ret fallback
      end
  | _ => Throw ("[json.exception.type_error.306] cannot use value() with " +:+ type_name j)
  end.

Definition json_value_json (j : json) (key : string) (fallback : json) : Outcome json :=
  match j with
  | JObject m => Ret (default fallback (obj_lookup key m))
  | _ => Throw ("[json.exception.type_error.306] cannot use value() with " +:+ type_name j)
  end.

(** ** json_helpers.h *)

Definition JsonFieldValue (j : json) (key : string) : json :=
  if negb (is_object j) || negb (json_contains j key) then JNull else json_at j key.

Definition JsonString (j : json) (key fallback : string) : string :=
  if negb (is_object j) || negb (json_contains j key) || negb (is_string (json_at j key))
  then fallback
  else match json_at j key with JString s => s | _ => fallback end.

Definition JsonInt (j : json) (key : string) (fallback : Z) : Z :=
  if negb (is_object j) || negb (json_contains j key) then fallback
  else
    let value := json_at j key in
    if is_number_integer value && bool_decide (in_int (get_ll value)) then get_ll value
    else
      match value with
      | JUnsigned n => if (n <=? int_max)%Z then n else fallback
      | _ => fallback
      end.

Definition JsonFloat (j : json) (key : string) (fallback : f32) : f32 :=
  if negb (is_object j) || negb (json_contains j key) || negb (is_number (json_at j key))
  then fallback
  else get_f32 (json_at j key).

Definition JsonDouble (j : json) (key : string) (fallback : f64) : f64 :=
  if negb (is_object j) || negb (json_contains j key) || negb (is_number (json_at j key))
  then fallback
  else get_f64 (json_at j key).

Definition JsonBool (j : json) (key : string) (fallback : bool) : bool :=
  if negb (is_object j) || negb (json_contains j key) || negb (is_boolean (json_at j key))
  then fallback
  else match json_at j key with JBool b => b | _ => fallback end.

Definition JsonStringMap (j : json) (key : string) : gmap string string :=
  match json_at j key with
  | JObject m =>
      foldl (λ values '(k, v), match v with JString s => <[k:=s]> values | _ => values end) ∅ m
  | _ => ∅
  end.

Definition HasInvalidString (j : json) (key : string) : bool :=
  is_object j && json_contains j key && negb (is_string (json_at j key)).

Definition HasInvalidInteger (j : json) (key : string) : bool :=
  is_object j && json_contains j key && negb (is_number_integer (json_at j key)).

Definition HasInvalidNumber (j : json) (key : string) : bool :=
  is_object j && json_contains j key && negb (is_number (json_at j key)).

Definition HasInvalidObject (j : json) (key : string) : bool :=
  is_object j && json_contains j key && negb (is_object (json_at j key)).

Definition JsonObject (value : json) : json := if is_object value then value else json_object.

Definition string_items (l : list json) : list string :=
  omap (λ j, match j with JString s => Some s | _ => None end) l.

Definition StringVectorFromJson (j : json) : list string :=
  match j with
  | JArray l => string_items l
  | _ => []
  end.

Definition MetadataString (metadata : json) (key fallback : string) : string :=
  JsonString metadata key fallback.

Definition MetadataInt (metadata : json) (key : string) (fallback : Z) : Z :=
  let result := JsonInt metadata key fallback in
  if negb (result =? fallback)%Z then result
  else if negb (is_object metadata) || negb (json_contains metadata key) then fallback
  else
    match json_at metadata key with
    | JString s => default fallback (stoi s)
    | _ => fallback
    end.

(** [std::vector<std::string>] to a JSON array. *)
Definition strings_to_json (l : list string) : json := JArray (JString <$> l).

(** ** Lemmas *)

Lemma obj_lookup_set_eq k v m : obj_lookup k (obj_set k v m) = Some v.
Proof.
  induction m as [|[k' w] m IH]; simpl; [by rewrite decide_True|].
  destruct (String.compare k k') eqn:E; simpl; [by rewrite decide_True|by rewrite decide_True|].
  rewrite decide_False; [done|]. intros ->. by rewrite str_compare_refl in E.
Qed.

Lemma obj_lookup_set_ne k k' v m : k ≠ k' → obj_lookup k' (obj_set k v m) = obj_lookup k' m.
Proof.
  intros Hne. induction m as [|[k1 w] m IH]; simpl; [by rewrite decide_False|].
  destruct (String.compare k k1) eqn:E; simpl.
  - apply String.compare_eq_iff in E as ->. by rewrite !decide_False.
  - by rewrite (decide_False (P := k = k')).
  - by rewrite IH.
Qed.

Lemma json_at_absent j k : json_contains j k = false → json_at j k = JNull.
Proof. destruct j as [| | | | | | |m]; try done. simpl. by destruct (obj_lookup k m). Qed.

Lemma string_items_strings (l : list string) : string_items (JString <$> l) = l.
Proof. induction l as [|s l IH]; [done|]. simpl. f_equal. apply IH. Qed.

Lemma StringVectorFromJson_strings l : StringVectorFromJson (strings_to_json l) = l.
Proof. apply string_items_strings. Qed.

Lemma JsonObject_is_object j : is_object (JsonObject j) = true.
Proof. unfold JsonObject. by destruct (is_object j) eqn:E. Qed.

Lemma JsonObject_id j : is_object j = true → JsonObject j = j.
Proof. unfold JsonObject. by intros ->. Qed.

(** An unsigned number of nlohmann::json is not negative, a signed one is a 64-bit one. *)
Definition number_wf (j : json) : Prop :=
  match j with
  | JUnsigned n => (0 ≤ n < 2 ^ 64)%Z
  | JInteger z => in_int64 z
  | _ => True
  end.

Lemma JsonInt_in_int j key fallback :
  number_wf (json_at j key) → in_int fallback → in_int (JsonInt j key fallback).
Proof.
  intros Hwf Hf. unfold JsonInt.
  destruct (negb (is_object j) || negb (json_contains j key)); [done|].
  destruct (is_number_integer (json_at j key) && bool_decide (in_int (get_ll (json_at j key)))) eqn:E.
  - apply andb_prop in E as [_ E]. by apply bool_decide_eq_true in E.
  - destruct (json_at j key) as [| | |n| | | |]; try done.
    destruct (n <=? int_max)%Z eqn:El; [|done].
    apply Z.leb_le in El. simpl in Hwf. unfold in_int, int_min, int_max in *. lia.
Qed.
