(* ===== verification/Types.v ===== *)
(** * The public structures (src/include/agent_memory/*.h and src/src/storage/store.h)

    One Record per struct, one Inductive per enum, with the field order of the headers; the fields
    of a struct carry its name as a prefix. [default_*] is the value of a default-constructed
    struct. Floats are IEEE values of the field's own width, an [unordered_map] is a [gmap]. *)

From Stdlib Require Import ZArith Ascii String.
From stdpp Require Import base list strings gmap.
From S2P Require Import Prelude CppString Floats Json.

Open Scope am_scope.

(** ** error.h *)

Record MemoryError := mkError {
  error_code : string;
  error_message : string;
  error_details : string;
  error_retryable : bool
}.

Definition no_error : MemoryError := mkError "" "" "" false.

Definition HasError (e : MemoryError) : bool := negb (is_empty (error_code e)).

Definition Empty (e : MemoryError) : bool := is_empty (error_code e).

Record MemoryOperationResult := mkOp {
  op_succeeded : bool;
  op_error : MemoryError
}.

Definition MemorySuccess : MemoryOperationResult := mkOp true no_error.

Definition MemoryFailure (code message details : string) (retryable : bool) : MemoryOperationResult :=
  mkOp false (mkError code message details retryable).

(** ** event.h *)

Inductive MemoryEventType :=
| SESSION_STARTED
| SESSION_ENDED
| MESSAGE_APPENDED
| TOOL_CALL_STARTED
| TOOL_CALL_FINISHED
| PAYLOAD_OFFLOADED
| CONSOLIDATION_REQUESTED
| CONSOLIDATION_COMPLETED.

#[export] Instance MemoryEventType_eq_dec : EqDecision MemoryEventType.
Proof. solve_decision. Defined.

(** [static_cast<int>(type)] *)
Definition event_type_to_int (t : MemoryEventType) : Z :=
  match t with
  | SESSION_STARTED => 0
  | SESSION_ENDED => 1
  | MESSAGE_APPENDED => 2
  | TOOL_CALL_STARTED => 3
  | TOOL_CALL_FINISHED => 4
  | PAYLOAD_OFFLOADED => 5
  | CONSOLIDATION_REQUESTED => 6
  | CONSOLIDATION_COMPLETED => 7
  end.

(** [static_cast<MemoryEventType>(value)] of a value of the enum, [None] of any other integer. *)
Definition event_type_of_int (z : Z) : option MemoryEventType :=
  match z with
  | 0%Z => Some SESSION_STARTED
  | 1%Z => Some SESSION_ENDED
  | 2%Z => Some MESSAGE_APPENDED
  | 3%Z => Some TOOL_CALL_STARTED
  | 4%Z => Some TOOL_CALL_FINISHED
  | 5%Z => Some PAYLOAD_OFFLOADED
  | 6%Z => Some CONSOLIDATION_REQUESTED
  | 7%Z => Some CONSOLIDATION_COMPLETED
  | _ => None
  end.

Record MemoryEvent := mkEvent {
  event_type : MemoryEventType;
  event_agentId : string;
  event_sessionId : string;
  event_role : string;
  event_content : string;
  event_toolCallId : string;
  event_toolName : string;
  event_payloadRef : string;
  event_storeCursor : string;
  event_metadata : json;
  event_timestamp : string
}.

(** ** payload.h *)

Record MemoryPayloadRef := mkPayloadRef {
  payload_agentId : string;
  payload_sessionId : string;
  payload_uri : string;
  payload_contentType : string;
  payload_summary : string;
  payload_toolName : string;
  payload_originalChars : Z;
  payload_metadata : json;
  payload_createdAt : string
}.

Definition default_PayloadRef : MemoryPayloadRef :=
  mkPayloadRef "" "" "" "" "" "" 0 json_object "".

Record MemoryPayloadWriteRequest := mkPayloadWriteRequest {
  pwrite_agentId : string;
  pwrite_sessionId : string;
  pwrite_content : string;
  pwrite_contentType : string;
  pwrite_toolCallId : string;
  pwrite_toolName : string;
  pwrite_metadata : json
}.

Record MemoryPayloadWriteResult := mkPayloadWriteResult {
  pwres_succeeded : bool;
  pwres_offloaded : bool;
  pwres_payload : MemoryPayloadRef;
  pwres_replacementContent : string;
  pwres_error : MemoryError
}.

Record MemoryPayloadReadResult := mkPayloadReadResult {
  pread_succeeded : bool;
  pread_content : string;
  pread_error : MemoryError
}.

(** ** long_term_memory.h *)

Record MemoryEntity := mkEntity {
  entity_id : string;
  entity_agentId : string;
  entity_entityType : string;
  entity_name : string;
  entity_summary : string;
  entity_confidence : f32;
  entity_isActive : bool;
  entity_supersededByEntityId : string;
  entity_supersededEntityId : string;
  entity_sourceRefs : list string;
  entity_metadata : json;
  entity_createdAt : string;
  entity_updatedAt : string
}.

Record MemoryRelation := mkRelation {
  relation_id : string;
  relation_agentId : string;
  relation_fromEntityId : string;
  relation_relationType : string;
  relation_toEntityId : string;
  relation_confidence : f32;
  relation_sourceRefs : list string;
  relation_metadata : json;
  relation_createdAt : string;
  relation_updatedAt : string
}.

Record MemoryConsolidationRequest := mkConsolidationRequest {
  creq_agentId : string;
  creq_sessionId : string;
  creq_maxEvents : Z;
  creq_forceReprocess : bool;
  creq_excludedSessionIds : list string;
  creq_metadata : json
}.

Record MemoryConsolidationResult := mkConsolidationResult {
  cres_succeeded : bool;
  cres_fallbackUsed : bool;
  cres_processedEvents : Z;
  cres_savedSummaries : Z;
  cres_savedEntities : Z;
  cres_savedRelations : Z;
  cres_nextCursor : string;
  cres_sessionId : string;
  cres_error : MemoryError
}.

Definition default_ConsolidationResult : MemoryConsolidationResult :=
  mkConsolidationResult false false 0 0 0 0 "" "" no_error.

(** ** context.h *)

Record MemoryMessage := mkMessage {
  message_role : string;
  message_content : string;
  message_toolCallId : string;
  message_toolName : string;
  message_payloadRef : string
}.

Record MemoryContextRequest := mkContextRequest {
  ctxreq_agentId : string;
  ctxreq_sessionId : string;
  ctxreq_query : string;
  ctxreq_tokenBudget : Z;
  ctxreq_includeSections : list string;
  ctxreq_metadata : json
}.

Record MemoryContextPackage := mkContextPackage {
  ctx_messages : list MemoryMessage;
  ctx_memoryText : string;
  ctx_entities : list MemoryEntity;
  ctx_relations : list MemoryRelation;
  ctx_payloadRefs : list MemoryPayloadRef;
  ctx_citations : list string;
  ctx_metadata : json
}.

Definition default_ContextPackage : MemoryContextPackage :=
  mkContextPackage [] "" [] [] [] [] json_object.

Record MemoryContextResult := mkContextResult {
  ctxres_succeeded : bool;
  ctxres_context : MemoryContextPackage;
  ctxres_error : MemoryError
}.

(** ** search.h *)

Record MemorySearchHit := mkHit {
  hit_id : string;
  hit_type : string;
  hit_content : string;
  hit_score : f32;
  hit_sourceRefs : list string;
  hit_metadata : json
}.

Record MemorySearchRequest := mkSearchRequest {
  sreq_agentId : string;
  sreq_sessionId : string;
  sreq_query : string;
  sreq_limit : Z;
  sreq_includeSections : list string;
  sreq_metadata : json
}.

Record MemorySearchResult := mkSearchResult {
  sres_succeeded : bool;
  sres_hits : list MemorySearchHit;
  sres_error : MemoryError
}.

(** ** stats.h *)

Record MemoryStats := mkStats {
  stats_events : Z;
  stats_payloads : Z;
  stats_summaries : Z;
  stats_entities : Z;
  stats_relations : Z;
  stats_metadata : json
}.

Definition default_Stats : MemoryStats := mkStats 0 0 0 0 0 json_object.

Record MemoryStatsResult := mkStatsResult {
  statsres_succeeded : bool;
  statsres_stats : MemoryStats;
  statsres_error : MemoryError
}.

(** ** config.h *)

Record MemoryModelConfig := mkModelConfig {
  model_enabled : bool;
  model_formatType : string;
  model_baseUrl : string;
  model_apiKey : string;
  model_modelName : string;
  model_organization : string;
  model_anthropicVersion : string;
  model_timeoutSeconds : Z;
  model_temperature : f64;
  model_maxTokens : Z;
  model_headers : gmap string string;
  model_extraParams : json
}.

Definition default_ModelConfig : MemoryModelConfig :=
  mkModelConfig false "openai" "" "" "" "" "2023-06-01" 60 f64_zero 0 ∅ json_object.

Record MemoryConfig := mkConfig {
  config_dataPath : string;
  config_tokenBudget : Z;
  config_offloadThresholdChars : Z;
  config_enablePayloadOffload : bool;
  config_model : MemoryModelConfig
}.

Definition default_Config : MemoryConfig := mkConfig "" 4096 8000 true default_ModelConfig.

(** ** model_client.h *)

Record ModelInvokeResult := mkInvoke {
  invoke_text : string;
  invoke_httpStatus : Z;
  invoke_errorCode : string;
  invoke_errorMessage : string;
  invoke_providerError : string
}.

Definition default_Invoke : ModelInvokeResult := mkInvoke "" 0 "" "" "".

(** [explicit operator bool() const] *)
Definition invoke_ok (r : ModelInvokeResult) : bool :=
  is_empty (invoke_errorMessage r) && negb (is_empty (invoke_text r)).

(** [GenerateMemoryUpdate]: the client is the host's or a provider's, and may throw. *)
Definition MemoryModelClient : Type := string → Outcome ModelInvokeResult.

(** ** builtin_memory_runtime.h *)

Record MemoryModelStatus := mkModelStatus {
  mstatus_configured : bool;
  mstatus_available : bool;
  mstatus_formatType : string;
  mstatus_modelName : string;
  mstatus_error : string
}.

(** ** store.h *)

Record LongTermSummaryRecord := mkSummaryRecord {
  summary_level : string;
  summary_topic : string;
  summary_summary : string;
  summary_confidence : f32;
  summary_sourceRefs : list string;
  summary_createdAt : string;
  summary_updatedAt : string
}.

Record LongTermMemorySnapshot := mkSnapshot {
  snap_summaries : list LongTermSummaryRecord;
  snap_entities : list MemoryEntity;
  snap_relations : list MemoryRelation
}.

Definition empty_snapshot : LongTermMemorySnapshot := mkSnapshot [] [] [].

Record MemoryEventsResult := mkEventsResult {
  events_succeeded : bool;
  events_events : list MemoryEvent;
  events_error : MemoryError
}.

Record MemoryPayloadRefsResult := mkPayloadRefsResult {
  payloads_succeeded : bool;
  payloads_payloads : list MemoryPayloadRef;
  payloads_error : MemoryError
}.

Record LongTermMemorySnapshotResult := mkSnapshotResult {
  snapres_succeeded : bool;
  snapres_snapshot : LongTermMemorySnapshot;
  snapres_error : MemoryError
}.

Record MemorySearchStoreResult := mkSearchStoreResult {
  ssres_succeeded : bool;
  ssres_results : list MemorySearchHit;
  ssres_error : MemoryError
}.

Record ConsolidationCursorResult := mkCursorResult {
  cursor_succeeded : bool;
  cursor_cursor : string;
  cursor_error : MemoryError
}.

(** ** Lemmas *)

Lemma event_type_of_to_int t : event_type_of_int (event_type_to_int t) = Some t.
Proof. by destruct t. Qed.

Lemma event_type_to_of_int z t : event_type_of_int z = Some t → event_type_to_int t = z.
Proof.
  unfold event_type_of_int. intros H. repeat case_match; simplify_eq/=; done.
Qed.

Lemma event_type_of_int_Some z : (0 ≤ z ≤ 7)%Z → is_Some (event_type_of_int z).
Proof.
  intros H. assert (z ∈ [0; 1; 2; 3; 4; 5; 6; 7]%Z) as Hin by (rewrite !elem_of_cons; lia).
  repeat (apply elem_of_cons in Hin as [->|Hin]; [by eexists|]). by apply not_elem_of_nil in Hin.
Qed.

#[export] Hint Rewrite event_type_of_to_int : am.
