(* ===== verification/Codec.v ===== *)
(** * The JSON codec: src/src/serialization/json_memory_codec.{h,cpp}

    One Definition per encoder ([*ToJson]), decoder ([*FromJson]) and diagnosing decoder
    ([Decode*]). A diagnosing decoder fills its [value] whatever the diagnostics say; its optional
    [diagnostics] pointer is the argument [want], and it returns the value, what it stored behind
    the pointer, and its boolean. The lemmas read a field back from an encoded object. *)

From Stdlib Require Import ZArith Lia Ascii String.
From stdpp Require Import base list strings gmap.
From S2P Require Import Prelude CppString Floats Json Types.

Open Scope am_scope.

(** ** Schemas and diagnostics *)

Definition kSchemaVersion : Z := 1.

Inductive FieldType := FString | FInteger | FFloat | FBoolean | FArray | FObject.

#[export] Instance FieldType_eq_dec : EqDecision FieldType.
Proof. solve_decision. Defined.

Record FieldRule := mkRule { rule_name : string; rule_type : FieldType }.

Record JsonDecodeIssue := mkIssue { issue_path : string; issue_message : string }.

Record JsonDecodeDiagnostics := mkDiagnostics {
  diag_warnings : list JsonDecodeIssue;
  diag_errors : list JsonDecodeIssue
}.

(** [bool ok() const] *)
Definition diagnostics_ok (d : JsonDecodeDiagnostics) : bool :=
  match diag_errors d with [] => true | _ => false end.

Definition WithSchema (j : json) : json :=
  if is_object j then json_set j "schemaVersion" (JInteger kSchemaVersion) else j.

Definition ErrorToJson (error : MemoryError) : json :=
  if Empty error then json_object
  else mk_object [("code", JString (error_code error)); ("message", JString (error_message error));
                  ("details", JString (error_details error));
                  ("retryable", JBool (error_retryable error))].

Definition ErrorFromJson (j : json) : MemoryError :=
  if negb (is_object j) then no_error
  else mkError (JsonString j "code" "") (JsonString j "message" "") (JsonString j "details" "")
         (JsonBool j "retryable" false).

Definition WithEnvelope (ok : bool) (data : json) (error : MemoryError) : json :=
  let envelope := mk_object [("ok", JBool ok)] in
  WithSchema (if ok then json_set envelope "data" data
              else json_set envelope "error" (ErrorToJson error)).

Definition SuccessEnvelope (data : json) : json := WithEnvelope true data no_error.

Definition ErrorEnvelope (error : MemoryError) : json := WithEnvelope false json_object error.

Definition MatchesType (value : json) (type : FieldType) : bool :=
  match type with
  | FString => is_string value
  | FInteger => is_number_integer value || is_number_unsigned value
  | FFloat => is_number value
  | FBoolean => is_boolean value
  | FArray => is_array value
  | FObject => is_object value
  end.

Definition FieldTypeName (type : FieldType) : string :=
  match type with
  | FString => "string"
  | FInteger => "integer"
  | FFloat => "number"
  | FBoolean => "boolean"
  | FArray => "array"
  | FObject => "object"
  end.

Definition rules_of (l : list (string * FieldType)) : list FieldRule :=
  (λ '(n, t), mkRule n t) <$> l.

(** No rules for an unknown schema name (the null view). *)
Definition SchemaRules (schemaName : string) : list FieldRule :=
  if decide (schemaName = "message") then
    rules_of [("role", FString); ("content", FString); ("toolCallId", FString); ("toolName", FString);
              ("payloadRef", FString)]
  else if decide (schemaName = "payloadRef") then
    rules_of [("uri", FString); ("contentType", FString); ("summary", FString); ("toolName", FString);
              ("originalChars", FInteger); ("metadata", FObject); ("createdAt", FString)]
  else if decide (schemaName = "entity") then
    rules_of [("id", FString); ("entityType", FString); ("name", FString); ("summary", FString);
              ("confidence", FFloat); ("sourceRefs", FArray); ("metadata", FObject);
              ("createdAt", FString); ("updatedAt", FString)]
  else if decide (schemaName = "relation") then
    rules_of [("id", FString); ("fromEntityId", FString); ("relationType", FString);
              ("toEntityId", FString); ("confidence", FFloat); ("sourceRefs", FArray);
              ("metadata", FObject); ("createdAt", FString); ("updatedAt", FString)]
  else if decide (schemaName = "event") then
    rules_of [("type", FInteger); ("agentId", FString); ("sessionId", FString); ("role", FString);
              ("content", FString); ("toolCallId", FString); ("toolName", FString);
              ("payloadRef", FString); ("metadata", FObject); ("timestamp", FString)]
  else if decide (schemaName = "contextRequest") then
    rules_of [("agentId", FString); ("sessionId", FString); ("query", FString);
              ("tokenBudget", FInteger); ("includeSections", FArray); ("metadata", FObject)]
  else if decide (schemaName = "contextPackage") then
    rules_of [("messages", FArray); ("memoryText", FString); ("entities", FArray);
              ("relations", FArray); ("payloadRefs", FArray); ("citations", FArray);
              ("metadata", FObject)]
  else if decide (schemaName = "payloadWriteRequest") then
    rules_of [("agentId", FString); ("sessionId", FString); ("content", FString);
              ("contentType", FString); ("toolCallId", FString); ("toolName", FString);
              ("metadata", FObject)]
  else if decide (schemaName = "payloadWriteResult") then
    rules_of [("offloaded", FBoolean); ("replacementContent", FString); ("payload", FObject)]
  else if decide (schemaName = "consolidationRequest") then
    rules_of [("agentId", FString); ("sessionId", FString); ("maxEvents", FInteger);
              ("forceReprocess", FBoolean); ("metadata", FObject)]
  else if decide (schemaName = "consolidationResult") then
    rules_of [("succeeded", FBoolean); ("fallbackUsed", FBoolean); ("processedEvents", FInteger);
              ("savedSummaries", FInteger); ("savedEntities", FInteger);
              ("savedRelations", FInteger); ("nextCursor", FString); ("sessionId", FString);
              ("error", FString)]
  else if decide (schemaName = "searchRequest") then
    rules_of [("agentId", FString); ("sessionId", FString); ("query", FString); ("limit", FInteger);
              ("includeSections", FArray); ("metadata", FObject)]
  else if decide (schemaName = "searchResponse") then
    rules_of [("ok", FBoolean); ("results", FArray)]
  else if decide (schemaName = "stats") then
    rules_of [("events", FInteger); ("payloads", FInteger); ("summaries", FInteger);
              ("entities", FInteger); ("relations", FInteger); ("metadata", FObject)]
  else [].

(** The warnings of the loop over the rules, in their order. *)
Definition rule_warnings (j : json) (rules : list FieldRule) : list JsonDecodeIssue :=
  omap (λ rule,
    if negb (json_contains j (rule_name rule)) || MatchesType (json_at j (rule_name rule)) (rule_type rule)
    then None
    else Some (mkIssue ("$." +:+ rule_name rule)
                 ("expected " +:+ FieldTypeName (rule_type rule) +:+ ", got "
                  +:+ type_name (json_at j (rule_name rule))))) rules.

Definition JsonDecodeDiagnosticsFor (j : json) (schemaName : string) : JsonDecodeDiagnostics :=
  if negb (is_object j) then
    mkDiagnostics [] [mkIssue "$" ("expected object, got " +:+ type_name j)]
  else
    let version :=
      if json_contains j "schemaVersion" && negb (is_number_integer (json_at j "schemaVersion"))
      then [mkIssue "$.schemaVersion"
              ("expected integer, got " +:+ type_name (json_at j "schemaVersion"))]
      else if (kSchemaVersion <? JsonInt j "schemaVersion" kSchemaVersion)%Z
      then [mkIssue "$.schemaVersion" "newer schema version"]
      else [] in
    let rules := SchemaRules schemaName in
    if bool_decide (rules = []) && negb (is_empty schemaName) then
      mkDiagnostics (version ++ [mkIssue "$" ("unknown schema name: " +:+ schemaName)]) []
    else
      mkDiagnostics (version ++ rule_warnings j rules)
        (if bool_decide (schemaName = "searchResponse") && negb (is_array (JsonFieldValue j "results"))
         then [mkIssue "$.results" "expected array"] else []).

Definition issues_to_json (issues : list JsonDecodeIssue) : json :=
  JArray ((λ issue, mk_object [("path", JString (issue_path issue));
                               ("message", JString (issue_message issue))]) <$> issues).

Definition DecodeDiagnosticsToJson (d : JsonDecodeDiagnostics) : json :=
  WithSchema (mk_object [("ok", JBool (diagnostics_ok d));
                         ("warnings", issues_to_json (diag_warnings d));
                         ("errors", issues_to_json (diag_errors d))]).

Definition DecodeWithDiagnostics {T} (j : json) (want : bool) (schemaName : string) (decode : json → T)
    : T * option JsonDecodeDiagnostics * bool :=
  let diagnostics := if want then Some (JsonDecodeDiagnosticsFor j schemaName) else None in
  (decode j, diagnostics, match diagnostics with None => true | Some d => diagnostics_ok d end).

(** ** Encoders and decoders *)

Definition JsonMemorySchemaVersion : Z := kSchemaVersion.

Definition OperationResultToJson (result : MemoryOperationResult) : json :=
  WithSchema (mk_object [("succeeded", JBool (op_succeeded result));
                         ("error", ErrorToJson (op_error result))]).

Definition EventTypeFromJson (j : json) : MemoryEventType :=
  let type := JsonInt j "type" (event_type_to_int SESSION_STARTED) in
  match event_type_of_int type with
  | Some t => t
  | None => SESSION_STARTED
  end.

Definition MessageToJson (message : MemoryMessage) : json :=
  mk_object [("role", JString (message_role message));
             ("content", JString (message_content message));
             ("toolCallId", JString (message_toolCallId message));
             ("toolName", JString (message_toolName message));
             ("payloadRef", JString (message_payloadRef message))].

Definition MessageFromJson (j : json) : MemoryMessage :=
  mkMessage (JsonString j "role" "") (JsonString j "content" "") (JsonString j "toolCallId" "")
    (JsonString j "toolName" "") (JsonString j "payloadRef" "").

Definition PayloadRefToJson (payload : MemoryPayloadRef) : json :=
  mk_object [("agentId", JString (payload_agentId payload));
             ("sessionId", JString (payload_sessionId payload));
             ("uri", JString (payload_uri payload));
             ("contentType", JString (payload_contentType payload));
             ("summary", JString (payload_summary payload));
             ("toolName", JString (payload_toolName payload));
             ("originalChars", JInteger (payload_originalChars payload));
             ("metadata", JsonObject (payload_metadata payload));
             ("createdAt", JString (payload_createdAt payload))].

Definition PayloadRefFromJson (j : json) : MemoryPayloadRef :=
  mkPayloadRef (JsonString j "agentId" "") (JsonString j "sessionId" "") (JsonString j "uri" "")
    (JsonString j "contentType" "") (JsonString j "summary" "") (JsonString j "toolName" "")
    (JsonInt j "originalChars" 0) (JsonObject (JsonFieldValue j "metadata"))
    (JsonString j "createdAt" "").

Definition EntityToJson (entity : MemoryEntity) : json :=
  mk_object [("id", JString (entity_id entity));
             ("entityType", JString (entity_entityType entity));
             ("name", JString (entity_name entity));
             ("summary", JString (entity_summary entity));
             ("confidence", JFloat (f64_of_f32 (entity_confidence entity)));
             ("sourceRefs", strings_to_json (entity_sourceRefs entity));
             ("metadata", JsonObject (entity_metadata entity));
             ("createdAt", JString (entity_createdAt entity));
             ("updatedAt", JString (entity_updatedAt entity))].

Definition EntityFromJson (j : json) : MemoryEntity :=
  mkEntity (JsonString j "id" "") "" (JsonString j "entityType" "") (JsonString j "name" "")
    (JsonString j "summary" "") (JsonFloat j "confidence" (f32_of_Z 0)) true "" ""
    (StringVectorFromJson (JsonFieldValue j "sourceRefs"))
    (JsonObject (JsonFieldValue j "metadata")) (JsonString j "createdAt" "")
    (JsonString j "updatedAt" "").

Definition RelationToJson (relation : MemoryRelation) : json :=
  mk_object [("id", JString (relation_id relation));
             ("fromEntityId", JString (relation_fromEntityId relation));
             ("relationType", JString (relation_relationType relation));
             ("toEntityId", JString (relation_toEntityId relation));
             ("confidence", JFloat (f64_of_f32 (relation_confidence relation)));
             ("sourceRefs", strings_to_json (relation_sourceRefs relation));
             ("metadata", JsonObject (relation_metadata relation));
             ("createdAt", JString (relation_createdAt relation));
             ("updatedAt", JString (relation_updatedAt relation))].

Definition RelationFromJson (j : json) : MemoryRelation :=
  mkRelation (JsonString j "id" "") "" (JsonString j "fromEntityId" "")
    (JsonString j "relationType" "") (JsonString j "toEntityId" "")
    (JsonFloat j "confidence" (f32_of_Z 0))
    (StringVectorFromJson (JsonFieldValue j "sourceRefs"))
    (JsonObject (JsonFieldValue j "metadata")) (JsonString j "createdAt" "")
    (JsonString j "updatedAt" "").

Definition StatsToJson (stats : MemoryStats) : json :=
  WithSchema (mk_object [("events", JInteger (stats_events stats));
                         ("payloads", JInteger (stats_payloads stats));
                         ("summaries", JInteger (stats_summaries stats));
                         ("entities", JInteger (stats_entities stats));
                         ("relations", JInteger (stats_relations stats));
                         ("metadata", JsonObject (stats_metadata stats))]).

Definition StatsFromJson (j : json) : MemoryStats :=
  mkStats (JsonInt j "events" 0) (JsonInt j "payloads" 0) (JsonInt j "summaries" 0)
    (JsonInt j "entities" 0) (JsonInt j "relations" 0) (JsonObject (JsonFieldValue j "metadata")).

Definition ContextPackageToJson (pkg : MemoryContextPackage) : json :=
  WithSchema (mk_object [("messages", JArray (MessageToJson <$> ctx_messages pkg));
                         ("memoryText", JString (ctx_memoryText pkg));
                         ("entities", JArray (EntityToJson <$> ctx_entities pkg));
                         ("relations", JArray (RelationToJson <$> ctx_relations pkg));
                         ("payloadRefs", JArray (PayloadRefToJson <$> ctx_payloadRefs pkg));
                         ("citations", strings_to_json (ctx_citations pkg));
                         ("metadata", JsonObject (ctx_metadata pkg))]).

(** The objects of a JSON array, decoded; anything else is skipped. *)
Definition decode_items {T} (decode : json → T) (j : json) : list T :=
  match j with
  | JArray items => omap (λ item, if is_object item then Some (decode item) else None) items
  | _ => []
  end.

Definition ContextPackageFromJson (j : json) : MemoryContextPackage :=
  mkContextPackage (decode_items MessageFromJson (JsonFieldValue j "messages"))
    (JsonString j "memoryText" "")
    (decode_items EntityFromJson (JsonFieldValue j "entities"))
    (decode_items RelationFromJson (JsonFieldValue j "relations"))
    (decode_items PayloadRefFromJson (JsonFieldValue j "payloadRefs"))
    (StringVectorFromJson (JsonFieldValue j "citations"))
    (JsonObject (JsonFieldValue j "metadata")).

Definition ContextRequestToJson (request : MemoryContextRequest) : json :=
  WithSchema (mk_object [("agentId", JString (ctxreq_agentId request));
                         ("sessionId", JString (ctxreq_sessionId request));
                         ("query", JString (ctxreq_query request));
                         ("tokenBudget", JInteger (ctxreq_tokenBudget request));
                         ("includeSections", strings_to_json (ctxreq_includeSections request));
                         ("metadata", JsonObject (ctxreq_metadata request))]).

Definition ContextRequestFromJson (j : json) : MemoryContextRequest :=
  mkContextRequest (JsonString j "agentId" "") (JsonString j "sessionId" "")
    (JsonString j "query" "") (JsonInt j "tokenBudget" 4096)
    (StringVectorFromJson (JsonFieldValue j "includeSections"))
    (JsonObject (JsonFieldValue j "metadata")).

Definition EventToJson (event : MemoryEvent) : json :=
  WithSchema (mk_object [("type", JInteger (event_type_to_int (event_type event)));
                         ("agentId", JString (event_agentId event));
                         ("sessionId", JString (event_sessionId event));
                         ("role", JString (event_role event));
                         ("content", JString (event_content event));
                         ("toolCallId", JString (event_toolCallId event));
                         ("toolName", JString (event_toolName event));
                         ("payloadRef", JString (event_payloadRef event));
                         ("metadata", JsonObject (event_metadata event));
                         ("timestamp", JString (event_timestamp event))]).

Definition EventFromJson (j : json) : MemoryEvent :=
  mkEvent (EventTypeFromJson j) (JsonString j "agentId" "") (JsonString j "sessionId" "")
    (JsonString j "role" "") (JsonString j "content" "") (JsonString j "toolCallId" "")
    (JsonString j "toolName" "") (JsonString j "payloadRef" "") ""
    (JsonObject (JsonFieldValue j "metadata")) (JsonString j "timestamp" "").

Definition PayloadWriteRequestToJson (request : MemoryPayloadWriteRequest) : json :=
  WithSchema (mk_object [("agentId", JString (pwrite_agentId request));
                         ("sessionId", JString (pwrite_sessionId request));
                         ("content", JString (pwrite_content request));
                         ("contentType", JString (pwrite_contentType request));
                         ("toolCallId", JString (pwrite_toolCallId request));
                         ("toolName", JString (pwrite_toolName request));
                         ("metadata", JsonObject (pwrite_metadata request))]).

Definition PayloadWriteRequestFromJson (j : json) : MemoryPayloadWriteRequest :=
  mkPayloadWriteRequest (JsonString j "agentId" "") (JsonString j "sessionId" "")
    (JsonString j "content" "") (JsonString j "contentType" "") (JsonString j "toolCallId" "")
    (JsonString j "toolName" "") (JsonObject (JsonFieldValue j "metadata")).

Definition PayloadWriteResultToJson (result : MemoryPayloadWriteResult) : json :=
  WithSchema (mk_object [("succeeded", JBool (pwres_succeeded result));
                         ("offloaded", JBool (pwres_offloaded result));
                         ("replacementContent", JString (pwres_replacementContent result));
                         ("payload", PayloadRefToJson (pwres_payload result));
                         ("error", ErrorToJson (pwres_error result))]).

Definition PayloadWriteResultFromJson (j : json) (defaultReplacementContent : string)
    : MemoryPayloadWriteResult :=
  mkPayloadWriteResult (JsonBool j "succeeded" false) (JsonBool j "offloaded" false)
    (if is_object (JsonFieldValue j "payload") then PayloadRefFromJson (json_at j "payload")
     else default_PayloadRef)
    (JsonString j "replacementContent" defaultReplacementContent)
    (ErrorFromJson (JsonFieldValue j "error")).

Definition ConsolidationRequestToJson (request : MemoryConsolidationRequest) : json :=
  json_set
    (WithSchema (mk_object [("agentId", JString (creq_agentId request));
                            ("sessionId", JString (creq_sessionId request));
                            ("maxEvents", JInteger (creq_maxEvents request));
                            ("forceReprocess", JBool (creq_forceReprocess request));
                            ("metadata", JsonObject (creq_metadata request))]))
    "excludedSessionIds" (strings_to_json (creq_excludedSessionIds request)).

Definition ConsolidationRequestFromJson (j : json) : MemoryConsolidationRequest :=
  mkConsolidationRequest (JsonString j "agentId" "") (JsonString j "sessionId" "")
    (JsonInt j "maxEvents" 100) (JsonBool j "forceReprocess" false)
    (StringVectorFromJson (JsonFieldValue j "excludedSessionIds"))
    (JsonObject (JsonFieldValue j "metadata")).

Definition ConsolidationResultToJson (result : MemoryConsolidationResult) : json :=
  WithSchema (mk_object [("succeeded", JBool (cres_succeeded result));
                         ("fallbackUsed", JBool (cres_fallbackUsed result));
                         ("processedEvents", JInteger (cres_processedEvents result));
                         ("savedSummaries", JInteger (cres_savedSummaries result));
                         ("savedEntities", JInteger (cres_savedEntities result));
                         ("savedRelations", JInteger (cres_savedRelations result));
                         ("nextCursor", JString (cres_nextCursor result));
                         ("sessionId", JString (cres_sessionId result));
                         ("error", ErrorToJson (cres_error result))]).

Definition ConsolidationResultFromJson (j : json) : MemoryConsolidationResult :=
  mkConsolidationResult (JsonBool j "succeeded" false) (JsonBool j "fallbackUsed" false)
    (JsonInt j "processedEvents" 0) (JsonInt j "savedSummaries" 0) (JsonInt j "savedEntities" 0)
    (JsonInt j "savedRelations" 0) (JsonString j "nextCursor" "") (JsonString j "sessionId" "")
    (ErrorFromJson (JsonFieldValue j "error")).

Definition SearchRequestToJson (request : MemorySearchRequest) : json :=
  WithSchema (mk_object [("agentId", JString (sreq_agentId request));
                         ("sessionId", JString (sreq_sessionId request));
                         ("query", JString (sreq_query request));
                         ("limit", JInteger (sreq_limit request));
                         ("includeSections", strings_to_json (sreq_includeSections request));
                         ("metadata", JsonObject (sreq_metadata request))]).

Definition SearchRequestFromJson (j : json) : MemorySearchRequest :=
  mkSearchRequest (JsonString j "agentId" "") (JsonString j "sessionId" "")
    (JsonString j "query" "") (JsonInt j "limit" 10)
    (StringVectorFromJson (JsonFieldValue j "includeSections"))
    (JsonObject (JsonFieldValue j "metadata")).

Definition HitToJson (hit : MemorySearchHit) : json :=
  mk_object [("id", JString (hit_id hit)); ("type", JString (hit_type hit));
             ("content", JString (hit_content hit));
             ("score", JFloat (f64_of_f32 (hit_score hit)));
             ("sourceRefs", strings_to_json (hit_sourceRefs hit));
             ("metadata", JsonObject (hit_metadata hit))].

Definition SearchResultsArrayToJson (hits : list MemorySearchHit) : json :=
  JArray (HitToJson <$> hits).

Definition SearchResponseToJson (hits : list MemorySearchHit) (ok : bool) : json :=
  WithSchema (mk_object [("ok", JBool ok); ("results", SearchResultsArrayToJson hits)]).

Definition HitFromJson (item : json) : MemorySearchHit :=
  mkHit (JsonString item "id" "") (JsonString item "type" "") (JsonString item "content" "")
    (JsonFloat item "score" (f32_of_Z 0))
    (StringVectorFromJson (JsonFieldValue item "sourceRefs"))
    (JsonObject (JsonFieldValue item "metadata")).

Definition SearchResultsFromJson (j : json) : list MemorySearchHit :=
  if negb (is_object j) || negb (is_array (JsonFieldValue j "results")) then []
  else decode_items HitFromJson (JsonFieldValue j "results").

(** ** Diagnosing decoders *)

Definition DecodeMessage j want := DecodeWithDiagnostics j want "message" MessageFromJson.

Definition DecodePayloadRef j want := DecodeWithDiagnostics j want "payloadRef" PayloadRefFromJson.

Definition DecodeEntity j want := DecodeWithDiagnostics j want "entity" EntityFromJson.

Definition DecodeRelation j want := DecodeWithDiagnostics j want "relation" RelationFromJson.

Definition DecodeEvent j want := DecodeWithDiagnostics j want "event" EventFromJson.

Definition DecodeContextPackage j want :=
  DecodeWithDiagnostics j want "contextPackage" ContextPackageFromJson.

Definition DecodeContextRequest j want :=
  DecodeWithDiagnostics j want "contextRequest" ContextRequestFromJson.

Definition DecodePayloadWriteRequest j want :=
  DecodeWithDiagnostics j want "payloadWriteRequest" PayloadWriteRequestFromJson.

Definition DecodePayloadWriteResult j want :=
  DecodeWithDiagnostics j want "payloadWriteResult" (λ j, PayloadWriteResultFromJson j "").

Definition DecodeConsolidationRequest j want :=
  DecodeWithDiagnostics j want "consolidationRequest" ConsolidationRequestFromJson.

Definition DecodeConsolidationResult j want :=
  DecodeWithDiagnostics j want "consolidationResult" ConsolidationResultFromJson.

Definition DecodeSearchRequest j want :=
  DecodeWithDiagnostics j want "searchRequest" SearchRequestFromJson.

Definition DecodeSearchHits j want := DecodeWithDiagnostics j want "searchResponse" SearchResultsFromJson.

Definition DecodeStats j want := DecodeWithDiagnostics j want "stats" StatsFromJson.

(** ** Lemmas: reading a field *)

Definition json_lookup (j : json) (key : string) : option json :=
  match j with JObject m => obj_lookup key m | _ => None end.

Lemma json_contains_lookup j key v : json_lookup j key = Some v →
  is_object j = true ∧ json_contains j key = true ∧ json_at j key = v.
Proof. destruct j; simpl; try done. intros ->. done. Qed.

Section Fields.
Context (j : json) (key : string).

Lemma JsonString_at s f : json_lookup j key = Some (JString s) → JsonString j key f = s.
Proof. intros (H1&H2&H3)%json_contains_lookup. unfold JsonString. by rewrite H1, H2, H3. Qed.

Lemma JsonBool_at b f : json_lookup j key = Some (JBool b) → JsonBool j key f = b.
Proof. intros (H1&H2&H3)%json_contains_lookup. unfold JsonBool. by rewrite H1, H2, H3. Qed.

Lemma JsonInt_at z f : json_lookup j key = Some (JInteger z) → in_int z → JsonInt j key f = z.
Proof.
  intros (H1&H2&H3)%json_contains_lookup Hz. unfold JsonInt. rewrite H1, H2, H3. simpl.
  by rewrite bool_decide_true.
Qed.

Lemma JsonFloat_at x f :
  json_lookup j key = Some (JFloat (f64_of_f32 x)) → is_f32 x = true → JsonFloat j key f = x.
Proof.
  intros (H1&H2&H3)%json_contains_lookup Hx. unfold JsonFloat. rewrite H1, H2, H3. simpl.
  by apply f32_f64_f32.
Qed.

Lemma JsonFieldValue_at v : json_lookup j key = Some v → JsonFieldValue j key = v.
Proof. intros (H1&H2&H3)%json_contains_lookup. unfold JsonFieldValue. by rewrite H1, H2, H3. Qed.

Lemma json_at_at v : json_lookup j key = Some v → json_at j key = v.
Proof. by intros (?&?&?)%json_contains_lookup. Qed.
End Fields.

(** Read every field of an encoded object back. *)
Ltac json_fields :=
  repeat first
    [ erewrite JsonString_at by reflexivity
    | erewrite JsonBool_at by reflexivity
    | erewrite JsonInt_at by first [reflexivity | eassumption]
    | erewrite JsonFloat_at by first [reflexivity | eassumption]
    | erewrite JsonFieldValue_at by reflexivity
    | erewrite json_at_at by reflexivity
    | rewrite StringVectorFromJson_strings
    | rewrite JsonObject_id by first [eassumption | apply JsonObject_is_object] ].

Lemma decode_items_encode {T} (enc : T → json) (dec : json → T) (l : list T) :
  (∀ x, is_object (enc x) = true) → Forall (λ x, dec (enc x) = x) l →
  decode_items dec (JArray (enc <$> l)) = l.
Proof.
  intros Hobj. induction 1 as [|x l Hx Hl IH]; [done|].
  cbn. rewrite Hobj. cbn. rewrite Hx. f_equal. exact IH.
Qed.

(** ** Lemmas: round trips *)

Lemma ErrorFromJson_ErrorToJson e :
  (error_code e = "" → e = no_error) → ErrorFromJson (ErrorToJson e) = e.
Proof.
  intros He. unfold ErrorToJson, Empty. destruct e as [c m d r]; simpl in *.
  destruct c as [|a c]; simpl.
  - by rewrite He.
  - unfold ErrorFromJson. simpl. by json_fields.
Qed.

Lemma EventTypeFromJson_EventToJson e : EventTypeFromJson (EventToJson e) = event_type e.
Proof.
  unfold EventTypeFromJson. erewrite JsonInt_at; [|reflexivity|].
  - by rewrite event_type_of_to_int.
  - unfold in_int, int_min, int_max. destruct (event_type e); simpl; lia.
Qed.

Lemma MessageFromJson_MessageToJson m : MessageFromJson (MessageToJson m) = m.
Proof. unfold MessageFromJson. json_fields. by destruct m. Qed.

Lemma EventFromJson_EventToJson e : is_object (event_metadata e) = true →
  EventFromJson (EventToJson e) =
    mkEvent (event_type e) (event_agentId e) (event_sessionId e) (event_role e) (event_content e)
      (event_toolCallId e) (event_toolName e) (event_payloadRef e) "" (event_metadata e)
      (event_timestamp e).
Proof.
  intros Hm. unfold EventFromJson. rewrite EventTypeFromJson_EventToJson. by json_fields.
Qed.

Lemma PayloadRefFromJson_PayloadRefToJson p :
  is_object (payload_metadata p) = true → in_int (payload_originalChars p) →
  PayloadRefFromJson (PayloadRefToJson p) = p.
Proof. intros Hm Hi. unfold PayloadRefFromJson. json_fields. by destruct p. Qed.

(** The encoders of entities and relations leave out the fields a caller has no use for. *)
Definition public_entity (e : MemoryEntity) : Prop :=
  entity_agentId e = "" ∧ entity_isActive e = true ∧ entity_supersededByEntityId e = "" ∧
  entity_supersededEntityId e = "" ∧ is_f32 (entity_confidence e) = true ∧
  is_object (entity_metadata e) = true.

Definition public_relation (r : MemoryRelation) : Prop :=
  relation_agentId r = "" ∧ is_f32 (relation_confidence r) = true ∧
  is_object (relation_metadata r) = true.

Lemma EntityFromJson_EntityToJson e : public_entity e → EntityFromJson (EntityToJson e) = e.
Proof.
  intros (H1&H2&H3&H4&H5&H6). unfold EntityFromJson. json_fields. destruct e; simpl in *. by subst.
Qed.

Lemma RelationFromJson_RelationToJson r :
  public_relation r → RelationFromJson (RelationToJson r) = r.
Proof.
  intros (H1&H2&H3). unfold RelationFromJson. json_fields. destruct r; simpl in *. by subst.
Qed.

Lemma HitFromJson_HitToJson h :
  is_f32 (hit_score h) = true → is_object (hit_metadata h) = true →
  HitFromJson (HitToJson h) = h.
Proof. intros Hs Hm. unfold HitFromJson. json_fields. by destruct h. Qed.

(** What a context package must satisfy to survive the codec. *)
Definition package_encodable (pkg : MemoryContextPackage) : Prop :=
  Forall public_entity (ctx_entities pkg) ∧ Forall public_relation (ctx_relations pkg) ∧
  Forall (λ p, is_object (payload_metadata p) = true ∧ in_int (payload_originalChars p))
    (ctx_payloadRefs pkg) ∧ is_object (ctx_metadata pkg) = true.

#[export] Hint Resolve MessageFromJson_MessageToJson EntityFromJson_EntityToJson
  RelationFromJson_RelationToJson JsonObject_is_object : am.

(** ** Properties *)

(** C13: every request a client encodes is decoded back to itself: context, payload-write,
    consolidation and search requests, given an object as metadata and [int] fields in range. *)
Theorem request_codec_roundtrip (c : MemoryContextRequest) (p : MemoryPayloadWriteRequest)
    (k : MemoryConsolidationRequest) (s : MemorySearchRequest)
    (Hmeta : Forall (λ j, is_object j = true)
               [ctxreq_metadata c; pwrite_metadata p; creq_metadata k; sreq_metadata s])
    (Hint : Forall in_int [ctxreq_tokenBudget c; creq_maxEvents k; sreq_limit s]) :
  ContextRequestFromJson (ContextRequestToJson c) = c ∧
  PayloadWriteRequestFromJson (PayloadWriteRequestToJson p) = p ∧
  ConsolidationRequestFromJson (ConsolidationRequestToJson k) = k ∧
  SearchRequestFromJson (SearchRequestToJson s) = s.
Proof.
  rewrite !Forall_cons in Hmeta. rewrite !Forall_cons in Hint.
  destruct Hmeta as (H1&H2&H3&H4&_), Hint as (I1&I2&I3&_).
  unfold ContextRequestFromJson, PayloadWriteRequestFromJson, ConsolidationRequestFromJson,
    SearchRequestFromJson.
  json_fields. by destruct c, p, k, s.
Qed.

Lemma request_codec_roundtrip_witness :
  ContextRequestFromJson (ContextRequestToJson (mkContextRequest "a" "s" "q" 10 ["x"] json_object))
    = mkContextRequest "a" "s" "q" 10 ["x"] json_object ∧
  SearchRequestFromJson (SearchRequestToJson (mkSearchRequest "a" "s" "q" (-5) [] json_object))
    = mkSearchRequest "a" "s" "q" (-5) [] json_object.
Proof.
  destruct (request_codec_roundtrip (mkContextRequest "a" "s" "q" 10 ["x"] json_object)
    (mkPayloadWriteRequest "a" "s" "c" "t" "" "" json_object)
    (mkConsolidationRequest "a" "s" 7 true ["s1"; "s2"] json_object)
    (mkSearchRequest "a" "s" "q" (-5) [] json_object)) as (H1&_&_&H2).
  - repeat constructor.
  - repeat constructor; by vm_compute.
  - split; assumption.
Defined.

(** C14: what the server answers is read back by a client to the same value: a context package,
    search hits, statistics and a consolidation result survive encoding and decoding, whenever the
    values are ones the encoders keep (no internal entity fields, floats of float width, [int]
    counters, an error without a code is the empty error). *)
Theorem response_codec_roundtrip (pkg : MemoryContextPackage) (hits : list MemorySearchHit)
    (ok : bool) (stats : MemoryStats) (res : MemoryConsolidationResult)
    (Hpkg : package_encodable pkg)
    (Hhits : Forall (λ h, is_f32 (hit_score h) = true ∧ is_object (hit_metadata h) = true) hits)
    (Hmeta : is_object (stats_metadata stats) = true)
    (Hints : Forall in_int [stats_events stats; stats_payloads stats; stats_summaries stats;
                            stats_entities stats; stats_relations stats; cres_processedEvents res;
                            cres_savedSummaries res; cres_savedEntities res; cres_savedRelations res])
    (Herr : error_code (cres_error res) = "" → cres_error res = no_error) :
  ContextPackageFromJson (ContextPackageToJson pkg) = pkg ∧
  SearchResultsFromJson (SearchResponseToJson hits ok) = hits ∧
  StatsFromJson (StatsToJson stats) = stats ∧
  ConsolidationResultFromJson (ConsolidationResultToJson res) = res.
Proof.
  destruct Hpkg as (He&Hr&Hp&Hm). rewrite !Forall_cons in Hints.
  destruct Hints as (?&?&?&?&?&?&?&?&?&_). split_and!.
  - unfold ContextPackageFromJson. json_fields.
    rewrite !decode_items_encode; [by destruct pkg|done|..].
    + eapply Forall_impl; [exact Hp|]. intros ? []. by apply PayloadRefFromJson_PayloadRefToJson.
    + done.
    + eapply Forall_impl; eauto with am.
    + done.
    + eapply Forall_impl; eauto with am.
    + done.
    + apply Forall_true. eauto with am.
  - unfold SearchResultsFromJson. json_fields.
    transitivity (decode_items HitFromJson (JArray (HitToJson <$> hits))); [done|].
    apply decode_items_encode; [done|]. eapply Forall_impl; [exact Hhits|].
    intros ? []. by apply HitFromJson_HitToJson.
  - unfold StatsFromJson. json_fields. by destruct stats.
  - unfold ConsolidationResultFromJson. json_fields.
    rewrite ErrorFromJson_ErrorToJson by done. by destruct res.
Qed.

Lemma response_codec_roundtrip_witness :
  SearchResultsFromJson (SearchResponseToJson
    [mkHit "entity:1" "entity" "x" (f32_lit 1 10) ["s"] json_object] true)
  = [mkHit "entity:1" "entity" "x" (f32_lit 1 10) ["s"] json_object].
Proof.
  apply (response_codec_roundtrip
    (mkContextPackage [mkMessage "user" "hi" "" "" ""] "text"
       [mkEntity "topic:a" "" "topic" "a" "sum" (f32_lit 3 5) true "" "" ["s"] json_object "t" "t"]
       [] [mkPayloadRef "a" "s" "file:///p" "text" "sum" "" 12 json_object ""] ["s"] json_object)
    _ _ default_Stats (mkConsolidationResult false false 1 2 3 4 "9" "s" (mkError "e" "m" "" true))).
  - repeat constructor; by vm_compute.
  - repeat constructor.
  - done.
  - repeat constructor; by vm_compute.
  - done.
Defined.

(** The schemas of the diagnosing decoders. *)
Definition decoder_schemas : list string :=
  ["message"; "payloadRef"; "entity"; "relation"; "event"; "contextPackage"; "contextRequest";
   "payloadWriteRequest"; "payloadWriteResult"; "consolidationRequest"; "consolidationResult";
   "searchRequest"; "searchResponse"; "stats"].

(** A diagnosing decoder always delivers the decoded value, and its diagnostics reject exactly
    the documents that are not objects (for search responses, also those without a result array):
    a field of the wrong type only makes a warning, never an error; without diagnostics nothing is
    rejected. *)
Theorem decode_diagnostics_spec {T} (j : json) (schemaName : string) (decode : json → T)
    (Hschema : schemaName ∈ decoder_schemas) :
  (let '(value, diagnostics, ok) := DecodeWithDiagnostics j true schemaName decode in
   value = decode j ∧
   (ok = true ↔ is_object j = true ∧
      (schemaName = "searchResponse" → is_array (JsonFieldValue j "results") = true)) ∧
   (∃ d, diagnostics = Some d ∧
      ∀ rule, rule ∈ SchemaRules schemaName → is_object j = true →
        json_contains j (rule_name rule) = true →
        MatchesType (json_at j (rule_name rule)) (rule_type rule) = false →
        ("$." +:+ rule_name rule) ∈ issue_path <$> diag_warnings d)) ∧
  DecodeWithDiagnostics j false schemaName decode = (decode j, None, true).
Proof.
  split; [|done]. unfold DecodeWithDiagnostics, JsonDecodeDiagnosticsFor, diagnostics_ok.
  destruct (is_object j) eqn:Ho; simpl; last first.
  { split_and!; [done|naive_solver|]. eexists; split; [done|]. naive_solver. }
  rewrite bool_decide_false by (intros E; revert E; repeat (apply elem_of_cons in Hschema as [->|Hschema];
    [vm_compute; discriminate|]); by apply not_elem_of_nil in Hschema).
  simpl. split_and!; [done| |].
  - case_bool_decide as Hs; simpl; [|naive_solver].
    destruct (is_array (JsonFieldValue j "results")); simpl; naive_solver.
  - eexists; split; [done|]. intros rule Hin _ Hc Hm. simpl.
    rewrite fmap_app, elem_of_app. right. apply list_elem_of_fmap.
    exists (mkIssue ("$." +:+ rule_name rule) ("expected " +:+ FieldTypeName (rule_type rule)
      +:+ ", got " +:+ type_name (json_at j (rule_name rule)))). split; [done|].
    apply list_elem_of_omap. exists rule. split; [done|]. by rewrite Hc, Hm.
Qed.

Lemma decode_diagnostics_spec_witness :
  (DecodeEvent (JArray []) true).2 = false ∧
  ((DecodeEvent (mk_object [("type", JBool true)]) true).2 = true).
Proof.
  pose proof (decode_diagnostics_spec (mk_object [("type", JBool true)]) "event" EventFromJson
    ltac:(vm_compute; set_solver)) as [H _].
  split; [reflexivity|]. destruct H as (_&H&_). apply H. split; [reflexivity|]. intros [=].
Defined.

(** The codec's own schema rejects what its encoder produces: the rules of consolidationResult
    want a string in [error], the encoder writes an object, so every encoded result is diagnosed
    with a type warning (and still decoded). *)
Theorem consolidation_result_self_warning (res : MemoryConsolidationResult) :
  ∃ d, DecodeConsolidationResult (ConsolidationResultToJson res) true
       = (ConsolidationResultFromJson (ConsolidationResultToJson res), Some d, true) ∧
    diag_warnings d = [mkIssue "$.error" "expected string, got object"].
Proof.
  exists (JsonDecodeDiagnosticsFor (ConsolidationResultToJson res) "consolidationResult").
  assert (is_object (ErrorToJson (cres_error res)) = true) as He
    by (unfold ErrorToJson; by destruct (Empty (cres_error res))).
  unfold DecodeConsolidationResult, DecodeWithDiagnostics, ConsolidationResultToJson.
  destruct (ErrorToJson (cres_error res)); try discriminate He. split; reflexivity.
Qed.
