(* ===== verification/Utf8.v ===== *)
(** * Text that can be written as JSON

    nlohmann::json keeps strings as bytes: its parser accepts only UTF-8 and its [dump] throws on a
    string that is not. [utf8] and [json_utf8] say which strings and values are well formed, and
    [JsonTextLaws] states that documented behaviour of [parse] and [dump] for the clients whose
    guarantees rest on it (the transports). *)

From Stdlib Require Import ZArith Lia Ascii String.
From stdpp Require Import base list strings gmap.
From S2P Require Import Prelude CppString Floats Json.

Open Scope am_scope.

(** ** UTF-8 *)

(** The ranges of the bytes that must follow a first byte; [None]: not a first byte. *)
Definition utf8_lead (b : Z) : option (list (Z * Z)) :=
  let tail := (128, 191)%Z in
  if (b <? 128)%Z then Some []
  else if (194 <=? b)%Z && (b <=? 223)%Z then Some [tail]
  else if (b =? 224)%Z then Some [(160, 191)%Z; tail]
  else if (b =? 237)%Z then Some [(128, 159)%Z; tail]
  else if (225 <=? b)%Z && (b <=? 239)%Z then Some [tail; tail]
  else if (b =? 240)%Z then Some [(144, 191)%Z; tail; tail]
  else if (241 <=? b)%Z && (b <=? 243)%Z then Some [tail; tail; tail]
  else if (b =? 244)%Z then Some [(128, 143)%Z; tail; tail]
  else None.

(** [need]: the ranges of the bytes that the character begun still has to have. *)
Fixpoint utf8_from (need : list (Z * Z)) (s : string) : bool :=
  match s with
  | EmptyString => match need with [] => true | _ => false end
  | String c s' =>
      match need with
      | (low, high) :: need' =>
          (low <=? byte_code c)%Z && (byte_code c <=? high)%Z && utf8_from need' s'
      | [] =>
          match utf8_lead (byte_code c) with
          | Some need' => utf8_from need' s'
          | None => false
          end
      end
  end.

Definition utf8 (s : string) : bool := utf8_from [] s.

Fixpoint json_utf8 (j : json) : bool :=
  match j with
  | JString s => utf8 s
  | JArray l => forallb json_utf8 l
  | JObject m => forallb (λ '(k, v), utf8 k && json_utf8 v) m
  | _ => true
  end.

(** What the documentation of nlohmann::json says of [parse] and of [dump] in strict mode. *)
Class JsonTextLaws `{JsonText} : Prop := {
  dump_total j : json_utf8 j = true → ∃ text, json_dump j = Ret text;
  dump_strict j : json_utf8 j = false → ∃ what, json_dump j = Throw what;
  dump_utf8 j text : json_dump j = Ret text → utf8 text = true;
  parse_utf8 text j : json_parse text = Ret j → json_utf8 j = true
}.

(** ** Lemmas *)

Lemma utf8_from_app need s1 s2 :
  utf8_from need s1 = true → utf8 s2 = true → utf8_from need (s1 +:+ s2) = true.
Proof.
  revert need. induction s1 as [|c s1 IH]; intros need H1 H2; simpl in *.
  - by destruct need.
  - destruct need as [|[low high] need].
    + destruct (utf8_lead (byte_code c)); [by apply IH|done].
    + apply andb_prop in H1 as [-> H1]. simpl. by apply IH.
Qed.

Lemma utf8_app s1 s2 : utf8 s1 = true → utf8 s2 = true → utf8 (s1 +:+ s2) = true.
Proof. apply utf8_from_app. Qed.

Lemma obj_lookup_utf8 k m v :
  json_utf8 (JObject m) = true → obj_lookup k m = Some v → json_utf8 v = true.
Proof.
  simpl. induction m as [|[k' w] m IH]; simpl; [done|].
  intros [[Hk Hw]%andb_prop Hm]%andb_prop. case_decide; [by intros [= <-]|by apply IH].
Qed.

Lemma json_at_utf8 j k : json_utf8 j = true → json_utf8 (json_at j k) = true.
Proof.
  destruct j as [| | | | | | |m]; try done. intros Hm. simpl.
  destruct (obj_lookup k m) eqn:E; [|done]. simpl. by eapply obj_lookup_utf8.
Qed.

Lemma obj_set_utf8 k v m :
  utf8 k = true → json_utf8 v = true → json_utf8 (JObject m) = true →
  json_utf8 (JObject (obj_set k v m)) = true.
Proof.
  intros Hk Hv. simpl. induction m as [|[k' w] m IH]; simpl; [by rewrite Hk, Hv|].
  intros [[Hk' Hw]%andb_prop Hm]%andb_prop.
  destruct (String.compare k k'); simpl.
  - by rewrite Hk, Hv, Hm.
  - by rewrite Hk, Hv, Hk', Hw, Hm.
  - by rewrite Hk', Hw, (IH Hm).
Qed.

Lemma json_set_utf8 j k v :
  utf8 k = true → json_utf8 v = true → json_utf8 j = true → json_utf8 (json_set j k v) = true.
Proof. destruct j; simpl; try done. intros. by apply obj_set_utf8. Qed.

Lemma mk_object_utf8 l :
  Forall (λ '(k, v), utf8 k = true ∧ json_utf8 v = true) l → json_utf8 (mk_object l) = true.
Proof.
  intros Hl. unfold mk_object. assert (json_utf8 (JObject []) = true) as H0 by done.
  revert H0. generalize ([] : list (string * json)).
  induction Hl as [|[k v] l [Hk Hv] Hl IH]; intros m Hm; simpl; [done|].
  apply IH. destruct (obj_lookup k m); [done|]. by apply obj_set_utf8.
Qed.

Lemma get_string_utf8 j s : json_utf8 j = true → get_string j = Ret s → utf8 s = true.
Proof. destruct j; simpl; try done. by intros ? [= <-]. Qed.

Lemma json_value_string_utf8 j k fallback s :
  json_utf8 j = true → utf8 fallback = true → json_value_string j k fallback = Ret s → utf8 s = true.
Proof.
  destruct j as [| | | | | | |m]; simpl; try done. intros Hm Hf.
  destruct (obj_lookup k m) eqn:E; [|by intros [= <-]].
  apply get_string_utf8. by eapply obj_lookup_utf8.
Qed.

Lemma JsonString_utf8 j k fallback :
  json_utf8 j = true → utf8 fallback = true → utf8 (JsonString j k fallback) = true.
Proof.
  intros Hj Hf. unfold JsonString. destruct (_ || _); [done|].
  pose proof (json_at_utf8 j k Hj) as Hv. by destruct (json_at j k).
Qed.

Lemma json_value_json_utf8 j k fallback v :
  json_utf8 j = true → json_utf8 fallback = true → json_value_json j k fallback = Ret v →
  json_utf8 v = true.
Proof.
  destruct j as [| | | | | | |m]; simpl; try done. intros Hm Hf [= <-].
  destruct (obj_lookup k m) eqn:E; [|done]. simpl. by eapply obj_lookup_utf8.
Qed.

(** ** A text form that obeys the laws *)

(** Nothing is escaped and every float is written alike: enough to tell the documents of the
    examples apart. *)
Definition quote : string := String "034"%char EmptyString.

Definition separated (l : list string) : string :=
  match l with
  | [] => ""
  | s :: l' => s +:+ foldr (λ s rest, "," +:+ s +:+ rest) "" l'
  end.

Fixpoint write_json (j : json) : string :=
  match j with
  | JNull => "null"
  | JBool true => "true"
  | JBool false => "false"
  | JInteger z | JUnsigned z => to_string z
  | JFloat _ => "0.0"
  | JString s => quote +:+ s +:+ quote
  | JArray l => "[" +:+ separated (write_json <$> l) +:+ "]"
  | JObject m => "{" +:+ separated ((λ '(k, v), quote +:+ k +:+ quote +:+ ":" +:+ write_json v) <$> m) +:+ "}"
  end.

(** The documents [docs] are the only ones it can read; an error quotes the text, as the library's
    parse errors do. *)
Definition document_json (docs : list json) : JsonText := {|
  json_parse := λ text,
    match filter (λ j, json_utf8 j = true ∧ write_json j = text) docs with
    | j :: _ => Ret j
    | [] => Throw ("[json.exception.parse_error.101] syntax error; last read: '" +:+ text +:+ "'")
    end;
  json_dump := λ j, if json_utf8 j then Ret (write_json j)
                    else Throw "[json.exception.type_error.316] invalid UTF-8 byte"
|}.

Lemma ascii_utf8 s : str_forall (λ c, (byte_code c <? 128)%Z) s = true → utf8 s = true.
Proof.
  unfold utf8. induction s as [|c s IH]; simpl; [done|]. intros [Hc Hs]%andb_prop.
  unfold utf8_lead. rewrite Hc. by apply IH.
Qed.

Lemma str_forall_weaken (p q : ascii → bool) s :
  (∀ c, p c = true → q c = true) → str_forall p s = true → str_forall q s = true.
Proof.
  intros Hpq. induction s as [|c s IH]; simpl; [done|]. intros [Hc Hs]%andb_prop.
  by rewrite (Hpq _ Hc), IH.
Qed.

Lemma to_string_utf8 z : utf8 (to_string z) = true.
Proof.
  assert (∀ n, (0 ≤ n)%Z → utf8 (decimal n) = true) as Hdec.
  { intros n Hn. apply ascii_utf8. eapply str_forall_weaken; [|by apply str_forall_decimal].
    intros c. unfold isdigit. intros [H1 H2]%andb_prop. apply Z.leb_le in H2. apply Z.ltb_lt. lia. }
  unfold to_string. case_match; [|apply Hdec; lia].
  apply (utf8_app "-"); [done|]. apply Hdec. lia.
Qed.

Lemma separated_utf8 l : Forall (λ s, utf8 s = true) l → utf8 (separated l) = true.
Proof.
  destruct 1 as [|s l Hs Hl]; [done|]. simpl. apply utf8_app; [done|].
  induction Hl as [|s' l Hs' Hl IH]; [done|]. simpl. apply (utf8_app ","); [done|]. by apply utf8_app.
Qed.

Lemma write_json_utf8 : ∀ j, json_utf8 j = true → utf8 (write_json j) = true.
Proof.
  fix IH 1. intros [|[]|z|n|x|s|l|m] Hj; try done.
  - apply to_string_utf8.
  - apply to_string_utf8.
  - simpl. apply (utf8_app quote); [done|]. by apply utf8_app.
  - simpl. apply (utf8_app "["); [done|]. apply utf8_app; [|done]. apply separated_utf8.
    simpl in Hj. induction l as [|j l IHl]; [constructor|]. simpl in Hj. apply andb_prop in Hj as [Hj Hl].
    constructor; [by apply IH|by apply IHl].
  - simpl. apply (utf8_app "{"); [done|]. apply utf8_app; [|done]. apply separated_utf8.
    simpl in Hj. induction m as [|[k j] m IHm]; [constructor|]. simpl in Hj.
    apply andb_prop in Hj as [[Hk Hj]%andb_prop Hm].
    constructor; [|by apply IHm]. apply (utf8_app quote); [done|]. apply utf8_app; [done|].
    apply (utf8_app quote); [done|]. apply (utf8_app ":"); [done|]. by apply IH.
Qed.

#[export] Instance document_json_laws docs : @JsonTextLaws (document_json docs).
Proof.
  split; simpl.
  - intros j ->. eauto.
  - intros j ->. eauto.
  - intros j text. destruct (json_utf8 j) eqn:E; [|done]. intros [= <-]. by apply write_json_utf8.
  - intros text j. destruct (filter _ docs) as [|j' l] eqn:E; [done|]. intros [= ->].
    assert (j ∈ filter (λ j, json_utf8 j = true ∧ write_json j = text) docs) as Hin
      by (rewrite E; constructor).
    by apply list_elem_of_filter in Hin as [[? _] _].
Qed.

#[export] Hint Resolve utf8_app mk_object_utf8 json_at_utf8 json_set_utf8 dump_utf8 parse_utf8 : am.
