(* ===== verification/ServerOptions.v ===== *)
(** * Server options and command line: src/src/server/server_options.cpp, server_cli.cpp, server_main.cpp

    The configuration document with its checks, the validation of the options, and the command line
    with its precedence over the file. A [std::runtime_error] is a [Throw] with its message; a
    function that returns false after a message on the standard error stream returns [None]. *)

From Stdlib Require Import ZArith Lia Ascii String.
From stdpp Require Import base list strings gmap.
From S2P Require Import Prelude CppString Floats Json.

Open Scope am_scope.

(** ** server_options.h *)

Record HttpServerOptions := mkHttpOptions {
  http_host : string;
  http_port : Z;
  http_maxPayloadBytes : Z;
  http_readTimeoutSeconds : Z;
  http_writeTimeoutSeconds : Z;
  http_threadCount : Z
}.

Record McpServerOptions := mkMcpOptions {
  mcp_mode : string;
  mcp_path : string;
  mcp_maxMessageBytes : Z
}.

Record ServerOptions := mkServerOptions {
  so_dataPath : string;
  so_modelConfig : json;
  so_strictModelConfig : bool;
  so_enablePayloadOffload : bool;
  so_offloadThreshold : Z;
  so_tokenBudget : Z;
  so_debugErrors : bool;
  so_apiToken : string;
  so_http : HttpServerOptions;
  so_mcp : McpServerOptions
}.

Definition default_HttpOptions : HttpServerOptions := mkHttpOptions "127.0.0.1" 8090 (1024 * 1024) 0 0 0.
Definition default_McpOptions : McpServerOptions := mkMcpOptions "http" "/mcp" (1024 * 1024).
Definition default_ServerOptions : ServerOptions :=
  mkServerOptions "./data" json_object false true 8000 4096 false "" default_HttpOptions default_McpOptions.

(** ** The loaders *)

Definition IsAllowedKey (key : string) (allowed : list string) : bool :=
  existsb (λ item, bool_decide (key = item)) allowed.

Fixpoint validate_entries (entries : list (string * json)) (allowed : list string) (prefix : string)
    : Outcome unit :=
  match entries with
  | [] => Ret tt
  | (key, _) :: entries' =>
      if negb (IsAllowedKey key allowed) then Throw ("unknown server config key: " +:+ prefix +:+ key)
      else validate_entries entries' allowed prefix
  end.

(** The iteration is over nothing for null and for an empty array; [key()] throws on any other value
    that is not an object. *)
Definition ValidateKeys (j : json) (allowed : list string) (prefix : string) : Outcome unit :=
  match j with
  | JObject entries => validate_entries entries allowed prefix
  | JNull | JArray [] => Ret tt
  | _ => Throw "[json.exception.invalid_iterator.207] cannot use key() for non-object iterators"
  end.

Definition LoadString (j : json) (key defaultValue : string) : Outcome string :=
  if negb (json_contains j key) then Ret defaultValue
  else match json_at j key with
       | JString s => Ret s
       | _ => Throw ("server config key must be a string: " +:+ key)
       end.

(** [get<int>()] is a [static_cast<int>] of the 64-bit number. *)
Definition LoadInt (j : json) (key : string) (defaultValue : Z) : Outcome Z :=
  if negb (json_contains j key) then Ret defaultValue
  else if negb (is_number_integer (json_at j key)) then
    Throw ("server config key must be an integer: " +:+ key)
  else Ret (wrap32 (get_ll (json_at j key))).

(** [std::size_t] has 64 bits: the test against its maximum never fails. *)
Definition size_max : Z := 2 ^ 64 - 1.

Definition LoadSize (j : json) (key : string) (defaultValue : Z) : Outcome Z :=
  if negb (json_contains j key) then Ret defaultValue
  else match json_at j key with
       | JUnsigned value =>
           if (size_max <? value)%Z then Throw ("server config key is too large: " +:+ key) else Ret value
       | _ => Throw ("server config key must be an unsigned integer: " +:+ key)
       end.

Definition LoadBool (j : json) (key : string) (defaultValue : bool) : Outcome bool :=
  if negb (json_contains j key) then Ret defaultValue
  else match json_at j key with
       | JBool b => Ret b
       | _ => Throw ("server config key must be a boolean: " +:+ key)
       end.

Definition LoadSubObject (j : json) (key : string) : Outcome json :=
  if negb (json_contains j key) then Ret json_object
  else if negb (is_object (json_at j key)) then Throw ("server config key must be an object: " +:+ key)
  else Ret (json_at j key).

(** Setters of the fields the loaders assign. *)
Definition set_memory (dataPath : string) (enablePayloadOffload : bool) (offloadThreshold tokenBudget : Z)
    (o : ServerOptions) : ServerOptions :=
  mkServerOptions dataPath (so_modelConfig o) (so_strictModelConfig o) enablePayloadOffload offloadThreshold
    tokenBudget (so_debugErrors o) (so_apiToken o) (so_http o) (so_mcp o).
Definition set_model (modelConfig : json) (strictModelConfig : bool) (o : ServerOptions) : ServerOptions :=
  mkServerOptions (so_dataPath o) modelConfig strictModelConfig (so_enablePayloadOffload o)
    (so_offloadThreshold o) (so_tokenBudget o) (so_debugErrors o) (so_apiToken o) (so_http o) (so_mcp o).
Definition set_debugErrors (debugErrors : bool) (o : ServerOptions) : ServerOptions :=
  mkServerOptions (so_dataPath o) (so_modelConfig o) (so_strictModelConfig o) (so_enablePayloadOffload o)
    (so_offloadThreshold o) (so_tokenBudget o) debugErrors (so_apiToken o) (so_http o) (so_mcp o).
Definition set_apiToken (apiToken : string) (o : ServerOptions) : ServerOptions :=
  mkServerOptions (so_dataPath o) (so_modelConfig o) (so_strictModelConfig o) (so_enablePayloadOffload o)
    (so_offloadThreshold o) (so_tokenBudget o) (so_debugErrors o) apiToken (so_http o) (so_mcp o).
Definition set_http (http : HttpServerOptions) (o : ServerOptions) : ServerOptions :=
  mkServerOptions (so_dataPath o) (so_modelConfig o) (so_strictModelConfig o) (so_enablePayloadOffload o)
    (so_offloadThreshold o) (so_tokenBudget o) (so_debugErrors o) (so_apiToken o) http (so_mcp o).
Definition set_mcp (mcp : McpServerOptions) (o : ServerOptions) : ServerOptions :=
  mkServerOptions (so_dataPath o) (so_modelConfig o) (so_strictModelConfig o) (so_enablePayloadOffload o)
    (so_offloadThreshold o) (so_tokenBudget o) (so_debugErrors o) (so_apiToken o) (so_http o) mcp.

Definition LoadMemoryOptions (memory : json) (opts : ServerOptions) : Outcome ServerOptions :=
  let? _ := ValidateKeys memory ["dataPath"; "enablePayloadOffload"; "offloadThreshold"; "tokenBudget"] "memory." in
  let? dataPath := LoadString memory "dataPath" (so_dataPath opts) in
  let? enablePayloadOffload := LoadBool memory "enablePayloadOffload" (so_enablePayloadOffload opts) in
  let? offloadThreshold := LoadInt memory "offloadThreshold" (so_offloadThreshold opts) in
  let? tokenBudget := LoadInt memory "tokenBudget" (so_tokenBudget opts) in
  Ret (set_memory dataPath enablePayloadOffload offloadThreshold tokenBudget opts).

Definition model_keys : list string :=
  ["enabled"; "strict"; "formatType"; "baseUrl"; "apiKey"; "modelName"; "organization"; "anthropicVersion";
   "anthropic-version"; "timeoutSeconds"; "maxTokens"; "max_tokens"; "temperature"; "headers"; "extraParams"].

Definition LoadModelOptions (model : json) (opts : ServerOptions) : Outcome ServerOptions :=
  let? _ := ValidateKeys model model_keys "model." in
  let? strict := LoadBool model "strict" (so_strictModelConfig opts) in
  let? enabled := LoadBool model "enabled" true in
  Ret (set_model (if enabled then model else so_modelConfig opts) strict opts).

Definition LoadHttpOptions (http : json) (opts : ServerOptions) : Outcome ServerOptions :=
  let? _ := ValidateKeys http ["host"; "port"; "maxPayloadBytes"; "readTimeoutSeconds";
                               "writeTimeoutSeconds"; "threadCount"] "server.http." in
  let? host := LoadString http "host" (http_host (so_http opts)) in
  let? port := LoadInt http "port" (http_port (so_http opts)) in
  let? maxPayloadBytes := LoadSize http "maxPayloadBytes" (http_maxPayloadBytes (so_http opts)) in
  let? readTimeoutSeconds := LoadInt http "readTimeoutSeconds" (http_readTimeoutSeconds (so_http opts)) in
  let? writeTimeoutSeconds := LoadInt http "writeTimeoutSeconds" (http_writeTimeoutSeconds (so_http opts)) in
  let? threadCount := LoadInt http "threadCount" (http_threadCount (so_http opts)) in
  Ret (set_http (mkHttpOptions host port maxPayloadBytes readTimeoutSeconds writeTimeoutSeconds threadCount) opts).

Definition LoadAuthOptions (auth : json) (opts : ServerOptions) : Outcome ServerOptions :=
  let? _ := ValidateKeys auth ["apiToken"] "server.auth." in
  let? apiToken := LoadString auth "apiToken" (so_apiToken opts) in
  Ret (set_apiToken apiToken opts).

Definition LoadMcpOptions (mcp : json) (opts : ServerOptions) : Outcome ServerOptions :=
  let? _ := ValidateKeys mcp ["mode"; "path"; "maxMessageBytes"] "server.mcp." in
  let? mode := LoadString mcp "mode" (mcp_mode (so_mcp opts)) in
  let? path := LoadString mcp "path" (mcp_path (so_mcp opts)) in
  let? maxMessageBytes := LoadSize mcp "maxMessageBytes" (mcp_maxMessageBytes (so_mcp opts)) in
  Ret (set_mcp (mkMcpOptions mode path maxMessageBytes) opts).

Definition LoadServerSection (server : json) (opts : ServerOptions) : Outcome ServerOptions :=
  let? _ := ValidateKeys server ["debugErrors"; "auth"; "http"; "mcp"] "server." in
  let? debugErrors := LoadBool server "debugErrors" (so_debugErrors opts) in
  let? auth := LoadSubObject server "auth" in
  let? opts := LoadAuthOptions auth (set_debugErrors debugErrors opts) in
  let? http := LoadSubObject server "http" in
  let? opts := LoadHttpOptions http opts in
  let? mcp := LoadSubObject server "mcp" in
  LoadMcpOptions mcp opts.

Definition LoadServerOptions (j : json) : Outcome ServerOptions :=
  let? _ := ValidateKeys j ["memory"; "model"; "server"] "" in
  let? memory := LoadSubObject j "memory" in
  let? opts := LoadMemoryOptions memory default_ServerOptions in
  let? opts := (if json_contains j "model" then
                  let? model := LoadSubObject j "model" in LoadModelOptions model opts
                else Ret opts) in
  let? server := LoadSubObject j "server" in
  LoadServerSection server opts.

(** [read] is the file system: the text of a file that can be opened. *)
Definition LoadServerOptionsFile `{JsonText} (read : string → option string) (path : string)
    : Outcome ServerOptions :=
  match read path with
  | None => Throw ("failed to open server config: " +:+ path)
  | Some text =>
      match json_parse_noexcept text with
      | Some j => if is_object j then LoadServerOptions j else Throw ("invalid server config JSON: " +:+ path)
      | None => Throw ("invalid server config JSON: " +:+ path)
      end
  end.

Definition ValidateServerOptions (opts : ServerOptions) (httpMode : bool) : Outcome unit :=
  if is_empty (so_dataPath opts) then Throw "memory.dataPath must not be empty"
  else if (so_offloadThreshold opts <? 0)%Z then Throw "memory.offloadThreshold must be non-negative"
  else if (so_tokenBudget opts <=? 0)%Z then Throw "memory.tokenBudget must be positive"
  else if bool_decide (mcp_mode (so_mcp opts) ≠ "http") then
    Throw "server.mcp.mode currently supports only http"
  else if is_empty (mcp_path (so_mcp opts)) ||
          negb (bool_decide (String.get 0 (mcp_path (so_mcp opts)) = Some "/"%char)) then
    Throw "server.mcp.path must start with /"
  else if (mcp_maxMessageBytes (so_mcp opts) =? 0)%Z then Throw "server.mcp.maxMessageBytes must be positive"
  else if httpMode then
    if is_empty (http_host (so_http opts)) then Throw "server.http.host must not be empty"
    else if (http_port (so_http opts) <? 1)%Z || (65535 <? http_port (so_http opts))%Z then
      Throw "server.http.port must be between 1 and 65535"
    else if (http_maxPayloadBytes (so_http opts) =? 0)%Z then
      Throw "server.http.maxPayloadBytes must be positive"
    else if (http_readTimeoutSeconds (so_http opts) <? 0)%Z ||
            (http_writeTimeoutSeconds (so_http opts) <? 0)%Z || (http_threadCount (so_http opts) <? 0)%Z then
      Throw "server.http timeout and thread settings must be non-negative"
    else Ret tt
  else Ret tt.

(** ** server_cli.cpp *)

(** The digits at the front of a string, and the rest. *)
Fixpoint digits_prefix (s : string) : string * string :=
  match s with
  | String c s' =>
      if isdigit c then let '(ds, rest) := digits_prefix s' in (String c ds, rest) else (EmptyString, s)
  | EmptyString => (EmptyString, EmptyString)
  end.

(** [std::from_chars] into an [int], base 10: the value and what is left, or [None] for an error code. *)
Definition from_chars (s : string) : option (Z * string) :=
  let '(negative, s') := match s with
                         | String c s' => if decide (c = "-"%char) then (true, s') else (false, s)
                         | EmptyString => (false, s)
                         end in
  let '(ds, rest) := digits_prefix s' in
  match read_digits ds 0 false with
  | Some n =>
      let value := if negative : bool then (- n)%Z else n in
      if bool_decide (in_int value) then Some (value, rest) else None
  | None => None
  end.

(** The result and the new value of [port]. *)
Definition ParsePort (value : string) (port : Z) : bool * Z :=
  match from_chars value with
  | None => (false, port)
  | Some (parsed, rest) =>
      if negb (is_empty rest) || (parsed <? 1)%Z || (65535 <? parsed)%Z then (false, port) else (true, parsed)
  end.

Definition RequireCliValue (i argc : nat) : bool := (i + 1 <? argc)%nat.

(** [argv] is the program name and the arguments. *)
Definition HasHelpOption (argv : list string) : bool :=
  existsb (λ arg, bool_decide (arg = "--help")) (tail argv).

(** The loop from index [i] of an [argv] whose tail is [args]. *)
Fixpoint find_config (i argc : nat) (args : list string) (configPath : string) : option string :=
  match args with
  | [] => Some configPath
  | arg :: rest =>
      if bool_decide (arg = "--config") then
        if negb (RequireCliValue i argc) then None
        else match rest with
             | value :: rest' => find_config (i + 2) argc rest' value
             | [] => None
             end
      else find_config (i + 1) argc rest configPath
  end.

Definition FindConfigPath (argv : list string) (configPath : string) : option string :=
  find_config 1 (length argv) (tail argv) configPath.

(** ** server_main.cpp: the options of a run *)

Definition with_host (host : string) (o : ServerOptions) : ServerOptions :=
  set_http (mkHttpOptions host (http_port (so_http o)) (http_maxPayloadBytes (so_http o))
    (http_readTimeoutSeconds (so_http o)) (http_writeTimeoutSeconds (so_http o)) (http_threadCount (so_http o))) o.
Definition with_port (port : Z) (o : ServerOptions) : ServerOptions :=
  set_http (mkHttpOptions (http_host (so_http o)) port (http_maxPayloadBytes (so_http o))
    (http_readTimeoutSeconds (so_http o)) (http_writeTimeoutSeconds (so_http o)) (http_threadCount (so_http o))) o.
Definition with_data (dataPath : string) (o : ServerOptions) : ServerOptions :=
  set_memory dataPath (so_enablePayloadOffload o) (so_offloadThreshold o) (so_tokenBudget o) o.

(** The loop of [Run] over the arguments; [None]: return 1. *)
Fixpoint apply_args (i argc : nat) (args : list string) (options : ServerOptions) : option ServerOptions :=
  match args with
  | [] => Some options
  | arg :: rest =>
      if bool_decide (arg ∈ ["--config"; "--host"; "--port"; "--data"]) then
        if negb (RequireCliValue i argc) then None
        else match rest with
             | [] => None
             | value :: rest' =>
                 if bool_decide (arg = "--config") then apply_args (i + 2) argc rest' options
                 else if bool_decide (arg = "--host") then apply_args (i + 2) argc rest' (with_host value options)
                 else if bool_decide (arg = "--port") then
                   let '(ok, port) := ParsePort value (http_port (so_http options)) in
                   if negb ok then None else apply_args (i + 2) argc rest' (with_port port options)
                 else apply_args (i + 2) argc rest' (with_data value options)
             end
      else None
  end.

(** How the part of [Run] before the server is set up ends. *)
Inductive CommandLine := ExitWith (code : Z) | StartWith (options : ServerOptions).

Definition parse_command_line `{JsonText} (read : string → option string) (argv : list string)
    : Outcome CommandLine :=
  if HasHelpOption argv then Ret (ExitWith 0)
  else
    match FindConfigPath argv "" with
    | None => Ret (ExitWith 1)
    | Some configPath =>
        let? options := (if negb (is_empty configPath) then LoadServerOptionsFile read configPath
                         else Ret default_ServerOptions) in
        match apply_args 1 (length argv) (tail argv) options with
        | None => Ret (ExitWith 1)
        | Some options =>
            let? _ := ValidateServerOptions options true in
            Ret (StartWith options)
        end
    end.

Definition IsLoopbackHost (host : string) : bool :=
  bool_decide (host = "127.0.0.1") || bool_decide (host = "localhost") || bool_decide (host = "::1").
