(* ===== verification/ServerOptionsTheorems.v ===== *)
(** * Theorems on the server options

    What a configuration document that is accepted gives, the meaning of a command line (the last
    value of an option wins, and wins over the file), and the integers that wrap. *)

From Stdlib Require Import ZArith Lia Ascii String.
From stdpp Require Import base list strings gmap.
From S2P Require Import Prelude CppString Floats Json Utf8 ServerOptions.

Open Scope am_scope.

(** ** The configuration schema *)

(** The shape of a configuration value: a value of a type, any value, or an object with known fields,
    each optional. *)
Inductive FieldType := TString | TBool | TInt | TSize | TAny | TObject (fields : list (string * FieldType)).

Fixpoint conforms (t : FieldType) (j : json) : bool :=
  match t, j with
  | TAny, _ => true
  | TString, JString _ => true
  | TBool, JBool _ => true
  | TInt, (JInteger _ | JUnsigned _) => true
  | TSize, JUnsigned n => (n <=? size_max)%Z
  | TObject fields, JObject m =>
      forallb (λ entry, existsb (λ field, bool_decide (entry.1 = field.1)) fields) m &&
      (fix each fields :=
         match fields with
         | [] => true
         | (key, t') :: fields' =>
             match obj_lookup key m with Some v => conforms t' v | None => true end && each fields'
         end) fields
  | _, _ => false
  end.

Definition memory_schema : FieldType := TObject
  [("dataPath", TString); ("enablePayloadOffload", TBool); ("offloadThreshold", TInt); ("tokenBudget", TInt)].

Definition model_schema : FieldType := TObject
  [("enabled", TBool); ("strict", TBool); ("formatType", TAny); ("baseUrl", TAny); ("apiKey", TAny);
   ("modelName", TAny); ("organization", TAny); ("anthropicVersion", TAny); ("anthropic-version", TAny);
   ("timeoutSeconds", TAny); ("maxTokens", TAny); ("max_tokens", TAny); ("temperature", TAny);
   ("headers", TAny); ("extraParams", TAny)].

Definition auth_schema : FieldType := TObject [("apiToken", TString)].

Definition http_schema : FieldType := TObject
  [("host", TString); ("port", TInt); ("maxPayloadBytes", TSize); ("readTimeoutSeconds", TInt);
   ("writeTimeoutSeconds", TInt); ("threadCount", TInt)].

Definition mcp_schema : FieldType := TObject [("mode", TString); ("path", TString); ("maxMessageBytes", TSize)].

Definition server_section_schema : FieldType := TObject
  [("debugErrors", TBool); ("auth", auth_schema); ("http", http_schema); ("mcp", mcp_schema)].

Definition server_schema : FieldType := TObject
  [("memory", memory_schema); ("model", model_schema); ("server", server_section_schema)].

(** ** What a document configures *)

(** The value under a path of keys. *)
Fixpoint at_path (j : json) (path : list string) : option json :=
  match path with
  | [] => Some j
  | key :: path' =>
      match j with
      | JObject m => match obj_lookup key m with Some v => at_path v path' | None => None end
      | _ => None
      end
  end.

Definition string_or (fallback : string) (v : option json) : string :=
  match v with Some (JString s) => s | _ => fallback end.
Definition bool_or (fallback : bool) (v : option json) : bool :=
  match v with Some (JBool b) => b | _ => fallback end.
(** An integer that does not fit an [int] is taken modulo 2^32. *)
Definition int_or (fallback : Z) (v : option json) : Z :=
  match v with Some (JInteger z) | Some (JUnsigned z) => wrap32 z | _ => fallback end.
Definition size_or (fallback : Z) (v : option json) : Z :=
  match v with Some (JUnsigned n) => n | _ => fallback end.

(** Every option by its key and with its default; a model section that is disabled configures no model. *)
Definition configured_options (j : json) : ServerOptions :=
  mkServerOptions
    (string_or "./data" (at_path j ["memory"; "dataPath"]))
    (if bool_or true (at_path j ["model"; "enabled"]) then default json_object (at_path j ["model"]) else json_object)
    (bool_or false (at_path j ["model"; "strict"]))
    (bool_or true (at_path j ["memory"; "enablePayloadOffload"]))
    (int_or 8000 (at_path j ["memory"; "offloadThreshold"]))
    (int_or 4096 (at_path j ["memory"; "tokenBudget"]))
    (bool_or false (at_path j ["server"; "debugErrors"]))
    (string_or "" (at_path j ["server"; "auth"; "apiToken"]))
    (mkHttpOptions
      (string_or "127.0.0.1" (at_path j ["server"; "http"; "host"]))
      (int_or 8090 (at_path j ["server"; "http"; "port"]))
      (size_or 1048576 (at_path j ["server"; "http"; "maxPayloadBytes"]))
      (int_or 0 (at_path j ["server"; "http"; "readTimeoutSeconds"]))
      (int_or 0 (at_path j ["server"; "http"; "writeTimeoutSeconds"]))
      (int_or 0 (at_path j ["server"; "http"; "threadCount"])))
    (mkMcpOptions
      (string_or "http" (at_path j ["server"; "mcp"; "mode"]))
      (string_or "/mcp" (at_path j ["server"; "mcp"; "path"]))
      (size_or 1048576 (at_path j ["server"; "mcp"; "maxMessageBytes"]))).

(** ** Lemmas: the loaders *)

(** The loader accepts exactly when [ok], and then gives [a]. *)
Definition loads {A} (m : Outcome A) (ok : bool) (a : A) : Prop :=
  if ok then m = Ret a else ∃ w, m = Throw w.

Lemma loads_ret {A} (a : A) : loads (Ret a) true a.
Proof. done. Qed.

Lemma loads_bind {A B} (m : Outcome A) (k : A → Outcome B) ok1 ok2 a b :
  loads m ok1 a → (ok1 = true → loads (k a) ok2 b) → loads (obind m k) (ok1 && ok2) b.
Proof.
  unfold loads. destruct ok1; simpl; [intros -> Hk; by apply Hk|]. intros [w ->] _. by exists w.
Qed.

Lemma loads_eq {A} (m : Outcome A) ok ok' a a' : loads m ok a → ok = ok' → (ok' = true → a = a') → loads m ok' a'.
Proof. unfold loads. intros Hm <- Ha. destruct ok; [by rewrite <- Ha|done]. Qed.

Lemma loads_Ret {A} (m : Outcome A) ok a b : loads m ok a → m = Ret b ↔ ok = true ∧ b = a.
Proof.
  unfold loads. destruct ok; [intros ->; split; [by intros [= <-]|by intros [_ ->]]|].
  intros [w ->]. split; [done|by intros []].
Qed.

(** A field that is present conforms. *)
Definition field_ok (t : FieldType) (v : option json) : bool :=
  match v with Some v => conforms t v | None => true end.

Lemma is_known (key : string) (fields : list (string * FieldType)) :
  existsb (λ field, bool_decide (key = field.1)) fields = IsAllowedKey key fields.*1.
Proof. unfold IsAllowedKey. induction fields as [|f fields IH]; [done|]. simpl. by rewrite IH. Qed.

Lemma loads_keys m (fields : list (string * FieldType)) prefix :
  loads (ValidateKeys (JObject m) fields.*1 prefix)
    (forallb (λ entry, existsb (λ field, bool_decide (entry.1 = field.1)) fields) m) tt.
Proof.
  simpl. induction m as [|[key v] m IH]; [done|]. simpl. rewrite is_known.
  destruct (IsAllowedKey key fields.*1); simpl; [exact IH|by eexists].
Qed.

Definition fields_of (t : FieldType) : list (string * FieldType) :=
  match t with TObject fields => fields | _ => [] end.

Section Fields.
Context (m : list (string * json)) (key : string).

Lemma loads_string d :
  loads (LoadString (JObject m) key d) (field_ok TString (obj_lookup key m)) (string_or d (obj_lookup key m)).
Proof.
  unfold LoadString. simpl. destruct (obj_lookup key m) as [v|]; [|done].
  destruct v; simpl; first [done|by eexists].
Qed.

Lemma loads_bool d :
  loads (LoadBool (JObject m) key d) (field_ok TBool (obj_lookup key m)) (bool_or d (obj_lookup key m)).
Proof.
  unfold LoadBool. simpl. destruct (obj_lookup key m) as [v|]; [|done].
  destruct v; simpl; first [done|by eexists].
Qed.

Lemma wrap32_wrap64 z : wrap32 (wrap64 z) = wrap32 z.
Proof.
  unfold wrap32, wrap64. f_equal.
  replace ((z + 2 ^ 63) mod 2 ^ 64 - 2 ^ 63 + 2 ^ 31)%Z
    with (z + 2 ^ 31 + (- ((z + 2 ^ 63) / 2 ^ 64) * 2 ^ 32) * 2 ^ 32)%Z by (rewrite Z.mod_eq by lia; lia).
  by rewrite Z.mod_add by lia.
Qed.

Lemma loads_int d :
  loads (LoadInt (JObject m) key d) (field_ok TInt (obj_lookup key m)) (int_or d (obj_lookup key m)).
Proof.
  unfold LoadInt. simpl. destruct (obj_lookup key m) as [v|]; [|done].
  destruct v; simpl; first [done|by rewrite wrap32_wrap64|by eexists].
Qed.

Lemma loads_size d :
  loads (LoadSize (JObject m) key d) (field_ok TSize (obj_lookup key m)) (size_or d (obj_lookup key m)).
Proof.
  unfold LoadSize. simpl. destruct (obj_lookup key m) as [v|]; [|done].
  destruct v as [| | |n| | | |]; simpl; try by eexists.
  rewrite Z.ltb_antisym. destruct (n <=? size_max)%Z; simpl; [done|by eexists].
Qed.

Lemma conforms_empty fields : conforms (TObject fields) (JObject []) = true.
Proof. simpl. induction fields as [|[k t] fields IH]; [done|]. exact IH. Qed.

(** A section: an object, or nothing, which is an empty object. *)
Definition section_entries (v : option json) : list (string * json) :=
  match v with Some (JObject entries) => entries | _ => [] end.

Lemma at_section k path :
  at_path (JObject m) (key :: k :: path) = at_path (JObject (section_entries (obj_lookup key m))) (k :: path).
Proof. simpl. by destruct (obj_lookup key m) as [[]|]. Qed.

Lemma at_key : at_path (JObject m) [key] = obj_lookup key m.
Proof. simpl. by destruct (obj_lookup key m). Qed.

(** Load the section and then its fields. *)
Lemma loads_section {B} fields (k : json → Outcome B) b :
  (loads (k (JObject (section_entries (obj_lookup key m))))
     (conforms (TObject fields) (JObject (section_entries (obj_lookup key m)))) b) →
  loads (let? sub := LoadSubObject (JObject m) key in k sub) (field_ok (TObject fields) (obj_lookup key m)) b.
Proof.
  unfold LoadSubObject. cbn [json_contains json_at].
  destruct (obj_lookup key m) as [v|]; cbn [negb default section_entries field_ok].
  - destruct v; try (intros _; by eexists). done.
  - rewrite conforms_empty. done.
Qed.

(** A section that is followed by other loaders. *)
Lemma loads_then_section {A B} fields (k : json → Outcome A) a (rest : A → Outcome B) ok b :
  loads (k (JObject (section_entries (obj_lookup key m))))
    (conforms (TObject fields) (JObject (section_entries (obj_lookup key m)))) a →
  loads (rest a) ok b →
  loads (let? sub := LoadSubObject (JObject m) key in let? a := k sub in rest a)
    (field_ok (TObject fields) (obj_lookup key m) && ok) b.
Proof.
  intros Hk Hrest.
  replace (let? sub := LoadSubObject (JObject m) key in let? a := k sub in rest a)
    with (obind (let? sub := LoadSubObject (JObject m) key in k sub) rest)
    by by destruct (LoadSubObject (JObject m) key).
  eapply loads_bind; [by apply loads_section|done].
Qed.
End Fields.

Lemma LoadMemoryOptions_loads m o :
  loads (LoadMemoryOptions (JObject m) o) (conforms memory_schema (JObject m))
    (set_memory (string_or (so_dataPath o) (obj_lookup "dataPath" m))
       (bool_or (so_enablePayloadOffload o) (obj_lookup "enablePayloadOffload" m))
       (int_or (so_offloadThreshold o) (obj_lookup "offloadThreshold" m))
       (int_or (so_tokenBudget o) (obj_lookup "tokenBudget" m)) o).
Proof.
  unfold LoadMemoryOptions. apply loads_bind with tt; [apply (loads_keys m (fields_of memory_schema))|intros _].
  eapply loads_bind; [apply loads_string|intros _]. eapply loads_bind; [apply loads_bool|intros _].
  eapply loads_bind; [apply loads_int|intros _]. eapply loads_bind; [apply loads_int|intros _].
  apply loads_ret.
Qed.

Lemma LoadModelOptions_loads m o :
  loads (LoadModelOptions (JObject m) o) (conforms model_schema (JObject m))
    (set_model (if bool_or true (obj_lookup "enabled" m) then JObject m else so_modelConfig o)
       (bool_or (so_strictModelConfig o) (obj_lookup "strict" m)) o).
Proof.
  unfold LoadModelOptions. eapply loads_eq; [|shelve|by intros _].
  apply loads_bind with tt; [apply (loads_keys m (fields_of model_schema))|intros _].
  eapply loads_bind; [apply loads_bool|intros _]. eapply loads_bind; [apply loads_bool|intros _]. apply loads_ret.
  Unshelve.
  change (conforms model_schema (JObject m)) with
    (forallb (λ entry, existsb (λ field, bool_decide (entry.1 = field.1)) (fields_of model_schema)) m &&
     (field_ok TBool (obj_lookup "enabled" m) && (field_ok TBool (obj_lookup "strict" m) &&
      forallb (field_ok TAny) ((λ key, obj_lookup key m) <$> drop 2 (fields_of model_schema).*1)))).
  rewrite (andb_comm (field_ok TBool (obj_lookup "strict" m))), andb_true_r.
  assert (∀ l, forallb (field_ok TAny) l = true) as ->; [|by rewrite andb_true_r].
  intros l. induction l as [|v l IH]; [done|]. simpl. rewrite IH. by destruct v.
Qed.

(** No model section is no change. *)
Lemma loads_model m o :
  loads (if json_contains (JObject m) "model" then
           let? model := LoadSubObject (JObject m) "model" in LoadModelOptions model o
         else Ret o)
    (field_ok model_schema (obj_lookup "model" m))
    (match obj_lookup "model" m with
     | Some (JObject entries) =>
         set_model (if bool_or true (obj_lookup "enabled" entries) then JObject entries else so_modelConfig o)
           (bool_or (so_strictModelConfig o) (obj_lookup "strict" entries)) o
     | _ => o
     end).
Proof.
  pose proof (LoadModelOptions_loads (section_entries (obj_lookup "model" m)) o) as Hload.
  unfold LoadSubObject. cbn [json_contains json_at]. destruct (obj_lookup "model" m) as [[]|];
    cbn [field_ok section_entries default] in *; first [exact Hload|done|by eexists].
Qed.

Lemma LoadAuthOptions_loads m o :
  loads (LoadAuthOptions (JObject m) o) (conforms auth_schema (JObject m))
    (set_apiToken (string_or (so_apiToken o) (obj_lookup "apiToken" m)) o).
Proof.
  unfold LoadAuthOptions. apply loads_bind with tt; [apply (loads_keys m (fields_of auth_schema))|intros _].
  eapply loads_bind; [apply loads_string|intros _]. apply loads_ret.
Qed.

Lemma LoadHttpOptions_loads m o :
  loads (LoadHttpOptions (JObject m) o) (conforms http_schema (JObject m))
    (set_http (mkHttpOptions (string_or (http_host (so_http o)) (obj_lookup "host" m))
       (int_or (http_port (so_http o)) (obj_lookup "port" m))
       (size_or (http_maxPayloadBytes (so_http o)) (obj_lookup "maxPayloadBytes" m))
       (int_or (http_readTimeoutSeconds (so_http o)) (obj_lookup "readTimeoutSeconds" m))
       (int_or (http_writeTimeoutSeconds (so_http o)) (obj_lookup "writeTimeoutSeconds" m))
       (int_or (http_threadCount (so_http o)) (obj_lookup "threadCount" m))) o).
Proof.
  unfold LoadHttpOptions. apply loads_bind with tt; [apply (loads_keys m (fields_of http_schema))|intros _].
  eapply loads_bind; [apply loads_string|intros _]. eapply loads_bind; [apply loads_int|intros _].
  eapply loads_bind; [apply loads_size|intros _]. eapply loads_bind; [apply loads_int|intros _].
  eapply loads_bind; [apply loads_int|intros _]. eapply loads_bind; [apply loads_int|intros _].
  apply loads_ret.
Qed.

Lemma LoadMcpOptions_loads m o :
  loads (LoadMcpOptions (JObject m) o) (conforms mcp_schema (JObject m))
    (set_mcp (mkMcpOptions (string_or (mcp_mode (so_mcp o)) (obj_lookup "mode" m))
       (string_or (mcp_path (so_mcp o)) (obj_lookup "path" m))
       (size_or (mcp_maxMessageBytes (so_mcp o)) (obj_lookup "maxMessageBytes" m))) o).
Proof.
  unfold LoadMcpOptions. apply loads_bind with tt; [apply (loads_keys m (fields_of mcp_schema))|intros _].
  eapply loads_bind; [apply loads_string|intros _]. eapply loads_bind; [apply loads_string|intros _].
  eapply loads_bind; [apply loads_size|intros _]. apply loads_ret.
Qed.

Lemma LoadServerSection_loads m o :
  loads (LoadServerSection (JObject m) o) (conforms server_section_schema (JObject m))
    (let auth := section_entries (obj_lookup "auth" m) in
     let http := section_entries (obj_lookup "http" m) in
     let mcp := section_entries (obj_lookup "mcp" m) in
     set_mcp (mkMcpOptions (string_or (mcp_mode (so_mcp o)) (obj_lookup "mode" mcp))
       (string_or (mcp_path (so_mcp o)) (obj_lookup "path" mcp))
       (size_or (mcp_maxMessageBytes (so_mcp o)) (obj_lookup "maxMessageBytes" mcp)))
     (set_http (mkHttpOptions (string_or (http_host (so_http o)) (obj_lookup "host" http))
       (int_or (http_port (so_http o)) (obj_lookup "port" http))
       (size_or (http_maxPayloadBytes (so_http o)) (obj_lookup "maxPayloadBytes" http))
       (int_or (http_readTimeoutSeconds (so_http o)) (obj_lookup "readTimeoutSeconds" http))
       (int_or (http_writeTimeoutSeconds (so_http o)) (obj_lookup "writeTimeoutSeconds" http))
       (int_or (http_threadCount (so_http o)) (obj_lookup "threadCount" http)))
     (set_apiToken (string_or (so_apiToken o) (obj_lookup "apiToken" auth))
     (set_debugErrors (bool_or (so_debugErrors o) (obj_lookup "debugErrors" m)) o)))).
Proof.
  unfold LoadServerSection. apply loads_bind with tt; [apply (loads_keys m (fields_of server_section_schema))|intros _].
  eapply loads_bind; [apply loads_bool|intros _].
  eapply (loads_then_section m "auth" (fields_of auth_schema)); [apply LoadAuthOptions_loads|].
  eapply (loads_then_section m "http" (fields_of http_schema)); [apply LoadHttpOptions_loads|].
  eapply loads_eq; [eapply (loads_section m "mcp" (fields_of mcp_schema)); apply LoadMcpOptions_loads| |by intros _].
  by rewrite andb_true_r.
Qed.

Lemma LoadServerOptions_loads m :
  loads (LoadServerOptions (JObject m)) (conforms server_schema (JObject m)) (configured_options (JObject m)).
Proof.
  unfold LoadServerOptions. eapply loads_eq.
  { apply loads_bind with tt; [apply (loads_keys m (fields_of server_schema))|intros _].
    eapply (loads_then_section m "memory" (fields_of memory_schema)); [apply LoadMemoryOptions_loads|].
    eapply loads_bind; [apply loads_model|intros _].
    eapply (loads_section m "server" (fields_of server_section_schema)); apply LoadServerSection_loads. }
  { cbn [fields_of server_schema]. by rewrite <- (andb_true_r (field_ok _ (obj_lookup "server" m))). }
  intros Hok. unfold configured_options. rewrite !at_section, !at_key.
  destruct (obj_lookup "model" m) as [[]|] eqn:Em; try reflexivity.
  all: exfalso; unfold server_schema in Hok; cbn [conforms] in Hok; rewrite Em in Hok; cbn [conforms model_schema] in Hok.
  all: by rewrite !andb_false_r in Hok.
Qed.


(** ** Integers that wrap *)

(** The numbers of a document are those nlohmann::json can hold. *)
Definition number_ok (j : json) : bool :=
  match j with
  | JUnsigned n => (0 <=? n)%Z && (n <=? size_max)%Z
  | JInteger z => bool_decide (in_int64 z)
  | _ => true
  end.

Fixpoint numbers_ok (j : json) : bool :=
  match j with
  | JArray l => forallb numbers_ok l
  | JObject m => forallb (λ '(_, v), numbers_ok v) m
  | _ => number_ok j
  end.

Definition port_document (n : Z) : json :=
  mk_object [("server", mk_object [("http", mk_object [("port", JUnsigned n)])])].

(** C40: an integer option that does not fit an [int] is not refused but wraps: a document that asks
    for port p + k * 2^32 is loaded, and validated, as one that asks for port p. *)
Theorem out_of_range_port_accepted (p k : Z) (Hp : (1 ≤ p ≤ 65535)%Z) (Hk : (0 ≤ k)%Z)
    (Hmax : (p + k * 2 ^ 32 ≤ size_max)%Z) :
  ∃ o, LoadServerOptions (port_document (p + k * 2 ^ 32)) = Ret o ∧
       numbers_ok (port_document (p + k * 2 ^ 32)) = true ∧
       http_port (so_http o) = p ∧ ValidateServerOptions o true = Ret tt.
Proof.
  assert (wrap32 (get_ll (JUnsigned (p + k * 2 ^ 32))) = p) as Hw.
  { unfold get_ll, wrap64, wrap32.
    assert (((p + k * 2 ^ 32 + 2 ^ 63) mod 2 ^ 64 - 2 ^ 63 + 2 ^ 31) mod 2 ^ 32 = p + 2 ^ 31)%Z as ->; [|lia].
    rewrite (Z.mod_eq (p + k * 2 ^ 32 + 2 ^ 63)) by lia.
    set (q := ((p + k * 2 ^ 32 + 2 ^ 63) / 2 ^ 64)%Z).
    replace (p + k * 2 ^ 32 + 2 ^ 63 - 2 ^ 64 * q - 2 ^ 63 + 2 ^ 31)%Z
      with (p + 2 ^ 31 + (k - 2 ^ 32 * q) * 2 ^ 32)%Z by lia.
    rewrite Z.mod_add by lia. apply Z.mod_small. lia. }
  eexists. split; [|split; [|split]].
  - assert (LoadServerOptions (port_document (p + k * 2 ^ 32))
            = Ret (with_port (wrap32 (get_ll (JUnsigned (p + k * 2 ^ 32)))) default_ServerOptions)) as -> by reflexivity.
    by rewrite Hw.
  - unfold size_max in *. cbn. rewrite !andb_true_r. apply andb_true_intro. split; apply Z.leb_le; unfold size_max; lia.
  - done.
  - unfold ValidateServerOptions. cbn.
    destruct (p <? 1)%Z eqn:E1; [apply Z.ltb_lt in E1; lia|].
    destruct (65535 <? p)%Z eqn:E2; [apply Z.ltb_lt in E2; lia|]. done.
Qed.

Lemma out_of_range_port_accepted_witness :
  ∃ o, LoadServerOptions (port_document 4294975386) = Ret o ∧ http_port (so_http o) = 8090%Z ∧
       ValidateServerOptions o true = Ret tt.
Proof.
  destruct (out_of_range_port_accepted 8090 1 ltac:(lia) ltac:(lia) ltac:(vm_compute; discriminate))
    as (o & Hload & _ & Hport & Hvalid).
  exists o. split; [exact Hload|]. split; [exact Hport|exact Hvalid].
Defined.

(** ** The command line *)

(** Options with their values, in the order of the command line. *)
Definition args_of (ps : list (string * string)) : list string := concat ((λ '(n, v), [n; v]) <$> ps).

Definition option_names : list string := ["--config"; "--host"; "--port"; "--data"].

(** The last value of an option. *)
Definition last_value (name : string) (ps : list (string * string)) : option string :=
  last ((filter (λ p, p.1 = name) ps).*2).

(** The options a command line asks for on top of [base]: the last value of each option. *)
Definition overridden (ps : list (string * string)) (base : ServerOptions) : ServerOptions :=
  let base := match last_value "--host" ps with Some host => with_host host base | None => base end in
  let base := match last_value "--port" ps with Some port => with_port (ParsePort port 0).2 base | None => base end in
  match last_value "--data" ps with Some dataPath => with_data dataPath base | None => base end.

Definition ports_valid (ps : list (string * string)) : bool :=
  forallb (λ p, negb (bool_decide (p.1 = "--port")) || (ParsePort p.2 0).1) ps.

(** The reference for [parse_command_line]. *)
Definition command_line_spec `{JsonText} (read : string → option string) (ps : list (string * string))
    : Outcome CommandLine :=
  let? base := match last_value "--config" ps with
               | None | Some EmptyString => Ret default_ServerOptions
               | Some path => LoadServerOptionsFile read path
               end in
  if negb (ports_valid ps) then Ret (ExitWith 1)
  else
    let? _ := ValidateServerOptions (overridden ps base) true in
    Ret (StartWith (overridden ps base)).

Lemma last_value_cons name n v ps :
  last_value name ((n, v) :: ps)
  = if decide (n = name) then Some (default v (last_value name ps)) else last_value name ps.
Proof.
  unfold last_value. rewrite filter_cons. cbn [fst]. case_decide; [|done].
  rewrite fmap_cons, last_cons. by destruct (last _).
Qed.

Lemma ParsePort_old value p1 p2 :
  (ParsePort value p1).1 = (ParsePort value p2).1 ∧
  ((ParsePort value p1).1 = true → (ParsePort value p1).2 = (ParsePort value p2).2).
Proof.
  unfold ParsePort. destruct (from_chars value) as [[parsed rest]|]; [|done].
  by destruct (negb (is_empty rest) || (parsed <? 1)%Z || (65535 <? parsed)%Z).
Qed.

(** What one option does to what the later ones override. *)
Definition apply_option (n v : string) (o : ServerOptions) : ServerOptions :=
  if decide (n = "--host") then with_host v o
  else if decide (n = "--port") then with_port (ParsePort v 0).2 o
  else if decide (n = "--data") then with_data v o else o.

Lemma overridden_cons n v ps o : n ∈ option_names → overridden ((n, v) :: ps) o = overridden ps (apply_option n v o).
Proof.
  unfold option_names, overridden. rewrite !last_value_cons.
  rewrite !elem_of_cons, elem_of_nil. intros Hn. destruct_or! Hn; try done; subst n; unfold apply_option; cbn [decide];
    repeat (rewrite decide_True by done || rewrite decide_False by done);
    destruct (last_value "--host" ps), (last_value "--port" ps), (last_value "--data" ps); done.
Qed.

Lemma apply_args_pairs ps i argc o :
  Forall (λ p, p.1 ∈ option_names) ps → argc = (i + length (args_of ps))%nat →
  apply_args i argc (args_of ps) o = if ports_valid ps then Some (overridden ps o) else None.
Proof.
  intros Hps. revert i argc o. induction Hps as [|[n v] ps Hn Hps IH]; intros i argc o ->; [done|].
  change (args_of ((n, v) :: ps)) with (n :: v :: args_of ps). cbn [apply_args]. cbn [fst] in Hn.
  rewrite (bool_decide_eq_true_2 (n ∈ _)) by exact Hn.
  assert (RequireCliValue i (i + length (n :: v :: args_of ps)) = true) as ->.
  { unfold RequireCliValue. apply Nat.ltb_lt. simpl. lia. }
  assert ((i + length (n :: v :: args_of ps))%nat = (i + 2 + length (args_of ps))%nat) as -> by (simpl; lia).
  cbn [negb]. rewrite overridden_cons by done. cbn [ports_valid forallb fst snd].
  change (forallb _ ps) with (ports_valid ps). unfold apply_option.
  unfold option_names in Hn. rewrite !elem_of_cons, elem_of_nil in Hn. destruct_or! Hn; try done; subst n;
    repeat (case_decide; try done); repeat (case_bool_decide; try done); cbn [negb orb andb].
  - by apply IH.
  - by apply IH.
  - destruct (ParsePort_old v (http_port (so_http o)) 0) as [Hok1 Hok2].
    destruct (ParsePort v (http_port (so_http o))) as [ok port]. cbn [fst snd] in Hok1, Hok2. rewrite <- Hok1.
    destruct ok; cbn [negb andb]; [|done]. rewrite <- Hok2 by done. by apply IH.
  - by apply IH.
Qed.

Lemma find_config_pairs ps i argc path :
  Forall (λ p, p.1 ∈ option_names ∧ p.2 ≠ "--config" ∧ p.2 ≠ "--help") ps →
  argc = (i + length (args_of ps))%nat →
  find_config i argc (args_of ps) path = Some (default path (last_value "--config" ps)).
Proof.
  intros Hps. revert i argc path. induction Hps as [|[n v] ps (Hn & Hv & _) Hps IH]; intros i argc path ->; [done|].
  change (args_of ((n, v) :: ps)) with (n :: v :: args_of ps). cbn [find_config].
  cbn [fst snd] in *. rewrite last_value_cons.
  assert ((i + length (n :: v :: args_of ps))%nat = (i + 2 + length (args_of ps))%nat) as -> by (simpl; lia).
  destruct (decide (n = "--config")) as [->|Hne].
  - rewrite bool_decide_eq_true_2 by done.
    assert (RequireCliValue i (i + 2 + length (args_of ps)) = true) as ->.
    { unfold RequireCliValue. apply Nat.ltb_lt. lia. }
    cbn [negb]. by rewrite IH.
  - rewrite bool_decide_eq_false_2 by done. cbn [find_config]. rewrite bool_decide_eq_false_2 by done.
    rewrite <- Nat.add_assoc. by apply IH.
Qed.

Lemma no_help ps :
  Forall (λ p, p.1 ∈ option_names ∧ p.2 ≠ "--config" ∧ p.2 ≠ "--help") ps →
  existsb (λ arg, bool_decide (arg = "--help")) (args_of ps) = false.
Proof.
  induction 1 as [|[n v] ps (Hn & _ & Hv) Hps IH]; [done|].
  change (args_of ((n, v) :: ps)) with (n :: v :: args_of ps). cbn [existsb fst snd] in *.
  rewrite IH, !bool_decide_eq_false_2; [done|done|]. intros ->. revert Hn. change ("--help" ∉ option_names). by apply (bool_decide_unpack _); vm_compute.
Qed.

(** C38: the command line means what its help says: for arguments that are options with their values
    (none of them "--config" or "--help"), the server starts from the file of the last --config, or
    from the defaults, with the last --host, --port and --data in their place, whatever their order;
    a --port that is not a number from 1 to 65535 ends the program with 1, a bad file or a bad
    combination with the error of its check. *)
Theorem command_line_last_wins `{JsonText} (read : string → option string) (program : string)
    (ps : list (string * string))
    (Hps : Forall (λ p, p.1 ∈ option_names ∧ p.2 ≠ "--config" ∧ p.2 ≠ "--help") ps) :
  parse_command_line read (program :: args_of ps) = command_line_spec read ps.
Proof.
  unfold parse_command_line, command_line_spec, HasHelpOption, FindConfigPath. cbn [tail length].
  rewrite no_help by done. rewrite find_config_pairs by done.
  assert (∀ base, apply_args 1 (S (length (args_of ps))) (args_of ps) base
                  = if ports_valid ps then Some (overridden ps base) else None) as Happly.
  { intros base. apply apply_args_pairs; [|done]. eapply Forall_impl; [exact Hps|]. by intros p [? _]. }
  assert ((if negb (is_empty (default "" (last_value "--config" ps)))
           then LoadServerOptionsFile read (default "" (last_value "--config" ps)) else Ret default_ServerOptions)
          = match last_value "--config" ps with
            | None | Some EmptyString => Ret default_ServerOptions
            | Some path => LoadServerOptionsFile read path
            end) as ->.
  { destruct (last_value "--config" ps) as [[|c path]|]; done. }
  destruct (match last_value "--config" ps with
            | None | Some EmptyString => Ret default_ServerOptions
            | Some path => LoadServerOptionsFile read path
            end) as [base|w]; [|done]. cbn [obind]. rewrite Happly. by destruct (ports_valid ps).
Qed.

Definition sample_args : list (string * string) :=
  [("--port", "1"); ("--config", "a.json"); ("--data", "/d"); ("--port", "0443")].

Lemma command_line_last_wins_witness :
  let _ := document_json [port_document 80] in
  parse_command_line (λ path, if decide (path = "a.json") then Some (write_json (port_document 80)) else None)
    ("memory-server" :: args_of sample_args)
  = Ret (StartWith (with_data "/d" (with_port 443 default_ServerOptions))).
Proof.
  intros Hj. rewrite command_line_last_wins.
  - vm_compute. reflexivity.
  - repeat constructor; try discriminate; apply (bool_decide_unpack _); vm_compute; exact I.
Defined.
