(* ===== verification/Sqlite.v ===== *)
(** * The SQLite connection

    What the store relies on of SQLite: a connection [Conn T] to a database with content [T], with
    an optional open transaction, and the calls the source makes: [sqlite3_prepare_v2],
    [sqlite3_step] of a writing and of a reading statement, and [sqlite3_exec] of BEGIN, COMMIT and
    ROLLBACK. Every call but ROLLBACK may fail. When and how is a parameter, [SqlEnv]: it may
    depend on everything through the count of calls made so far, a reading statement may fail after
    some rows, and a failure inside a transaction may roll the transaction back by itself (as
    SQLITE_FULL, SQLITE_IOERR and SQLITE_NOMEM may). A failing statement changes nothing. *)

From Stdlib Require Import ZArith Lia Ascii String.
From stdpp Require Import base list strings gmap.
From S2P Require Import Prelude CppString Floats.

Open Scope am_scope.

Inductive CallKind := KPrepare | KStep | KExec.

Record SqlFault := mkFault {
  fault_rows : nat;
  fault_msg : string;
  fault_rollback : bool
}.

(** [sql_now] is CURRENT_TIMESTAMP of the statement a call belongs to. *)
Class SqlEnv : Type := {
  sql_fault : nat → CallKind → option SqlFault;
  sql_now : nat → string
}.

Record Conn (T : Type) := mkConn {
  conn_main : T;
  conn_txn : option T;
  conn_tick : nat;
  conn_errmsg : string
}.

Arguments mkConn {T}.
Arguments conn_main {T}.
Arguments conn_txn {T}.
Arguments conn_tick {T}.
Arguments conn_errmsg {T}.

(** A single [sqlite3_step] of a SELECT: SQLITE_ROW with the first row, SQLITE_DONE or an error. *)
Inductive StepResult (R : Type) : Type := StepRow (r : R) | StepDone | StepError.

Arguments StepRow {R} r.
Arguments StepDone {R}.
Arguments StepError {R}.

Section Calls.
Context `{SqlEnv} {T : Type}.

(** What the statements of this connection see: the open transaction's content, if there is one. *)
Definition conn_view (c : Conn T) : T := default (conn_main c) (conn_txn c).

Definition conn_write (t : T) (c : Conn T) : Conn T :=
  match conn_txn c with
  | Some _ => mkConn (conn_main c) (Some t) (conn_tick c) (conn_errmsg c)
  | None => mkConn t None (conn_tick c) (conn_errmsg c)
  end.

Definition conn_said (msg : string) (c : Conn T) : Conn T :=
  mkConn (conn_main c) (conn_txn c) (S (conn_tick c)) msg.

Definition conn_failed (f : SqlFault) (c : Conn T) : Conn T :=
  mkConn (conn_main c) (if fault_rollback f then None else conn_txn c) (S (conn_tick c)) (fault_msg f).

Definition no_error_msg : string := "not an error".

(** [sqlite3_prepare_v2(...) == SQLITE_OK] *)
Definition prepare : M (Conn T) bool := λ c,
  match sql_fault (conn_tick c) KPrepare with
  | Some f => (Ret false, conn_failed f c)
  | None => (Ret true, conn_said no_error_msg c)
  end.

(** [sqlite3_step(stmt) == SQLITE_DONE] of an INSERT or UPDATE with the effect [f]. *)
Definition step_write (f : string → T → T) : M (Conn T) bool := λ c,
  match sql_fault (conn_tick c) KStep with
  | Some fl => (Ret false, conn_failed fl c)
  | None => (Ret true, conn_said no_error_msg (conn_write (f (sql_now (conn_tick c)) (conn_view c)) c))
  end.

(** Stepping a SELECT to its end: the rows delivered, and whether the last code was SQLITE_DONE. *)
Definition step_rows {R} (q : T → list R) : M (Conn T) (list R * bool) := λ c,
  match sql_fault (conn_tick c) KStep with
  | Some fl => (Ret (take (fault_rows fl) (q (conn_view c)), false), conn_failed fl c)
  | None => (Ret (q (conn_view c), true), conn_said no_error_msg c)
  end.

Definition step_first {R} (q : T → list R) : M (Conn T) (StepResult R) := λ c,
  match sql_fault (conn_tick c) KStep with
  | Some fl => (Ret StepError, conn_failed fl c)
  | None =>
      (Ret (match q (conn_view c) with r :: _ => StepRow r | [] => StepDone end),
       conn_said no_error_msg c)
  end.

Definition exec_begin : M (Conn T) bool := λ c,
  match sql_fault (conn_tick c) KExec with
  | Some f => (Ret false, conn_failed f c)
  | None =>
      match conn_txn c with
      | Some _ => (Ret false, conn_said "cannot start a transaction within a transaction" c)
      | None => (Ret true, mkConn (conn_main c) (Some (conn_main c)) (S (conn_tick c)) no_error_msg)
      end
  end.

Definition exec_commit : M (Conn T) bool := λ c,
  match sql_fault (conn_tick c) KExec with
  | Some f => (Ret false, conn_failed f c)
  | None =>
      match conn_txn c with
      | Some t => (Ret true, mkConn t None (S (conn_tick c)) no_error_msg)
      | None => (Ret false, conn_said "cannot commit - no transaction is active" c)
      end
  end.

Definition exec_rollback : M (Conn T) bool := λ c,
  match conn_txn c with
  | Some _ => (Ret true, mkConn (conn_main c) None (S (conn_tick c)) no_error_msg)
  | None => (Ret false, conn_said "cannot rollback - no transaction is active" c)
  end.

Definition get_errmsg : M (Conn T) string := λ c, (Ret (conn_errmsg c), c).
End Calls.

(** ** Bound and read values *)

(** [sqlite3_bind_text(stmt, i, s.c_str(), -1, SQLITE_TRANSIENT)] *)
Definition bind_text (s : string) : string := c_str s.

(** [sqlite3_bind_double]: NaN is stored as NULL, and NULL is read back as 0.0. *)
Definition bind_double (x : f64) : option f64 := if is_nan x then None else Some x.

Definition column_double (x : option f64) : f64 := default f64_zero x.

(** [sqlite3_column_int]: the low 32 bits. *)
Definition column_int (z : Z) : Z := wrap32 z.

(** A NULL text column has no bytes. *)
Definition ColumnText (s : option string) : string := default EmptyString s.

(** ** Lemmas: one call *)

Section CallLemmas.
Context `{SqlEnv} {T : Type}.
Implicit Types (c : Conn T) (P : T → Prop).

(** A property of the contents that every call of [m] keeps, whether it returns or throws. *)
Definition conn_ok P c : Prop := P (conn_main c) ∧ ∀ t, conn_txn c = Some t → P t.

Definition preserves {A} P (m : M (Conn T) A) : Prop :=
  ∀ c, conn_ok P c → conn_ok P (m c).2.

Lemma conn_ok_view P c : conn_ok P c → P (conn_view c).
Proof. intros [Hm Ht]. unfold conn_view. destruct (conn_txn c); simpl; auto. Qed.

Lemma preserves_ret {A} P (a : A) : preserves P (ret a).
Proof. by intros c. Qed.

Lemma preserves_throw {A} P w : preserves P (@throw _ A w).
Proof. by intros c. Qed.

Lemma preserves_lift {A} P (o : Outcome A) : preserves P (lift_outcome o).
Proof. by intros c. Qed.

Lemma preserves_bind {A B} P (m : M (Conn T) A) (k : A → M (Conn T) B) :
  preserves P m → (∀ a, preserves P (k a)) → preserves P (bind m k).
Proof.
  intros Hm Hk c Hc. unfold bind. specialize (Hm c Hc).
  destruct (m c) as [[a|w] c']; simpl in *; [by apply Hk|done].
Qed.

Lemma preserves_prepare P : preserves P prepare.
Proof.
  intros c [Hm Ht]. unfold prepare. destruct (sql_fault _ _) as [[r msg []]|]; split; simpl; auto.
  done.
Qed.

Lemma preserves_step_write P f :
  (∀ now t, P t → P (f now t)) → preserves P (step_write f).
Proof.
  intros Hf c [Hm Ht]. unfold step_write. destruct (sql_fault _ _) as [[r msg []]|]; split; simpl; auto.
  - done.
  - unfold conn_write. destruct (conn_txn c) eqn:E; simpl; [done|]. apply Hf.
    unfold conn_view. by rewrite E.
  - unfold conn_write, conn_view. destruct (conn_txn c) eqn:E; simpl; [|done].
    intros t' [= <-]. auto.
Qed.

Lemma preserves_step_rows {R} P (q : T → list R) : preserves P (step_rows q).
Proof.
  intros c [Hm Ht]. unfold step_rows. destruct (sql_fault _ _) as [[r msg []]|]; split; simpl; auto.
  done.
Qed.

Lemma preserves_step_first {R} P (q : T → list R) : preserves P (step_first q).
Proof.
  intros c [Hm Ht]. unfold step_first. destruct (sql_fault _ _) as [[r msg []]|]; split; simpl; auto.
  done.
Qed.

Lemma preserves_get_errmsg P : preserves P get_errmsg.
Proof. by intros c. Qed.

Lemma preserves_begin P : preserves P exec_begin.
Proof.
  intros c [Hm Ht]. unfold exec_begin. destruct (sql_fault _ _) as [[r msg []]|]; simpl.
  1,2: split; simpl; auto; done.
  destruct (conn_txn c) eqn:E; split; simpl; auto. all: naive_solver.
Qed.

Lemma preserves_commit P : preserves P exec_commit.
Proof.
  intros c [Hm Ht]. unfold exec_commit. destruct (sql_fault _ _) as [[r msg []]|]; simpl.
  1,2: split; simpl; auto; done.
  destruct (conn_txn c) eqn:E; split; simpl; auto. all: naive_solver.
Qed.

Lemma preserves_rollback P : preserves P exec_rollback.
Proof.
  intros c [Hm Ht]. unfold exec_rollback. destruct (conn_txn c) eqn:E; split; simpl; auto.
  all: naive_solver.
Qed.

(** The same with what the caller knows of the content before, and what it learns after a return. *)
Definition hoare {A} P (Pre : T → Prop) (m : M (Conn T) A) (Post : A → T → Prop) : Prop :=
  ∀ c, conn_ok P c → Pre (conn_view c) →
    conn_ok P (m c).2 ∧ ∀ a, (m c).1 = Ret a → Post a (conn_view (m c).2).

Lemma hoare_preserves {A} P (m : M (Conn T) A) :
  hoare P (λ _, True) m (λ _ _, True) → preserves P m.
Proof. intros Hm c Hc. by apply Hm. Qed.

Lemma preserves_hoare {A} P Pre (m : M (Conn T) A) : preserves P m → hoare P Pre m (λ _ _, True).
Proof. intros Hm c Hc _. split; [by apply Hm|done]. Qed.

Lemma hoare_ret {A} P Pre (a : A) (Post : A → T → Prop) :
  (∀ t, Pre t → Post a t) → hoare P Pre (ret a) Post.
Proof. intros Hp c Hc Hpre. split; [done|]. intros ? [= <-]. by apply Hp. Qed.

Lemma hoare_bind {A B} P Pre (m : M (Conn T) A) (k : A → M (Conn T) B) Mid (Post : B → T → Prop) :
  hoare P Pre m Mid → (∀ a, hoare P (Mid a) (k a) Post) → hoare P Pre (bind m k) Post.
Proof.
  intros Hm Hk c Hc Hpre. destruct (Hm c Hc Hpre) as [Hc' Hmid]. unfold bind.
  destruct (m c) as [[a|w] c'] eqn:E; simpl in *; [|done]. apply Hk; [done|]. by apply Hmid.
Qed.

Lemma hoare_lift {A B} P Pre (o : Outcome A) (k : A → M (Conn T) B) (Post : B → T → Prop) :
  (∀ a, hoare P Pre (k a) Post) → hoare P Pre (bind (lift_outcome o) k) Post.
Proof. intros Hk c Hc Hpre. unfold bind, lift_outcome. destruct o; [by apply Hk|done]. Qed.

Lemma hoare_prepare P Pre : hoare P Pre prepare (λ ok t, ok = true → Pre t).
Proof.
  intros c Hc Hpre. split; [by apply preserves_prepare|]. unfold prepare.
  destruct (sql_fault _ _); simpl; [by intros a [= <-]|]. by intros a [= <-].
Qed.

Lemma hoare_step_write P (Pre : T → Prop) f (Post : T → Prop) :
  (∀ now t, P t → Pre t → P (f now t) ∧ Post (f now t)) →
  hoare P Pre (step_write f) (λ ok t, ok = true → Post t).
Proof.
  intros Hf c Hc Hpre. pose proof (conn_ok_view _ _ Hc) as Hv. destruct Hc as [Hm Ht].
  unfold step_write. destruct (sql_fault _ _) as [[r msg []]|]; simpl.
  - split; [by split|]. by intros a [= <-].
  - split; [by split|]. by intros a [= <-].
  - destruct (Hf (sql_now (conn_tick c)) (conn_view c) Hv Hpre) as [HP HQ].
    unfold conn_write, conn_ok, conn_view in *. destruct (conn_txn c) eqn:E; simpl in *.
    + split; [split; [done|]; by intros t' [= <-]|]. intros ? _ _. done.
    + split; [split; [done|]; by intros|]. intros ? _ _. done.
Qed.

(** Work inside a transaction leaves the committed content alone, and if it reports success the
    transaction is still open. *)
Definition tx_safe {A} (good : A → bool) (m : M (Conn T) A) : Prop :=
  ∀ c, is_Some (conn_txn c) →
    conn_main (m c).2 = conn_main c ∧
    ∀ a, (m c).1 = Ret a → good a = true → is_Some (conn_txn (m c).2).

Lemma tx_safe_ret {A} good (a : A) : tx_safe good (ret a).
Proof. by intros c. Qed.

Lemma tx_safe_throw {A} good w : tx_safe good (@throw _ A w).
Proof. by intros c. Qed.

(** Sequencing that stops when the first part did not succeed. *)
Lemma tx_safe_bind {A B} (g : A → bool) (h : B → bool) (m : M (Conn T) A) (k : A → M (Conn T) B) :
  tx_safe g m → (∀ a, g a = true → tx_safe h (k a)) →
  (∀ a c, g a = false → conn_main (k a c).2 = conn_main c ∧ ∀ b, (k a c).1 = Ret b → h b = false) →
  tx_safe h (bind m k).
Proof.
  intros Hm Hk Hstop c Hc. unfold bind. destruct (Hm c Hc) as [Hmain Hopen].
  destruct (m c) as [[a|w] c'] eqn:E; simpl in *; [|done].
  destruct (g a) eqn:Hg.
  - destruct (Hk a Hg c') as [Hmain' Hopen']; [by apply (Hopen a)|]. by rewrite Hmain', Hmain.
  - destruct (Hstop a c' Hg) as [-> Hb]. split; [done|]. intros b Hret Hh.
    rewrite (Hb b Hret) in Hh. done.
Qed.

Lemma tx_safe_lift {A B} (h : B → bool) (o : Outcome A) (k : A → M (Conn T) B) :
  (∀ a, tx_safe h (k a)) → tx_safe h (bind (lift_outcome o) k).
Proof. intros Hk c Hc. unfold bind, lift_outcome. destruct o; simpl; [by apply Hk|done]. Qed.

Lemma tx_safe_prepare : tx_safe id prepare.
Proof.
  intros c [t Ht]. unfold prepare. destruct (sql_fault _ _) as [f|]; simpl.
  - split; [done|]. by intros a [= <-].
  - by rewrite Ht.
Qed.

Lemma tx_safe_step_write f : tx_safe id (step_write f).
Proof.
  intros c [t Ht]. unfold step_write. destruct (sql_fault _ _) as [fl|]; simpl.
  - split; [done|]. by intros a [= <-].
  - unfold conn_write. by rewrite Ht.
Qed.
End CallLemmas.

(** ** Lemmas: what successful work in a transaction has done *)

Section Does.
Context `{SqlEnv} {T : Type}.
Implicit Types (c : Conn T).

(** [tx_safe], and the relation [R] between the contents before and after when the result is good. *)
Definition tx_does {A} (good : A → bool) (R : A → T → T → Prop) (m : M (Conn T) A) : Prop :=
  ∀ c, is_Some (conn_txn c) →
    conn_main (m c).2 = conn_main c ∧
    ∀ a, (m c).1 = Ret a → good a = true →
      is_Some (conn_txn (m c).2) ∧ R a (conn_view c) (conn_view (m c).2).

Lemma tx_does_safe {A} good R (m : M (Conn T) A) : tx_does good R m → tx_safe good m.
Proof. intros Hm c Hc. destruct (Hm c Hc) as [? Ha]. split; [done|]. intros a H1 H2. by apply (Ha a). Qed.

Lemma tx_does_weaken {A} good (R R' : A → T → T → Prop) (m : M (Conn T) A) :
  (∀ a t t', R a t t' → R' a t t') → tx_does good R m → tx_does good R' m.
Proof.
  intros HR Hm c Hc. destruct (Hm c Hc) as [? Ha]. split; [done|]. intros a H1 H2.
  destruct (Ha a H1 H2). split; [done|]. by apply HR.
Qed.

Lemma tx_does_ret {A} good (R : A → T → T → Prop) (a : A) :
  (good a = true → ∀ t, R a t t) → tx_does good R (ret a).
Proof. intros HR c Hc. split; [done|]. intros a' [= <-] Hg. split; [done|]. by apply HR. Qed.

Lemma tx_does_bad {A} good (R : A → T → T → Prop) (a : A) : good a = false → tx_does good R (ret a).
Proof. intros Hb. apply tx_does_ret. congruence. Qed.

Lemma tx_does_bind {A B} (g : A → bool) (h : B → bool) (R1 : A → T → T → Prop)
    (R2 : A → B → T → T → Prop) (R : B → T → T → Prop) (m : M (Conn T) A) (k : A → M (Conn T) B) :
  tx_does g R1 m → (∀ a, g a = true → tx_does h (R2 a) (k a)) →
  (∀ a c, g a = false → conn_main (k a c).2 = conn_main c ∧ ∀ b, (k a c).1 = Ret b → h b = false) →
  (∀ a b t1 t2 t3, R1 a t1 t2 → R2 a b t2 t3 → R b t1 t3) →
  tx_does h R (bind m k).
Proof.
  intros Hm Hk Hstop HR c Hc. unfold bind. destruct (Hm c Hc) as [Hmain Hopen].
  destruct (m c) as [[a|w] c'] eqn:E; simpl in *; [|done].
  destruct (g a) eqn:Hg.
  - destruct (Hopen a eq_refl Hg) as [Hc' HR1]. destruct (Hk a Hg c' Hc') as [Hmain' Hopen'].
    rewrite Hmain', Hmain. split; [done|]. intros b Hb Hh. destruct (Hopen' b Hb Hh) as [? HR2].
    split; [done|]. by eapply HR.
  - destruct (Hstop a c' Hg) as [-> Hb]. split; [done|]. intros b Hret Hh.
    rewrite (Hb b Hret) in Hh. done.
Qed.

Lemma tx_does_lift {A B} (h : B → bool) R (o : Outcome A) (k : A → M (Conn T) B) :
  (∀ a, tx_does h R (k a)) → tx_does h R (bind (lift_outcome o) k).
Proof. intros Hk c Hc. unfold bind, lift_outcome. destruct o; simpl; [by apply Hk|done]. Qed.

Lemma tx_does_prepare : tx_does id (λ _ t t', t' = t) prepare.
Proof.
  intros c [t Ht]. unfold prepare. destruct (sql_fault _ _) as [f|]; simpl.
  - split; [done|]. by intros a [= <-].
  - split; [done|]. intros a [= <-] _. rewrite Ht. split; [by eexists|]. done.
Qed.

Lemma tx_does_step_write f : tx_does id (λ _ t t', ∃ now, t' = f now t) (step_write f).
Proof.
  intros c [t Ht]. unfold step_write. destruct (sql_fault _ _) as [fl|]; simpl.
  - split; [done|]. by intros a [= <-].
  - unfold conn_write. rewrite Ht. simpl. split; [done|]. intros a [= <-] _. split; [by eexists|].
    unfold conn_view. simpl. rewrite Ht. by eexists.
Qed.

(** A call that returns a good result whatever the state. *)
Definition returns {A} (good : A → bool) (m : M (Conn T) A) : Prop :=
  ∀ c, ∃ a c', m c = (Ret a, c') ∧ good a = true.

Lemma returns_ret {A} (good : A → bool) (a : A) : good a = true → returns good (ret a).
Proof. intros Ha c. by exists a, c. Qed.

Lemma returns_bind {A B} (g : A → bool) (h : B → bool) (m : M (Conn T) A) (k : A → M (Conn T) B) :
  returns g m → (∀ a, g a = true → returns h (k a)) → returns h (bind m k).
Proof.
  intros Hm Hk c. destruct (Hm c) as (a & c1 & E & Ha). destruct (Hk a Ha c1) as (b & c2 & E2 & Hb).
  exists b, c2. unfold bind. by rewrite E.
Qed.

Lemma returns_lift {A B} (h : B → bool) (o : Outcome A) a (k : A → M (Conn T) B) :
  o = Ret a → returns h (k a) → returns h (bind (lift_outcome o) k).
Proof. intros -> Hk c. apply Hk. Qed.
End Does.
