(* ===== verification/StoreInterface.v ===== *)
(** * The store interfaces (src/src/storage/store.h)

    The pure virtual classes of store.h as type classes over the state of an implementation: [X] is
    the state a transaction works on, [S] that of the store. Clients (the consolidation services,
    the context builder, the payload service) are written against them; [Store] has the instances
    for the SQLite store. *)

From Stdlib Require Import ZArith Ascii String.
From stdpp Require Import base list strings.
From S2P Require Import Prelude CppString Floats Json Types.

Open Scope am_scope.

(** [class MemoryStoreTransaction] *)
Class MemoryStoreTransaction (X : Type) : Type := {
  tx_SaveSummary (agentId sessionId level topic summary : string) (confidence : f32)
    (sourceRefs : list string) : M X MemoryOperationResult;
  tx_SaveEntity (entity : MemoryEntity) : M X MemoryOperationResult;
  tx_SaveRelation (relation : MemoryRelation) : M X MemoryOperationResult;
  tx_MarkEntityObsolete (entityId supersededBy : string) : M X MemoryOperationResult;
  tx_SaveConsolidationCursor (agentId sessionId cursor : string) : M X MemoryOperationResult
}.

(** [class MemoryEventStore] *)
Class MemoryEventStore (S : Type) : Type := {
  st_SaveEvent (event : MemoryEvent) : M S MemoryOperationResult;
  st_LoadEventsAfterCursor (agentId sessionId cursor : string) (excludedSessionIds : list string)
    : M S MemoryEventsResult;
  st_LoadRecentEvents (agentId sessionId : string) (limit : Z) : M S MemoryEventsResult
}.

(** [class MemoryPayloadStore] *)
Class MemoryPayloadStore (S : Type) : Type := {
  st_SavePayload (payload : MemoryPayloadRef) : M S MemoryOperationResult;
  st_LoadRecentPayloads (agentId sessionId : string) (limit : Z) : M S MemoryPayloadRefsResult
}.

(** [class MemoryLongTermStore] *)
Class MemoryLongTermStore (S X : Type) `{MemoryStoreTransaction X} : Type := {
  (** the work's second result is the value of the variables it captures, [captured] before it *)
  st_RunInTransaction {W : Type} (captured : W) (work : M X (MemoryOperationResult * W))
    : M S (MemoryOperationResult * W);
  st_LoadConsolidationCursor (agentId sessionId : string) : M S ConsolidationCursorResult;
  st_SaveConsolidationCursor (agentId sessionId cursor : string) : M S MemoryOperationResult;
  st_LoadLongTermMemory (agentId : string) (limit : Z) (sessionId : string)
    : M S LongTermMemorySnapshotResult
}.

(** [class MemorySearchStore] *)
Class MemorySearchStore (S : Type) : Type := {
  st_SearchLongTermMemory (request : MemorySearchRequest) : M S MemorySearchStoreResult
}.

(** [class MemoryStatsStore] *)
Class MemoryStatsStore (S : Type) : Type := {
  st_GetStoreStats : M S MemoryStatsResult
}.
