(* ===== verification/Store.v ===== *)
(** * The SQLite store: src/src/storage/sqlite_store.{h,cpp}

    The tables with the triggers that keep their full-text indexes, one Definition per private
    [*Unlocked] operation, per method of [SqliteStoreTransaction] and per public method of
    [MemorySqliteStore]; the search is in [StoreSearch], [Initialize] in [Schema]. A table is the
    list of its rows in insertion order; a SQL statement of the source is the function on the tables
    that its text says. Text columns that the source always binds are plain strings. *)

From Stdlib Require Import ZArith Lia Ascii String.
From stdpp Require Import base list strings gmap sorting.
From S2P Require Import Prelude CppString Floats Json Types Sqlite StoreInterface.

Open Scope am_scope.

(** ** Tables *)

Record EventRow := mkEventRow {
  ev_id : Z;
  ev_agent_id : string;
  ev_session_id : string;
  ev_event_type : Z;
  ev_role : string;
  ev_content : string;
  ev_payload_ref : string;
  ev_tool_call_id : string;
  ev_tool_name : string;
  ev_metadata_json : string;
  ev_created_at : string
}.

Record PayloadRow := mkPayloadRow {
  pl_id : Z;
  pl_agent_id : string;
  pl_session_id : string;
  pl_ref : string;
  pl_content_type : string;
  pl_tool_name : string;
  pl_summary : string;
  pl_original_chars : Z;
  pl_created_at : string
}.

Record SummaryRow := mkSummaryRow {
  su_id : Z;
  su_agent_id : string;
  su_session_id : string;
  su_level : string;
  su_topic : string;
  su_summary : string;
  su_source_refs_json : string;
  su_confidence : option f64;
  su_updated_at : string
}.

(** [en_rowid] is the implicit rowid; [en_id] the TEXT primary key. *)
Record EntityRow := mkEntityRow {
  en_rowid : Z;
  en_id : string;
  en_agent_id : string;
  en_type : string;
  en_name : string;
  en_summary : string;
  en_confidence : option f64;
  en_source_refs_json : string;
  en_metadata_json : string;
  en_active : bool;
  en_superseded_by : option string;
  en_updated_at : string
}.

Record RelationRow := mkRelationRow {
  re_id : Z;
  re_agent_id : string;
  re_from_entity : string;
  re_relation : string;
  re_to_entity : string;
  re_confidence : option f64;
  re_source_refs_json : string;
  re_metadata_json : string;
  re_active : bool;
  re_updated_at : string
}.

(** A full-text index: the indexed columns by rowid. *)
Notation FtsIndex := (gmap Z (list string)).

Record Tables := mkTables {
  t_events : list EventRow;
  t_payloads : list PayloadRow;
  t_summaries : list SummaryRow;
  t_entities : list EntityRow;
  t_relations : list RelationRow;
  t_cursors : gmap (string * string) Z;
  t_fts_summaries : FtsIndex;
  t_fts_entities : FtsIndex;
  t_fts_relations : FtsIndex
}.

Definition empty_tables : Tables := mkTables [] [] [] [] [] ∅ ∅ ∅ ∅.

Definition set_events l t := mkTables l (t_payloads t) (t_summaries t) (t_entities t)
  (t_relations t) (t_cursors t) (t_fts_summaries t) (t_fts_entities t) (t_fts_relations t).
Definition set_payloads l t := mkTables (t_events t) l (t_summaries t) (t_entities t)
  (t_relations t) (t_cursors t) (t_fts_summaries t) (t_fts_entities t) (t_fts_relations t).
Definition set_summaries l i t := mkTables (t_events t) (t_payloads t) l (t_entities t)
  (t_relations t) (t_cursors t) i (t_fts_entities t) (t_fts_relations t).
Definition set_entities l i t := mkTables (t_events t) (t_payloads t) (t_summaries t) l
  (t_relations t) (t_cursors t) (t_fts_summaries t) i (t_fts_relations t).
Definition set_relations l i t := mkTables (t_events t) (t_payloads t) (t_summaries t)
  (t_entities t) l (t_cursors t) (t_fts_summaries t) (t_fts_entities t) i.
Definition set_cursors m t := mkTables (t_events t) (t_payloads t) (t_summaries t) (t_entities t)
  (t_relations t) m (t_fts_summaries t) (t_fts_entities t) (t_fts_relations t).

(** The id an AUTOINCREMENT or rowid column gives the next row (no row is ever deleted). *)
Definition next_id (ids : list Z) : Z := (foldr Z.max 0 ids + 1)%Z.

(** ** The triggers fts_mem_*_ai and fts_mem_*_au *)

Definition fts_summary_columns (r : SummaryRow) : list string := [su_level r; su_topic r; su_summary r].
Definition fts_entity_columns (r : EntityRow) : list string := [en_type r; en_name r; en_summary r].
Definition fts_relation_columns (r : RelationRow) : list string :=
  [re_from_entity r; re_relation r; re_to_entity r].

(** The 'delete' command takes the entry out when it is given the columns that were indexed. *)
Definition fts_delete (rowid : Z) (columns : list string) (i : FtsIndex) : FtsIndex :=
  if decide (i !! rowid = Some columns) then delete rowid i else i.

Definition fts_insert (rowid : Z) (columns : list string) (i : FtsIndex) : FtsIndex :=
  <[rowid := columns]> i.

Definition fts_update (rowid : Z) (old new : list string) (i : FtsIndex) : FtsIndex :=
  fts_insert rowid new (fts_delete rowid old i).

(** ** Statements *)

Definition insert_event (agent session : string) (type : Z) (role content payload_ref tool_call_id
    tool_name metadata_json now : string) (t : Tables) : Tables :=
  set_events (t_events t ++ [mkEventRow (next_id (ev_id <$> t_events t)) agent session type role content
                               payload_ref tool_call_id tool_name metadata_json now]) t.

(** UPDATE ... SET [upd] WHERE [sel]. *)
Definition update_where {R} (sel : R → bool) (upd : R → R) (rows : list R) : list R :=
  (λ r, if sel r then upd r else r) <$> rows.

(** INSERT ... ON CONFLICT(ref) DO UPDATE: an existing row keeps its id and creation time. *)
Definition upsert_payload (agent session ref content_type tool_name summary : string)
    (original_chars : Z) (now : string) (t : Tables) : Tables :=
  if existsb (λ r, bool_decide (pl_ref r = ref)) (t_payloads t) then
    set_payloads (update_where (λ r, bool_decide (pl_ref r = ref))
      (λ r, mkPayloadRow (pl_id r) agent session ref content_type tool_name summary original_chars
              (pl_created_at r)) (t_payloads t)) t
  else
    set_payloads (t_payloads t ++ [mkPayloadRow (next_id (pl_id <$> t_payloads t)) agent session ref
                                     content_type tool_name summary original_chars now]) t.

Definition insert_summary (agent session level topic summary : string) (confidence : option f64)
    (source_refs_json now : string) (t : Tables) : Tables :=
  let row := mkSummaryRow (next_id (su_id <$> t_summaries t)) agent session level topic summary
               source_refs_json confidence now in
  set_summaries (t_summaries t ++ [row])
    (fts_insert (su_id row) (fts_summary_columns row) (t_fts_summaries t)) t.

(** The trigger fired for each of the rows an UPDATE changes. *)
Definition fts_updates {R} (id : R → Z) (columns : R → list string) (sel : R → bool) (upd : R → R)
    (rows : list R) (i : FtsIndex) : FtsIndex :=
  foldl (λ i r, if sel r then fts_update (id r) (columns r) (columns (upd r)) i else i) i rows.

Definition update_entities (sel : EntityRow → bool) (upd : EntityRow → EntityRow) (t : Tables) : Tables :=
  set_entities (update_where sel upd (t_entities t))
    (fts_updates en_rowid fts_entity_columns sel upd (t_entities t) (t_fts_entities t)) t.

Definition update_relations (sel : RelationRow → bool) (upd : RelationRow → RelationRow) (t : Tables)
    : Tables :=
  set_relations (update_where sel upd (t_relations t))
    (fts_updates re_id fts_relation_columns sel upd (t_relations t) (t_fts_relations t)) t.

Definition entity_obsolete (superseded_by now : string) (r : EntityRow) : EntityRow :=
  mkEntityRow (en_rowid r) (en_id r) (en_agent_id r) (en_type r) (en_name r) (en_summary r)
    (en_confidence r) (en_source_refs_json r) (en_metadata_json r) false (Some superseded_by) now.

Definition relation_obsolete (now : string) (r : RelationRow) : RelationRow :=
  mkRelationRow (re_id r) (re_agent_id r) (re_from_entity r) (re_relation r) (re_to_entity r)
    (re_confidence r) (re_source_refs_json r) (re_metadata_json r) false now.

(** INSERT ... ON CONFLICT(id) DO UPDATE: an existing row keeps its rowid. *)
Definition upsert_entity (id agent type name summary : string) (confidence : option f64)
    (source_refs_json metadata_json : string) (active : bool) (superseded_by : option string)
    (now : string) (t : Tables) : Tables :=
  let row rowid := mkEntityRow rowid id agent type name summary confidence source_refs_json
                     metadata_json active superseded_by now in
  if existsb (λ r, bool_decide (en_id r = id)) (t_entities t) then
    update_entities (λ r, bool_decide (en_id r = id)) (λ r, row (en_rowid r)) t
  else
    let new := row (next_id (en_rowid <$> t_entities t)) in
    set_entities (t_entities t ++ [new])
      (fts_insert (en_rowid new) (fts_entity_columns new) (t_fts_entities t)) t.

Definition insert_relation (agent from relation to : string) (confidence : option f64)
    (source_refs_json metadata_json now : string) (t : Tables) : Tables :=
  let row := mkRelationRow (next_id (re_id <$> t_relations t)) agent from relation to confidence
               source_refs_json metadata_json true now in
  set_relations (t_relations t ++ [row])
    (fts_insert (re_id row) (fts_relation_columns row) (t_fts_relations t)) t.

Definition upsert_cursor (agent session : string) (cursor : Z) (t : Tables) : Tables :=
  set_cursors (<[(agent, session) := cursor]> (t_cursors t)) t.

(** ** Helpers of sqlite_store.cpp *)

Section Helpers.
Context `{JsonText}.

Definition SerializeSourceRefs (refs : list string) : Outcome string :=
  json_dump (strings_to_json refs).

Definition ParseJsonSafely (text : string) : json :=
  match json_parse_noexcept text with
  | Some j => if is_object j then j else json_object
  | None => json_object
  end.

Definition ExtractSourceRefsFromJson (j : json) : list string :=
  let source := if is_object j && json_contains j "sourceRefs" then json_at j "sourceRefs" else j in
  if negb (is_array source) then [] else StringVectorFromJson source.

Definition ParseSourceRefsColumn (text : string) : list string :=
  if is_empty text then []
  else match json_parse_noexcept text with
       | Some j => ExtractSourceRefsFromJson j
       | None => []
       end.

(** An integer that is not of the enum is never stored: [SaveEvent] binds a value of the enum. *)
Definition ReadEventRow (r : EventRow) : MemoryEvent :=
  mkEvent (default SESSION_STARTED (event_type_of_int (column_int (ev_event_type r))))
    (ev_agent_id r) (ev_session_id r) (ev_role r) (ev_content r) (ev_tool_call_id r)
    (ev_tool_name r) (ev_payload_ref r) (to_string (ev_id r)) (ParseJsonSafely (ev_metadata_json r)) "".

Definition CursorToInt (cursor : string) : Z :=
  if is_empty cursor then 0
  else match stoll cursor with Some z => z | None => 0 end.
End Helpers.

Definition SqliteErrorMessage {T} : M (Conn T) string :=
  let* message := get_errmsg in
  ret (if is_empty message then "sqlite operation failed" else message).

Definition SqliteFailure {T} (context : string) : M (Conn T) MemoryOperationResult :=
  let* details := SqliteErrorMessage in
  ret (MemoryFailure "sqlite_error" "sqlite operation failed" (context +:+ ": " +:+ details) true).

Definition store_unavailable : MemoryOperationResult :=
  MemoryFailure "store_unavailable" "sqlite store is not initialized" "" false.

(** ** The unlocked operations *)

Section Unlocked.
Context `{JsonText} `{SqlEnv}.

(** [SQLiteStatement stmt(db_, sql); if (!stmt) return false;] and the step that follows. *)
Definition run_write (f : string → Tables → Tables) : M (Conn Tables) bool :=
  let* ok := prepare in
  if negb ok then ret false else step_write f.

Definition SaveEventUnlocked (event : MemoryEvent) : M (Conn Tables) bool :=
  let* ok := prepare in
  if negb ok then ret false
  else
    let* metadataJson := lift_outcome (json_dump (JsonObject (event_metadata event))) in
    step_write (λ now, insert_event (bind_text (event_agentId event)) (bind_text (event_sessionId event))
      (event_type_to_int (event_type event)) (bind_text (event_role event))
      (bind_text (event_content event)) (bind_text (event_payloadRef event))
      (bind_text (event_toolCallId event)) (bind_text (event_toolName event))
      (bind_text metadataJson) now).

Definition SavePayloadUnlocked (payload : MemoryPayloadRef) : M (Conn Tables) bool :=
  run_write (λ now, upsert_payload (bind_text (payload_agentId payload))
    (bind_text (payload_sessionId payload)) (bind_text (payload_uri payload))
    (bind_text (payload_contentType payload)) (bind_text (payload_toolName payload))
    (bind_text (payload_summary payload)) (payload_originalChars payload) now).

Definition SaveSummaryUnlocked (agentId sessionId level topic summary : string) (confidence : f32)
    (sourceRefs : list string) : M (Conn Tables) bool :=
  let* refsStr := lift_outcome (SerializeSourceRefs sourceRefs) in
  run_write (λ now, insert_summary (bind_text agentId) (bind_text sessionId) (bind_text level)
    (bind_text topic) (bind_text summary) (bind_double (f64_of_f32 confidence)) (bind_text refsStr) now).

Definition MarkDuplicateEntitiesObsoleteUnlocked (entity : MemoryEntity) : M (Conn Tables) bool :=
  if is_empty (entity_id entity) || is_empty (entity_agentId entity) ||
     is_empty (entity_entityType entity) || is_empty (entity_name entity)
  then ret true
  else
    run_write (λ now, update_entities
      (λ r, bool_decide (en_agent_id r = bind_text (entity_agentId entity)) &&
            bool_decide (en_type r = bind_text (entity_entityType entity)) &&
            bool_decide (en_name r = bind_text (entity_name entity)) &&
            negb (bool_decide (en_id r = bind_text (entity_id entity))) && en_active r)
      (entity_obsolete (bind_text (entity_id entity)) now)).

Definition MarkEntityObsoleteUnlocked (entityId supersededBy : string) : M (Conn Tables) bool :=
  run_write (λ now, update_entities (λ r, bool_decide (en_id r = bind_text entityId))
    (entity_obsolete (bind_text supersededBy) now)).

Definition SaveEntityUnlocked (entity : MemoryEntity) : M (Conn Tables) bool :=
  let metadata := JsonObject (entity_metadata entity) in
  let* refsStr := lift_outcome (SerializeSourceRefs (entity_sourceRefs entity)) in
  let* metadataStr := lift_outcome (json_dump metadata) in
  let* marked := MarkDuplicateEntitiesObsoleteUnlocked entity in
  if negb marked then ret false
  else
    let* ok := run_write (λ now, upsert_entity (bind_text (entity_id entity))
      (bind_text (entity_agentId entity)) (bind_text (entity_entityType entity))
      (bind_text (entity_name entity)) (bind_text (entity_summary entity))
      (bind_double (f64_of_f32 (entity_confidence entity))) (bind_text refsStr)
      (bind_text metadataStr) (entity_isActive entity)
      (if is_empty (entity_supersededByEntityId entity) then None
       else Some (bind_text (entity_supersededByEntityId entity))) now) in
    if negb ok then ret false
    else if negb (is_empty (entity_supersededEntityId entity)) then
      MarkEntityObsoleteUnlocked (entity_supersededEntityId entity) (entity_id entity)
    else ret true.

Definition SaveRelationUnlocked (relation : MemoryRelation) : M (Conn Tables) bool :=
  let* refsStr := lift_outcome (SerializeSourceRefs (relation_sourceRefs relation)) in
  let metadata := JsonObject (relation_metadata relation) in
  let metadata :=
    if bool_decide (relation_relationType relation = "contradicts")
    then json_set (json_set metadata "conflict" (JBool true)) "conflictsWithEntityId"
           (JString (relation_toEntityId relation))
    else metadata in
  let* metadataStr := lift_outcome (json_dump metadata) in
  let* obsoleted := run_write (λ now, update_relations
    (λ r, bool_decide (re_from_entity r = bind_text (relation_fromEntityId relation)) &&
          bool_decide (re_relation r = bind_text (relation_relationType relation)) &&
          bool_decide (re_to_entity r = bind_text (relation_toEntityId relation)) &&
          re_active r && bool_decide (re_agent_id r = bind_text (relation_agentId relation)))
    (relation_obsolete now)) in
  if negb obsoleted then ret false
  else
    let* ok := run_write (λ now, insert_relation (bind_text (relation_agentId relation))
      (bind_text (relation_fromEntityId relation)) (bind_text (relation_relationType relation))
      (bind_text (relation_toEntityId relation)) (bind_double (f64_of_f32 (relation_confidence relation)))
      (bind_text refsStr) (bind_text metadataStr) now) in
    if negb ok then ret false
    else if bool_decide (relation_relationType relation = "supersedes") then
      MarkEntityObsoleteUnlocked (relation_toEntityId relation) (relation_fromEntityId relation)
    else ret true.

Definition SaveConsolidationCursorUnlocked (agentId sessionId cursor : string) : M (Conn Tables) bool :=
  run_write (λ now, upsert_cursor (bind_text agentId) (bind_text sessionId) (CursorToInt cursor)).

(** [ok ? MemorySuccess() : SqliteFailure(db_, context)] *)
Definition op_result (context : string) (m : M (Conn Tables) bool) : M (Conn Tables) MemoryOperationResult :=
  let* ok := m in
  if ok then ret MemorySuccess else SqliteFailure context.
End Unlocked.

(** ** [class SqliteStoreTransaction] *)

Section Transaction.
Context `{JsonText} `{SqlEnv}.

Definition Transaction_SaveSummary agentId sessionId level topic summary confidence sourceRefs :=
  op_result "Transaction::SaveSummary"
    (SaveSummaryUnlocked agentId sessionId level topic summary confidence sourceRefs).

Definition Transaction_SaveEntity (entity : MemoryEntity) :=
  op_result "Transaction::SaveEntity" (SaveEntityUnlocked entity).

Definition Transaction_SaveRelation (relation : MemoryRelation) :=
  op_result "Transaction::SaveRelation" (SaveRelationUnlocked relation).

Definition Transaction_MarkEntityObsolete (entityId supersededBy : string) :=
  op_result "Transaction::MarkEntityObsolete" (MarkEntityObsoleteUnlocked entityId supersededBy).

Definition Transaction_SaveConsolidationCursor (agentId sessionId cursor : string) :=
  op_result "Transaction::SaveConsolidationCursor"
    (SaveConsolidationCursorUnlocked agentId sessionId cursor).

#[export] Instance SqliteStoreTransaction : MemoryStoreTransaction (Conn Tables) := {
  tx_SaveSummary := Transaction_SaveSummary;
  tx_SaveEntity := Transaction_SaveEntity;
  tx_SaveRelation := Transaction_SaveRelation;
  tx_MarkEntityObsolete := Transaction_MarkEntityObsolete;
  tx_SaveConsolidationCursor := Transaction_SaveConsolidationCursor
}.
End Transaction.

(** ** [class MemorySqliteStore] *)

Record MemorySqliteStore := mkSqliteStore {
  dbPath_ : string;
  db_ : option (Conn Tables)
}.

(** [if (db_ == nullptr) return unavailable;] and then the work on the connection. The mutex makes
    each of these a single step of the store. *)
Definition on_db {A} (unavailable : A) (m : M (Conn Tables) A) : M MemorySqliteStore A := λ s,
  match db_ s with
  | None => (Ret unavailable, s)
  | Some c => let '(r, c') := m c in (r, mkSqliteStore (dbPath_ s) (Some c'))
  end.

Section Public.
Context `{JsonText} `{SqlEnv}.

Definition SaveEvent (event : MemoryEvent) : M MemorySqliteStore MemoryOperationResult :=
  on_db store_unavailable (op_result "SaveEvent" (SaveEventUnlocked event)).

Definition SavePayload (payload : MemoryPayloadRef) : M MemorySqliteStore MemoryOperationResult :=
  on_db store_unavailable (op_result "SavePayload" (SavePayloadUnlocked payload)).

Definition SaveSummary (agentId sessionId level topic summary : string) (confidence : f32)
    (sourceRefs : list string) : M MemorySqliteStore MemoryOperationResult :=
  on_db store_unavailable (op_result "SaveSummary"
    (SaveSummaryUnlocked agentId sessionId level topic summary confidence sourceRefs)).

Definition SaveEntity (entity : MemoryEntity) : M MemorySqliteStore MemoryOperationResult :=
  on_db store_unavailable (op_result "SaveEntity" (SaveEntityUnlocked entity)).

Definition SaveRelation (relation : MemoryRelation) : M MemorySqliteStore MemoryOperationResult :=
  on_db store_unavailable (op_result "SaveRelation" (SaveRelationUnlocked relation)).

Definition MarkEntityObsolete (entityId supersededBy : string)
    : M MemorySqliteStore MemoryOperationResult :=
  on_db store_unavailable (op_result "MarkEntityObsolete"
    (MarkEntityObsoleteUnlocked entityId supersededBy)).

Definition SaveConsolidationCursor (agentId sessionId cursor : string)
    : M MemorySqliteStore MemoryOperationResult :=
  on_db store_unavailable (op_result "SaveConsolidationCursor"
    (SaveConsolidationCursorUnlocked agentId sessionId cursor)).

(** The work is a closure: the local variables of the caller it captures by reference are the second
    part of what it returns, and [captured] is their value before. An exception of [work] leaves
    through this function: nothing commits or rolls back. *)
Definition run_in_transaction {W} (captured : W) (work : M (Conn Tables) (MemoryOperationResult * W))
    : M (Conn Tables) (MemoryOperationResult * W) :=
  let* begun := exec_begin in
  if negb begun then
    let* e := SqliteFailure "RunInTransaction::begin" in
    ret (e, captured)
  else
    let* worked := work in
    let result := worked.1 in
    if op_succeeded result then
      let* committed := exec_commit in
      if negb committed then
        let* commitResult := SqliteFailure "RunInTransaction::commit" in
        let* _ := exec_rollback in
        ret (commitResult, worked.2)
      else ret (MemorySuccess, worked.2)
    else
      let* _ := exec_rollback in
      ret (if HasError (op_error result) then result
           else MemoryFailure "transaction_failed" "transaction work failed" "" false, worked.2).

Definition RunInTransaction {W} (captured : W) (work : M (Conn Tables) (MemoryOperationResult * W))
    : M MemorySqliteStore (MemoryOperationResult * W) :=
  on_db (store_unavailable, captured) (run_in_transaction captured work).

(** [~MemorySqliteStore]: what is left of the database file. *)
Definition destroy (s : MemorySqliteStore) : option Tables :=
  match db_ s with
  | None => None
  | Some c => Some (conn_main (exec_rollback c).2)
  end.

(** The rows of a SELECT that is prepared and stepped to its end, or the error of the [context]
    that failed with the rows read before it. *)
Definition select {R} (context_prepare context_step : string) (q : Tables → list R)
    : M (Conn Tables) (list R * option MemoryError) :=
  let* ok := prepare in
  if negb ok then
    let* e := SqliteFailure context_prepare in
    ret ([], Some (op_error e))
  else
    let* res := step_rows q in
    if res.2 then ret (res.1, None)
    else
      let* e := SqliteFailure context_step in
      ret (res.1, Some (op_error e)).

Definition LoadConsolidationCursor (agentId sessionId : string)
    : M MemorySqliteStore ConsolidationCursorResult :=
  on_db (mkCursorResult false "" (op_error store_unavailable))
    (let* ok := prepare in
     if negb ok then
       let* e := SqliteFailure "LoadConsolidationCursor::prepare" in
       ret (mkCursorResult false "" (op_error e))
     else
       let* rc := step_first (λ t,
         match t_cursors t !! (bind_text agentId, bind_text sessionId) with
         | Some cursor => [cursor]
         | None => []
         end) in
       match rc with
       | StepRow cursor => ret (mkCursorResult true (to_string cursor) no_error)
       | StepDone => ret (mkCursorResult true "" no_error)
       | StepError =>
           let* e := SqliteFailure "LoadConsolidationCursor::step" in
           ret (mkCursorResult false "" (op_error e))
       end).

(** [agent_id = ? AND (? = '' OR session_id = ?)] *)
Definition session_scope (agentId sessionId row_agent row_session : string) : bool :=
  bool_decide (row_agent = bind_text agentId) &&
  (bool_decide (bind_text sessionId = "") || bool_decide (row_session = bind_text sessionId)).

Definition by_event_id (r1 r2 : EventRow) : bool := (ev_id r1 <=? ev_id r2)%Z.

(** The SELECT for a session has no exclusion; the one for the agent excludes by [NOT IN]. *)
Definition events_after_cursor (agentId sessionId : string) (cursorValue : Z)
    (excludedSessionIds : list string) (t : Tables) : list EventRow :=
  sort_by by_event_id (filter (λ r,
    (cursorValue <? ev_id r)%Z && bool_decide (ev_agent_id r = bind_text agentId) &&
    (if negb (is_empty sessionId)
     then bool_decide (ev_session_id r = bind_text sessionId)
     else bool_decide (ev_session_id r ∉ (bind_text <$> excludedSessionIds)))) (t_events t)).

Definition LoadEventsAfterCursor (agentId sessionId cursor : string) (excludedSessionIds : list string)
    : M MemorySqliteStore MemoryEventsResult :=
  on_db (mkEventsResult false [] (op_error store_unavailable))
    (let cursorValue := CursorToInt cursor in
     let* res := select "LoadEventsAfterCursor::prepare" "LoadEventsAfterCursor::step"
                   (events_after_cursor agentId sessionId cursorValue excludedSessionIds) in
     let events := ReadEventRow <$> res.1 in
     ret (match res.2 with
          | Some e => mkEventsResult false events e
          | None => mkEventsResult true events no_error
          end)).

Definition recent_events (agentId sessionId : string) (limit : Z) (t : Tables) : list EventRow :=
  take (Z.to_nat limit) (sort_by (desc by_event_id)
    (filter (λ r, session_scope agentId sessionId (ev_agent_id r) (ev_session_id r)) (t_events t))).

Definition LoadRecentEvents (agentId sessionId : string) (limit : Z)
    : M MemorySqliteStore MemoryEventsResult :=
  on_db (mkEventsResult false [] (op_error store_unavailable))
    (let effectiveLimit := if (0 <? limit)%Z then limit else 20%Z in
     let* res := select "LoadRecentEvents::prepare" "LoadRecentEvents::step"
                   (recent_events agentId sessionId effectiveLimit) in
     let events := ReadEventRow <$> res.1 in
     ret (match res.2 with
          | Some e => mkEventsResult false events e
          | None => mkEventsResult true (reverse events) no_error
          end)).

(** [ORDER BY created_at DESC, id DESC] and the like, on the pair of a text and an id. *)
Definition text_then_id (k1 k2 : string * Z) : bool :=
  str_lt k2.1 k1.1 || (bool_decide (k1.1 = k2.1) && (k2.2 <=? k1.2)%Z).

Definition recent_payloads (agentId sessionId : string) (limit : Z) (t : Tables) : list PayloadRow :=
  take (Z.to_nat limit) (sort_by (λ r1 r2, text_then_id (pl_created_at r1, pl_id r1) (pl_created_at r2, pl_id r2))
    (filter (λ r, session_scope agentId sessionId (pl_agent_id r) (pl_session_id r)) (t_payloads t))).

Definition ReadPayloadRow (r : PayloadRow) : MemoryPayloadRef :=
  mkPayloadRef (pl_agent_id r) (pl_session_id r) (pl_ref r) (pl_content_type r) (pl_summary r)
    (pl_tool_name r) (column_int (pl_original_chars r)) json_object (pl_created_at r).

Definition LoadRecentPayloads (agentId sessionId : string) (limit : Z)
    : M MemorySqliteStore MemoryPayloadRefsResult :=
  on_db (mkPayloadRefsResult false [] (op_error store_unavailable))
    (let* res := select "LoadRecentPayloads::prepare" "LoadRecentPayloads::step"
                   (recent_payloads agentId sessionId (if (0 <? limit)%Z then limit else 20%Z)) in
     let payloads := ReadPayloadRow <$> res.1 in
     ret (match res.2 with
          | Some e => mkPayloadRefsResult false payloads e
          | None => mkPayloadRefsResult true payloads no_error
          end)).
End Public.

(** ** LoadLongTermMemory *)

(** [ORDER BY updated_at DESC] of the entities leaves the order of equal times to SQLite: the order
    in which the query plan delivers them. *)
Class SqlPlan : Type := {
  scan_entities : list EntityRow → list EntityRow;
  scan_entities_perm l : scan_entities l ≡ₚ l
}.

Section LongTerm.
Context `{JsonText} `{SqlEnv} `{SqlPlan}.

Definition newest_entity (r1 r2 : EntityRow) : bool := str_le (en_updated_at r2) (en_updated_at r1).

Definition newest_relation (r1 r2 : RelationRow) : bool :=
  text_then_id (re_updated_at r1, re_id r1) (re_updated_at r2, re_id r2).

Definition newest_summary (r1 r2 : SummaryRow) : bool :=
  text_then_id (su_updated_at r1, su_id r1) (su_updated_at r2, su_id r2).

Definition long_term_summaries (agentId sessionId : string) (limit : Z) (t : Tables) : list SummaryRow :=
  take (Z.to_nat limit) (sort_by newest_summary
    (filter (λ r, session_scope agentId sessionId (su_agent_id r) (su_session_id r)) (t_summaries t))).

Definition long_term_entities (agentId : string) (limit : Z) (t : Tables) : list EntityRow :=
  take (Z.to_nat limit) (sort_by newest_entity (scan_entities
    (filter (λ r, en_active r && bool_decide (en_agent_id r = bind_text agentId)) (t_entities t)))).

Definition long_term_relations (agentId : string) (limit : Z) (t : Tables) : list RelationRow :=
  take (Z.to_nat limit) (sort_by newest_relation
    (filter (λ r, re_active r && bool_decide (re_agent_id r = bind_text agentId)) (t_relations t))).

Definition ReadSummaryRow (r : SummaryRow) : LongTermSummaryRecord :=
  mkSummaryRecord (su_level r) (su_topic r) (su_summary r)
    (f32_of_f64 (column_double (su_confidence r))) (ParseSourceRefsColumn (su_source_refs_json r)) "" "".

Definition ReadEntityRow (r : EntityRow) : MemoryEntity :=
  mkEntity (en_id r) (en_agent_id r) (en_type r) (en_name r) (en_summary r)
    (f32_of_f64 (column_double (en_confidence r))) true "" ""
    (ParseSourceRefsColumn (en_source_refs_json r)) (ParseJsonSafely (en_metadata_json r)) "" "".

Definition ReadRelationRow (r : RelationRow) : MemoryRelation :=
  mkRelation (to_string (column_int (re_id r))) (re_agent_id r) (re_from_entity r) (re_relation r)
    (re_to_entity r) (f32_of_f64 (column_double (re_confidence r)))
    (ParseSourceRefsColumn (re_source_refs_json r)) (ParseJsonSafely (re_metadata_json r)) "" "".

Definition LoadLongTermMemory (agentId : string) (limit : Z) (sessionId : string)
    : M MemorySqliteStore LongTermMemorySnapshotResult :=
  on_db (mkSnapshotResult false empty_snapshot (op_error store_unavailable))
    (let effectiveLimit := if (0 <? limit)%Z then limit else 100%Z in
     let* s := select "LoadLongTermMemory::summaries_prepare" "LoadLongTermMemory::summaries_step"
                 (long_term_summaries agentId sessionId effectiveLimit) in
     let summaries := ReadSummaryRow <$> s.1 in
     match s.2 with
     | Some e => ret (mkSnapshotResult false (mkSnapshot summaries [] []) e)
     | None =>
         let* en := select "LoadLongTermMemory::entities_prepare" "LoadLongTermMemory::entities_step"
                      (long_term_entities agentId effectiveLimit) in
         let entities := ReadEntityRow <$> en.1 in
         match en.2 with
         | Some e => ret (mkSnapshotResult false (mkSnapshot summaries entities []) e)
         | None =>
             let* re := select "LoadLongTermMemory::relations_prepare"
                          "LoadLongTermMemory::relations_step"
                          (long_term_relations agentId effectiveLimit) in
             let relations := ReadRelationRow <$> re.1 in
             ret (match re.2 with
                  | Some e => mkSnapshotResult false (mkSnapshot summaries entities relations) e
                  | None => mkSnapshotResult true (mkSnapshot summaries entities relations) no_error
                  end)
         end
     end).

(** ** GetStoreStats *)

(** The counts in the order of the queries; a query that fails ends the loop with the counts so far
    (the others stay 0). *)
Fixpoint count_queries (queries : list (Tables → nat)) : M (Conn Tables) (list Z * option MemoryError) :=
  match queries with
  | [] => ret ([], None)
  | query :: queries' =>
      let* ok := prepare in
      if negb ok then
        let* e := SqliteFailure "GetStoreStats::prepare" in
        ret ([], Some (op_error e))
      else
        let* rc := step_first (λ t, [query t]) in
        match rc with
        | StepError =>
            let* e := SqliteFailure "GetStoreStats::step" in
            ret ([], Some (op_error e))
        | StepRow n =>
            let* rest := count_queries queries' in
            ret (column_int (Z.of_nat n) :: rest.1, rest.2)
        | StepDone =>
            let* rest := count_queries queries' in
            ret (0%Z :: rest.1, rest.2)
        end
  end.

Definition GetStoreStats : M MemorySqliteStore MemoryStatsResult :=
  on_db (mkStatsResult false default_Stats (op_error store_unavailable))
    (let* res := count_queries [λ t, length (t_events t); λ t, length (t_payloads t);
                                λ t, length (t_summaries t); λ t, length (t_entities t);
                                λ t, length (t_relations t)] in
     let field i := default 0%Z (res.1 !! i) in
     let stats := mkStats (field 0) (field 1) (field 2) (field 3) (field 4) json_object in
     ret (match res.2 with
          | Some e => mkStatsResult false stats e
          | None => mkStatsResult true stats no_error
          end)).
End LongTerm.
