(* ===== verification/StoreInvariant.v ===== *)
(** * The invariant of the tables

    [tables_ok] is what holds of the database at every moment, whatever statements fail and wherever
    an exception cuts an operation short: ids are unique and grow, at most one entity is active per
    (agent, type, name), and the three full-text indexes hold exactly the rows of their tables. Every
    statement of [Store] preserves it, hence every operation does. *)

From Stdlib Require Import ZArith Lia Ascii String.
From stdpp Require Import base list strings gmap sorting.
From S2P Require Import Prelude CppString Floats Json Types Sqlite StoreInterface Store.

Open Scope am_scope.

(** ** Growing ids *)

Definition ids_ok (ids : list Z) : Prop := StronglySorted Z.lt ids ∧ Forall (λ i, (0 < i)%Z) ids.

Lemma next_id_gt ids i : i ∈ ids → (i < next_id ids)%Z.
Proof.
  unfold next_id. induction ids as [|j ids IH]; intros Hi; [by apply not_elem_of_nil in Hi|].
  apply elem_of_cons in Hi as [->|Hi]; simpl; [lia|]. specialize (IH Hi). lia.
Qed.

Lemma next_id_pos ids : (0 < next_id ids)%Z.
Proof. unfold next_id. induction ids; simpl; lia. Qed.

Lemma StronglySorted_snoc {A} (R : A → A → Prop) l x :
  StronglySorted R l → Forall (λ y, R y x) l → StronglySorted R (l ++ [x]).
Proof.
  induction 1 as [|y l Hl IH Hall]; intros Hx; simpl; [by repeat constructor|].
  inv Hx. constructor; [by apply IH|]. by rewrite Forall_app, Forall_singleton.
Qed.

Lemma ids_ok_next ids : ids_ok ids → ids_ok (ids ++ [next_id ids]).
Proof.
  intros [Hs Hp]. split.
  - apply StronglySorted_snoc; [done|]. apply Forall_forall. intros. by apply next_id_gt.
  - rewrite Forall_app, Forall_singleton. split; [done|apply next_id_pos].
Qed.

Lemma ids_ok_NoDup ids : ids_ok ids → NoDup ids.
Proof.
  intros [Hs _]. induction Hs as [|i ids Hs IH Hall]; constructor; [|done].
  rewrite Forall_forall in Hall. intros Hi. specialize (Hall i Hi). lia.
Qed.

Lemma fmap_update_where {R A} (f : R → A) sel upd (rows : list R) :
  (∀ r, f (upd r) = f r) → f <$> update_where sel upd rows = f <$> rows.
Proof.
  intros Hf. unfold update_where. rewrite <- list_fmap_compose.
  apply list_fmap_ext. intros i r _. simpl. by destruct (sel r).
Qed.

(** ** Full-text indexes *)

Section Mirror.
Context {R : Type} (id : R → Z) (columns : R → list string).

Definition mirrors (rows : list R) (i : FtsIndex) : Prop :=
  ∀ k v, i !! k = Some v ↔ ∃ r, r ∈ rows ∧ id r = k ∧ columns r = v.

Lemma mirrors_insert rows i r :
  id r ∉ (id <$> rows) → mirrors rows i → mirrors (rows ++ [r]) (fts_insert (id r) (columns r) i).
Proof.
  intros Hfresh Hm k v. unfold fts_insert. destruct (decide (k = id r)) as [->|Hne].
  - rewrite lookup_insert_eq. split.
    + intros [= <-]. exists r. set_solver.
    + intros (r' & Hr' & Hid & <-). apply elem_of_app in Hr' as [Hr'|Hr'].
      * exfalso. apply Hfresh. rewrite <- Hid. by apply list_elem_of_fmap_2.
      * apply list_elem_of_singleton in Hr' as ->. done.
  - rewrite lookup_insert_ne by done. rewrite (Hm k v). set_solver.
Qed.

Lemma fts_update_lookup k k' old new (i : FtsIndex) :
  fts_update k old new i !! k' = if decide (k = k') then Some new else i !! k'.
Proof.
  unfold fts_update, fts_insert, fts_delete. destruct (decide (k = k')) as [->|Hne].
  - by rewrite lookup_insert_eq.
  - rewrite lookup_insert_ne by done. case_decide; [|done]. by rewrite lookup_delete_ne.
Qed.

Lemma fts_updates_lookup sel upd rows i k :
  NoDup (id <$> rows) →
  fts_updates id columns sel upd rows i !! k
  = match list_find (λ r, id r = k) rows with
    | Some (_, r) => if sel r then Some (columns (upd r)) else i !! k
    | None => i !! k
    end.
Proof.
  unfold fts_updates. revert i. induction rows as [|r rows IH]; intros i Hnd; [done|].
  rewrite fmap_cons, NoDup_cons in Hnd. destruct Hnd as [Hni Hnd]. simpl.
  rewrite IH by done. case_decide as Hk.
  - simpl. replace (list_find (λ r0, id r0 = k) rows) with (@None (nat * R)).
    + destruct (sel r); [|done]. rewrite fts_update_lookup. by rewrite decide_True.
    + symmetry. apply list_find_None. apply Forall_forall. intros x Hx <-. apply Hni.
      rewrite Hk. by apply list_elem_of_fmap_2.
  - destruct (list_find (λ r0, id r0 = k) rows) as [[n r']|]; simpl.
    + destruct (sel r'); [done|]. destruct (sel r); [|done]. rewrite fts_update_lookup.
      by rewrite decide_False.
    + destruct (sel r); [|done]. rewrite fts_update_lookup. by rewrite decide_False.
Qed.

Lemma mirrors_update sel upd rows i :
  NoDup (id <$> rows) → (∀ r, id (upd r) = id r) → mirrors rows i →
  mirrors (update_where sel upd rows) (fts_updates id columns sel upd rows i).
Proof.
  intros Hnd Hid Hm k v. rewrite fts_updates_lookup by done.
  assert (∀ r r', r ∈ rows → r' ∈ rows → id r = id r' → r = r') as Hinj.
  { intros r r' [n Hn]%list_elem_of_lookup [n' Hn']%list_elem_of_lookup Heq.
    assert (n = n') as ->; [|congruence].
    eapply (NoDup_lookup (id <$> rows)); [done|..]; rewrite list_lookup_fmap.
    - rewrite Hn. done.
    - rewrite Hn'. simpl. by rewrite Heq. }
  unfold update_where. setoid_rewrite list_elem_of_fmap.
  destruct (list_find (λ r, id r = k) rows) as [[n r]|] eqn:E.
  - apply list_find_Some in E as (Hn & Hk & _). pose proof (list_elem_of_lookup_2 _ _ _ Hn) as Hr.
    split.
    + intros Hv. exists (if sel r then upd r else r). split; [by exists r|].
      destruct (sel r); [naive_solver|].
      apply Hm in Hv as (r' & Hr' & Hk' & Hv). rewrite (Hinj r' r) in Hv by congruence. naive_solver.
    + intros (x & (r' & -> & Hr') & Hk' & Hv).
      assert (r' = r) as ->. { apply Hinj; [done..|]. destruct (sel r'); congruence. }
      destruct (sel r); [by rewrite Hv|]. apply Hm. naive_solver.
  - apply list_find_None in E. rewrite Forall_forall in E. split.
    + intros Hv. apply Hm in Hv as (r & Hr & Hk & _). by destruct (E r Hr).
    + intros (x & (r' & -> & Hr') & Hk' & Hv). exfalso. apply (E r' Hr'). destruct (sel r'); congruence.
Qed.
End Mirror.

(** ** The invariant *)

(** Two active entities of one agent with the same type and name are the same entity. Entities
    without an id, agent, type or name are not deduplicated by the source. *)
Definition entity_named (r : EntityRow) : Prop :=
  en_id r ≠ "" ∧ en_agent_id r ≠ "" ∧ en_type r ≠ "" ∧ en_name r ≠ "".

Definition entity_key (r : EntityRow) : string * string * string := (en_agent_id r, en_type r, en_name r).

Definition unique_active_entities (rows : list EntityRow) : Prop :=
  ∀ r1 r2, r1 ∈ rows → r2 ∈ rows → en_active r1 = true → en_active r2 = true →
    entity_named r1 → entity_named r2 → entity_key r1 = entity_key r2 → en_id r1 = en_id r2.

Definition relation_key (r : RelationRow) : string * string * string * string :=
  (re_agent_id r, re_from_entity r, re_relation r, re_to_entity r).

Definition unique_active_relations (rows : list RelationRow) : Prop :=
  ∀ r1 r2, r1 ∈ rows → r2 ∈ rows → re_active r1 = true → re_active r2 = true →
    relation_key r1 = relation_key r2 → re_id r1 = re_id r2.

Record tables_ok (t : Tables) : Prop := {
  ok_event_ids : ids_ok (ev_id <$> t_events t);
  ok_event_types : Forall (λ r, is_Some (event_type_of_int (ev_event_type r))) (t_events t);
  ok_payload_ids : ids_ok (pl_id <$> t_payloads t);
  ok_payload_refs : NoDup (pl_ref <$> t_payloads t);
  ok_summary_ids : ids_ok (su_id <$> t_summaries t);
  ok_summary_fts : mirrors su_id fts_summary_columns (t_summaries t) (t_fts_summaries t);
  ok_entity_rowids : ids_ok (en_rowid <$> t_entities t);
  ok_entity_ids : NoDup (en_id <$> t_entities t);
  ok_entity_fts : mirrors en_rowid fts_entity_columns (t_entities t) (t_fts_entities t);
  ok_entity_unique : unique_active_entities (t_entities t);
  ok_relation_ids : ids_ok (re_id <$> t_relations t);
  ok_relation_fts : mirrors re_id fts_relation_columns (t_relations t) (t_fts_relations t);
  ok_relation_unique : unique_active_relations (t_relations t)
}.

Lemma mirrors_empty {R} (id : R → Z) columns : mirrors id columns [] ∅.
Proof. intros k v. rewrite lookup_empty. set_solver. Qed.

Lemma empty_tables_ok : tables_ok empty_tables.
Proof.
  split; simpl; try apply mirrors_empty; try (split; constructor); try constructor.
  all: intros ???%not_elem_of_nil; done.
Qed.

(** ** Statements preserve it *)

Lemma fmap_snoc {A B} (f : A → B) l x : f <$> (l ++ [x]) = (f <$> l) ++ [f x].
Proof. by rewrite fmap_app. Qed.

Lemma next_id_fresh ids : next_id ids ∉ ids.
Proof. intros H%next_id_gt. lia. Qed.

Lemma existsb_false_not_elem {R} (f : R → string) rows x :
  existsb (λ r, bool_decide (f r = x)) rows = false → x ∉ (f <$> rows).
Proof.
  intros He Hin. apply list_elem_of_fmap in Hin as (r & -> & Hr).
  assert (existsb (λ r0, bool_decide (f r0 = f r)) rows = true); [|congruence].
  apply existsb_exists. exists r. split; [by apply list_elem_of_In|]. by apply bool_decide_true.
Qed.

Lemma NoDup_snoc {A} (l : list A) x : NoDup l → x ∉ l → NoDup (l ++ [x]).
Proof.
  intros. apply NoDup_app. split_and!; [done| |apply NoDup_singleton].
  intros y Hy Hx. apply list_elem_of_singleton in Hx as ->. done.
Qed.

Lemma insert_event_ok agent session type role content pref tcid tname mj now t :
  tables_ok t →
  tables_ok (insert_event agent session (event_type_to_int type) role content pref tcid tname mj now t).
Proof.
  intros []. split; simpl; try done.
  - rewrite fmap_snoc. by apply ids_ok_next.
  - rewrite Forall_app, Forall_singleton. split; [done|]. simpl.
    rewrite event_type_of_to_int. by eexists.
Qed.

Lemma upsert_payload_ok agent session ref ct tn sum oc now t :
  tables_ok t → tables_ok (upsert_payload agent session ref ct tn sum oc now t).
Proof.
  intros []. unfold upsert_payload. destruct (existsb _ _) eqn:E; split; simpl; try done.
  - by rewrite fmap_update_where.
  - replace (pl_ref <$> _) with (pl_ref <$> t_payloads t); [done|]. unfold update_where.
    rewrite <- list_fmap_compose. apply list_fmap_ext. intros i r _. simpl.
    case_bool_decide; simpl; congruence.
  - rewrite fmap_snoc. by apply ids_ok_next.
  - rewrite fmap_snoc. apply NoDup_snoc; [done|]. by apply existsb_false_not_elem.
Qed.

Lemma insert_summary_ok agent session level topic sum conf refs now t :
  tables_ok t → tables_ok (insert_summary agent session level topic sum conf refs now t).
Proof.
  intros []. split; simpl; try done.
  - rewrite fmap_snoc. by apply ids_ok_next.
  - apply (mirrors_insert su_id fts_summary_columns _ _ (mkSummaryRow _ _ _ _ _ _ _ _ _)); [|done].
    apply next_id_fresh.
Qed.

Lemma upsert_cursor_ok agent session cursor t : tables_ok t → tables_ok (upsert_cursor agent session cursor t).
Proof. by intros []. Qed.

(** An UPDATE of the entities is sound when it keeps ids and leaves no new active duplicate. *)
Lemma update_entities_ok sel upd t :
  (∀ r, en_rowid (upd r) = en_rowid r) →
  (∀ r, r ∈ t_entities t → sel r = true → en_id (upd r) = en_id r) →
  unique_active_entities (update_where sel upd (t_entities t)) →
  tables_ok t → tables_ok (update_entities sel upd t).
Proof.
  intros Hrow Hid Huniq []. split; simpl; try done.
  - by rewrite fmap_update_where.
  - replace (en_id <$> _) with (en_id <$> t_entities t); [done|]. unfold update_where.
    rewrite <- list_fmap_compose. apply list_fmap_ext. intros i r Hr. simpl.
    destruct (sel r) eqn:E; [|done]. symmetry. apply Hid; [|done]. by eapply list_elem_of_lookup_2.
  - apply mirrors_update; [by apply ids_ok_NoDup|done|done].
Qed.

Lemma elem_of_update_where {R} sel upd (rows : list R) x :
  x ∈ update_where sel upd rows ↔ ∃ r, r ∈ rows ∧ x = if sel r then upd r else r.
Proof. unfold update_where. rewrite list_elem_of_fmap. naive_solver. Qed.

Lemma update_obsolete_ok sel id now t :
  tables_ok t → tables_ok (update_entities sel (entity_obsolete id now) t).
Proof.
  intros Hok. apply update_entities_ok; [done|done| |done].
  destruct Hok as [_ _ _ _ _ _ _ _ _ Hu _ _ _]. intros x1 x2.
  rewrite !elem_of_update_where. intros (r1&Hr1&->) (r2&Hr2&->).
  destruct (sel r1), (sel r2); simpl; try done. by apply Hu.
Qed.

(** No other active entity has the key. *)
Definition no_other_entity (id agent type name : string) (t : Tables) : Prop :=
  ∀ r, r ∈ t_entities t → en_active r = true → entity_key r = (agent, type, name) → en_id r = id.

Lemma upsert_entity_ok id agent type name sum conf refs mj act sby now t :
  (id ≠ "" → agent ≠ "" → type ≠ "" → name ≠ "" → no_other_entity id agent type name t) →
  tables_ok t → tables_ok (upsert_entity id agent type name sum conf refs mj act sby now t).
Proof.
  intros Hno Hok. unfold upsert_entity. destruct (existsb _ _) eqn:E.
  - apply update_entities_ok; [done|..]; [|destruct Hok|done].
    { intros r _ Hr. by apply bool_decide_eq_true in Hr. }
    intros x1 x2. rewrite !elem_of_update_where. intros (r1&Hr1&->) (r2&Hr2&->).
    case_bool_decide as E1; case_bool_decide as E2; simpl; try done.
    + intros _ Ha (?&?&?&?) (Hn2&?&?&?) Hk. simpl in *. symmetry.
      apply Hno; [done..|]. by rewrite <- Hk.
    + intros Ha _ (Hn1&?&?&?) (?&?&?&?) Hk. simpl in *. apply Hno; done.
    + by apply ok_entity_unique0.
  - destruct Hok. split; simpl; try done.
    + rewrite fmap_snoc. by apply ids_ok_next.
    + rewrite fmap_snoc. apply NoDup_snoc; [done|]. by apply existsb_false_not_elem.
    + apply (mirrors_insert en_rowid fts_entity_columns _ _ (mkEntityRow _ _ _ _ _ _ _ _ _ _ _ _)); [|done].
      apply next_id_fresh.
    + intros r1 r2. rewrite !elem_of_app, !list_elem_of_singleton.
      intros [Hr1 | ->] [Hr2 | ->]; simpl; try done.
      * by apply ok_entity_unique0.
      * intros Ha _ (?&?&?&?) (?&?&?&?) Hk. apply Hno; done.
      * intros _ Ha (?&?&?&?) (?&?&?&?) Hk. symmetry. apply Hno; done.
Qed.

Lemma relation_obsolete_ok sel now t :
  tables_ok t → tables_ok (update_relations sel (relation_obsolete now) t).
Proof.
  intros []. split; simpl; try done.
  - by rewrite fmap_update_where.
  - apply mirrors_update; [by apply ids_ok_NoDup|done|done].
  - intros x1 x2. rewrite !elem_of_update_where. intros (r1&Hr1&->) (r2&Hr2&->).
    destruct (sel r1), (sel r2); simpl; try done. by apply ok_relation_unique0.
Qed.

Definition no_other_relation (agent from relation to : string) (t : Tables) : Prop :=
  ∀ r, r ∈ t_relations t → re_active r = true → relation_key r ≠ (agent, from, relation, to).

Lemma insert_relation_ok agent from relation to conf refs mj now t :
  no_other_relation agent from relation to t → tables_ok t →
  tables_ok (insert_relation agent from relation to conf refs mj now t).
Proof.
  intros Hno []. split; simpl; try done.
  - rewrite fmap_snoc. by apply ids_ok_next.
  - apply (mirrors_insert re_id fts_relation_columns _ _ (mkRelationRow _ _ _ _ _ _ _ _ _ _)); [|done].
    apply next_id_fresh.
  - intros r1 r2. rewrite !elem_of_app, !list_elem_of_singleton.
    intros [Hr1 | ->] [Hr2 | ->]; simpl; try done.
    + by apply ok_relation_unique0.
    + intros Ha _ Hk. by destruct (Hno r1 Hr1 Ha).
    + intros _ Ha Hk. by destruct (Hno r2 Hr2 Ha).
Qed.

#[export] Hint Resolve insert_event_ok upsert_payload_ok insert_summary_ok upsert_cursor_ok
  update_obsolete_ok relation_obsolete_ok : am.

(** ** Operations preserve it *)

Section Operations.
Context `{JsonText} `{SqlEnv}.

Lemma hoare_run_write Pre f (Post : Tables → Prop) :
  (∀ now t, tables_ok t → Pre t → tables_ok (f now t) ∧ Post (f now t)) →
  hoare tables_ok Pre (run_write f) (λ ok t, ok = true → Post t).
Proof.
  intros Hf. unfold run_write. eapply hoare_bind; [apply hoare_prepare|]. intros [|]; simpl.
  - apply hoare_step_write. intros now t Ht Hpre. by apply Hf; [|apply Hpre].
  - apply hoare_ret. by intros t _.
Qed.

Lemma preserves_run_write f :
  (∀ now t, tables_ok t → tables_ok (f now t)) → preserves tables_ok (run_write f).
Proof.
  intros Hf c Hc. apply (hoare_run_write (λ _, True) f (λ _, True)); [|done|done].
  intros now t Ht _. auto.
Qed.

Lemma preserves_SqliteFailure P context : preserves P (@SqliteFailure Tables context).
Proof.
  unfold SqliteFailure, SqliteErrorMessage.
  repeat (apply preserves_bind; [|intros]); try apply preserves_get_errmsg; apply preserves_ret.
Qed.

Lemma preserves_op_result P context m : preserves P m → preserves P (op_result context m).
Proof.
  intros Hm. apply preserves_bind; [done|]. intros [|]; [apply preserves_ret|apply preserves_SqliteFailure].
Qed.

Lemma SaveEventUnlocked_ok e : preserves tables_ok (SaveEventUnlocked e).
Proof.
  apply preserves_bind; [apply preserves_prepare|]. intros [|]; simpl; [|apply preserves_ret].
  apply preserves_bind; [apply preserves_lift|]. intros mj. apply preserves_step_write. eauto with am.
Qed.

Lemma SavePayloadUnlocked_ok p : preserves tables_ok (SavePayloadUnlocked p).
Proof. apply preserves_run_write. eauto with am. Qed.

Lemma SaveSummaryUnlocked_ok agent session level topic sum conf refs :
  preserves tables_ok (SaveSummaryUnlocked agent session level topic sum conf refs).
Proof.
  apply preserves_bind; [apply preserves_lift|]. intros. apply preserves_run_write. eauto with am.
Qed.

Lemma MarkEntityObsoleteUnlocked_ok id by_ : preserves tables_ok (MarkEntityObsoleteUnlocked id by_).
Proof. apply preserves_run_write. eauto with am. Qed.

Lemma SaveConsolidationCursorUnlocked_ok a s c :
  preserves tables_ok (SaveConsolidationCursorUnlocked a s c).
Proof. apply preserves_run_write. eauto with am. Qed.

Lemma c_str_not_empty s : c_str s ≠ "" → is_empty s = false.
Proof. by destruct s. Qed.

(** After the duplicates are marked, no other active entity has the key of [entity]. *)
Lemma MarkDuplicateEntitiesObsoleteUnlocked_ok (e : MemoryEntity) :
  hoare tables_ok (λ _, True) (MarkDuplicateEntitiesObsoleteUnlocked e)
    (λ ok t, ok = true →
       bind_text (entity_id e) ≠ "" → bind_text (entity_agentId e) ≠ "" →
       bind_text (entity_entityType e) ≠ "" → bind_text (entity_name e) ≠ "" →
       no_other_entity (bind_text (entity_id e)) (bind_text (entity_agentId e))
         (bind_text (entity_entityType e)) (bind_text (entity_name e)) t).
Proof.
  unfold MarkDuplicateEntitiesObsoleteUnlocked. case_match eqn:E.
  - apply hoare_ret. intros t _ _ H1%c_str_not_empty H2%c_str_not_empty H3%c_str_not_empty
      H4%c_str_not_empty. by rewrite H1, H2, H3, H4 in E.
  - apply hoare_run_write. intros now t Ht _. split; [by apply update_obsolete_ok|].
    intros _ _ _ _ x. simpl. rewrite elem_of_update_where. intros (r&Hr&->).
    case_match eqn:Es; simpl; [done|]. intros Ha [= Hg Hty Hn].
    rewrite Hg, Hty, Hn, Ha, !bool_decide_true in Es by done. simpl in Es.
    case_bool_decide; [done|]. simpl in Es. done.
Qed.

Lemma SaveEntityUnlocked_ok e : preserves tables_ok (SaveEntityUnlocked e).
Proof.
  apply hoare_preserves. unfold SaveEntityUnlocked.
  apply hoare_lift; intros refs. apply hoare_lift; intros mj.
  eapply hoare_bind; [apply MarkDuplicateEntitiesObsoleteUnlocked_ok|]. intros [|]; simpl;
    [|by apply hoare_ret].
  eapply hoare_bind.
  - apply (hoare_run_write _ _ (λ _, True)). intros now t Ht Hno. split; [|done].
    apply upsert_entity_ok; [|done]. intros. by apply Hno.
  - intros [|]; simpl; [|by apply hoare_ret]. case_match; [|by apply hoare_ret].
    apply preserves_hoare, MarkEntityObsoleteUnlocked_ok.
Qed.

Lemma SaveRelationUnlocked_ok r : preserves tables_ok (SaveRelationUnlocked r).
Proof.
  apply hoare_preserves. unfold SaveRelationUnlocked.
  apply hoare_lift; intros refs. apply hoare_lift; intros mj.
  eapply hoare_bind.
  - apply (hoare_run_write (λ _, True) _ (no_other_relation (bind_text (relation_agentId r))
      (bind_text (relation_fromEntityId r)) (bind_text (relation_relationType r))
      (bind_text (relation_toEntityId r)))). intros now t Ht _. split; [by apply relation_obsolete_ok|].
    intros x. simpl. rewrite elem_of_update_where. intros (y&Hy&->).
    case_match eqn:Es; simpl; [done|]. intros Ha [= Hg Hf Hr Ht'].
    by rewrite Hg, Hf, Hr, Ht', Ha, !bool_decide_true in Es by done.
  - intros [|]; simpl; [|by apply hoare_ret]. eapply hoare_bind.
    + apply (hoare_run_write _ _ (λ _, True)). intros now t Ht Hno. split; [|done].
      apply insert_relation_ok; auto.
    + intros [|]; simpl; [|by apply hoare_ret]. case_match; [|by apply hoare_ret].
      apply preserves_hoare, MarkEntityObsoleteUnlocked_ok.
Qed.

Lemma run_in_transaction_ok {W} (captured : W) work :
  preserves tables_ok work → preserves tables_ok (run_in_transaction captured work).
Proof.
  intros Hw. apply preserves_bind; [apply preserves_begin|]. intros [|]; simpl.
  2: { apply preserves_bind; [apply preserves_SqliteFailure|]. intros. apply preserves_ret. }
  apply preserves_bind; [done|]. intros r. case_match.
  - apply preserves_bind; [apply preserves_commit|]. intros [|]; simpl; [apply preserves_ret|].
    apply preserves_bind; [apply preserves_SqliteFailure|]. intros.
    apply preserves_bind; [apply preserves_rollback|]. intros. apply preserves_ret.
  - apply preserves_bind; [apply preserves_rollback|]. intros. apply preserves_ret.
Qed.

Lemma preserves_select {R} P cp cs (q : Tables → list R) : preserves P (select cp cs q).
Proof.
  apply preserves_bind; [apply preserves_prepare|]. intros [|]; simpl.
  - apply preserves_bind; [apply preserves_step_rows|]. intros [rows [|]]; simpl; [apply preserves_ret|].
    apply preserves_bind; [apply preserves_SqliteFailure|]. intros. apply preserves_ret.
  - apply preserves_bind; [apply preserves_SqliteFailure|]. intros. apply preserves_ret.
Qed.

Lemma preserves_count_queries P queries : preserves P (count_queries queries).
Proof.
  induction queries as [|q qs IH]; simpl; [apply preserves_ret|].
  apply preserves_bind; [apply preserves_prepare|]. intros [|]; simpl.
  - apply preserves_bind; [apply preserves_step_first|]. intros [n| |].
    1,2: apply preserves_bind; [done|]; intros; apply preserves_ret.
    apply preserves_bind; [apply preserves_SqliteFailure|]. intros. apply preserves_ret.
  - apply preserves_bind; [apply preserves_SqliteFailure|]. intros. apply preserves_ret.
Qed.
End Operations.

#[export] Hint Resolve preserves_ret preserves_throw preserves_lift preserves_bind preserves_prepare
  preserves_step_rows preserves_step_first preserves_SqliteFailure preserves_op_result
  preserves_select preserves_count_queries SaveEventUnlocked_ok SavePayloadUnlocked_ok
  SaveSummaryUnlocked_ok MarkEntityObsoleteUnlocked_ok SaveConsolidationCursorUnlocked_ok
  SaveEntityUnlocked_ok SaveRelationUnlocked_ok run_in_transaction_ok : am.
