(* ===== verification/Knowledge.v ===== *)
(** * Long-term memory as knowledge

    What the tables of summaries, entities and relations mean, without rows, ids, flags and SQL:
    notes in the order they were made, the entities believed at present by their id, and the edges
    believed at present. A call of the store is a short sequence of steps on it, each at its time;
    what a reader gets is the newest part of it. [LongTermRefinement] shows that the store does this. *)

From Stdlib Require Import ZArith Lia Ascii String.
From stdpp Require Import base list strings gmap sorting.
From S2P Require Import Prelude CppString Floats Json Types Sqlite StoreInterface.

Open Scope am_scope.

(** Everything carries the time of its last change. *)
Record Knowledge := mkKnowledge {
  kn_summaries : list (string * (string * string * LongTermSummaryRecord));
  kn_entities : gmap string (string * MemoryEntity);
  kn_relations : list (string * MemoryRelation);
  kn_relation_saves : Z
}.

Definition no_knowledge : Knowledge := mkKnowledge [] ∅ [] 0.

(** ** Updates *)

(** The updating calls of [MemoryStoreTransaction], which [MemorySqliteStore] has as well. *)
Inductive Update :=
  | PutSummary (agentId sessionId level topic summary : string) (confidence : f32) (sourceRefs : list string)
  | PutEntity (entity : MemoryEntity)
  | PutRelation (relation : MemoryRelation)
  | Retire (entityId supersededBy : string).

Definition kept_confidence (c : f32) : f32 := if is_nan c then f32_of_Z 0 else c.

Definition kept_summary (level topic summary : string) (confidence : f32) (sourceRefs : list string)
    : LongTermSummaryRecord :=
  mkSummaryRecord (c_str level) (c_str topic) (c_str summary) (kept_confidence confidence) sourceRefs "" "".

Definition kept_entity (e : MemoryEntity) : MemoryEntity :=
  mkEntity (c_str (entity_id e)) (c_str (entity_agentId e)) (c_str (entity_entityType e))
    (c_str (entity_name e)) (c_str (entity_summary e)) (kept_confidence (entity_confidence e)) true "" ""
    (entity_sourceRefs e) (JsonObject (entity_metadata e)) "" "".

(** A contradiction is marked as a conflict with its target. *)
Definition relation_metadata_kept (r : MemoryRelation) : json :=
  if bool_decide (relation_relationType r = "contradicts")
  then json_set (json_set (JsonObject (relation_metadata r)) "conflict" (JBool true)) "conflictsWithEntityId"
         (JString (relation_toEntityId r))
  else JsonObject (relation_metadata r).

Definition kept_relation (r : MemoryRelation) (number : Z) : MemoryRelation :=
  mkRelation (to_string (wrap32 number)) (c_str (relation_agentId r)) (c_str (relation_fromEntityId r))
    (c_str (relation_relationType r)) (c_str (relation_toEntityId r)) (kept_confidence (relation_confidence r))
    (relation_sourceRefs r) (relation_metadata_kept r) "" "".

(** [e] takes the place of another believed entity of the same agent, type and name. *)
Definition takes_place_of (e x : MemoryEntity) : Prop :=
  entity_agentId x = c_str (entity_agentId e) ∧ entity_entityType x = c_str (entity_entityType e) ∧
  entity_name x = c_str (entity_name e) ∧ entity_id x ≠ c_str (entity_id e).

#[export] Instance takes_place_of_dec e x : Decision (takes_place_of e x) := _.

(** The same edge of the same agent. *)
Definition same_edge (r x : MemoryRelation) : Prop :=
  relation_agentId x = c_str (relation_agentId r) ∧ relation_fromEntityId x = c_str (relation_fromEntityId r) ∧
  relation_relationType x = c_str (relation_relationType r) ∧
  relation_toEntityId x = c_str (relation_toEntityId r).

#[export] Instance same_edge_dec r x : Decision (same_edge r x) := _.

Definition identified (e : MemoryEntity) : bool :=
  negb (is_empty (entity_id e) || is_empty (entity_agentId e) || is_empty (entity_entityType e) ||
        is_empty (entity_name e)).

(** ** Steps *)

(** A step happens at a time. *)
Notation KnowledgeStep := (string → Knowledge → Knowledge).

Definition on_entities (f : gmap string (string * MemoryEntity) → gmap string (string * MemoryEntity))
    (k : Knowledge) : Knowledge :=
  mkKnowledge (kn_summaries k) (f (kn_entities k)) (kn_relations k) (kn_relation_saves k).

Definition on_relations (f : list (string * MemoryRelation) → list (string * MemoryRelation)) (saves : Z)
    (k : Knowledge) : Knowledge :=
  mkKnowledge (kn_summaries k) (kn_entities k) (f (kn_relations k)) (kn_relation_saves k + saves).

Definition note (agentId sessionId level topic summary : string) (confidence : f32) (sourceRefs : list string)
    : KnowledgeStep := λ now k,
  mkKnowledge
    (kn_summaries k ++ [(now, (c_str agentId, c_str sessionId,
                               kept_summary level topic summary confidence sourceRefs))])
    (kn_entities k) (kn_relations k) (kn_relation_saves k).

Definition forget (entityId : string) : KnowledgeStep := λ _, on_entities (delete (c_str entityId)).

Definition forget_duplicates (e : MemoryEntity) : KnowledgeStep := λ _,
  on_entities (filter (λ '(_, (_, x)), ¬ takes_place_of e x)).

Definition believe (e : MemoryEntity) : KnowledgeStep := λ now,
  on_entities (if entity_isActive e then <[c_str (entity_id e) := (now, kept_entity e)]>
               else delete (c_str (entity_id e))).

Definition forget_edge (r : MemoryRelation) : KnowledgeStep := λ _,
  on_relations (filter (λ '(_, x), ¬ same_edge r x)) 0.

Definition relate (r : MemoryRelation) : KnowledgeStep := λ now k,
  on_relations (λ l, l ++ [(now, kept_relation r (kn_relation_saves k + 1))]) 1 k.

Definition steps (u : Update) : list KnowledgeStep :=
  match u with
  | PutSummary agentId sessionId level topic summary confidence sourceRefs =>
      [note agentId sessionId level topic summary confidence sourceRefs]
  | PutEntity e =>
      (if identified e then [forget_duplicates e] else []) ++ [believe e] ++
      (if is_empty (entity_supersededEntityId e) then [] else [forget (entity_supersededEntityId e)])
  | PutRelation r =>
      [forget_edge r; relate r] ++
      (if bool_decide (relation_relationType r = "supersedes") then [forget (relation_toEntityId r)] else [])
  | Retire entityId _ => [forget entityId]
  end.

(** Steps one after the other, each at its time. *)
Fixpoint run_steps {X} (fs : list (string → X → X)) (times : list string) (x : X) : X :=
  match fs, times with
  | f :: fs', now :: times' => run_steps fs' times' (f now x)
  | _, _ => x
  end.

(** ** Reading *)

Definition newer {A} (x y : string * A) : bool := str_le y.1 x.1.

(** The newest [n] of things kept in order, those of equal time from the last on. *)
Definition newest {A} (n : nat) (l : list (string * A)) : list A :=
  snd <$> take n (sort_by newer (reverse l)).

(** The newest [n] of things kept without an order: any choice among equal times. *)
Definition some_newest {A} (n : nat) (l : list (string * A)) (result : list A) : Prop :=
  ∃ l', l' ≡ₚ l ∧ StronglySorted (λ x y, newer x y = true) l' ∧ result = snd <$> take n l'.

Definition recalls (k : Knowledge) (agentId sessionId : string) (limit : Z) (s : LongTermMemorySnapshot) : Prop :=
  let n := Z.to_nat (if (0 <? limit)%Z then limit else 100%Z) in
  snap_summaries s
  = snd <$> newest n (filter (λ '(_, (agent, session, _)),
      agent = c_str agentId ∧ (c_str sessionId = "" ∨ session = c_str sessionId)) (kn_summaries k)) ∧
  some_newest n (filter (λ '(_, x), entity_agentId x = c_str agentId) (map_to_list (kn_entities k)).*2)
    (snap_entities s) ∧
  snap_relations s = newest n (filter (λ '(_, x), relation_agentId x = c_str agentId) (kn_relations k)).

(** ** Lemmas: steps *)

Lemma run_steps_app {X} (fs1 fs2 : list (string → X → X)) ts1 ts2 x :
  length ts1 = length fs1 → run_steps (fs1 ++ fs2) (ts1 ++ ts2) x = run_steps fs2 ts2 (run_steps fs1 ts1 x).
Proof.
  revert ts1 x. induction fs1 as [|f fs1 IH]; intros [|t ts1] x Hl; try done. apply IH. by injection Hl.
Qed.

Lemma run_steps_sim {X Y} (I : X → Prop) (abs : X → Y) fs gs ts x :
  Forall2 (λ f g, ∀ now x, I x → I (f now x) ∧ abs (f now x) = g now (abs x)) fs gs → I x →
  abs (run_steps fs ts x) = run_steps gs ts (abs x).
Proof.
  intros Hs. revert ts x. induction Hs as [|f g fs gs Hfg _ IH]; intros [|t ts] x Hx; try done. cbn.
  destruct (Hfg t x Hx) as [HI <-]. by apply IH.
Qed.

Lemma Forall2_take_both {A B} (R : A → B → Prop) n l1 l2 : Forall2 R l1 l2 → Forall2 R (take n l1) (take n l2).
Proof. intros Hl. revert n. induction Hl; intros [|n]; cbn; constructor; auto. Qed.
