(* ===== verification/StoreTransactions.v ===== *)
(** * What the calls on a transaction have done when they succeed

    [saved n]: nothing but the long-term tables changed, and [n] summaries were added. *)

From Stdlib Require Import ZArith Lia Ascii String.
From stdpp Require Import base list strings gmap sorting.
From S2P Require Import Prelude CppString Floats Json Types Sqlite StoreInterface Store Knowledge.

Open Scope am_scope.

Definition saved (n : Z) (t t' : Tables) : Prop :=
  t_events t' = t_events t ∧ t_payloads t' = t_payloads t ∧ t_cursors t' = t_cursors t ∧
  Z.of_nat (length (t_summaries t')) = (Z.of_nat (length (t_summaries t)) + n)%Z.

Lemma saved_refl t : saved 0 t t.
Proof. unfold saved. split_and!; try done. lia. Qed.

Lemma saved_trans n1 n2 t1 t2 t3 : saved n1 t1 t2 → saved n2 t2 t3 → saved (n1 + n2) t1 t3.
Proof.
  intros (E1&P1&C1&S1) (E2&P2&C2&S2). unfold saved. rewrite E2, P2, C2. split_and!; try done. lia.
Qed.

Lemma saved_trans_0 t1 t2 t3 : saved 0 t1 t2 → saved 0 t2 t3 → saved 0 t1 t3.
Proof. apply saved_trans. Qed.

#[export] Hint Resolve saved_refl saved_trans_0 : am.

Section Ops.
Context `{JsonText} `{SqlEnv}.

Lemma tx_does_run_write f :
  tx_does id (λ _ t t', ∃ now, t' = f now t) (run_write f).
Proof.
  eapply (tx_does_bind id id _ (λ _ _ t t', ∃ now, t' = f now t)); [apply tx_does_prepare|..].
  - intros [|] Ha; [|done]. apply tx_does_step_write.
  - intros [|] c Ha; [done|]. split; [done|]. by intros b [= <-].
  - by intros a b t1 t2 t3 ->.
Qed.

(** A write that adds [n] summaries at every time. *)
Lemma saved_run_write n f :
  (∀ now t, saved n t (f now t)) → tx_does id (λ _, saved n) (run_write f).
Proof.
  intros Hf. eapply tx_does_weaken; [|apply tx_does_run_write]. intros a t t' [now ->]. apply Hf.
Qed.

Lemma saved_and m1 m2 n :
  tx_does id (λ _, saved 0) m1 → tx_does id (λ _, saved n) m2 →
  tx_does id (λ _, saved n) (let* ok := m1 in if negb ok then ret false else m2).
Proof.
  intros H1 H2. eapply (tx_does_bind id id (λ _, saved 0) (λ _ _, saved n)); [exact H1|..].
  - by intros [|].
  - intros [|] c Ha; [done|]. split; [done|]. by intros b [= <-].
  - intros a b t1 t2 t3 S1 S2. by apply (saved_trans 0 n t1 t2 t3).
Qed.

Lemma saved_if (b : bool) m1 m2 n :
  tx_does id (λ _, saved n) m1 → tx_does id (λ _, saved n) m2 →
  tx_does id (λ _, saved n) (if b then m1 else m2).
Proof. by destruct b. Qed.

Lemma saved_ret : tx_does id (λ _, saved 0) (ret true : M (Conn Tables) bool).
Proof. apply tx_does_ret. intros _ t. apply saved_refl. Qed.

Lemma does_op_result R context m :
  tx_does id (λ _, R) m → tx_does op_succeeded (λ _, R) (op_result context m).
Proof.
  intros Hm. eapply (tx_does_bind id op_succeeded (λ _, R) (λ _ _ t t', t' = t)); [exact Hm|..].
  - intros [|] Ha; [|done]. by apply tx_does_ret.
  - intros [|] c Ha; [done|]. simpl. split; [done|]. by intros b [= <-].
  - by intros a b t1 t2 t3 S1 ->.
Qed.

Lemma saved_update_entities sel upd t : saved 0 t (update_entities sel upd t).
Proof. unfold saved. simpl. split_and!; try done. lia. Qed.

Lemma saved_upsert_entity id ag ty na su co re mj ac sb now t :
  saved 0 t (upsert_entity id ag ty na su co re mj ac sb now t).
Proof.
  unfold upsert_entity. case_match; [apply saved_update_entities|].
  unfold saved. simpl. split_and!; try done. lia.
Qed.

Lemma saved_relations f i t : saved 0 t (set_relations f i t).
Proof. unfold saved. simpl. split_and!; try done. lia. Qed.

Lemma saved_MarkEntityObsolete i b : tx_does id (λ _, saved 0) (MarkEntityObsoleteUnlocked i b).
Proof. apply saved_run_write. intros. apply saved_update_entities. Qed.

Lemma SaveSummary_saved a s l t su c r :
  tx_does op_succeeded (λ _, saved 1) (Transaction_SaveSummary a s l t su c r).
Proof.
  apply does_op_result, tx_does_lift. intros refs. apply saved_run_write. intros now tb.
  unfold saved. simpl. rewrite length_app. simpl. split_and!; try done. lia.
Qed.

Lemma SaveEntity_saved e : tx_does op_succeeded (λ _, saved 0) (Transaction_SaveEntity e).
Proof.
  apply does_op_result, tx_does_lift. intros refs. apply tx_does_lift. intros mj. apply saved_and.
  - apply saved_if; [apply saved_ret|]. apply saved_run_write. intros. apply saved_update_entities.
  - apply saved_and; [apply saved_run_write; intros; apply saved_upsert_entity|].
    apply saved_if; [apply saved_MarkEntityObsolete|apply saved_ret].
Qed.

Lemma SaveRelation_saved r : tx_does op_succeeded (λ _, saved 0) (Transaction_SaveRelation r).
Proof.
  apply does_op_result, tx_does_lift. intros refs. apply tx_does_lift. intros mj.
  apply saved_and; [apply saved_run_write; intros; apply saved_relations|].
  apply saved_and; [apply saved_run_write; intros; apply saved_relations|].
  apply saved_if; [apply saved_MarkEntityObsolete|apply saved_ret].
Qed.

Lemma MarkEntityObsolete_saved i b :
  tx_does op_succeeded (λ _, saved 0) (Transaction_MarkEntityObsolete i b).
Proof. apply does_op_result, saved_MarkEntityObsolete. Qed.

Lemma SaveConsolidationCursor_does a s k :
  tx_does op_succeeded (λ _ t t', t' = upsert_cursor (bind_text a) (bind_text s) (CursorToInt k) t)
    (Transaction_SaveConsolidationCursor a s k).
Proof.
  apply does_op_result. eapply tx_does_weaken; [|apply tx_does_run_write]. by intros _ t t' [now ->].
Qed.
End Ops.

(** ** Without faults they succeed, when the values they write have texts *)

(** Nothing throws. *)
Definition has_text `{JsonText} (j : json) : Prop := ∃ text, json_dump j = Ret text.

Section Returns.
Context `{JsonText} `{SqlEnv} (Hreliable : ∀ n k, sql_fault n k = None).

Lemma returns_run_write f : returns id (run_write f).
Proof.
  intros c. unfold run_write, bind, prepare, step_write. rewrite (Hreliable _ KPrepare). simpl.
  rewrite (Hreliable _ KStep). simpl. by do 2 eexists.
Qed.

Lemma returns_dump {B} (h : B → bool) j (k : string → M (Conn Tables) B) :
  has_text j → (∀ text, returns h (k text)) → returns h (bind (lift_outcome (json_dump j)) k).
Proof. intros [text E] Hk. by apply (returns_lift h _ text). Qed.

Lemma returns_and m1 m2 : returns id m1 → returns id m2 →
  returns id (let* ok := m1 in if negb ok then ret false else m2 : M (Conn Tables) bool).
Proof. intros H1 H2. eapply returns_bind; [exact H1|]. by intros [|]. Qed.

Lemma returns_if (b : bool) (m1 m2 : M (Conn Tables) bool) :
  returns id m1 → returns id m2 → returns id (if b then m1 else m2).
Proof. by destruct b. Qed.

Lemma returns_op_result context m : returns id m → returns op_succeeded (op_result context m).
Proof. intros Hm. eapply returns_bind; [exact Hm|]. intros [|] Ha; [|done]. by apply returns_ret. Qed.

Lemma SaveSummary_returns a s l t su c r :
  has_text (strings_to_json r) → returns op_succeeded (Transaction_SaveSummary a s l t su c r).
Proof. intros Hr. apply returns_op_result, returns_dump; [done|]. intros. apply returns_run_write. Qed.

Lemma SaveEntity_returns e :
  has_text (strings_to_json (entity_sourceRefs e)) → has_text (JsonObject (entity_metadata e)) →
  returns op_succeeded (Transaction_SaveEntity e).
Proof.
  intros Hr Hm. apply returns_op_result, returns_dump; [done|]. intros. apply returns_dump; [done|]. intros.
  apply returns_and.
  - apply returns_if; [by apply returns_ret|apply returns_run_write].
  - apply returns_and; [apply returns_run_write|].
    apply returns_if; [apply returns_run_write|by apply returns_ret].
Qed.

Lemma SaveRelation_returns r :
  has_text (strings_to_json (relation_sourceRefs r)) → has_text (relation_metadata_kept r) →
  returns op_succeeded (Transaction_SaveRelation r).
Proof.
  intros Hr Hm. apply returns_op_result, returns_dump; [done|]. intros. apply returns_dump; [exact Hm|]. intros.
  apply returns_and; [apply returns_run_write|]. apply returns_and; [apply returns_run_write|].
  apply returns_if; [apply returns_run_write|by apply returns_ret].
Qed.

Lemma MarkEntityObsolete_returns i b : returns op_succeeded (Transaction_MarkEntityObsolete i b).
Proof. apply returns_op_result, returns_run_write. Qed.

Lemma SaveConsolidationCursor_returns a s k :
  returns op_succeeded (Transaction_SaveConsolidationCursor a s k).
Proof. apply returns_op_result, returns_run_write. Qed.
End Returns.

#[export] Hint Resolve SaveSummary_saved SaveEntity_saved SaveRelation_saved MarkEntityObsolete_saved
  SaveConsolidationCursor_does SaveSummary_returns SaveEntity_returns SaveRelation_returns
  MarkEntityObsolete_returns SaveConsolidationCursor_returns : am.
