(* ===== verification/StoreReads.v ===== *)
(** * Reads

    A read outside a transaction leaves the committed content as it was, whatever fails. *)

From Stdlib Require Import ZArith Lia Ascii String.
From stdpp Require Import base list strings gmap sorting.
From S2P Require Import Prelude CppString Floats Json Types Sqlite StoreInterface Store.

Open Scope am_scope.

Section Reads.
Context `{SqlEnv}.

(** A read outside a transaction changes nothing. *)
Definition reads {A} (m : M (Conn Tables) A) : Prop :=
  ∀ c, conn_txn c = None → conn_main (m c).2 = conn_main c ∧ conn_txn (m c).2 = None.

Lemma reads_ret {A} (a : A) : reads (ret a).
Proof. by intros c. Qed.

Lemma reads_bind {A B} (m : M (Conn Tables) A) (k : A → M (Conn Tables) B) :
  reads m → (∀ a, reads (k a)) → reads (bind m k).
Proof.
  intros Hm Hk c Hc. unfold bind. destruct (Hm c Hc) as [Hma Htx].
  destruct (m c) as [[a|w] c']; simpl in *; [|done]. destruct (Hk a c' Htx) as [-> ?]. done.
Qed.

Lemma reads_prepare : reads prepare.
Proof.
  intros c Hc. unfold prepare. destruct (sql_fault _ _) as [f|]; simpl; [|done].
  rewrite Hc. by destruct (fault_rollback f).
Qed.

Lemma reads_step_rows {R} (q : Tables → list R) : reads (step_rows q).
Proof.
  intros c Hc. unfold step_rows. destruct (sql_fault _ _) as [f|]; simpl; [|done].
  rewrite Hc. by destruct (fault_rollback f).
Qed.

Lemma reads_step_first {R} (q : Tables → list R) : reads (step_first q).
Proof.
  intros c Hc. unfold step_first. destruct (sql_fault _ _) as [f|]; simpl; [|done].
  rewrite Hc. by destruct (fault_rollback f).
Qed.

Lemma reads_failure context : reads (SqliteFailure context).
Proof. by intros c. Qed.

#[local] Hint Resolve reads_ret reads_bind reads_prepare reads_step_rows reads_step_first reads_failure : am.

Lemma select_returns {R} cp cs (q : Tables → list R) c : ∃ r c', select cp cs q c = (Ret r, c').
Proof.
  unfold select, bind, prepare, step_rows. destruct (sql_fault _ KPrepare); simpl; [by do 2 eexists|].
  destruct (sql_fault _ KStep); simpl; by do 2 eexists.
Qed.

(** A select that ends in an error has met a fault. *)
Lemma select_blames {R} cp cs (q : Tables → list R) c r c' :
  select cp cs q c = (Ret r, c') → r.2 ≠ None → ∃ n k f, sql_fault n k = Some f.
Proof.
  unfold select, bind, prepare, step_rows. destruct (sql_fault _ KPrepare) eqn:E1; simpl; [by do 3 eexists|].
  destruct (sql_fault _ KStep) eqn:E2; simpl; [by do 3 eexists|]. by intros [= <- _].
Qed.

Lemma reads_select {R} cp cs (q : Tables → list R) : reads (select cp cs q).
Proof.
  apply reads_bind; [auto with am|]. intros [|]; simpl; [|auto with am].
  apply reads_bind; [auto with am|]. intros [? [|]]; simpl; [auto with am|]. auto with am.
Qed.

(** The same with what the call returns on a given committed content: it does not throw, and its
    result satisfies [Q]. *)
Definition delivers {A} (t : Tables) (Q : A → Prop) (m : M (Conn Tables) A) : Prop :=
  ∀ c, conn_txn c = None → conn_main c = t →
    ∃ a c', m c = (Ret a, c') ∧ conn_txn c' = None ∧ conn_main c' = t ∧ Q a.

Lemma delivers_ret {A} t (Q : A → Prop) a : Q a → delivers t Q (ret a).
Proof. intros HQ c Hc Hm. by exists a, c. Qed.

Lemma delivers_bind {A B} t (Q : A → Prop) (R : B → Prop) (m : M (Conn Tables) A) k :
  delivers t Q m → (∀ a, Q a → delivers t R (k a)) → delivers t R (bind m k).
Proof.
  intros Hm Hk c Hc Ht. destruct (Hm c Hc Ht) as (a & c1 & E & Hc1 & Ht1 & HQ).
  rewrite (bind_run _ _ _ _ _ E). by apply (Hk a).
Qed.

Lemma delivers_weaken {A} t (Q R : A → Prop) m : (∀ a, Q a → R a) → delivers t Q m → delivers t R m.
Proof. intros HQR Hm c Hc Ht. destruct (Hm c Hc Ht) as (a & c' & ? & ? & ? & ?). exists a, c'. auto. Qed.

Lemma delivers_prepare t : delivers t (λ _, True) prepare.
Proof.
  intros c Hc Ht. destruct (reads_prepare c Hc) as [Hm Htx]. unfold prepare in *.
  destruct (sql_fault _ _) as [f|]; simpl in *; do 2 eexists; (split; [done|]); (split; [done|]);
    (split; [simpl; congruence|done]).
Qed.

Lemma delivers_failure t context : delivers t (λ e, HasError (op_error e) = true) (SqliteFailure context).
Proof. intros c Hc Ht. unfold SqliteFailure, bind. simpl. by do 2 eexists. Qed.

Lemma delivers_step_rows {R} t (q : Tables → list R) :
  delivers t (λ r, (∀ x, x ∈ r.1 → x ∈ q t) ∧ (r.2 = true → r.1 = q t)) (step_rows q).
Proof.
  intros c Hc Ht. destruct (reads_step_rows q c Hc) as [Hm Htx]. unfold step_rows, conn_view in *.
  rewrite Hc, Ht in *. destruct (sql_fault _ _) as [f|]; simpl in *; do 2 eexists; (split; [done|]);
    (split; [done|]); (split; [simpl; congruence|]); (split; [simpl; eauto with am|done]).
Qed.

Lemma delivers_select {R} t cp cs (q : Tables → list R) :
  delivers t (λ r, (∀ x, x ∈ r.1 → x ∈ q t) ∧
                   match r.2 with None => r.1 = q t | Some e => HasError e = true end) (select cp cs q).
Proof.
  eapply delivers_bind; [apply delivers_prepare|]. intros [|] _; simpl.
  - eapply delivers_bind; [apply delivers_step_rows|]. intros [rows [|]] [Hsub Hall]; simpl in *.
    + apply delivers_ret. simpl. auto.
    + eapply delivers_bind; [apply delivers_failure|]. intros e He. by apply delivers_ret.
  - eapply delivers_bind; [apply delivers_failure|]. intros e He. apply delivers_ret. split; [|done].
    by intros x Hx%not_elem_of_nil.
Qed.

(** On an opened store, a read returns with the committed content as it was. *)
Lemma on_db_reads {A} (u : A) m s c :
  db_ s = Some c → conn_txn c = None → reads m →
  ∃ r s' c', on_db u m s = (r, s') ∧ m c = (r, c') ∧ db_ s' = Some c' ∧ conn_txn c' = None ∧
    conn_main c' = conn_main c.
Proof.
  intros Hs Hc Hm. unfold on_db. rewrite Hs. destruct (Hm c Hc) as [Hma Htx].
  destruct (m c) as [r c'] eqn:E. simpl in *. by do 3 eexists.
Qed.
End Reads.

#[export] Hint Resolve reads_ret reads_bind reads_prepare reads_step_rows reads_step_first reads_failure : am.
