(* ===== verification/Schema.v ===== *)
(** * MemorySqliteStore::Initialize (src/src/storage/sqlite_store.cpp)

    Opening the database, creating its schema and migrating an older one. A database is the columns
    of its tables and the names of its other objects; the DDL statements of the source are values of
    [Ddl], executed as SQLite does: IF NOT EXISTS leaves an existing object alone, an index needs its
    table and columns, a trigger its table, a full-text table with external content needs nothing.
    Any statement may also fail by [SqlEnv]. *)

From Stdlib Require Import ZArith Lia Ascii String.
From stdpp Require Import base list strings gmap sets.
From S2P Require Import Prelude CppString Floats Json Types Sqlite Store.

Open Scope am_scope.

Record Database := mkDatabase {
  sd_tables : gmap string (list string);
  sd_objects : gset string
}.

Inductive Ddl :=
| Pragma (text : string)
| CreateTable (name : string) (columns : list string)
| CreateIndex (name table : string) (columns : list string)
| CreateFts (name : string)
| CreateTrigger (name table : string)
| AddColumn (table column : string).

(** The effect of a statement, [inl] the message of its error. *)
Definition ddl_effect (stmt : Ddl) (db : Database) : string + Database :=
  match stmt with
  | Pragma _ => inr db
  | CreateTable name columns =>
      inr (match sd_tables db !! name with
           | Some _ => db
           | None => mkDatabase (<[name := columns]> (sd_tables db)) (sd_objects db)
           end)
  | CreateIndex name table columns =>
      if bool_decide (name ∈ sd_objects db) then inr db
      else
        match sd_tables db !! table with
        | None => inl ("no such table: main." +:+ table)
        | Some existing =>
            if forallb (λ c, bool_decide (c ∈ existing)) columns
            then inr (mkDatabase (sd_tables db) ({[name]} ∪ sd_objects db))
            else inl ("table " +:+ table +:+ " has no such column")
        end
  | CreateFts name => inr (mkDatabase (sd_tables db) ({[name]} ∪ sd_objects db))
  | CreateTrigger name table =>
      if bool_decide (name ∈ sd_objects db) then inr db
      else
        match sd_tables db !! table with
        | None => inl ("no such table: main." +:+ table)
        | Some _ => inr (mkDatabase (sd_tables db) ({[name]} ∪ sd_objects db))
        end
  | AddColumn table column =>
      match sd_tables db !! table with
      | None => inl ("no such table: " +:+ table)
      | Some existing =>
          if bool_decide (column ∈ existing) then inl ("duplicate column name: " +:+ column)
          else inr (mkDatabase (<[table := existing ++ [column]]> (sd_tables db)) (sd_objects db))
      end
  end.

Section Initialize.
Context `{SqlEnv}.

(** [ExecuteUnlocked] *)
Definition ExecuteUnlocked (stmt : Ddl) : M (Conn Database) bool := λ c,
  match sql_fault (conn_tick c) KExec with
  | Some f => (Ret false, conn_failed f c)
  | None =>
      match ddl_effect stmt (conn_view c) with
      | inl message => (Ret false, conn_said message c)
      | inr db => (Ret true, conn_said no_error_msg (conn_write db c))
      end
  end.

Definition VALID_TABLE_NAMES : list string :=
  ["memory_events"; "memory_payloads"; "memory_summaries"; "memory_entities"; "memory_relations";
   "memory_consolidation_cursors"].

Definition IsValidTableName (tableName : string) : bool := bool_decide (tableName ∈ VALID_TABLE_NAMES).

(** [PRAGMA table_info]: a step that fails ends the loop as the last row does. *)
Definition ColumnExistsUnlocked (tableName columnName : string) : M (Conn Database) bool :=
  if negb (IsValidTableName tableName) then ret false
  else
    let* ok := prepare in
    if negb ok then ret false
    else
      let* res := step_rows (λ db, default [] (sd_tables db !! tableName)) in
      ret (bool_decide (columnName ∈ res.1)).

Definition AddColumnIfMissingUnlocked (tableName columnName : string) : M (Conn Database) bool :=
  if negb (IsValidTableName tableName) then ret false
  else
    let* present := ColumnExistsUnlocked tableName columnName in
    if (present : bool) then ret true
    else ExecuteUnlocked (AddColumn tableName columnName).

(** [a && b && ...] *)
Fixpoint all_ok (stmts : list Ddl) : M (Conn Database) bool :=
  match stmts with
  | [] => ret true
  | stmt :: rest =>
      let* ok := ExecuteUnlocked stmt in
      if negb ok then ret false else all_ok rest
  end.

(** [ok = step && ok;] for each step *)
Fixpoint each_and (steps : list (M (Conn Database) bool)) (ok : bool) : M (Conn Database) bool :=
  match steps with
  | [] => ret ok
  | step :: rest =>
      let* done := step in
      each_and rest (done && ok)
  end.

Definition schema_statements : list Ddl :=
  [Pragma "journal_mode=WAL"; Pragma "synchronous=NORMAL"; Pragma "cache_size=-8000";
   CreateTable "memory_events"
     ["id"; "agent_id"; "session_id"; "event_type"; "role"; "content"; "payload_ref"; "tool_call_id";
      "tool_name"; "metadata_json"; "created_at"];
   CreateTable "memory_payloads"
     ["id"; "agent_id"; "session_id"; "ref"; "content_type"; "tool_name"; "summary"; "original_chars";
      "created_at"];
   CreateTable "memory_summaries"
     ["id"; "agent_id"; "session_id"; "level"; "topic"; "summary"; "source_refs_json"; "confidence";
      "created_at"; "updated_at"];
   CreateTable "memory_entities"
     ["id"; "agent_id"; "type"; "name"; "summary"; "confidence"; "source_refs_json"; "metadata_json";
      "active"; "superseded_by"; "created_at"; "updated_at"];
   CreateTable "memory_relations"
     ["id"; "agent_id"; "from_entity"; "relation"; "to_entity"; "confidence"; "source_refs_json";
      "metadata_json"; "active"; "created_at"; "updated_at"];
   CreateTable "memory_consolidation_cursors" ["agent_id"; "session_id"; "cursor"; "updated_at"];
   CreateIndex "idx_events_agent_session_id" "memory_events" ["agent_id"; "session_id"; "id"];
   CreateIndex "idx_payloads_agent_session_created" "memory_payloads"
     ["agent_id"; "session_id"; "created_at"; "id"];
   CreateIndex "idx_summaries_agent_session_updated" "memory_summaries"
     ["agent_id"; "session_id"; "updated_at"; "id"];
   CreateIndex "idx_entities_agent_active" "memory_entities" ["agent_id"; "active"];
   CreateIndex "idx_relations_agent_active" "memory_relations" ["agent_id"; "active"];
   CreateIndex "idx_relations_active" "memory_relations" ["active"]].

Definition migration_columns : list (string * string) :=
  [("memory_entities", "agent_id"); ("memory_entities", "active"); ("memory_entities", "superseded_by");
   ("memory_entities", "source_refs_json"); ("memory_relations", "agent_id");
   ("memory_relations", "active"); ("memory_relations", "source_refs_json");
   ("memory_relations", "metadata_json")].

Definition fts_statements : list Ddl :=
  [CreateFts "fts_memory_summaries";
   CreateTrigger "fts_mem_sum_ai" "memory_summaries"; CreateTrigger "fts_mem_sum_ad" "memory_summaries";
   CreateTrigger "fts_mem_sum_au" "memory_summaries";
   CreateFts "fts_memory_entities";
   CreateTrigger "fts_mem_ent_ai" "memory_entities"; CreateTrigger "fts_mem_ent_ad" "memory_entities";
   CreateTrigger "fts_mem_ent_au" "memory_entities";
   CreateFts "fts_memory_relations";
   CreateTrigger "fts_mem_rel_ai" "memory_relations"; CreateTrigger "fts_mem_rel_ad" "memory_relations";
   CreateTrigger "fts_mem_rel_au" "memory_relations"].

Definition create_schema : M (Conn Database) bool :=
  let* ok := all_ok schema_statements in
  let* ok := each_and ((λ '(t, c), AddColumnIfMissingUnlocked t c) <$> migration_columns) ok in
  each_and (ExecuteUnlocked <$> fts_statements) ok.

(** What [sqlite3_open] makes of a path: a connection, or an error with the message of the handle
    (none when there was not even memory for a handle). *)
Inductive OpenResult := Opened (db : Database) | OpenFailed (message : option string).

(** [db_] before and after. *)
Definition Initialize (open : OpenResult) : M (option (Conn Database)) MemoryOperationResult := λ db,
  match db with
  | Some c => (Ret MemorySuccess, Some c)
  | None =>
      match open with
      | OpenFailed message =>
          (Ret (MemoryFailure "sqlite_error" "sqlite operation failed"
                  ("Initialize::open: " +:+
                   match message with
                   | None => "sqlite database is not initialized"
                   | Some m => if is_empty m then "sqlite operation failed" else m
                   end) true), None)
      | Opened content =>
          let m := let* ok := create_schema in
                   if negb ok then SqliteFailure "Initialize::schema" else ret MemorySuccess in
          let '(r, c) := m (mkConn content None 0 no_error_msg) in
          (r, Some c)
      end
  end.
End Initialize.

(** ** Lemmas: statements only add *)

Definition db_le (d1 d2 : Database) : Prop :=
  (∀ t cols, sd_tables d1 !! t = Some cols → ∃ cols', sd_tables d2 !! t = Some cols' ∧ cols ⊆ cols') ∧
  sd_objects d1 ⊆ sd_objects d2.

#[export] Instance db_le_preorder : PreOrder db_le.
Proof.
  split.
  - intros d. split; [|done]. intros t cols Ht. by exists cols.
  - intros d1 d2 d3 [H1 O1] [H2 O2]. split; [|set_solver]. intros t cols Ht.
    destruct (H1 _ _ Ht) as (c2 & Ht2 & Hs). destruct (H2 _ _ Ht2) as (c3 & Ht3 & Hs').
    exists c3. split; [done|]. set_solver.
Qed.

Lemma ddl_effect_le stmt d d' : ddl_effect stmt d = inr d' → db_le d d'.
Proof.
  assert (∀ o, db_le d (mkDatabase (sd_tables d) (o ∪ sd_objects d))) as Hobj.
  { intros o. split; [intros t c Ht; by exists c|set_solver]. }
  destruct stmt as [|name cols|name tbl cols|name|name tbl|tbl col]; simpl; intros Hd;
    repeat case_match; simplify_eq; try done; try reflexivity.
  - split; [|done]. intros t c Ht. exists c. split; [|done]. simpl. rewrite lookup_insert_ne; [done|congruence].
  - split; [|done]. intros t c Ht. simpl. destruct (decide (t = tbl)) as [->|Hne].
    + rewrite lookup_insert_eq. eexists. split; [done|]. set_solver.
    + rewrite lookup_insert_ne by done. by exists c.
Qed.

(** What a statement establishes. *)
Definition ddl_post (stmt : Ddl) (d : Database) : Prop :=
  match stmt with
  | Pragma _ => True
  | CreateTable name _ => is_Some (sd_tables d !! name)
  | CreateIndex name _ _ | CreateFts name | CreateTrigger name _ => name ∈ sd_objects d
  | AddColumn table column => ∃ cols, sd_tables d !! table = Some cols ∧ column ∈ cols
  end.

Lemma ddl_post_le stmt d d' : db_le d d' → ddl_post stmt d → ddl_post stmt d'.
Proof.
  intros [Ht Ho]. destruct stmt as [|name cols|name tbl cols|name|name tbl|tbl col]; simpl; [done|..].
  - intros [c Hc]. destruct (Ht _ _ Hc) as (c' & -> & _). by eexists.
  - set_solver.
  - set_solver.
  - set_solver.
  - intros (c & Hc & Hin). destruct (Ht _ _ Hc) as (c' & Hc' & Hs). exists c'. set_solver.
Qed.

Lemma ddl_effect_post stmt d d' : ddl_effect stmt d = inr d' → ddl_post stmt d'.
Proof.
  destruct stmt as [|name cols|name tbl cols|name|name tbl|tbl col]; simpl; intros Hd;
    repeat case_match; simplify_eq/=; try done; try (by eexists); try set_solver.
  - rewrite lookup_insert_eq. by eexists.
  - match goal with H : bool_decide _ = true |- _ => by apply bool_decide_eq_true in H end.
  - match goal with H : bool_decide _ = true |- _ => by apply bool_decide_eq_true in H end.
  - eexists. rewrite lookup_insert_eq. split; [done|]. set_solver.
Qed.

Section Calls.
Context `{SqlEnv}.

(** A step on a connection without a transaction that only adds to the database, and establishes
    [Post] when it reports success. *)
Definition adds (m : M (Conn Database) bool) (Post : Database → Prop) : Prop :=
  ∀ c, conn_txn c = None → ∃ ok c', m c = (Ret ok, c') ∧ conn_txn c' = None ∧
    db_le (conn_main c) (conn_main c') ∧ (ok = true → Post (conn_main c')).

Lemma adds_execute stmt : adds (ExecuteUnlocked stmt) (ddl_post stmt).
Proof.
  intros c Hc. unfold ExecuteUnlocked. destruct (sql_fault _ _) as [f|].
  { do 2 eexists. split; [done|]. unfold conn_failed. simpl. rewrite Hc.
    split_and!; [by destruct (fault_rollback f)|reflexivity|done]. }
  unfold conn_view. rewrite Hc. simpl. destruct (ddl_effect stmt (conn_main c)) as [msg|d] eqn:E.
  - do 2 eexists. split; [done|]. simpl. split_and!; [done|reflexivity|done].
  - do 2 eexists. split; [done|]. unfold conn_write. rewrite Hc. simpl.
    split_and!; [done|by eapply ddl_effect_le|]. intros _. by eapply ddl_effect_post.
Qed.

Lemma adds_add_column table column :
  IsValidTableName table = true →
  adds (AddColumnIfMissingUnlocked table column) (ddl_post (AddColumn table column)).
Proof.
  intros Hv c Hc. unfold AddColumnIfMissingUnlocked, ColumnExistsUnlocked. rewrite Hv. simpl.
  unfold bind, prepare, step_rows. destruct (sql_fault (conn_tick c) KPrepare) as [f|]; simpl.
  - destruct (adds_execute (AddColumn table column) (conn_failed f c)) as (ok & c' & -> & ?).
    { simpl. rewrite Hc. by destruct (fault_rollback f). }
    by exists ok, c'.
  - destruct (sql_fault _ KStep) as [f|]; simpl.
    + unfold conn_view. simpl. rewrite Hc. simpl. case_bool_decide as Hin.
      * do 2 eexists. split; [done|]. simpl. split_and!; [by destruct (fault_rollback f)|reflexivity|].
        intros _. destruct (sd_tables (conn_main c) !! table) as [cols|]; simpl in Hin.
        -- exists cols. split; [done|]. eauto using elem_of_take_1.
        -- rewrite take_nil in Hin. by apply not_elem_of_nil in Hin.
      * destruct (adds_execute (AddColumn table column) (conn_failed f (conn_said no_error_msg c)))
          as (ok & c' & -> & ?); [simpl; rewrite Hc; by destruct (fault_rollback f)|]. by exists ok, c'.
    + unfold conn_view. simpl. rewrite Hc. simpl. case_bool_decide as Hin.
      * do 2 eexists. split; [done|]. simpl. split_and!; [done|reflexivity|]. intros _.
        destruct (sd_tables (conn_main c) !! table) as [cols|]; simpl in Hin.
        -- by exists cols.
        -- by apply not_elem_of_nil in Hin.
      * destruct (adds_execute (AddColumn table column) (conn_said no_error_msg (conn_said no_error_msg c)))
          as (ok & c' & -> & ?); [done|]. by exists ok, c'.
Qed.

Lemma adds_bind m1 m2 P1 P2 :
  adds m1 P1 → (∀ ok, adds (m2 ok) (λ d, P2 d ∧ ok = true)) → (∀ d d', db_le d d' → P1 d → P1 d') →
  adds (bind m1 m2) (λ d, P1 d ∧ P2 d).
Proof.
  intros H1 H2 Hmono c Hc. destruct (H1 c Hc) as (ok1 & c1 & E1 & Hc1 & Hle1 & Hp1).
  destruct (H2 ok1 c1 Hc1) as (ok2 & c2 & E2 & Hc2 & Hle2 & Hp2).
  exists ok2, c2. unfold bind. rewrite E1, E2. split_and!; [done|done|by etrans|].
  intros Hok. destruct (Hp2 Hok) as [HP2 ->]. split; [|done]. apply (Hmono _ _ Hle2). by apply Hp1.
Qed.

Definition posts (stmts : list Ddl) (d : Database) : Prop := Forall (λ s, ddl_post s d) stmts.

Lemma posts_le stmts d d' : db_le d d' → posts stmts d → posts stmts d'.
Proof. intros Hle Hp. eapply Forall_impl; [exact Hp|]. intros s. by apply ddl_post_le. Qed.

Lemma adds_all_ok stmts : adds (all_ok stmts) (posts stmts).
Proof.
  induction stmts as [|s stmts IH].
  { intros c Hc. exists true, c. split_and!; [done|done|reflexivity|]. intros _. by apply Forall_nil. }
  intros c Hc. destruct (adds_bind (ExecuteUnlocked s) (λ ok, if negb ok then ret false else all_ok stmts)
    (ddl_post s) (posts stmts) (adds_execute s)) with (c := c) as (ok & c' & E & Hc' & Hle & Hp).
  - intros [|]; simpl.
    + intros c1 Hc1. destruct (IH c1 Hc1) as (ok & c2 & ? & ? & ? & ?). exists ok, c2. naive_solver.
    + intros c1 Hc1. exists false, c1. split_and!; [done|done|reflexivity|done].
  - intros d d'. apply ddl_post_le.
  - done.
  - exists ok, c'. split_and!; [done|done|done|]. intros Hok. destruct (Hp Hok). by apply Forall_cons.
Qed.

(** The steps all run; the last result is the conjunction. *)
Lemma adds_each_and steps stmts ok0 :
  Forall2 (λ step s, adds step (ddl_post s)) steps stmts →
  adds (each_and steps ok0) (λ d, posts stmts d ∧ ok0 = true).
Proof.
  intros Hall. revert ok0. induction Hall as [|step s steps stmts Hs _ IH]; intros ok0.
  { intros c Hc. exists ok0, c. split_and!; [done|done|reflexivity|]. intros ->. by split; [apply Forall_nil|]. }
  simpl. intros c Hc. destruct (Hs c Hc) as (ok1 & c1 & E1 & Hc1 & Hle1 & Hp1).
  destruct (IH (ok1 && ok0) c1 Hc1) as (ok2 & c2 & E2 & Hc2 & Hle2 & Hp2).
  exists ok2, c2. unfold bind. rewrite E1, E2. split_and!; [done|done|by etrans|].
  intros Hok. destruct (Hp2 Hok) as [Hposts [-> ->]%andb_prop]. split; [|done].
  apply Forall_cons. split; [|done]. apply (ddl_post_le _ _ _ Hle2). by apply Hp1.
Qed.

Definition migration_statements : list Ddl := (λ '(t, c), AddColumn t c) <$> migration_columns.

Lemma adds_create_schema :
  adds create_schema (λ d, posts (schema_statements ++ migration_statements ++ fts_statements) d).
Proof.
  intros c Hc. unfold create_schema.
  destruct (adds_all_ok schema_statements c Hc) as (ok1 & c1 & E1 & Hc1 & Hle1 & Hp1).
  destruct (adds_each_and ((λ '(t, c), AddColumnIfMissingUnlocked t c) <$> migration_columns)
    migration_statements ok1) with (c := c1) as (ok2 & c2 & E2 & Hc2 & Hle2 & Hp2).
  { unfold migration_statements, migration_columns. simpl.
    repeat (constructor; [by apply adds_add_column|]). constructor. }
  { done. }
  destruct (adds_each_and (ExecuteUnlocked <$> fts_statements) fts_statements ok2) with (c := c2)
    as (ok3 & c3 & E3 & Hc3 & Hle3 & Hp3).
  { unfold fts_statements. simpl. repeat (constructor; [by apply adds_execute|]). constructor. }
  { done. }
  exists ok3, c3. unfold bind. rewrite E1, E2, E3. split_and!; [done|done|by do 2 etrans|].
  intros Hok. destruct (Hp3 Hok) as [H3 ->]. destruct (Hp2 eq_refl) as [H2 ->].
  specialize (Hp1 eq_refl). unfold posts. rewrite !Forall_app. split_and!; [|by eapply posts_le|done].
  eapply posts_le; [|exact Hp1]. by etrans.
Qed.
End Calls.

(** Some statement of a list creates the object (or table) [name]. *)
Definition creates (object : bool) (name : string) (stmt : Ddl) : bool :=
  match stmt with
  | CreateTable n _ => negb object && bool_decide (n = name)
  | CreateIndex n _ _ | CreateFts n | CreateTrigger n _ => object && bool_decide (n = name)
  | _ => false
  end.

Lemma establishes_In (object : bool) stmts names d name :
  (∀ s, s ∈ stmts → ddl_post s d) →
  forallb (λ n, existsb (creates object n) stmts) names = true → name ∈ names →
  if object then name ∈ sd_objects d else is_Some (sd_tables d !! name).
Proof.
  intros Hp Hall Hin. rewrite forallb_forall in Hall.
  specialize (Hall name ltac:(by apply list_elem_of_In)). apply existsb_exists in Hall as (s & Hs & Hc).
  apply list_elem_of_In in Hs. specialize (Hp s Hs).
  destruct s, object; simpl in Hc; try done; apply bool_decide_eq_true in Hc as ->; exact Hp.
Qed.

(** ** Properties *)

(** C20: when Initialize reports success on a database of any age and under any faults, the schema is
    complete: every table exists, with every column the migrations add, and so do all indexes, the
    three full-text tables and their nine triggers; nothing the database had before is lost. *)
Theorem initialize_success_schema `{SqlEnv} (content : Database) (c : Conn Database)
    (Hinit : Initialize (Opened content) None = (Ret MemorySuccess, Some c)) :
  db_le content (conn_main c) ∧
  (∀ table, table ∈ VALID_TABLE_NAMES → is_Some (sd_tables (conn_main c) !! table)) ∧
  (∀ table column, (table, column) ∈ migration_columns →
     ∃ columns, sd_tables (conn_main c) !! table = Some columns ∧ column ∈ columns) ∧
  (∀ name, name ∈ ["idx_events_agent_session_id"; "idx_payloads_agent_session_created";
                   "idx_summaries_agent_session_updated"; "idx_entities_agent_active";
                   "idx_relations_agent_active"; "idx_relations_active"; "fts_memory_summaries";
                   "fts_mem_sum_ai"; "fts_mem_sum_ad"; "fts_mem_sum_au"; "fts_memory_entities";
                   "fts_mem_ent_ai"; "fts_mem_ent_ad"; "fts_mem_ent_au"; "fts_memory_relations";
                   "fts_mem_rel_ai"; "fts_mem_rel_ad"; "fts_mem_rel_au"] →
     name ∈ sd_objects (conn_main c)).
Proof.
  unfold Initialize in Hinit.
  destruct (adds_create_schema (mkConn content None 0 no_error_msg) eq_refl) as (ok & c' & E & _ & Hle & Hp).
  unfold bind in Hinit. rewrite E in Hinit. destruct ok; simpl in Hinit; [|discriminate].
  injection Hinit as <-. split; [exact Hle|]. specialize (Hp eq_refl). unfold posts in Hp.
  rewrite Forall_forall in Hp. split_and!.
  - intros t Ht. by eapply (establishes_In false _ VALID_TABLE_NAMES); [exact Hp|vm_compute; reflexivity|].
  - intros t col Hin. apply (Hp (AddColumn t col)). apply elem_of_app. right. apply elem_of_app. left.
    unfold migration_statements. apply list_elem_of_fmap. by exists (t, col).
  - intros name Hin. eapply (establishes_In true); [exact Hp| |exact Hin]; vm_compute; reflexivity.
Qed.

Definition reliable : SqlEnv := {| sql_fault := λ _ _, None; sql_now := λ _, "" |}.

Definition no_database : Database := mkDatabase ∅ ∅.

Lemma initialize_success_schema_witness :
  let _ := reliable in
  ∃ c, Initialize (Opened no_database) None = (Ret MemorySuccess, Some c) ∧
    "fts_mem_rel_au" ∈ sd_objects (conn_main c).
Proof.
  intros He.
  assert (∃ c, Initialize (Opened no_database) None = (Ret MemorySuccess, Some c)) as [c Hc]
    by (eexists; vm_compute; reflexivity).
  exists c. split; [exact Hc|]. apply (initialize_success_schema no_database c Hc).
  repeat first [left; reflexivity | right].
Defined.

(** A database whose entities table is from before its [agent_id] and [active] columns. *)
Definition old_database (d : Database) : Prop :=
  (∃ columns, sd_tables d !! "memory_entities" = Some columns ∧
     ("agent_id" ∉ columns ∨ "active" ∉ columns)) ∧
  "idx_entities_agent_active" ∉ sd_objects d.

Section Old.
Context `{SqlEnv} (Hreliable : ∀ n k, sql_fault n k = None).

Lemma execute_reliable stmt c d :
  conn_txn c = None → ddl_effect stmt (conn_main c) = inr d →
  ∃ c', ExecuteUnlocked stmt c = (Ret true, c') ∧ conn_main c' = d ∧ conn_txn c' = None.
Proof.
  intros Hc Hd. unfold ExecuteUnlocked. rewrite Hreliable. unfold conn_view, conn_write. rewrite Hc. simpl.
  rewrite Hd. by eexists.
Qed.

Definition entities_index : Ddl :=
  CreateIndex "idx_entities_agent_active" "memory_entities" ["agent_id"; "active"].

(** A statement that neither creates that index nor adds a column. *)
Definition before_index (s : Ddl) : Prop :=
  match s with
  | CreateIndex n _ _ | CreateFts n | CreateTrigger n _ => n ≠ "idx_entities_agent_active"
  | AddColumn _ _ => False
  | _ => True
  end.

Lemma effect_keeps_old s d d' :
  before_index s → ddl_effect s d = inr d' → old_database d → old_database d'.
Proof.
  intros Hs Hd [(cols & Hcols & Hmiss) Hidx].
  destruct s as [|n cs|n tb cs|n|n tb|tb co]; simpl in *; repeat case_match; simplify_eq/=; try done;
    try (split; [by exists cols|simpl; set_solver]).
  split; [|done]. exists cols. simpl. rewrite lookup_insert_ne; [done|congruence].
Qed.

Lemma entities_index_fails d : old_database d → ∃ msg, ddl_effect entities_index d = inl msg.
Proof.
  intros [(cols & Hcols & Hmiss) Hidx]. simpl. rewrite bool_decide_false, Hcols by done.
  case_match eqn:Eb; [|by eexists]. exfalso. simpl in Eb.
  rewrite !andb_true_iff, !bool_decide_eq_true in Eb. naive_solver.
Qed.

(** The chain of the schema statements stops at that index. *)
Lemma all_ok_old pre post c :
  conn_txn c = None → old_database (conn_main c) → Forall before_index pre →
  ∃ c', all_ok (pre ++ entities_index :: post) c = (Ret false, c') ∧ conn_txn c' = None.
Proof.
  intros Hc Hold Hpre. revert c Hc Hold. induction Hpre as [|s pre Hs _ IH]; intros c Hc Hold.
  - simpl. unfold bind, ExecuteUnlocked. rewrite Hreliable. unfold conn_view. rewrite Hc. simpl.
    destruct (entities_index_fails _ Hold) as [msg Hmsg]. unfold entities_index in Hmsg. simpl in Hmsg.
    rewrite Hmsg. simpl. by eexists.
  - simpl. unfold bind. destruct (adds_execute s c Hc) as (ok & c1 & E & Hc1 & _). rewrite E.
    destruct ok; simpl; [|by exists c1]. apply IH; [done|].
    unfold ExecuteUnlocked in E. rewrite Hreliable in E. unfold conn_view in E. rewrite Hc in E. simpl in E.
    destruct (ddl_effect s (conn_main c)) as [msg|d] eqn:Ed; [discriminate|].
    injection E as <-. unfold conn_write. rewrite Hc. simpl. by eapply effect_keeps_old.
Qed.
End Old.

(** C21: opening a database from before the entities table had its agent_id and active columns fails,
    although every call to SQLite works: the index over the two columns is created before the
    migrations add them. The columns are added nevertheless, and the connection is kept, so that
    calling Initialize again reports success without completing the schema; reopening the file
    succeeds. *)
Theorem initialize_old_database_fails `{SqlEnv} (old : Database)
    (Hreliable : ∀ n k, sql_fault n k = None) (Hold : old_database old) :
  ∃ r c, Initialize (Opened old) None = (Ret r, Some c) ∧ op_succeeded r = false ∧
    db_le old (conn_main c) ∧
    Initialize (Opened old) (Some c) = (Ret MemorySuccess, Some c).
Proof.
  unfold Initialize, create_schema, bind.
  destruct (all_ok_old Hreliable (take 12 schema_statements) (drop 13 schema_statements)
    (mkConn old None 0 no_error_msg)) as (c1 & E1 & Hc1); [done|done| |].
  { unfold schema_statements. simpl. repeat (constructor; [simpl; congruence || done|]). constructor. }
  change (take 12 schema_statements ++ entities_index :: drop 13 schema_statements)
    with schema_statements in E1.
  destruct (adds_all_ok schema_statements (mkConn old None 0 no_error_msg) eq_refl)
    as (ok & c1' & E1' & _ & Hle1 & _). rewrite E1 in E1'. injection E1' as <- <-. rewrite E1.
  destruct (adds_each_and ((λ '(t, c), AddColumnIfMissingUnlocked t c) <$> migration_columns)
    migration_statements false) with (c := c1) as (ok2 & c2 & E2 & Hc2 & Hle2 & Hp2).
  { unfold migration_statements, migration_columns. simpl.
    repeat (constructor; [by apply adds_add_column|]). constructor. }
  { done. }
  destruct (adds_each_and (ExecuteUnlocked <$> fts_statements) fts_statements ok2) with (c := c2)
    as (ok3 & c3 & E3 & Hc3 & Hle3 & Hp3).
  { unfold fts_statements. simpl. repeat (constructor; [by apply adds_execute|]). constructor. }
  { done. }
  rewrite E2, E3. destruct ok3.
  - exfalso. destruct (Hp3 eq_refl) as [_ ->]. by destruct (Hp2 eq_refl).
  - simpl. do 2 eexists. split; [reflexivity|]. split_and!; [done| |reflexivity]. by do 2 etrans.
Qed.

Definition old_sample : Database :=
  mkDatabase {["memory_entities" := ["id"; "type"; "name"; "summary"; "confidence"; "metadata_json";
                                      "created_at"; "updated_at"]]} ∅.

Lemma initialize_old_database_fails_witness :
  let _ := reliable in
  ∃ r c, Initialize (Opened old_sample) None = (Ret r, Some c) ∧ op_succeeded r = false ∧
    Initialize (Opened old_sample) (Some c) = (Ret MemorySuccess, Some c).
Proof.
  intros He. destruct (initialize_old_database_fails old_sample) as (r & c & Hr & Hf & _ & Hagain).
  - done.
  - split; [|by apply not_elem_of_empty]. eexists. split; [reflexivity|].
    left. intros Hin. repeat (apply elem_of_cons in Hin as [Hin|Hin]; [discriminate|]).
    by apply not_elem_of_nil in Hin.
  - exists r, c. split; [exact Hr|]. split; [exact Hf|exact Hagain].
Defined.

(** Opening the same file once more succeeds: the columns are there now. *)
Example reopening_succeeds :
  let _ := reliable in
  match Initialize (Opened old_sample) None with
  | (Ret r, Some c) =>
      error_details (op_error r) = "Initialize::schema: not an error" ∧
      (Initialize (Opened (conn_main c)) None).1 = Ret MemorySuccess
  | _ => False
  end.
Proof. vm_compute. by split. Qed.
