(* ===== verification/StoreSearch.v ===== *)
(** * SearchLongTermMemory (src/src/storage/sqlite_store.cpp)

    The full-text search with its escaping and scoring, the LIKE fallback, and the final ordering.
    The FTS5 engine (tokenizer, query syntax, bm25) is the parameter [FtsEngine]; LIKE with
    [ESCAPE '\'] is the SQL operator on bytes, as far as escaped patterns use it. *)

From Stdlib Require Import ZArith Lia Ascii String SpecFloat.
From stdpp Require Import base list strings gmap sorting.
From S2P Require Import Prelude CppString Floats Json Types Sqlite StoreInterface Store.

Open Scope am_scope.

(** ** Helpers *)

Definition backslash : ascii := "092"%char.

(** [EscapeLikePattern] *)
Fixpoint EscapeLikePattern (value : string) : string :=
  match value with
  | EmptyString => EmptyString
  | String ch rest =>
      if bool_decide (ch = backslash) || bool_decide (ch = "%"%char) || bool_decide (ch = "_"%char)
      then String backslash (String ch (EscapeLikePattern rest))
      else String ch (EscapeLikePattern rest)
  end.

(** [struct SearchScoreConfig] *)
Record SearchScoreConfig := mkScoreConfig {
  summaryWeight : f64;
  entityWeight : f64;
  relationWeight : f64;
  summaryFallbackScore : f64;
  entityFallbackScore : f64;
  relationFallbackScore : f64
}.

Definition SearchScoring : SearchScoreConfig :=
  mkScoreConfig f64_one (f64_lit 95 100) (f64_lit 90 100) (f64_lit 30 100) (f64_lit 25 100)
    (f64_lit 20 100).

Definition TypeWeight (type : string) : f64 :=
  if bool_decide (type = "summary") then summaryWeight SearchScoring
  else if bool_decide (type = "entity") then entityWeight SearchScoring
  else relationWeight SearchScoring.

Definition FallbackScore (type : string) : f64 :=
  if bool_decide (type = "summary") then summaryFallbackScore SearchScoring
  else if bool_decide (type = "entity") then entityFallbackScore SearchScoring
  else relationFallbackScore SearchScoring.

Definition ApplyFtsScore (hit : MemorySearchHit) (bm25Rank : f64) : MemorySearchHit :=
  let rawRank := f64_max f64_zero (SFopp bm25Rank) in
  let normalized := if f_lt f64_zero rawRank then f64_div rawRank (f64_add rawRank f64_one) else f64_zero in
  let weight := TypeWeight (hit_type hit) in
  let metadata := json_set (hit_metadata hit) "scoreSource" (JString "fts_bm25") in
  let metadata := json_set metadata "rawRank" (JFloat rawRank) in
  let metadata := json_set metadata "typeWeight" (JFloat weight) in
  mkHit (hit_id hit) (hit_type hit) (hit_content hit) (f32_of_f64 (f64_mul normalized weight))
    (hit_sourceRefs hit) metadata.

Definition ApplyFallbackScore (hit : MemorySearchHit) : MemorySearchHit :=
  mkHit (hit_id hit) (hit_type hit) (hit_content hit) (f32_of_f64 (FallbackScore (hit_type hit)))
    (hit_sourceRefs hit) (json_set (hit_metadata hit) "scoreSource" (JString "like_fallback")).

(** The comparator of [std::sort], and the order it sorts by. [std::sort] leaves the order of hits
    with the same score and id open; [sort_by] keeps the order they were found in. *)
Definition hit_before (lhs rhs : MemorySearchHit) : bool :=
  if negb (f_eq (hit_score lhs) (hit_score rhs)) then f_lt (hit_score rhs) (hit_score lhs)
  else str_lt (hit_id lhs) (hit_id rhs).

Definition hit_le (lhs rhs : MemorySearchHit) : bool := negb (hit_before rhs lhs).

Definition SortAndLimitSearchResults (hits : list MemorySearchHit) (limit : Z) : list MemorySearchHit :=
  let sorted := sort_by hit_le hits in
  if (0 <? limit)%Z && (limit <? Z.of_nat (length sorted))%Z then take (Z.to_nat limit) sorted else sorted.

(** What [Fts5EscapeQuery] keeps of a byte, and the [*] that follows a word byte. *)
Definition fts_plain (c : ascii) : bool :=
  isalnum c || bool_decide (c = "_"%char) || isspace c || (128 <=? byte_code c)%Z.

Definition word_char (c : ascii) : bool := isalnum c || bool_decide (c = "_"%char).

Fixpoint fts_escape_go (query escaped : string) : string :=
  match query with
  | EmptyString => escaped
  | String c rest =>
      if fts_plain c then fts_escape_go rest (escaped +:+ String c EmptyString)
      else if bool_decide (c = "*"%char) then
        match str_back escaped with
        | None => fts_escape_go rest escaped
        | Some prev =>
            if negb (word_char prev) then fts_escape_go rest escaped
            else fts_escape_go rest (escaped +:+ String c EmptyString)
        end
      else fts_escape_go rest escaped
  end.

Definition Fts5EscapeQuery (query : string) : string :=
  let escaped := fts_escape_go query EmptyString in
  if is_empty escaped
  then str_filter (λ c, isalnum c || bool_decide (c = "_"%char) || bool_decide (c = " "%char)) query
  else escaped.

(** ** LIKE ... ESCAPE '\' *)

Inductive LikeToken := LAny | LOne | LLit (c : ascii) | LNever.

Fixpoint like_tokens (pattern : string) (escaped : bool) : list LikeToken :=
  match pattern with
  | EmptyString => if escaped then [LNever] else []
  | String c rest =>
      if escaped then LLit c :: like_tokens rest false
      else if bool_decide (c = backslash) then like_tokens rest true
      else if bool_decide (c = "%"%char) then LAny :: like_tokens rest false
      else if bool_decide (c = "_"%char) then LOne :: like_tokens rest false
      else LLit c :: like_tokens rest false
  end.

(** Letters of ASCII match in both cases. *)
Fixpoint like_match (tokens : list LikeToken) (s : string) : bool :=
  match tokens with
  | [] => is_empty s
  | LNever :: _ => false
  | LOne :: tokens' => match s with String _ s' => like_match tokens' s' | EmptyString => false end
  | LLit c :: tokens' =>
      match s with
      | String d s' => bool_decide (tolower c = tolower d) && like_match tokens' s'
      | EmptyString => false
      end
  | LAny :: tokens' =>
      (fix any s := like_match tokens' s || match s with String _ s' => any s' | EmptyString => false end) s
  end.

Definition like (pattern s : string) : bool := like_match (like_tokens pattern false) s.

(** ** The search *)

(** FTS5: the rowids of an index that match a query, with their bm25 rank (a finite number); [None]
    when the query is not in its syntax. *)
Class FtsEngine : Type := {
  fts_match : FtsIndex → string → option (list (Z * f64));
  fts_match_dom i q l rowid rank : fts_match i q = Some l → (rowid, rank) ∈ l → is_Some (i !! rowid);
  fts_match_rank i q l rowid rank : fts_match i q = Some l → (rowid, rank) ∈ l → f_finite rank = true
}.

(** How a full-text SELECT ended. *)
Inductive FtsEnd := FtsPrepareFailed (e : MemoryError) | FtsStepFailed | FtsDone.

Section Search.
Context `{JsonText} `{SqlEnv} `{SqlPlan} `{FtsEngine}.

(** The rows of [table JOIN fts ON rowid WHERE sel AND fts MATCH query] with their rank. *)
Definition fts_join {R} (id : R → Z) (sel : R → bool) (rows : list R) (matches : list (Z * f64))
    : list (R * f64) :=
  omap (λ '(rowid, rank),
    match filter (λ r, bool_decide (id r = rowid) && sel r) rows with
    | r :: _ => Some (r, rank)
    | [] => None
    end) matches.

(** [ORDER BY rank ASC] and then [newest] *)
Definition by_rank {R} (newest : R → R → bool) (x y : R * f64) : bool :=
  f_lt x.2 y.2 || (f_eq x.2 y.2 && newest x.1 y.1).

Definition fts_summaries (request : MemorySearchRequest) (q : string) (limit : Z) (t : Tables)
    : option (list (SummaryRow * f64)) :=
  matches ← fts_match (t_fts_summaries t) (bind_text q);
  Some (take (Z.to_nat limit) (sort_by (by_rank newest_summary) (fts_join su_id
    (λ r, session_scope (sreq_agentId request) (sreq_sessionId request) (su_agent_id r) (su_session_id r))
    (t_summaries t) matches))).

Definition fts_entities (request : MemorySearchRequest) (q : string) (limit : Z) (t : Tables)
    : option (list (EntityRow * f64)) :=
  matches ← fts_match (t_fts_entities t) (bind_text q);
  Some (take (Z.to_nat limit) (sort_by (by_rank newest_entity) (fts_join en_rowid
    (λ r, en_active r && bool_decide (en_agent_id r = bind_text (sreq_agentId request)))
    (t_entities t) matches))).

Definition fts_relations (request : MemorySearchRequest) (q : string) (limit : Z) (t : Tables)
    : option (list (RelationRow * f64)) :=
  matches ← fts_match (t_fts_relations t) (bind_text q);
  Some (take (Z.to_nat limit) (sort_by (by_rank newest_relation) (fts_join re_id
    (λ r, re_active r && bool_decide (re_agent_id r = bind_text (sreq_agentId request)))
    (t_relations t) matches))).

(** Stepping a SELECT with MATCH: a query FTS5 rejects fails in the first step. *)
Definition step_match {R} (q : Tables → option (list R)) : M (Conn Tables) (list R * bool) := λ c,
  match q (conn_view c) with
  | Some _ => step_rows (λ t, default [] (q t)) c
  | None => (Ret ([], false), conn_said "fts5: syntax error" c)
  end.

(** One full-text SELECT: its hits are appended to [results]; after a failing step they are all
    dropped. *)
Definition fts_select {R} (context_prepare : string) (q : Tables → option (list R))
    (to_hit : R → MemorySearchHit) (results : list MemorySearchHit)
    : M (Conn Tables) (list MemorySearchHit * FtsEnd) :=
  let* ok := prepare in
  if negb ok then
    let* e := SqliteFailure context_prepare in
    ret (results, FtsPrepareFailed (op_error e))
  else
    let* res := step_match q in
    if res.2 then ret (results ++ (to_hit <$> res.1), FtsDone)
    else ret ([], FtsStepFailed).

Definition summary_hit (r : SummaryRow) : MemorySearchHit :=
  mkHit ("summary:" +:+ to_string (column_int (su_id r))) "summary"
    (su_level r +:+ ": " +:+ su_topic r +:+ ": " +:+ su_summary r) (f32_of_Z 0)
    (ParseSourceRefsColumn (su_source_refs_json r)) json_object.

Definition entity_hit (r : EntityRow) : MemorySearchHit :=
  mkHit (en_id r) "entity" (en_type r +:+ ": " +:+ en_name r +:+ ": " +:+ en_summary r) (f32_of_Z 0)
    (ParseSourceRefsColumn (en_source_refs_json r)) (ParseJsonSafely (en_metadata_json r)).

Definition relation_hit (r : RelationRow) : MemorySearchHit :=
  mkHit ("relation:" +:+ to_string (column_int (re_id r))) "relation"
    (re_from_entity r +:+ " " +:+ re_relation r +:+ " " +:+ re_to_entity r) (f32_of_Z 0)
    (ParseSourceRefsColumn (re_source_refs_json r)) json_object.

(** The three full-text SELECTs: the hits, whether they failed, and the error to return early with. *)
Definition fts_phase (request : MemorySearchRequest) (ftsQuery : string) (limit : Z)
    : M (Conn Tables) (list MemorySearchHit * option MemoryError) :=
  if is_empty ftsQuery then ret ([], None)
  else
    let* r1 := fts_select "SearchLongTermMemory::fts_summaries_prepare" (fts_summaries request ftsQuery limit)
                 (λ '(r, rank), ApplyFtsScore (summary_hit r) rank) [] in
    match r1.2 with
    | FtsPrepareFailed e => ret (r1.1, Some e)
    | FtsStepFailed => ret (r1.1, None)
    | FtsDone =>
        let* r2 := fts_select "SearchLongTermMemory::fts_entities_prepare" (fts_entities request ftsQuery limit)
                     (λ '(r, rank), ApplyFtsScore (entity_hit r) rank) r1.1 in
        match r2.2 with
        | FtsPrepareFailed e => ret (r2.1, Some e)
        | FtsStepFailed => ret (r2.1, None)
        | FtsDone =>
            let* r3 := fts_select "SearchLongTermMemory::fts_relations_prepare"
                         (fts_relations request ftsQuery limit)
                         (λ '(r, rank), ApplyFtsScore (relation_hit r) rank) r2.1 in
            ret (r3.1, match r3.2 with FtsPrepareFailed e => Some e | _ => None end)
        end
    end.

Definition like_summaries (request : MemorySearchRequest) (pattern : string) (limit : Z) (t : Tables)
    : list SummaryRow :=
  let p := bind_text pattern in
  take (Z.to_nat limit) (sort_by newest_summary (filter (λ r,
    session_scope (sreq_agentId request) (sreq_sessionId request) (su_agent_id r) (su_session_id r) &&
    (like p (su_topic r) || like p (su_summary r))) (t_summaries t))).

Definition like_entities (request : MemorySearchRequest) (pattern : string) (limit : Z) (t : Tables)
    : list EntityRow :=
  let p := bind_text pattern in
  take (Z.to_nat limit) (sort_by newest_entity (scan_entities (filter (λ r,
    en_active r && bool_decide (en_agent_id r = bind_text (sreq_agentId request)) &&
    (like p (en_id r) || like p (en_type r) || like p (en_name r) || like p (en_summary r)))
    (t_entities t)))).

Definition like_relations (request : MemorySearchRequest) (pattern : string) (limit : Z) (t : Tables)
    : list RelationRow :=
  let p := bind_text pattern in
  take (Z.to_nat limit) (sort_by newest_relation (filter (λ r,
    re_active r && bool_decide (re_agent_id r = bind_text (sreq_agentId request)) &&
    (like p (re_from_entity r) || like p (re_relation r) || like p (re_to_entity r)))
    (t_relations t))).

(** The LIKE fallback: the hits found so far, and the error that ended it. *)
Definition like_phase (request : MemorySearchRequest) (limit : Z)
    : M (Conn Tables) (list MemorySearchHit * option MemoryError) :=
  let pattern := "%" +:+ EscapeLikePattern (sreq_query request) +:+ "%" in
  let* s := select "SearchLongTermMemory::like_summaries_prepare" "SearchLongTermMemory::like_summaries_step"
              (like_summaries request pattern limit) in
  let summaries := (λ r, ApplyFallbackScore (summary_hit r)) <$> s.1 in
  match s.2 with
  | Some e => ret (summaries, Some e)
  | None =>
      let* en := select "SearchLongTermMemory::like_entities_prepare"
                   "SearchLongTermMemory::like_entities_step" (like_entities request pattern limit) in
      let entities := (λ r, ApplyFallbackScore (entity_hit r)) <$> en.1 in
      match en.2 with
      | Some e => ret (summaries ++ entities, Some e)
      | None =>
          let* re := select "SearchLongTermMemory::like_relations_prepare"
                       "SearchLongTermMemory::like_relations_step" (like_relations request pattern limit) in
          let relations := (λ r, ApplyFallbackScore (relation_hit r)) <$> re.1 in
          ret (summaries ++ entities ++ relations, re.2)
      end
  end.

Definition search_long_term (request : MemorySearchRequest) : M (Conn Tables) MemorySearchStoreResult :=
  if is_empty (sreq_query request) then ret (mkSearchStoreResult true [] no_error)
  else
    let limit := if (0 <? sreq_limit request)%Z then sreq_limit request else 10%Z in
    let ftsQuery := Fts5EscapeQuery (sreq_query request) in
    let* fts := fts_phase request ftsQuery limit in
    match fts.2 with
    | Some e => ret (mkSearchStoreResult false fts.1 e)
    | None =>
        let* found := match fts.1 with
                      | [] => like_phase request limit
                      | hits => ret (hits, None)
                      end in
        ret (match found.2 with
             | Some e => mkSearchStoreResult false found.1 e
             | None => mkSearchStoreResult true (SortAndLimitSearchResults found.1 limit) no_error
             end)
    end.

Definition SearchLongTermMemory (request : MemorySearchRequest)
    : M MemorySqliteStore MemorySearchStoreResult :=
  on_db (mkSearchStoreResult false [] (op_error store_unavailable)) (search_long_term request).
End Search.

(** ** The SQLite store implements the interfaces of store.h *)

Section Instances.
Context `{JsonText} `{SqlEnv} `{SqlPlan} `{FtsEngine}.

#[export] Instance SqliteEventStore : MemoryEventStore MemorySqliteStore := {
  st_SaveEvent := SaveEvent;
  st_LoadEventsAfterCursor := LoadEventsAfterCursor;
  st_LoadRecentEvents := LoadRecentEvents
}.

#[export] Instance SqlitePayloadStore : MemoryPayloadStore MemorySqliteStore := {
  st_SavePayload := SavePayload;
  st_LoadRecentPayloads := LoadRecentPayloads
}.

#[export] Instance SqliteLongTermStore : MemoryLongTermStore MemorySqliteStore (Conn Tables) := {
  st_RunInTransaction W := @RunInTransaction _ W;
  st_LoadConsolidationCursor := LoadConsolidationCursor;
  st_SaveConsolidationCursor := SaveConsolidationCursor;
  st_LoadLongTermMemory := LoadLongTermMemory
}.

#[export] Instance SqliteSearchStore : MemorySearchStore MemorySqliteStore := {
  st_SearchLongTermMemory := SearchLongTermMemory
}.

#[export] Instance SqliteStatsStore : MemoryStatsStore MemorySqliteStore := {
  st_GetStoreStats := GetStoreStats
}.
End Instances.
