(* ===== verification/Samples.v ===== *)
(** * Concrete parameters

    Instances of the parameters of the model with which the witnesses evaluate: a database that
    never fails, one that fails at a given call, a text form for the few JSON values the witnesses
    use (and which, as the real one, throws on a string that is not UTF-8), a full-text engine that
    finds whole columns, and a plan that scans in table order. *)

From Stdlib Require Import ZArith Lia Ascii String.
From stdpp Require Import base list strings gmap.
From S2P Require Import Prelude CppString Floats Json Types Sqlite Store StoreSearch.

Open Scope am_scope.

Definition sample_now : string := "2024-01-01 00:00:00".

Definition reliable_env : SqlEnv := {| sql_fault := λ _ _, None; sql_now := λ _, sample_now |}.

(** The call number [n] fails with [f]. *)
Definition failing_env (n : nat) (f : SqlFault) : SqlEnv :=
  {| sql_fault := λ tick _, if decide (tick = n) then Some f else None; sql_now := λ _, sample_now |}.

Fixpoint join_lines (l : list string) : string :=
  match l with
  | [] => EmptyString
  | s :: l' => s +:+ String "010"%char (join_lines l')
  end.

Fixpoint split_lines (s cur : string) : list string :=
  match s with
  | EmptyString => []
  | String c s' =>
      if decide (c = "010"%char) then cur :: split_lines s' EmptyString
      else split_lines s' (cur +:+ String c EmptyString)
  end.

(** Bytes above 127 stand for text that is not UTF-8. *)
Definition sample_dump (j : json) : Outcome string :=
  match j with
  | JObject [] => Ret "{}"
  | JArray l =>
      let items := string_items l in
      if forallb (str_forall (λ c, (byte_code c <? 128)%Z)) items
      then Ret ("[" +:+ join_lines items)
      else Throw "[json.exception.type_error.316] invalid UTF-8 byte"
  | _ => Throw "not a sample value"
  end.

Definition sample_parse (s : string) : Outcome json :=
  match s with
  | EmptyString => Throw "[json.exception.parse_error.101] empty input"
  | String c rest =>
      if decide (s = "{}") then Ret json_object
      else if decide (c = "["%char) then Ret (strings_to_json (split_lines rest EmptyString))
      else Throw "[json.exception.parse_error.101] not a sample text"
  end.

Definition sample_json : JsonText := {| json_parse := sample_parse; json_dump := sample_dump |}.

Program Definition sample_plan : SqlPlan := {| scan_entities := λ l, l |}.
Next Obligation. done. Qed.

(** The rows with a column equal to the query; a query that ends in NOT is a syntax error. *)
Definition sample_match (i : FtsIndex) (q : string) : option (list (Z * f64)) :=
  if ends_with "NOT" q then None
  else Some ((λ '(rowid, _), (rowid, f64_of_Z (-1))) <$>
               filter (λ '(_, columns), q ∈ columns) (map_to_list i)).

Lemma sample_match_elem i q l rowid rank :
  sample_match i q = Some l → (rowid, rank) ∈ l → is_Some (i !! rowid) ∧ rank = f64_of_Z (-1).
Proof.
  unfold sample_match. case_match; [done|]. intros [= <-] Hin.
  apply list_elem_of_fmap in Hin as ([r v] & Heq & Hin). simplify_eq.
  apply list_elem_of_filter in Hin as [_ Hin%elem_of_map_to_list]. split; [by eexists|done].
Qed.

Program Definition sample_fts : FtsEngine := {| fts_match := sample_match |}.
Next Obligation. intros. by eapply sample_match_elem. Qed.
Next Obligation. intros i q l rowid rank Hl Hin. by destruct (sample_match_elem _ _ _ _ _ Hl Hin) as [_ ->]. Qed.

(** An opened, empty store. *)
Definition opened (t : Tables) : MemorySqliteStore :=
  mkSqliteStore "memory.db" (Some (mkConn t None 0 no_error_msg)).
