(* ===== verification/StoreTheorems.v ===== *)
(** * What the SQLite store guarantees

    Reachability under arbitrary faults and exceptions with the invariant of [StoreInvariant];
    transactions; the event log and its cursors. *)

From Stdlib Require Import ZArith Lia Ascii String.
From stdpp Require Import base list strings gmap sorting relations.
From S2P Require Import Prelude CppString Floats Json Types Sqlite StoreInterface Store.
From S2P Require Import StoreInvariant StoreSearch Samples.

Open Scope am_scope.

(** ** The store as a transition system *)

Inductive TxOp :=
| TxSaveSummary (agentId sessionId level topic summary : string) (confidence : f32) (refs : list string)
| TxSaveEntity (entity : MemoryEntity)
| TxSaveRelation (relation : MemoryRelation)
| TxMarkEntityObsolete (entityId supersededBy : string)
| TxSaveConsolidationCursor (agentId sessionId cursor : string).

(** The work given to [RunInTransaction]: calls on the transaction, each next one depending on the
    results so far, until the work returns or throws. *)
Inductive TxProgram :=
| TxReturn (result : MemoryOperationResult)
| TxThrow (what : string)
| TxCall (op : TxOp) (k : MemoryOperationResult → TxProgram).

Inductive Command :=
| CSaveEvent (event : MemoryEvent)
| CSavePayload (payload : MemoryPayloadRef)
| COutside (op : TxOp)
| CTransaction (work : TxProgram)
| CLoadConsolidationCursor (agentId sessionId : string)
| CLoadEventsAfterCursor (agentId sessionId cursor : string) (excluded : list string)
| CLoadRecentEvents (agentId sessionId : string) (limit : Z)
| CLoadRecentPayloads (agentId sessionId : string) (limit : Z)
| CLoadLongTermMemory (agentId : string) (limit : Z) (sessionId : string)
| CSearch (request : MemorySearchRequest)
| CGetStoreStats.

Section System.
Context `{JsonText} `{SqlEnv} `{SqlPlan} `{FtsEngine}.

Definition run_tx_op (op : TxOp) : M (Conn Tables) MemoryOperationResult :=
  match op with
  | TxSaveSummary a s l t su c r => Transaction_SaveSummary a s l t su c r
  | TxSaveEntity e => Transaction_SaveEntity e
  | TxSaveRelation r => Transaction_SaveRelation r
  | TxMarkEntityObsolete i b => Transaction_MarkEntityObsolete i b
  | TxSaveConsolidationCursor a s c => Transaction_SaveConsolidationCursor a s c
  end.

Fixpoint run_tx (work : TxProgram) : M (Conn Tables) (MemoryOperationResult * unit) :=
  match work with
  | TxReturn r => ret (r, tt)
  | TxThrow w => throw w
  | TxCall op k => let* r := run_tx_op op in run_tx (k r)
  end.

Definition run_outside (op : TxOp) : M MemorySqliteStore MemoryOperationResult :=
  match op with
  | TxSaveSummary a s l t su c r => SaveSummary a s l t su c r
  | TxSaveEntity e => SaveEntity e
  | TxSaveRelation r => SaveRelation r
  | TxMarkEntityObsolete i b => MarkEntityObsolete i b
  | TxSaveConsolidationCursor a s c => SaveConsolidationCursor a s c
  end.

(** The state a public method leaves, whatever it returns or throws. *)
Definition run_command (cmd : Command) (s : MemorySqliteStore) : MemorySqliteStore :=
  match cmd with
  | CSaveEvent e => (SaveEvent e s).2
  | CSavePayload p => (SavePayload p s).2
  | COutside op => (run_outside op s).2
  | CTransaction work => (RunInTransaction tt (run_tx work) s).2
  | CLoadConsolidationCursor a se => (LoadConsolidationCursor a se s).2
  | CLoadEventsAfterCursor a se c ex => (LoadEventsAfterCursor a se c ex s).2
  | CLoadRecentEvents a se l => (LoadRecentEvents a se l s).2
  | CLoadRecentPayloads a se l => (LoadRecentPayloads a se l s).2
  | CLoadLongTermMemory a l se => (LoadLongTermMemory a l se s).2
  | CSearch r => (SearchLongTermMemory r s).2
  | CGetStoreStats => (GetStoreStats s).2
  end.

Inductive store_step : MemorySqliteStore → MemorySqliteStore → Prop :=
| store_step_command cmd s : store_step s (run_command cmd s).

Definition store_ok (s : MemorySqliteStore) : Prop :=
  match db_ s with
  | None => True
  | Some c => conn_ok tables_ok c
  end.

Lemma on_db_ok {A} (u : A) m s : preserves tables_ok m → store_ok s → store_ok (on_db u m s).2.
Proof.
  unfold store_ok, on_db. intros Hm Hs. destruct s as [path [c|]]; simpl in *; [|done].
  specialize (Hm c Hs). by destruct (m c).
Qed.

Lemma run_tx_op_ok op : preserves tables_ok (run_tx_op op).
Proof. destruct op; apply preserves_op_result; eauto with am. Qed.

Lemma run_tx_ok work : preserves tables_ok (run_tx work).
Proof.
  induction work as [r|w|op k IH]; simpl; eauto with am.
  apply preserves_bind; [apply run_tx_op_ok|exact IH].
Qed.

Lemma preserves_step_match {R} P (q : Tables → option (list R)) : preserves P (step_match q).
Proof.
  intros c Hc. unfold step_match. destruct (q (conn_view c)); [by apply preserves_step_rows|].
  destruct Hc. split; simpl; auto.
Qed.

Lemma preserves_fts_select {R} P cp q (to_hit : R → _) results : preserves P (fts_select cp q to_hit results).
Proof.
  apply preserves_bind; [apply preserves_prepare|]. intros [|]; simpl.
  - apply preserves_bind; [apply preserves_step_match|]. intros [? [|]]; apply preserves_ret.
  - apply preserves_bind; [apply preserves_SqliteFailure|]. intros; apply preserves_ret.
Qed.

Lemma preserves_search P request : preserves P (search_long_term request).
Proof.
  unfold search_long_term. case_match; [apply preserves_ret|].
  apply preserves_bind; [|intros [? [|]]; simpl; [apply preserves_ret|]].
  - unfold fts_phase. case_match; [apply preserves_ret|].
    apply preserves_bind; [apply preserves_fts_select|]. intros [? []]; simpl; try apply preserves_ret.
    apply preserves_bind; [apply preserves_fts_select|]. intros [? []]; simpl; try apply preserves_ret.
    apply preserves_bind; [apply preserves_fts_select|]. intros; apply preserves_ret.
  - apply preserves_bind; [|intros [? [|]]; apply preserves_ret].
    case_match; [|apply preserves_ret]. unfold like_phase.
    apply preserves_bind; [apply preserves_select|]. intros [? [|]]; simpl; [apply preserves_ret|].
    apply preserves_bind; [apply preserves_select|]. intros [? [|]]; simpl; [apply preserves_ret|].
    apply preserves_bind; [apply preserves_select|]. intros; apply preserves_ret.
Qed.

Lemma run_command_ok cmd s : store_ok s → store_ok (run_command cmd s).
Proof.
  intros Hs. destruct cmd as [| |op|work| | | | | | |]; simpl; try (apply on_db_ok; [|done]).
  - eauto with am.
  - eauto with am.
  - destruct op; apply on_db_ok; eauto with am.
  - apply run_in_transaction_ok, run_tx_ok.
  - apply preserves_bind; [apply preserves_prepare|]. intros [|]; simpl.
    + apply preserves_bind; [apply preserves_step_first|]. intros [| |]; eauto with am.
    + eauto with am.
  - apply preserves_bind; eauto with am.
  - apply preserves_bind; eauto with am.
  - apply preserves_bind; eauto with am.
  - apply preserves_bind; [apply preserves_select|]. intros [? [|]]; simpl; [apply preserves_ret|].
    apply preserves_bind; [apply preserves_select|]. intros [? [|]]; simpl; [apply preserves_ret|].
    apply preserves_bind; [apply preserves_select|]. intros; apply preserves_ret.
  - apply preserves_search.
  - apply preserves_bind; eauto with am.
Qed.

Lemma reachable_ok s s' : store_ok s → rtc store_step s s' → store_ok s'.
Proof. intros Hs. induction 1 as [|? ? ? [cmd s0] _ IH]; [done|]. by apply IH, run_command_ok. Qed.
End System.

(** ** Work inside a transaction *)

Section TxSafety.
Context `{JsonText} `{SqlEnv}.

Lemma tx_safe_run_write f : tx_safe id (run_write f).
Proof.
  eapply tx_safe_bind; [apply tx_safe_prepare|..].
  - intros [|] Ha; [|done]. apply tx_safe_step_write.
  - intros [|] c Ha; [done|]. split; [done|]. by intros b [= <-].
Qed.

(** Two parts of which the second only runs when the first one succeeded. *)
Lemma tx_safe_and (m1 m2 : M (Conn Tables) bool) :
  tx_safe id m1 → tx_safe id m2 →
  tx_safe id (let* ok := m1 in if negb ok then ret false else m2).
Proof.
  intros H1 H2. eapply tx_safe_bind; [exact H1|..].
  - by intros [|].
  - intros [|] c Ha; [done|]. split; [done|]. by intros b [= <-].
Qed.

Lemma tx_safe_if (b : bool) (m1 m2 : M (Conn Tables) bool) :
  tx_safe id m1 → tx_safe id m2 → tx_safe id (if b then m1 else m2).
Proof. by destruct b. Qed.

Lemma SqliteFailure_result {T} context (c : Conn T) :
  ∃ r, SqliteFailure context c = (Ret r, c) ∧ op_succeeded r = false ∧ HasError (op_error r) = true.
Proof. by eexists. Qed.

Lemma tx_safe_op_result context m : tx_safe id m → tx_safe op_succeeded (op_result context m).
Proof.
  intros Hm. eapply tx_safe_bind; [exact Hm|..].
  - intros [|] Ha; [|done]. apply tx_safe_ret.
  - intros [|] c Ha; [done|]. destruct (SqliteFailure_result context c) as (r & -> & Hr & _).
    split; [done|]. by intros b [= <-].
Qed.

Lemma tx_safe_run_tx_op op : tx_safe op_succeeded (run_tx_op op).
Proof.
  destruct op as [a s l t su c r|e|r|i b|a s c]; apply tx_safe_op_result.
  - apply tx_safe_lift. intros. apply tx_safe_run_write.
  - apply tx_safe_lift. intros. apply tx_safe_lift. intros. apply tx_safe_and.
    + apply tx_safe_if; [apply tx_safe_ret|apply tx_safe_run_write].
    + apply tx_safe_and; [apply tx_safe_run_write|].
      apply tx_safe_if; [apply tx_safe_run_write|apply tx_safe_ret].
  - apply tx_safe_lift. intros. apply tx_safe_lift. intros. apply tx_safe_and;
      [apply tx_safe_run_write|]. apply tx_safe_and; [apply tx_safe_run_write|].
    apply tx_safe_if; [apply tx_safe_run_write|apply tx_safe_ret].
  - apply tx_safe_run_write.
  - apply tx_safe_run_write.
Qed.

(** Work that gives up, with a failure, as soon as one of its calls fails. *)
Inductive stops_on_failure : TxProgram → Prop :=
| stops_return r : stops_on_failure (TxReturn r)
| stops_throw w : stops_on_failure (TxThrow w)
| stops_call op k :
    (∀ r, op_succeeded r = true → stops_on_failure (k r)) →
    (∀ r, op_succeeded r = false → ∃ r', k r = TxReturn r' ∧ op_succeeded r' = false) →
    stops_on_failure (TxCall op k).

Definition work_succeeded {W} (r : MemoryOperationResult * W) : bool := op_succeeded r.1.

Lemma tx_safe_run_tx work : stops_on_failure work → tx_safe work_succeeded (run_tx work).
Proof.
  induction 1 as [r|w|op k _ IH Hstop]; simpl; [apply tx_safe_ret|apply tx_safe_throw|].
  eapply tx_safe_bind; [apply tx_safe_run_tx_op|exact IH|].
  intros r c Hr. destruct (Hstop r Hr) as (r' & -> & Hr'). simpl.
  split; [done|]. by intros b [= <-].
Qed.

(** What [RunInTransaction] does for work that is safe in a transaction. *)
Lemma run_in_transaction_atomic_on {W} (captured : W)
    (work : M (Conn Tables) (MemoryOperationResult * W)) c :
  tx_safe work_succeeded work → conn_txn c = None →
  match run_in_transaction captured work c with
  | (Ret res, c') =>
      conn_txn c' = None ∧
      if op_succeeded res.1 then
        ∃ begun r worked, exec_begin c = (Ret true, begun) ∧
          conn_txn begun = Some (conn_main c) ∧ work begun = (Ret r, worked) ∧
          op_succeeded r.1 = true ∧ r.2 = res.2 ∧ conn_txn worked = Some (conn_main c')
      else HasError (op_error res.1) = true ∧ conn_main c' = conn_main c
  | (Throw _, c') => conn_main c' = conn_main c
  end.
Proof.
  intros Hsafe Hnone. unfold run_in_transaction, bind at 1, exec_begin at 1.
  destruct (sql_fault (conn_tick c) KExec) as [f|] eqn:Ef; simpl.
  { unfold conn_failed. simpl. rewrite Hnone. by destruct (fault_rollback f). }
  rewrite Hnone. simpl.
  set (begun := mkConn (conn_main c) (Some (conn_main c)) (S (conn_tick c)) no_error_msg).
  destruct (Hsafe begun) as [Hmain Hopen]; [by eexists|]. simpl in Hmain.
  unfold bind at 1. destruct (work begun) as [[r|w] worked] eqn:Ew; simpl in *; [|done].
  destruct (op_succeeded r.1) eqn:Er.
  - destruct (Hopen r eq_refl Er) as [t Ht]. unfold bind at 1, exec_commit at 1.
    destruct (sql_fault (conn_tick worked) KExec) as [f|]; simpl.
    + unfold bind, exec_rollback, conn_failed. simpl. destruct (fault_rollback f); simpl; [done|].
      rewrite Ht. done.
    + rewrite Ht. simpl. split; [done|]. exists begun, r, worked. unfold exec_begin.
      rewrite Ef, Hnone. done.
  - unfold bind, exec_rollback. destruct (conn_txn worked) eqn:Et; simpl.
    all: split; [done|]; destruct (HasError (op_error r.1)) eqn:Eh; simpl; rewrite ?Er, ?Eh; done.
Qed.
(** The same for the method, with what successful work has done. *)
Lemma RunInTransaction_outcome {W} (captured : W) work s c
    (R : MemoryOperationResult * W → Tables → Tables → Prop) :
  db_ s = Some c → conn_txn c = None → tx_does work_succeeded R work →
  ∃ c', db_ (RunInTransaction captured work s).2 = Some c' ∧
    match (RunInTransaction captured work s).1 with
    | Ret res =>
        conn_txn c' = None ∧
        if op_succeeded res.1 then
          ∃ r, op_succeeded r.1 = true ∧ r.2 = res.2 ∧ R r (conn_main c) (conn_main c')
        else HasError (op_error res.1) = true ∧ conn_main c' = conn_main c
    | Throw _ => conn_main c' = conn_main c
    end.
Proof.
  intros Hs Hc Hdoes. unfold RunInTransaction, on_db. rewrite Hs.
  pose proof (run_in_transaction_atomic_on captured work c (tx_does_safe _ _ _ Hdoes) Hc) as Hat.
  destruct (run_in_transaction captured work c) as [r c'] eqn:E. simpl in *. exists c'. split; [done|].
  destruct r as [res|w]; [|done]. destruct Hat as [Hn Hat]. split; [done|].
  destruct (op_succeeded res.1) eqn:Ho; [|done].
  destruct Hat as (begun & r & worked & Hb & Hbt & Hw & Hr & Hr2 & Hwt). exists r. split_and!; [done|done|].
  destruct (Hdoes begun) as [_ Hd]; [by eexists|]. rewrite Hw in Hd. simpl in Hd.
  destruct (Hd r eq_refl Hr) as [_ HR]. unfold conn_view in HR. by rewrite Hbt, Hwt in HR.
Qed.
End TxSafety.

#[export] Hint Resolve tx_safe_ret tx_safe_throw tx_safe_run_tx_op tx_safe_op_result : am.

(** ** Properties: the invariant *)

(** C1: whatever sequence of public calls is made on an opened store, whatever database calls fail
    and wherever work throws, both the committed content and that of an open transaction have at
    most one active entity per (agent, type, name) and one active relation per edge, and their
    full-text indexes hold exactly the columns of the rows of their tables. *)
Theorem store_reachable_invariant `{JsonText} `{SqlEnv} `{SqlPlan} `{FtsEngine}
    (t : Tables) (s : MemorySqliteStore) (c : Conn Tables)
    (Ht : tables_ok t) (Hreach : rtc store_step (opened t) s) (Hc : db_ s = Some c) :
  ∀ content, content = conn_main c ∨ conn_txn c = Some content →
    unique_active_entities (t_entities content) ∧
    unique_active_relations (t_relations content) ∧
    mirrors su_id fts_summary_columns (t_summaries content) (t_fts_summaries content) ∧
    mirrors en_rowid fts_entity_columns (t_entities content) (t_fts_entities content) ∧
    mirrors re_id fts_relation_columns (t_relations content) (t_fts_relations content).
Proof.
  assert (store_ok s) as Hok.
  { eapply reachable_ok; [|exact Hreach]. by split. }
  unfold store_ok in Hok. rewrite Hc in Hok. destruct Hok as [Hm Htx].
  intros content [-> |Hct]; [destruct Hm|destruct (Htx _ Hct)]; done.
Qed.

Definition sample_entity (id name : string) : MemoryEntity :=
  mkEntity id "agent" "topic" name "a summary" (f32_lit 1 2) true "" "" ["event:1"] json_object "" "".

Lemma store_reachable_invariant_witness :
  let _ := sample_json in let _ := failing_env 9 (mkFault 0 "disk I/O error" true) in
  let _ := sample_plan in let _ := sample_fts in
  ∃ c, db_ (run_command (COutside (TxSaveEntity (sample_entity "topic:2" "rocq")))
         (run_command (COutside (TxSaveEntity (sample_entity "topic:1" "rocq"))) (opened empty_tables)))
       = Some c ∧
    length (t_entities (conn_main c)) = 2%nat ∧ unique_active_entities (t_entities (conn_main c)).
Proof.
  intros Hj He Hp Hf. eexists. split; [vm_compute; reflexivity|]. split; [vm_compute; reflexivity|].
  eapply (store_reachable_invariant empty_tables
    (run_command (COutside (TxSaveEntity (sample_entity "topic:2" "rocq")))
      (run_command (COutside (TxSaveEntity (sample_entity "topic:1" "rocq"))) (opened empty_tables)))).
  - apply empty_tables_ok.
  - eapply rtc_l; [apply store_step_command|]. eapply rtc_l; [apply store_step_command|]. reflexivity.
  - vm_compute. reflexivity.
  - by left.
Defined.

(** ** Properties: transactions *)

(** Without faults that roll back by themselves a transaction stays open and the committed content
    untouched, whatever the calls on the transaction return or throw. *)
Definition keeps_open `{SqlEnv} {A} (m : M (Conn Tables) A) : Prop :=
  ∀ c, is_Some (conn_txn c) → conn_main (m c).2 = conn_main c ∧ is_Some (conn_txn (m c).2).

(** No fault rolls the transaction back by itself. *)
Definition no_auto_rollback `{SqlEnv} : Prop := ∀ n k f, sql_fault n k = Some f → fault_rollback f = false.

Lemma reliable_no_auto_rollback `{SqlEnv} : (∀ n k, sql_fault n k = None) → no_auto_rollback.
Proof. intros Hrel n k f Hf. by rewrite Hrel in Hf. Qed.

Section Open.
Context `{JsonText} `{SqlEnv} (Hquiet : no_auto_rollback).

Lemma keeps_open_ret {A} (a : A) : keeps_open (ret a).
Proof. by intros c. Qed.

Lemma keeps_open_bind {A B} (m : M (Conn Tables) A) (k : A → M (Conn Tables) B) :
  keeps_open m → (∀ a, keeps_open (k a)) → keeps_open (bind m k).
Proof.
  intros Hm Hk c Hc. unfold bind. destruct (Hm c Hc) as [Hmain Hop].
  destruct (m c) as [[a|w] c']; simpl in *; [|done]. destruct (Hk a c' Hop) as [-> ?]. done.
Qed.

Lemma keeps_open_lift {A} (o : Outcome A) : keeps_open (lift_outcome o).
Proof. by intros c. Qed.

Lemma keeps_open_prepare : keeps_open prepare.
Proof.
  intros c Hc. unfold prepare. destruct (sql_fault _ _) as [f|] eqn:Hf; [|done].
  simpl. unfold conn_failed. by rewrite (Hquiet _ _ _ Hf).
Qed.

Lemma keeps_open_step_write f : keeps_open (step_write f).
Proof.
  intros c [t Ht]. unfold step_write. destruct (sql_fault _ _) as [fl|] eqn:Hf; simpl.
  - unfold conn_failed. rewrite (Hquiet _ _ _ Hf), Ht. by split; [|eexists].
  - unfold conn_write. by rewrite Ht.
Qed.

Lemma keeps_open_failure context : keeps_open (SqliteFailure context).
Proof. by intros c. Qed.

Lemma keeps_open_run_write f : keeps_open (run_write f).
Proof.
  apply keeps_open_bind; [apply keeps_open_prepare|]. intros [|]; simpl;
    [apply keeps_open_step_write|apply keeps_open_ret].
Qed.

Ltac keep_open :=
  repeat first
    [ apply keeps_open_ret | apply keeps_open_lift | apply keeps_open_run_write
    | apply keeps_open_failure | apply keeps_open_bind; [|intros]
    | progress unfold MarkDuplicateEntitiesObsoleteUnlocked, MarkEntityObsoleteUnlocked,
        SaveConsolidationCursorUnlocked, SaveSummaryUnlocked, SaveEntityUnlocked, SaveRelationUnlocked
    | case_match ].

Lemma keeps_open_run_tx work : keeps_open (run_tx work).
Proof.
  induction work as [r|w|op k IH]; simpl; [by intros c|by intros c|]. apply keeps_open_bind; [|exact IH].
  destruct op; (apply keeps_open_bind; [|intros [|]]); keep_open.
Qed.

Lemma keeps_open_tx_safe {W} (m : M (Conn Tables) (MemoryOperationResult * W)) :
  keeps_open m → tx_safe work_succeeded m.
Proof. intros Hm c Hc. by destruct (Hm c Hc). Qed.
End Open.

(** C8: RunInTransaction is atomic when BEGIN, a statement or COMMIT fails, for work that gives up at its
    first failing call (then also when the fault rolls the transaction back by itself) and for any work
    when no fault rolls back by itself: it reports success only if the work succeeded and exactly the
    content the work left is committed; it reports a failure, never an empty one, only with the
    committed content unchanged; if the work throws, nothing is committed.
    [continuing_work_not_atomic] shows that no more can be said. *)
Theorem run_in_transaction_atomic `{JsonText} `{SqlEnv} (work : TxProgram) (s : MemorySqliteStore)
    (c : Conn Tables) (Hwork : stops_on_failure work ∨ no_auto_rollback) (Hs : db_ s = Some c) (Hc : conn_txn c = None) :
  ∃ c', db_ (RunInTransaction tt (run_tx work) s).2 = Some c' ∧
    match (RunInTransaction tt (run_tx work) s).1 with
    | Ret res =>
        conn_txn c' = None ∧
        if op_succeeded res.1 then
          ∃ begun r worked, exec_begin c = (Ret true, begun) ∧ conn_txn begun = Some (conn_main c) ∧
            run_tx work begun = (Ret r, worked) ∧ op_succeeded r.1 = true ∧
            conn_txn worked = Some (conn_main c')
        else HasError (op_error res.1) = true ∧ conn_main c' = conn_main c
    | Throw _ => conn_main c' = conn_main c
    end.
Proof.
  assert (tx_safe work_succeeded (run_tx work)) as Hsafe.
  { destruct Hwork; [by apply tx_safe_run_tx|by apply keeps_open_tx_safe, keeps_open_run_tx]. }
  unfold RunInTransaction, on_db. rewrite Hs.
  pose proof (run_in_transaction_atomic_on tt (run_tx work) c Hsafe Hc) as Hat.
  destruct (run_in_transaction tt (run_tx work) c) as [r c']. simpl. exists c'. split; [done|].
  destruct r as [res|w]; [|done]. destruct Hat as [Hn Hat]. split; [done|].
  destruct (op_succeeded res.1); [|done]. naive_solver.
Qed.

(** A cursor and then a summary, giving up at the first failure. *)
Definition sample_work : TxProgram :=
  TxCall (TxSaveSummary "agent" "s" "L1" "topic" "text" (f32_lit 1 2) ["e"]) (λ r,
    if op_succeeded r
    then TxCall (TxSaveConsolidationCursor "agent" "s" "7") (λ r, TxReturn r)
    else TxReturn r).

Lemma run_in_transaction_atomic_witness :
  let _ := sample_json in let _ := failing_env 4 (mkFault 0 "database or disk is full" false) in
  ∃ c', db_ (RunInTransaction tt (run_tx sample_work) (opened empty_tables)).2 = Some c' ∧
    conn_main c' = empty_tables.
Proof.
  intros Hj He.
  destruct (run_in_transaction_atomic sample_work (opened empty_tables)
    (mkConn empty_tables None 0 no_error_msg)) as (c' & Hc' & Hres).
  - left. apply stops_call; [|by intros r Hr; exists r; rewrite Hr].
    intros r ->. apply stops_call; [intros; constructor|by intros r' Hr; exists r'].
  - reflexivity.
  - reflexivity.
  - exists c'. split; [exact Hc'|].
    destruct (RunInTransaction tt (run_tx sample_work) (opened empty_tables)).1 as [res|w] eqn:E.
    + assert (op_succeeded res.1 = false) as Hf by (revert E; vm_compute; by intros [= <-]).
      rewrite Hf in Hres. destruct Hres as (_ & _ & Hm). exact Hm.
    + exact Hres.
Defined.

(** Work that ignores the result of its first call. *)
Definition continuing_work : TxProgram :=
  TxCall (TxSaveSummary "agent" "s" "L1" "topic" "text" (f32_lit 1 2) ["e"]) (λ _,
    TxCall (TxSaveConsolidationCursor "agent" "s" "7") (λ r, TxReturn r)).

(** When a fault of the first call has rolled the transaction back, such work goes on outside it: the
    cursor is written, COMMIT fails and RunInTransaction reports a failure, with other content
    committed than before. *)
Lemma continuing_work_not_atomic :
  let _ := sample_json in let _ := failing_env 2 (mkFault 0 "disk I/O error" true) in
  ∃ r s' c', RunInTransaction tt (run_tx continuing_work) (opened empty_tables) = (Ret r, s') ∧
    op_succeeded r.1 = false ∧ db_ s' = Some c' ∧ conn_main c' ≠ empty_tables ∧
    t_cursors (conn_main c') !! ("agent", "s") = Some 7%Z.
Proof.
  do 3 eexists. split; [vm_compute; reflexivity|]. split; [vm_compute; reflexivity|].
  split; [vm_compute; reflexivity|]. split; [|vm_compute; reflexivity].
  intros Heq. apply (f_equal (λ t, t_cursors t !! ("agent", "s"))) in Heq. vm_compute in Heq. discriminate.
Qed.

(** C17: an exception inside the work of RunInTransaction leaves the transaction open: BEGIN was
    executed, neither COMMIT nor ROLLBACK is. From then on every RunInTransaction is refused, and an
    event whose SaveEvent reports success is gone when the store is destroyed. *)
Theorem exception_leaves_transaction_open `{JsonText} `{SqlEnv} (work : TxProgram)
    (s s' : MemorySqliteStore) (c : Conn Tables) (w : string)
    (Hreliable : ∀ n k, sql_fault n k = None)
    (Hs : db_ s = Some c) (Hc : conn_txn c = None)
    (Hthrow : RunInTransaction tt (run_tx work) s = (Throw w, s')) :
  (∀ work', ∃ r s'', RunInTransaction tt work' s' = (Ret r, s'') ∧ op_succeeded r.1 = false ∧
      error_details (op_error r.1)
      = "RunInTransaction::begin: cannot start a transaction within a transaction") ∧
  (∀ e metadata, json_dump (JsonObject (event_metadata e)) = Ret metadata →
      ∃ s'', SaveEvent e s' = (Ret MemorySuccess, s'') ∧ destroy s'' = Some (conn_main c)).
Proof.
  assert (∃ c', db_ s' = Some c' ∧ is_Some (conn_txn c') ∧ conn_main c' = conn_main c)
    as (c' & Hs' & [t Ht] & Hmain).
  { unfold RunInTransaction, on_db, run_in_transaction, bind, exec_begin in Hthrow.
    rewrite Hs, (Hreliable _ KExec), Hc in Hthrow. simpl in Hthrow.
    match type of Hthrow with context [run_tx work ?b] =>
      destruct (keeps_open_run_tx (reliable_no_auto_rollback Hreliable) work b) as [Hm Ho]; [by eexists|];
      destruct (run_tx work b) as [[r|w'] c1] end.
    - exfalso. destruct (op_succeeded r.1); unfold exec_commit, exec_rollback in Hthrow;
        [rewrite (Hreliable _ KExec) in Hthrow|]; simpl in Hthrow; repeat case_match; simplify_eq/=.
    - simplify_eq/=. by exists c1. }
  split.
  - intros work'. unfold RunInTransaction, on_db, run_in_transaction, bind, exec_begin. rewrite Hs'.
    rewrite (Hreliable _ KExec), Ht. simpl. do 2 eexists. split; [reflexivity|]. done.
  - intros e metadata Hd. unfold SaveEvent, on_db, op_result, SaveEventUnlocked, bind, prepare. rewrite Hs'.
    rewrite (Hreliable _ KPrepare). simpl. unfold lift_outcome. rewrite Hd. unfold step_write.
    rewrite (Hreliable _ KStep). simpl. eexists. split; [reflexivity|].
    unfold destroy, exec_rollback, conn_write. simpl. rewrite Ht. simpl. by rewrite Hmain.
Qed.

Definition sample_event (content : string) : MemoryEvent :=
  mkEvent MESSAGE_APPENDED "agent" "s" "user" content "" "" "" "" json_object "".

(** A session id that is not UTF-8 in the source references of a summary. *)
Definition not_utf8 : string := String "255"%char EmptyString.

Definition sample_throwing_work : TxProgram :=
  TxCall (TxSaveSummary "agent" not_utf8 "L1" "t" "x" (f32_lit 1 2) [not_utf8]) (λ r, TxReturn r).

Lemma exception_leaves_transaction_open_witness :
  let _ := sample_json in let _ := reliable_env in
  ∃ w s', RunInTransaction tt (run_tx sample_throwing_work) (opened empty_tables) = (Throw w, s') ∧
    ∃ s'', SaveEvent (sample_event "hello") s' = (Ret MemorySuccess, s'') ∧
      destroy s'' = Some empty_tables.
Proof.
  intros Hj He. do 2 eexists. split; [vm_compute; reflexivity|].
  edestruct (λ s', exception_leaves_transaction_open sample_throwing_work (opened empty_tables) s'
    (mkConn empty_tables None 0 no_error_msg)) as [_ Hsave]; [| | |vm_compute; reflexivity|apply (Hsave (sample_event "hello") "{}"); reflexivity].
  - done.
  - reflexivity.
  - reflexivity.
Defined.
