(* ===== verification/EventLog.v ===== *)
(** * The event log

    What SaveEvent and the three ways of reading promise each other: appending, incremental reading
    by cursor, and the most recent events. *)

From Stdlib Require Import ZArith Lia Ascii String.
From stdpp Require Import base list strings gmap sorting.
From S2P Require Import Prelude CppString Floats Json Types Sqlite StoreInterface Store StoreInvariant Samples.

Open Scope am_scope.

(** ** Lemmas: sorted rows *)

Lemma StronglySorted_fmap_inv {A B} (f : A → B) (R : B → B → Prop) l :
  StronglySorted R (f <$> l) → StronglySorted (λ x y, R (f x) (f y)) l.
Proof.
  induction l as [|x l IH]; [constructor|].
  rewrite fmap_cons, !StronglySorted_cons, Forall_fmap. intros [? ?]. split; [done|by apply IH].
Qed.

Lemma StronglySorted_filter_sub {A} (R : A → A → Prop) (P : A → Prop) `{∀ x, Decision (P x)} l :
  StronglySorted R l → StronglySorted R (filter P l).
Proof.
  induction 1 as [|x l Hl IH Hall]; [constructor|]. rewrite filter_cons. case_decide; [|done].
  constructor; [done|]. rewrite Forall_forall in *. intros y Hy.
  apply list_elem_of_filter in Hy as [_ Hy]. by apply Hall.
Qed.

Lemma insert_by_last {A} (le : A → A → bool) x l :
  Forall (λ y, le x y = false) l → insert_by le x l = l ++ [x].
Proof. induction 1 as [|y l Hy _ IH]; simpl; [done|]. by rewrite Hy, IH. Qed.

Lemma sort_by_desc_reverse {A} (le : A → A → bool) l :
  StronglySorted (λ x y, le y x = false) l → sort_by (desc le) l = reverse l.
Proof.
  induction 1 as [|x l Hl IH Hall]; [done|]. simpl. rewrite IH, reverse_cons.
  apply insert_by_last. apply Forall_reverse. exact Hall.
Qed.

(** [ORDER BY] a text descending, then the id descending, is a linear order of the pairs. *)
Lemma text_then_id_total k1 k2 : text_then_id k1 k2 = true ∨ text_then_id k2 k1 = true.
Proof.
  destruct k1 as [s1 i1], k2 as [s2 i2]. unfold text_then_id. cbn. destruct (str_le_total s1 s2) as [H|H];
    apply str_le_lt_eq in H as [H| ->]; rewrite ?H, ?orb_true_r; auto; rewrite bool_decide_true by done; cbn;
    rewrite !orb_true_iff, !Z.leb_le; lia.
Qed.

Lemma text_then_id_trans k1 k2 k3 :
  text_then_id k1 k2 = true → text_then_id k2 k3 = true → text_then_id k1 k3 = true.
Proof.
  destruct k1 as [s1 i1], k2 as [s2 i2], k3 as [s3 i3]. unfold text_then_id. cbn.
  rewrite !orb_true_iff, !andb_true_iff, !bool_decide_eq_true, !Z.leb_le.
  intros [H1|[-> H1]] [H2|[-> H2]]; [left; by eapply str_lt_trans|by left|by left|right; split; [done|lia]].
Qed.

Lemma text_then_id_antisym k1 k2 : text_then_id k1 k2 = true → text_then_id k2 k1 = true → k1 = k2.
Proof.
  destruct k1 as [s1 i1], k2 as [s2 i2]. unfold text_then_id. cbn.
  rewrite !orb_true_iff, !andb_true_iff, !bool_decide_eq_true, !Z.leb_le.
  intros [H1|[-> H1]] [H2|[H H2]].
  - pose proof (str_lt_trans _ _ _ H1 H2) as H. by rewrite str_lt_irrefl in H.
  - subst. by rewrite str_lt_irrefl in H1.
  - by rewrite str_lt_irrefl in H2.
  - f_equal. lia.
Qed.

(** Sorting rows of growing ids by a text and then the id is sorting them by the text, from the last on. *)
Lemma sort_newest_rows {R} (key : R → string) (id : R → Z) (rows : list R) :
  StronglySorted (λ r1 r2, (id r1 < id r2)%Z) rows →
  sort_by (λ r1 r2, text_then_id (key r1, id r1) (key r2, id r2)) rows
  = sort_by (λ r1 r2, str_le (key r2) (key r1)) (reverse rows).
Proof.
  intros Hids. set (le := λ r1 r2, text_then_id (key r1, id r1) (key r2, id r2)).
  assert (∀ r1 r2, r1 ∈ rows → r2 ∈ rows → id r1 = id r2 → r1 = r2) as Hinj.
  { induction Hids as [|r l Hl IH Hall]; [by intros ?? ?%not_elem_of_nil|]. rewrite Forall_forall in Hall.
    intros r1 r2 [->|H1]%elem_of_cons [->|H2]%elem_of_cons Heq; [done| | |by apply IH].
    - specialize (Hall _ H2). cbn in Hall. lia.
    - specialize (Hall _ H1). cbn in Hall. lia. }
  trans (sort_by le (reverse rows)).
  - assert (∀ l, StronglySorted (λ a b, le a b = true) (sort_by le l)) as Hsorted.
    { intros l. apply sort_by_StronglySorted; unfold le; intros *; [apply text_then_id_trans|apply text_then_id_total]. }
    apply (StronglySorted_unique_strong (λ a b, le a b = true)); [|done|done|].
    + intros a b Ha%elem_of_sort_by Hb%elem_of_sort_by Hab Hba. rewrite elem_of_reverse in Hb.
      apply Hinj; [done|done|]. by injection (text_then_id_antisym _ _ Hab Hba).
    + by rewrite !sort_by_Permutation, reverse_Permutation.
  - clear Hinj. induction rows as [|r rows IH] using rev_ind; [done|].
    apply StronglySorted_app in Hids as (Hlast & Hrows & _). rewrite reverse_snoc. cbn.
    change (foldr (insert_by ?f) [] ?l) with (sort_by f l). rewrite IH by done.
    assert (∀ l, (∀ y, y ∈ l → (id y < id r)%Z) →
      insert_by le r l = insert_by (λ r1 r2, str_le (key r2) (key r1)) r l) as Hins.
    { intros l. induction l as [|y l IHl]; intros Hl; [done|]. cbn. rewrite IHl by (intros; apply Hl; by right).
      replace (le r y) with (str_le (key y) (key r)); [done|]. unfold le, text_then_id. cbn.
      specialize (Hl y ltac:(by left)). apply eq_true_iff_eq.
      rewrite str_le_lt_eq, orb_true_iff, andb_true_iff, bool_decide_eq_true, Z.leb_le. split; (intros [?|?]; [by left|right]); [split; [done|lia]|naive_solver]. }
    apply Hins. intros y. rewrite elem_of_sort_by, elem_of_reverse. intros Hy. by apply Hlast; [|left].
Qed.

Section Rows.
Context (t : Tables) (Hids : ids_ok (ev_id <$> t_events t)).

Lemma event_rows_sorted : StronglySorted (λ r1 r2, (ev_id r1 < ev_id r2)%Z) (t_events t).
Proof. apply StronglySorted_fmap_inv. apply Hids. Qed.

Lemma sort_events_filter (P : EventRow → Prop) `{∀ r, Decision (P r)} :
  sort_by by_event_id (filter P (t_events t)) = filter P (t_events t).
Proof.
  apply sort_by_sorted_id. eapply StronglySorted_weaken;
    [|apply StronglySorted_filter_sub, event_rows_sorted].
  intros x y Hxy. apply Z.leb_le. simpl in Hxy. lia.
Qed.

Lemma sort_events_filter_desc (P : EventRow → Prop) `{∀ r, Decision (P r)} :
  sort_by (desc by_event_id) (filter P (t_events t)) = reverse (filter P (t_events t)).
Proof.
  apply sort_by_desc_reverse. eapply StronglySorted_weaken;
    [|apply StronglySorted_filter_sub, event_rows_sorted].
  intros x y Hxy. apply Z.leb_gt. simpl in Hxy. lia.
Qed.
End Rows.

(** ** Lemmas: calls that do not fail *)

Section Reliable.
Context `{SqlEnv} (Hreliable : ∀ n k, sql_fault n k = None).

Lemma select_reliable {R} cp cs (q : Tables → list R) c :
  ∃ c', select cp cs q c = (Ret (q (conn_view c), None), c') ∧
    conn_main c' = conn_main c ∧ conn_txn c' = conn_txn c.
Proof.
  unfold select, bind, prepare, step_rows. rewrite (Hreliable _ KPrepare). simpl.
  rewrite (Hreliable _ KStep). simpl. by eexists.
Qed.

Lemma run_write_reliable f c :
  ∃ now c', run_write f c = (Ret true, c') ∧ conn_view c' = f now (conn_view c) ∧
    (conn_txn c = None → conn_txn c' = None ∧ conn_main c' = f now (conn_main c)) ∧
    (is_Some (conn_txn c) → is_Some (conn_txn c') ∧ conn_main c' = conn_main c).
Proof.
  unfold run_write, bind, prepare, step_write. rewrite (Hreliable _ KPrepare). simpl.
  rewrite (Hreliable _ KStep). simpl. do 2 eexists. split; [reflexivity|].
  unfold conn_write, conn_view. simpl. destruct (conn_txn c); simpl; naive_solver.
Qed.

(** The events a reliable store delivers after a cursor. *)
Lemma LoadEventsAfterCursor_reliable `{JsonText} agent session cursor excluded s c :
  db_ s = Some c →
  (LoadEventsAfterCursor agent session cursor excluded s).1
  = Ret (mkEventsResult true
      (ReadEventRow <$> events_after_cursor agent session (CursorToInt cursor) excluded (conn_view c))
      no_error).
Proof.
  intros Hs. unfold LoadEventsAfterCursor, on_db. rewrite Hs. unfold bind.
  destruct (select_reliable "LoadEventsAfterCursor::prepare" "LoadEventsAfterCursor::step"
    (events_after_cursor agent session (CursorToInt cursor) excluded) c) as (c' & -> & _). done.
Qed.

Lemma LoadRecentEvents_reliable `{JsonText} agent session limit s c :
  db_ s = Some c →
  (LoadRecentEvents agent session limit s).1
  = Ret (mkEventsResult true
      (reverse (ReadEventRow <$> recent_events agent session (if (0 <? limit)%Z then limit else 20%Z)
                                   (conn_view c))) no_error).
Proof.
  intros Hs. unfold LoadRecentEvents, on_db. rewrite Hs. unfold bind.
  destruct (select_reliable "LoadRecentEvents::prepare" "LoadRecentEvents::step"
    (recent_events agent session (if (0 <? limit)%Z then limit else 20%Z)) c) as (c' & -> & _). done.
Qed.
End Reliable.

(** ** Lemmas: scopes *)

(** The rows a SELECT after a cursor is about. *)
Definition in_scope (agentId sessionId : string) (excluded : list string) (r : EventRow) : bool :=
  bool_decide (ev_agent_id r = bind_text agentId) &&
  (if negb (is_empty sessionId)
   then bool_decide (ev_session_id r = bind_text sessionId)
   else bool_decide (ev_session_id r ∉ (bind_text <$> excluded))).

Lemma events_after_cursor_filter_ids agent session k excluded t :
  ids_ok (ev_id <$> t_events t) →
  events_after_cursor agent session k excluded t
  = filter (λ r, (k < ev_id r)%Z ∧ in_scope agent session excluded r = true) (t_events t).
Proof.
  intros Ht. unfold events_after_cursor. rewrite sort_events_filter by done.
  apply list_filter_iff. intros r. unfold in_scope.
  rewrite <- andb_assoc. rewrite Is_true_true, andb_true_iff, Z.ltb_lt. done.
Qed.

Lemma events_after_cursor_filter agent session k excluded t :
  tables_ok t →
  events_after_cursor agent session k excluded t
  = filter (λ r, (k < ev_id r)%Z ∧ in_scope agent session excluded r = true) (t_events t).
Proof. intros Ht. by apply events_after_cursor_filter_ids, ok_event_ids. Qed.

(** The scope of the recent events is that of an agent's or a session's whole log. *)
Lemma session_scope_in_scope agent session t :
  tables_ok t → nul_free session →
  filter (λ r, session_scope agent session (ev_agent_id r) (ev_session_id r)) (t_events t)
  = filter (λ r, (CursorToInt "" < ev_id r)%Z ∧ in_scope agent session [] r = true) (t_events t).
Proof.
  intros Hok Hnul. pose proof (ok_event_ids _ Hok) as [_ Hpos]. clear Hok.
  rewrite Forall_fmap in Hpos.
  induction Hpos as [|r rows Hr _ IH]; [done|]. rewrite !filter_cons, IH.
  assert (session_scope agent session (ev_agent_id r) (ev_session_id r)
          ↔ (CursorToInt "" < ev_id r)%Z ∧ in_scope agent session [] r = true) as Hiff.
  { unfold session_scope, in_scope, bind_text. rewrite Is_true_true. unfold nul_free in Hnul.
    rewrite Hnul. change (CursorToInt "") with 0%Z. destruct session as [|a session]; simpl;
      (split; [intros HH; split; [exact Hr|exact HH]|by intros [_ HH]]). }
  repeat case_decide; tauto.
Qed.

Lemma CursorToInt_to_string z : in_int64 z → CursorToInt (to_string z) = z.
Proof.
  intros Hz. unfold CursorToInt. pose proof (to_string_not_empty z) as He.
  destruct (to_string z) eqn:E; [done|]. simpl. rewrite <- E. by rewrite stoll_to_string.
Qed.

(** In a list sorted by id, what comes after an element is what has a greater id. *)
Lemma filter_gt_split (l1 l2 : list EventRow) r :
  StronglySorted (λ r1 r2, (ev_id r1 < ev_id r2)%Z) (l1 ++ r :: l2) →
  filter (λ x, (ev_id r < ev_id x)%Z) (l1 ++ r :: l2) = l2.
Proof.
  rewrite StronglySorted_app, StronglySorted_cons. intros (H12 & _ & Hall & _).
  rewrite filter_app, filter_none, filter_cons_False by (try lia;
    apply Forall_forall; intros x Hx; specialize (H12 x r Hx ltac:(left)); simpl in *; lia).
  by apply filter_all.
Qed.

(** What comes after a row of a delivery is what a delivery after that row has. *)
Lemma filter_after_resumes (rows : list EventRow) (Q : EventRow → bool) k l1 r l2 :
  ids_ok (ev_id <$> rows) →
  filter (λ x, (k < ev_id x)%Z ∧ Q x = true) rows = l1 ++ r :: l2 →
  filter (λ x, (ev_id r < ev_id x)%Z ∧ Q x = true) rows = l2.
Proof.
  intros Hids Hrows.
  assert (k < ev_id r)%Z as Hgt.
  { assert (r ∈ l1 ++ r :: l2) as Hin by set_solver. rewrite <- Hrows in Hin.
    apply list_elem_of_filter in Hin. naive_solver. }
  transitivity (filter (λ x, (ev_id r < ev_id x)%Z) (l1 ++ r :: l2)).
  - rewrite <- Hrows, list_filter_filter. apply list_filter_iff. intros x. naive_solver lia.
  - apply filter_gt_split. rewrite <- Hrows. apply StronglySorted_filter_sub.
    apply StronglySorted_fmap_inv, Hids.
Qed.

(** ** Properties *)

(** What SaveEvent makes of an event: text ends at its first NUL, the timestamp is not kept, the
    cursor is the new id. *)
Definition stored_event (e : MemoryEvent) (metadata : json) (id : Z) : MemoryEvent :=
  mkEvent (event_type e) (bind_text (event_agentId e)) (bind_text (event_sessionId e))
    (bind_text (event_role e)) (bind_text (event_content e)) (bind_text (event_toolCallId e))
    (bind_text (event_toolName e)) (bind_text (event_payloadRef e)) (to_string id) metadata "".

Lemma event_type_read_back ty : default SESSION_STARTED (event_type_of_int (column_int (event_type_to_int ty))) = ty.
Proof. unfold column_int. by destruct ty. Qed.

(** An event that SaveEvent accepts is the last one every later reader of its scope gets, after
    everything it got before, and readers of other scopes see no change; the event comes back with
    every field but the timestamp, its text cut at the first NUL. *)
Theorem save_event_appends `{JsonText} `{SqlEnv} (e : MemoryEvent) (s : MemorySqliteStore)
    (c : Conn Tables) (text : string) (metadata : json)
    (Hreliable : ∀ n k, sql_fault n k = None)
    (Hs : db_ s = Some c) (Hok : tables_ok (conn_view c))
    (Hdump : json_dump (JsonObject (event_metadata e)) = Ret text)
    (Hparse : json_parse (bind_text text) = Ret metadata) (Hobj : is_object metadata = true) :
  ∃ s' id, SaveEvent e s = (Ret MemorySuccess, s') ∧
    id = next_id (ev_id <$> t_events (conn_view c)) ∧
    Forall (λ r, (ev_id r < id)%Z) (t_events (conn_view c)) ∧
    ∀ agent session cursor excluded before,
      (CursorToInt cursor < id)%Z →
      (LoadEventsAfterCursor agent session cursor excluded s).1 = Ret (mkEventsResult true before no_error) →
      (LoadEventsAfterCursor agent session cursor excluded s').1
      = Ret (mkEventsResult true
          (before ++ (if bool_decide (bind_text (event_agentId e) = bind_text agent) &&
                        (if negb (is_empty session)
                         then bool_decide (bind_text (event_sessionId e) = bind_text session)
                         else bool_decide (bind_text (event_sessionId e) ∉ (bind_text <$> excluded)))
                      then [stored_event e metadata id] else [])) no_error).
Proof.
  set (ins := λ now, insert_event (bind_text (event_agentId e)) (bind_text (event_sessionId e))
    (event_type_to_int (event_type e)) (bind_text (event_role e)) (bind_text (event_content e))
    (bind_text (event_payloadRef e)) (bind_text (event_toolCallId e)) (bind_text (event_toolName e))
    (bind_text text) now).
  destruct (run_write_reliable Hreliable ins c) as (now & c' & Hrun & Hview & _ & _).
  exists (mkSqliteStore (dbPath_ s) (Some c')), (next_id (ev_id <$> t_events (conn_view c))).
  split_and!.
  - unfold SaveEvent, on_db. rewrite Hs. unfold op_result, SaveEventUnlocked.
    unfold run_write, bind in *. destruct (prepare c) as [[[|]|] c1]; simpl in *; [|done..].
    unfold lift_outcome. rewrite Hdump. unfold ins in Hrun. by rewrite Hrun.
  - done.
  - apply Forall_forall. intros r Hr. apply next_id_gt. by apply list_elem_of_fmap_2.
  - intros agent session cursor excluded before Hcur.
    rewrite (LoadEventsAfterCursor_reliable Hreliable _ _ _ _ _ _ Hs). intros [= <-].
    rewrite (LoadEventsAfterCursor_reliable Hreliable _ _ _ _ _ c') by done.
    rewrite Hview, !events_after_cursor_filter by (unfold ins; eauto with am).
    unfold ins. simpl. rewrite filter_app, fmap_app. do 3 f_equal.
    unfold in_scope. simpl. rewrite filter_cons. simpl.
    match goal with |- context [bool_decide ?P && ?Q] => destruct (bool_decide P && Q) eqn:E end.
    + rewrite decide_True by done. simpl. unfold ReadEventRow, stored_event. simpl.
      rewrite event_type_read_back. unfold ParseJsonSafely, json_parse_noexcept.
      by rewrite Hparse, Hobj.
    + by rewrite decide_False by naive_solver.
Qed.

Lemma save_event_appends_witness :
  let _ := sample_json in let _ := reliable_env in
  ∃ s' id, SaveEvent (mkEvent TOOL_CALL_STARTED "agent" "s" "tool" "hello" "call" "grep" "" "" json_object "yesterday")
             (opened empty_tables) = (Ret MemorySuccess, s') ∧
    (LoadEventsAfterCursor "agent" "" "" ["other"] s').1
    = Ret (mkEventsResult true
        [mkEvent TOOL_CALL_STARTED "agent" "s" "tool" "hello" "call" "grep" "" (to_string id) json_object ""]
        no_error).
Proof.
  intros Hj He.
  edestruct (save_event_appends
    (mkEvent TOOL_CALL_STARTED "agent" "s" "tool" "hello" "call" "grep" "" "" json_object "yesterday")
    (opened empty_tables)) as (s' & id & Hsave & Hid & _ & Hload).
  - done.
  - reflexivity.
  - apply empty_tables_ok.
  - reflexivity.
  - reflexivity.
  - reflexivity.
  - exists s', id. split; [exact Hsave|].
    rewrite (Hload "agent" "" "" ["other"] []); [reflexivity| |reflexivity].
    rewrite Hid. reflexivity.
Defined.

(** Incremental reading is exact: continuing from the cursor of any delivered event yields
    precisely the events delivered after it, so no event is skipped and none is delivered twice. *)
Theorem load_after_cursor_resumes `{JsonText} `{SqlEnv} (agent session cursor : string)
    (excluded : list string) (s : MemorySqliteStore) (c : Conn Tables) (l1 l2 : list MemoryEvent)
    (e : MemoryEvent) (Hreliable : ∀ n k, sql_fault n k = None)
    (Hs : db_ s = Some c) (Hok : tables_ok (conn_view c))
    (Hids : Forall (λ r, in_int64 (ev_id r)) (t_events (conn_view c)))
    (Hload : (LoadEventsAfterCursor agent session cursor excluded s).1
             = Ret (mkEventsResult true (l1 ++ e :: l2) no_error)) :
  (LoadEventsAfterCursor agent session (event_storeCursor e) excluded s).1
  = Ret (mkEventsResult true l2 no_error).
Proof.
  rewrite (LoadEventsAfterCursor_reliable Hreliable _ _ _ _ _ _ Hs) in Hload.
  rewrite (LoadEventsAfterCursor_reliable Hreliable _ _ _ _ _ _ Hs).
  injection Hload as Hload. do 2 f_equal.
  rewrite events_after_cursor_filter in Hload by done. rewrite events_after_cursor_filter by done.
  apply fmap_app_inv in Hload as (r1 & r2' & -> & Hr2 & Hrows).
  symmetry in Hr2. apply fmap_cons_inv in Hr2 as (r & r2 & -> & -> & ->). f_equal. simpl.
  assert (r ∈ t_events (conn_view c)) as Hr.
  { assert (r ∈ r1 ++ r :: r2) as Hin by set_solver. rewrite <- Hrows in Hin.
    by apply list_elem_of_filter in Hin as [_ ?]. }
  rewrite CursorToInt_to_string by (rewrite Forall_forall in Hids; by apply Hids).
  by eapply filter_after_resumes; [apply ok_event_ids|].
Qed.

Definition three_events : Tables :=
  insert_event "agent" "s" 2 "user" "c" "" "" "" "{}" sample_now
    (insert_event "other" "s" 2 "user" "b" "" "" "" "{}" sample_now
      (insert_event "agent" "s" 2 "user" "a" "" "" "" "{}" sample_now empty_tables)).

Lemma three_events_ok : tables_ok three_events.
Proof.
  unfold three_events. change 2%Z with (event_type_to_int MESSAGE_APPENDED).
  repeat apply insert_event_ok. apply empty_tables_ok.
Qed.

Lemma load_after_cursor_resumes_witness :
  let _ := sample_json in let _ := reliable_env in
  (LoadEventsAfterCursor "agent" "s" "1" [] (opened three_events)).1
  = Ret (mkEventsResult true
      [mkEvent MESSAGE_APPENDED "agent" "s" "user" "c" "" "" "" "3" json_object ""] no_error).
Proof.
  intros Hj He.
  apply (load_after_cursor_resumes "agent" "s" "" [] (opened three_events)
    (mkConn three_events None 0 no_error_msg) []
    [mkEvent MESSAGE_APPENDED "agent" "s" "user" "c" "" "" "" "3" json_object ""]
    (mkEvent MESSAGE_APPENDED "agent" "s" "user" "a" "" "" "" "1" json_object "")).
  - done.
  - reflexivity.
  - apply three_events_ok.
  - repeat constructor; by vm_compute.
  - vm_compute. reflexivity.
Defined.

(** LoadRecentEvents delivers, in chronological order, exactly the last [limit] events (20 when
    the limit is not positive) of what reading the whole scope delivers. *)
Theorem load_recent_events_spec `{JsonText} `{SqlEnv} (agent session : string) (limit : Z)
    (s : MemorySqliteStore) (c : Conn Tables) (all : list MemoryEvent)
    (Hreliable : ∀ n k, sql_fault n k = None)
    (Hs : db_ s = Some c) (Hok : tables_ok (conn_view c)) (Hnul : nul_free session)
    (Hload : (LoadEventsAfterCursor agent session "" [] s).1 = Ret (mkEventsResult true all no_error)) :
  (LoadRecentEvents agent session limit s).1
  = Ret (mkEventsResult true
      (drop (length all - Z.to_nat (if (0 <? limit)%Z then limit else 20)) all) no_error).
Proof.
  rewrite (LoadEventsAfterCursor_reliable Hreliable _ _ _ _ _ _ Hs) in Hload.
  injection Hload as Hload. rewrite (LoadRecentEvents_reliable Hreliable _ _ _ _ _ Hs).
  do 2 f_equal. rewrite events_after_cursor_filter in Hload by done.
  unfold recent_events. rewrite sort_events_filter_desc by (by apply ok_event_ids).
  rewrite session_scope_in_scope by done.
  by rewrite <- Hload, take_reverse, fmap_reverse, reverse_involutive, fmap_drop, length_fmap.
Qed.

Lemma load_recent_events_spec_witness :
  let _ := sample_json in let _ := reliable_env in
  (LoadRecentEvents "agent" "s" 1 (opened three_events)).1
  = Ret (mkEventsResult true
      [mkEvent MESSAGE_APPENDED "agent" "s" "user" "c" "" "" "" "3" json_object ""] no_error).
Proof.
  intros Hj He.
  apply (load_recent_events_spec "agent" "s" 1 (opened three_events)
    (mkConn three_events None 0 no_error_msg)
    [mkEvent MESSAGE_APPENDED "agent" "s" "user" "a" "" "" "" "1" json_object "";
     mkEvent MESSAGE_APPENDED "agent" "s" "user" "c" "" "" "" "3" json_object ""]).
  - done.
  - reflexivity.
  - apply three_events_ok.
  - reflexivity.
  - vm_compute. reflexivity.
Defined.

(** A cursor that SaveConsolidationCursor accepted is the one every later load of that agent and
    session returns, and the cursors of the others do not change. *)
Theorem consolidation_cursor_roundtrip `{JsonText} `{SqlEnv} (agent session : string) (k : Z)
    (s : MemorySqliteStore) (c : Conn Tables) (Hreliable : ∀ n k, sql_fault n k = None)
    (Hs : db_ s = Some c) (Hk : in_int64 k) :
  ∃ s', SaveConsolidationCursor agent session (to_string k) s = (Ret MemorySuccess, s') ∧
    (LoadConsolidationCursor agent session s').1 = Ret (mkCursorResult true (to_string k) no_error) ∧
    ∀ agent' session', (bind_text agent', bind_text session') ≠ (bind_text agent, bind_text session) →
      (LoadConsolidationCursor agent' session' s').1 = (LoadConsolidationCursor agent' session' s).1.
Proof.
  destruct (run_write_reliable Hreliable (λ now, upsert_cursor (bind_text agent) (bind_text session)
    (CursorToInt (to_string k))) c) as (now & c' & Hrun & Hview & _).
  assert (∀ ag se s0 c0, db_ s0 = Some c0 →
    (LoadConsolidationCursor ag se s0).1
    = Ret (match t_cursors (conn_view c0) !! (bind_text ag, bind_text se) with
           | Some z => mkCursorResult true (to_string z) no_error
           | None => mkCursorResult true "" no_error
           end)) as Hload.
  { intros ag se s0 c0 Hs0. unfold LoadConsolidationCursor, on_db. rewrite Hs0.
    unfold bind, prepare, step_first. rewrite (Hreliable _ KPrepare). simpl.
    rewrite (Hreliable _ KStep). simpl. unfold conn_view, conn_said. simpl.
    by destruct (t_cursors _ !! _). }
  exists (mkSqliteStore (dbPath_ s) (Some c')). split_and!.
  - unfold SaveConsolidationCursor, on_db. rewrite Hs. unfold op_result, SaveConsolidationCursorUnlocked, bind.
    by rewrite Hrun.
  - rewrite (Hload _ _ _ c') by done. rewrite Hview. simpl. rewrite lookup_insert_eq.
    by rewrite CursorToInt_to_string.
  - intros ag se Hne. rewrite (Hload _ _ _ c') by done. rewrite (Hload _ _ _ _ Hs), Hview. simpl.
    by rewrite lookup_insert_ne by done.
Qed.

Lemma consolidation_cursor_roundtrip_witness :
  let _ := sample_json in let _ := reliable_env in
  ∃ s', SaveConsolidationCursor "agent" "s" "42" (opened three_events) = (Ret MemorySuccess, s') ∧
    (LoadConsolidationCursor "agent" "s" s').1 = Ret (mkCursorResult true "42" no_error) ∧
    (LoadConsolidationCursor "agent" "" s').1 = Ret (mkCursorResult true "" no_error).
Proof.
  intros Hj He.
  destruct (consolidation_cursor_roundtrip "agent" "s" 42 (opened three_events)
    (mkConn three_events None 0 no_error_msg)) as (s' & Hsave & Hload & Hother).
  - done.
  - reflexivity.
  - by vm_compute.
  - exists s'. split; [exact Hsave|]. split; [exact Hload|].
    rewrite Hother by (vm_compute; congruence). vm_compute. reflexivity.
Defined.
