(* ===== verification/Refinement.v ===== *)
(** * The store refines an event log with cursors

    The contract of the store for events and consolidation cursors without tables, ids or SQL: a log
    is the list of the events in the order of their arrival, a cursor is a number of events from its
    beginning. Every sequence of store calls answers as the log does, whatever fails: a call that
    meets a fault of the database reports an error and leaves the log as it was. *)

From Stdlib Require Import ZArith Lia Ascii String.
From stdpp Require Import base list strings gmap.
From S2P Require Import Prelude CppString Floats Json Types Sqlite StoreInterface Store StoreInvariant.
From S2P Require Import StoreSearch Samples EventLog.

Open Scope am_scope.

(** ** The specification *)

Record MemoryLog := mkLog {
  log_events : list MemoryEvent;
  log_cursors : gmap (string * string) Z
}.

Definition empty_log : MemoryLog := mkLog [] ∅.

(** The calls of [MemoryEventStore] and the cursor calls of [MemoryLongTermStore]. *)
Inductive LogCall :=
  | Append (event : MemoryEvent)
  | ReadAfter (agentId sessionId cursor : string) (excluded : list string)
  | ReadRecent (agentId sessionId : string) (limit : Z)
  | LoadCursor (agentId sessionId : string)
  | SaveCursor (agentId sessionId cursor : string).

Inductive LogAnswer :=
  | Done (result : MemoryOperationResult)
  | Events (result : MemoryEventsResult)
  | Cursor (result : ConsolidationCursorResult).

Definition failed (a : LogAnswer) : Prop :=
  match a with
  | Done r => op_succeeded r = false ∧ HasError (op_error r) = true
  | Events r => events_succeeded r = false ∧ HasError (events_error r) = true
  | Cursor r => cursor_succeeded r = false ∧ HasError (cursor_error r) = true
  end.

(** The events a reader of the agent, or of one of its sessions, may see. *)
Definition visible (agentId sessionId : string) (excluded : list string) (e : MemoryEvent) : bool :=
  bool_decide (event_agentId e = c_str agentId) &&
  (if negb (is_empty sessionId) then bool_decide (event_sessionId e = c_str sessionId)
   else bool_decide (event_sessionId e ∉ (c_str <$> excluded))).

Definition seen agentId sessionId excluded : list MemoryEvent → list MemoryEvent :=
  filter (λ e, visible agentId sessionId excluded e = true).

Definition last_n {A} (n : Z) (l : list A) : list A := drop (length l - Z.to_nat n) l.

(** The answer of the log to a call, and the log afterwards. *)
Definition answer (l : MemoryLog) (call : LogCall) : LogAnswer * MemoryLog :=
  match call with
  | Append e =>
      (Done MemorySuccess,
       mkLog (log_events l ++ [stored_event e (JsonObject (event_metadata e)) (Z.of_nat (length (log_events l)) + 1)])
         (log_cursors l))
  | ReadAfter agent session cursor excluded =>
      (Events (mkEventsResult true
         (seen agent session excluded (drop (Z.to_nat (CursorToInt cursor)) (log_events l))) no_error), l)
  | ReadRecent agent session limit =>
      (Events (mkEventsResult true
         (last_n (if (0 <? limit)%Z then limit else 20) (seen agent (c_str session) [] (log_events l))) no_error), l)
  | LoadCursor agent session =>
      (Cursor (mkCursorResult true
         (match log_cursors l !! (c_str agent, c_str session) with Some k => to_string k | None => "" end) no_error), l)
  | SaveCursor agent session cursor =>
      (Done MemorySuccess,
       mkLog (log_events l) (<[(c_str agent, c_str session) := CursorToInt cursor]> (log_cursors l)))
  end.

Section Steps.
Context `{JsonText} (may_fail : Prop).

(** One call: the answer of the log; where calls may fail, an error and no change; and an event whose
    metadata has no text form throws. *)
Inductive log_step : MemoryLog → LogCall → Outcome LogAnswer → MemoryLog → Prop :=
  | log_answers l call : log_step l call (Ret (answer l call).1) (answer l call).2
  | log_fails l call a : may_fail → failed a → log_step l call (Ret a) l
  | log_throws l event what :
      json_dump (JsonObject (event_metadata event)) = Throw what → log_step l (Append event) (Throw what) l.

Inductive log_run : MemoryLog → list LogCall → list (Outcome LogAnswer) → MemoryLog → Prop :=
  | run_nil l : log_run l [] [] l
  | run_cons l l1 l2 call calls o os :
      log_step l call o l1 → log_run l1 calls os l2 → log_run l (call :: calls) (o :: os) l2.
End Steps.

(** The answers of a log to a sequence of calls none of which fails. *)
Fixpoint answers (l : MemoryLog) (calls : list LogCall) : list LogAnswer :=
  match calls with
  | [] => []
  | call :: calls' => (answer l call).1 :: answers (answer l call).2 calls'
  end.

(** ** The store *)

Section Store.
Context `{JsonText} `{SqlEnv}.

Definition store_call (call : LogCall) : M MemorySqliteStore LogAnswer :=
  match call with
  | Append event => let* r := SaveEvent event in ret (Done r)
  | ReadAfter agent session cursor excluded =>
      let* r := LoadEventsAfterCursor agent session cursor excluded in ret (Events r)
  | ReadRecent agent session limit => let* r := LoadRecentEvents agent session limit in ret (Events r)
  | LoadCursor agent session => let* r := LoadConsolidationCursor agent session in ret (Cursor r)
  | SaveCursor agent session cursor => let* r := SaveConsolidationCursor agent session cursor in ret (Done r)
  end.

(** Every call in turn, whatever the ones before it returned or threw. *)
Fixpoint store_run (calls : list LogCall) (s : MemorySqliteStore) : list (Outcome LogAnswer) * MemorySqliteStore :=
  match calls with
  | [] => ([], s)
  | call :: calls' =>
      let '(o, s) := store_call call s in
      let '(os, s) := store_run calls' s in
      (o :: os, s)
  end.

(** The store holds the log: its events are numbered from 1 on and none is missing. *)
Definition holds (s : MemorySqliteStore) (l : MemoryLog) : Prop :=
  ∃ c, db_ s = Some c ∧ conn_txn c = None ∧
    (ev_id <$> t_events (conn_main c)) = seqZ 1 (Z.of_nat (length (log_events l))) ∧
    (ReadEventRow <$> t_events (conn_main c)) = log_events l ∧
    t_cursors (conn_main c) = log_cursors l.

(** The text form of the metadata is read back as it was written. *)
Definition storable (call : LogCall) : Prop :=
  match call with
  | Append e => ∀ text, json_dump (JsonObject (event_metadata e)) = Ret text →
                        json_parse (bind_text text) = Ret (JsonObject (event_metadata e))
  | _ => True
  end.

Definition faulty : Prop := ∃ n k f, sql_fault n k = Some f.

(** ** Lemmas: single statements outside a transaction *)

Definition untouched (c c' : Conn Tables) : Prop := conn_txn c' = None ∧ conn_main c' = conn_main c.

Lemma failed_untouched f c : conn_txn c = None → untouched c (conn_failed f c).
Proof. intros Hc. split; cbn; [|done]. by destruct (fault_rollback f). Qed.

Lemma said_untouched msg c : conn_txn c = None → untouched c (conn_said msg c).
Proof. done. Qed.

Lemma prepare_cases (c : Conn Tables) : conn_txn c = None →
  ∃ ok c', prepare c = (Ret ok, c') ∧ untouched c c' ∧ (ok = false → faulty).
Proof.
  intros Hc. unfold prepare. destruct (sql_fault _ _) as [f|] eqn:Ef.
  - exists false. eexists. split; [done|]. split; [by apply failed_untouched|]. intros _. by do 3 eexists.
  - exists true. eexists. split; [done|]. by split; [apply said_untouched|].
Qed.

Lemma step_write_cases f (c : Conn Tables) : conn_txn c = None →
  ∃ c', conn_txn c' = None ∧
    ((∃ now, step_write f c = (Ret true, c') ∧ conn_main c' = f now (conn_main c)) ∨
     (step_write f c = (Ret false, c') ∧ conn_main c' = conn_main c ∧ faulty)).
Proof.
  intros Hc. unfold step_write. destruct (sql_fault _ _) as [fl|] eqn:Ef.
  - eexists. destruct (failed_untouched fl c Hc) as [Ht Hm]. split; [exact Ht|]. right. split_and!; [done|done|].
    by do 3 eexists.
  - eexists. split; [|left; eexists; split; [reflexivity|]]; unfold conn_write, conn_view; by rewrite Hc.
Qed.

Lemma select_cases {R} cp cs (q : Tables → list R) c : conn_txn c = None →
  ∃ r c', select cp cs q c = (Ret r, c') ∧ untouched c c' ∧
    match r.2 with Some e => HasError e = true ∧ faulty | None => r.1 = q (conn_main c) end.
Proof.
  intros Hc. unfold select, bind. destruct (prepare_cases c Hc) as ([] & c1 & -> & [Ht Hm] & Hf); cbn.
  - unfold step_rows. destruct (sql_fault _ _) as [f|] eqn:Ef; cbn.
    + do 2 eexists. split; [done|]. split; [|split; [done|by do 3 eexists]].
      destruct (failed_untouched f c1 Ht) as [? ?]. by split; [|congruence].
    + do 2 eexists. split; [done|]. split; [by split|]. unfold conn_view. by rewrite Ht, <- Hm.
  - do 2 eexists. split; [done|]. split; [by split|]. by split; [|apply Hf].
Qed.

(** ** Lemmas: the queries on numbered rows *)

Lemma seqZ_ids_ok n : (0 ≤ n)%Z → ids_ok (seqZ 1 n).
Proof.
  intros Hn. unfold ids_ok. split.
  - generalize 1%Z as m. pattern n. revert n Hn. apply natlike_ind; [intros m; constructor|].
    intros n Hn IH m. rewrite seqZ_cons by lia. constructor.
    + replace (Z.pred (Z.succ n)) with n by lia. apply IH.
    + apply Forall_forall. intros i Hi%elem_of_seqZ. lia.
  - apply Forall_forall. intros i Hi%elem_of_seqZ. lia.
Qed.

(** Reading after a cursor drops that many rows. *)
Lemma filter_after_numbered (Q : EventRow → bool) k rows m :
  (0 ≤ m)%Z → (ev_id <$> rows) = seqZ (m + 1) (Z.of_nat (length rows)) →
  filter (λ r, (k < ev_id r)%Z ∧ Q r = true) rows = filter (λ r, Q r = true) (drop (Z.to_nat (k - m)) rows).
Proof.
  revert m. induction rows as [|r rows IH]; intros m Hm Hids; [by rewrite drop_nil|].
  rewrite fmap_cons in Hids. cbn [length] in Hids. rewrite seqZ_cons in Hids by lia. injection Hids as Hid Hids.
  replace (Z.pred (Z.of_nat (S (length rows)))) with (Z.of_nat (length rows)) in Hids by lia.
  replace (Z.succ (m + 1))%Z with (m + 1 + 1)%Z in Hids by lia. specialize (IH (m + 1)%Z ltac:(lia) Hids).
  destruct (decide (k ≤ m)%Z) as [Hk|Hk].
  - replace (Z.to_nat (k - m)) with 0%nat by lia. replace (Z.to_nat (k - (m + 1))) with 0%nat in IH by lia.
    rewrite drop_0 in *. rewrite !filter_cons, IH. repeat case_decide; naive_solver lia.
  - replace (Z.to_nat (k - m)) with (S (Z.to_nat (k - (m + 1)))) by lia. cbn [drop]. rewrite <- IH.
    rewrite filter_cons, decide_False; [done|]. lia.
Qed.

(** A numbered table and the log it holds. *)
Section Numbered.
Context (t : Tables) (l : MemoryLog).
Context (Hids : (ev_id <$> t_events t) = seqZ 1 (Z.of_nat (length (log_events l)))).
Context (Hrows : (ReadEventRow <$> t_events t) = log_events l).

Lemma numbered_length : length (t_events t) = length (log_events l).
Proof. by rewrite <- Hrows, length_fmap. Qed.

Lemma numbered_ids_ok : ids_ok (ev_id <$> t_events t).
Proof. rewrite Hids. apply seqZ_ids_ok. lia. Qed.

Lemma after_seen agent session k excluded :
  (ReadEventRow <$> events_after_cursor agent session k excluded t)
  = seen agent session excluded (drop (Z.to_nat k) (log_events l)).
Proof.
  rewrite events_after_cursor_filter_ids by apply numbered_ids_ok.
  rewrite (filter_after_numbered (in_scope agent session excluded) k _ 0); [|lia|by rewrite Hids, numbered_length].
  rewrite Z.sub_0_r. unfold seen. by rewrite <- Hrows, <- fmap_drop, filter_fmap.
Qed.

Lemma recent_seen agent session n :
  reverse (ReadEventRow <$> recent_events agent session n t)
  = last_n n (seen agent (c_str session) [] (log_events l)).
Proof.
  unfold recent_events. rewrite sort_events_filter_desc by apply numbered_ids_ok.
  rewrite take_reverse, fmap_reverse, reverse_involutive, fmap_drop. unfold last_n, seen.
  rewrite <- Hrows, filter_fmap, length_fmap.
  assert (∀ r, session_scope agent session (ev_agent_id r) (ev_session_id r)
               ↔ visible agent (c_str session) [] (ReadEventRow r) = true) as Hiff.
  { intros r. unfold session_scope, visible, bind_text. rewrite Is_true_true, c_str_idemp. cbn.
    destruct (c_str session); cbn; [|done]. done. }
  by rewrite (list_filter_iff _ _ _ Hiff).
Qed.

Lemma numbered_next : next_id (ev_id <$> t_events t) = (Z.of_nat (length (log_events l)) + 1)%Z.
Proof.
  rewrite Hids. unfold next_id. f_equal. generalize (length (log_events l)) as n.
  assert (∀ n m, (0 ≤ m)%Z → foldr Z.max 0%Z (seqZ (m + 1) (Z.of_nat n)) = if decide (n = 0%nat) then 0%Z else (m + Z.of_nat n)%Z) as Hmax.
  { induction n as [|n IH]; intros m Hm; [done|]. rewrite seqZ_cons by lia. cbn [foldr].
    replace (Z.pred (Z.of_nat (S n))) with (Z.of_nat n) by lia. replace (Z.succ (m + 1))%Z with (m + 1 + 1)%Z by lia.
    rewrite IH by lia. repeat case_decide; lia. }
  intros n. pose proof (Hmax n 0%Z ltac:(lia)) as Hn. change (0 + 1)%Z with 1%Z in Hn. rewrite Hn. case_decide; lia.
Qed.
End Numbered.
End Store.

(** ** The simulation *)

Section Simulation.
Context `{JsonText} `{SqlEnv}.

Lemma on_db_run {A} unavailable (m : M (Conn Tables) A) s c r c' :
  db_ s = Some c → m c = (r, c') → on_db unavailable m s = (r, mkSqliteStore (dbPath_ s) (Some c')).
Proof. intros Hs Hm. unfold on_db. by rewrite Hs, Hm. Qed.

Lemma holds_untouched s l c c' :
  db_ s = Some c → holds s l → untouched c c' → holds (mkSqliteStore (dbPath_ s) (Some c')) l.
Proof.
  intros Hs (c0 & Hs0 & _ & Hids & Hrows & Hcur) [Ht Hm]. rewrite Hs in Hs0. injection Hs0 as <-.
  exists c'. rewrite Hm. by split_and!.
Qed.

Lemma SqliteFailure_run {T} context (c : Conn T) :
  ∃ r, SqliteFailure context c = (Ret r, c) ∧ op_succeeded r = false ∧ HasError (op_error r) = true.
Proof. unfold SqliteFailure, SqliteErrorMessage, bind, get_errmsg. cbn. by eexists. Qed.

(** A write of one row, as both writing calls make it. *)
Lemma op_result_cases context f (c : Conn Tables) : conn_txn c = None →
  ∃ r c', op_result context (run_write f) c = (Ret r, c') ∧ conn_txn c' = None ∧
    ((r = MemorySuccess ∧ ∃ now, conn_main c' = f now (conn_main c)) ∨
     (failed (Done r) ∧ conn_main c' = conn_main c ∧ faulty)).
Proof.
  intros Hc. unfold op_result, run_write, bind.
  destruct (prepare_cases c Hc) as ([] & c1 & -> & [Ht Hm] & Hf); cbn -[SqliteFailure step_write].
  - destruct (step_write_cases f c1 Ht) as (c2 & Ht2 & [(now & -> & Hw)|(-> & Hw & Hf')]); cbn -[SqliteFailure].
    + do 2 eexists. split; [done|]. split; [done|]. left. split; [done|]. exists now. by rewrite Hw, Hm.
    + destruct (SqliteFailure_run context c2) as (r & -> & Hr). do 2 eexists. split; [done|]. split; [done|].
      right. split_and!; [apply Hr|apply Hr|by rewrite Hw|done].
  - destruct (SqliteFailure_run context c1) as (r & -> & Hr). do 2 eexists. split; [done|]. split; [done|].
    right. split_and!; [apply Hr|apply Hr|done|by apply Hf].
Qed.

Lemma append_refines s l event :
  holds s l → storable (Append event) →
  ∃ o s' l', store_call (Append event) s = (o, s') ∧ log_step faulty l (Append event) o l' ∧ holds s' l'.
Proof.
  intros Hh Hst. pose proof Hh as (c & Hs & Hc & Hids & Hrows & Hcur). cbn [store_call].
  unfold SaveEvent. destruct (json_dump (JsonObject (event_metadata event))) as [text|what] eqn:Ed.
  - set (f := λ now, insert_event (bind_text (event_agentId event)) (bind_text (event_sessionId event))
      (event_type_to_int (event_type event)) (bind_text (event_role event)) (bind_text (event_content event))
      (bind_text (event_payloadRef event)) (bind_text (event_toolCallId event)) (bind_text (event_toolName event))
      (bind_text text) now).
    assert (op_result "SaveEvent" (SaveEventUnlocked event) c = op_result "SaveEvent" (run_write f) c) as Heq.
    { unfold op_result, SaveEventUnlocked, run_write, bind. destruct (prepare c) as [[[]|] ?]; cbn; [|done..].
      unfold lift_outcome. by rewrite Ed. }
    destruct (op_result_cases "SaveEvent" f c Hc) as (r & c' & Hop & Hc' & Hcase). rewrite <- Heq in Hop.
    unfold bind at 1. rewrite (on_db_run _ _ _ _ _ _ Hs Hop). cbn.
    destruct Hcase as [(-> & now & Hm)|(Hf & Hm & Hfl)].
    + do 3 eexists. split; [reflexivity|]. split; [apply log_answers|]. cbn [answer snd].
      exists c'. rewrite Hm. cbn [f insert_event set_events t_events t_cursors log_events log_cursors].
      rewrite !fmap_app, Hrows, length_app. split_and!; [done|done| | |done].
      * rewrite (numbered_next _ l Hids), Hids. cbn [length]. rewrite Nat2Z.inj_add, seqZ_app by lia. f_equal.
        change (Z.of_nat 1) with (Z.succ 0). rewrite seqZ_cons by lia. cbn. f_equal. lia.
      * f_equal. cbn. unfold ReadEventRow, stored_event. cbn. rewrite event_type_read_back, (numbered_next _ l Hids).
        unfold ParseJsonSafely, json_parse_noexcept. rewrite (Hst _ Ed).
        unfold JsonObject. by destruct (event_metadata event).
    + do 3 eexists. split; [reflexivity|]. split; [by apply log_fails|]. by eapply holds_untouched.
  - unfold bind at 1.
    assert (∃ r c', op_result "SaveEvent" (SaveEventUnlocked event) c = (r, c') ∧ untouched c c' ∧
      (r = Throw what ∨ ∃ r', r = Ret r' ∧ failed (Done r') ∧ faulty)) as (r & c' & Hop & Hu & Hcase).
    { unfold op_result, SaveEventUnlocked, bind. destruct (prepare_cases c Hc) as ([] & c1 & -> & Hu & Hf); cbn -[SqliteFailure step_write].
      - unfold lift_outcome. rewrite Ed. do 2 eexists. split; [done|]. split; [done|]. by left.
      - destruct (SqliteFailure_run "SaveEvent" c1) as (r & -> & Hr). do 2 eexists. split; [done|]. split; [done|].
        right. eexists. split; [done|]. split; [done|]. by apply Hf. }
    rewrite (on_db_run _ _ _ _ _ _ Hs Hop). destruct Hcase as [->|(r' & -> & Hf & Hfl)].
    + do 3 eexists. split; [reflexivity|]. split; [by apply log_throws|]. by eapply holds_untouched.
    + do 3 eexists. split; [reflexivity|]. split; [by apply log_fails|]. by eapply holds_untouched.
Qed.

(** A read of the events. *)
Lemma read_refines (partial : list MemoryEvent → list MemoryEvent) s l call (m : M MemorySqliteStore MemoryEventsResult) cp cs
    (q : Tables → list EventRow) (f : list MemoryEvent → list MemoryEvent) :
  holds s l → store_call call = (let* r := m in ret (Events r)) →
  m = on_db (mkEventsResult false [] (op_error store_unavailable))
        (let* res := select cp cs q in
         ret (match res.2 with
              | Some e => mkEventsResult false (partial (ReadEventRow <$> res.1)) e
              | None => mkEventsResult true (f (ReadEventRow <$> res.1)) no_error
              end)) →
  (∀ c, db_ s = Some c → answer l call
        = (Events (mkEventsResult true (f (ReadEventRow <$> q (conn_main c))) no_error), l)) →
  ∃ o s' l', store_call call s = (o, s') ∧ log_step faulty l call o l' ∧ holds s' l'.
Proof.
  intros Hh -> -> Hans. pose proof Hh as (c & Hs & Hc & _). specialize (Hans c Hs).
  destruct (select_cases cp cs q c Hc) as ([rows e] & c' & Hsel & Hu & He).
  unfold bind at 1. erewrite on_db_run; [|done|unfold bind; rewrite Hsel; reflexivity]. cbn in *.
  destruct e as [e|].
  - do 3 eexists. split; [reflexivity|]. split; [apply log_fails; [apply He|split; [done|apply He]]|]. by eapply holds_untouched.
  - subst rows. do 3 eexists. split; [reflexivity|].
    split; [|by eapply holds_untouched].
    pose proof (log_answers faulty l call) as Hstep. rewrite Hans in Hstep. exact Hstep.
Qed.

Lemma cursor_refines s l agent session :
  holds s l →
  ∃ o s' l', store_call (LoadCursor agent session) s = (o, s') ∧
    log_step faulty l (LoadCursor agent session) o l' ∧ holds s' l'.
Proof.
  intros Hh. pose proof Hh as (c & Hs & Hc & _ & _ & Hcur). cbn [store_call]. unfold LoadConsolidationCursor.
  match goal with |- context [on_db _ ?m] =>
    assert (∃ r c', m c = (Ret r, c') ∧ untouched c c' ∧
      ((failed (Cursor r) ∧ faulty) ∨ Cursor r = (answer l (LoadCursor agent session)).1)) as (r & c' & Hm & Hu & Hcase)
  end.
  { unfold bind. destruct (prepare_cases c Hc) as ([] & c1 & -> & [Ht Hm] & Hf); cbn -[SqliteFailure].
    - unfold step_first. destruct (sql_fault _ _) as [f|] eqn:Ef; cbn -[SqliteFailure].
      + edestruct @SqliteFailure_run as (r & -> & Hr). do 2 eexists. split; [reflexivity|].
        destruct (failed_untouched f c1 Ht) as [? ?]. split; [split; congruence|]. left.
        split; [exact (conj eq_refl (proj2 Hr))|by do 3 eexists].
      + unfold conn_view. rewrite Ht, Hm. cbn. rewrite Hcur. unfold bind_text.
        destruct (log_cursors l !! _); cbn; do 2 eexists; (split; [reflexivity|]); (split; [by split|]); by right.
    - edestruct @SqliteFailure_run as (r & -> & Hr). do 2 eexists. split; [reflexivity|]. split; [by split|].
      left. split; [exact (conj eq_refl (proj2 Hr))|by apply Hf]. }
  unfold bind at 1. rewrite (on_db_run _ _ _ _ _ _ Hs Hm). cbn.
  do 3 eexists. split; [reflexivity|]. destruct Hcase as [[Hf Hfl]|He].
  - split; [by apply log_fails|by eapply holds_untouched].
  - split; [|by eapply holds_untouched]. rewrite He. apply (log_answers faulty l (LoadCursor agent session)).
Qed.

Lemma save_cursor_refines s l agent session cursor :
  holds s l →
  ∃ o s' l', store_call (SaveCursor agent session cursor) s = (o, s') ∧
    log_step faulty l (SaveCursor agent session cursor) o l' ∧ holds s' l'.
Proof.
  intros Hh. pose proof Hh as (c & Hs & Hc & Hids & Hrows & Hcur). cbn [store_call]. unfold SaveConsolidationCursor.
  destruct (op_result_cases "SaveConsolidationCursor" (λ now, upsert_cursor (bind_text agent) (bind_text session)
    (CursorToInt cursor)) c Hc) as (r & c' & Hop & Hc' & Hcase).
  unfold bind at 1. rewrite (on_db_run _ _ _ _ _ _ Hs Hop). cbn.
  destruct Hcase as [(-> & now & Hm)|(Hf & Hm & Hfl)]; do 3 eexists; (split; [reflexivity|]).
  - split; [apply (log_answers faulty l (SaveCursor agent session cursor))|]. exists c'. rewrite Hm. cbn.
    rewrite Hcur. by split_and!.
  - split; [by apply log_fails|]. by eapply holds_untouched.
Qed.

Lemma call_refines s l call :
  holds s l → storable call →
  ∃ o s' l', store_call call s = (o, s') ∧ log_step faulty l call o l' ∧ holds s' l'.
Proof.
  intros Hh Hst. pose proof Hh as (c0 & Hs0 & _ & Hids & Hrows & _).
  destruct call as [event|agent session cursor excluded|agent session limit|agent session|agent session cursor].
  - by apply append_refines.
  - refine (read_refines (λ x, x) s l (ReadAfter agent session cursor excluded)
      (LoadEventsAfterCursor agent session cursor excluded) _ _ (events_after_cursor agent session (CursorToInt cursor) excluded)
      (λ x, x) Hh eq_refl eq_refl _). intros c Hs.
    rewrite Hs0 in Hs. injection Hs as <-. cbn [answer]. by rewrite (after_seen _ l).
  - refine (read_refines (λ x, x) s l (ReadRecent agent session limit)
      (LoadRecentEvents agent session limit) _ _ (recent_events agent session (if (0 <? limit)%Z then limit else 20%Z))
      reverse Hh eq_refl eq_refl _). intros c Hs.
    rewrite Hs0 in Hs. injection Hs as <-. cbn [answer]. by rewrite (recent_seen _ l).
  - by apply cursor_refines.
  - by apply save_cursor_refines.
Qed.

Lemma no_fault_answers l calls os l' :
  ¬ faulty → log_run faulty l calls os l' →
  Forall (λ call, match call with Append e => ∃ text, json_dump (JsonObject (event_metadata e)) = Ret text
                                | _ => True end) calls →
  os = Ret <$> answers l calls.
Proof.
  intros Hf Hrun. induction Hrun as [l|l l1 l2 call calls o os Hstep _ IH]; [done|].
  intros [Hd Hds]%Forall_cons. cbn [answers]. rewrite fmap_cons.
  destruct Hstep as [l call|l call a Hm _|l event what Hw]; [by rewrite IH|done|].
  destruct Hd as [text Hd]. congruence.
Qed.
End Simulation.

(** Refinement: a store that holds a log answers every sequence of calls as a log does and holds
    that log afterwards, under any faults: each call either gets the answer of the log and has its
    effect, or meets a fault, reports an error and changes nothing, or throws for metadata without a
    text form; when no fault occurs and the metadata can be written, the answers are exactly those of
    the log. *)
Theorem store_refines_log `{JsonText} `{SqlEnv} (calls : list LogCall) (s : MemorySqliteStore) (l : MemoryLog)
    (Hholds : holds s l) (Hstorable : Forall storable calls) :
  (∃ l', log_run faulty l calls (store_run calls s).1 l' ∧ holds (store_run calls s).2 l') ∧
  (¬ faulty →
   Forall (λ call, match call with Append e => ∃ text, json_dump (JsonObject (event_metadata e)) = Ret text
                                 | _ => True end) calls →
   (store_run calls s).1 = Ret <$> answers l calls).
Proof.
  assert (∃ l', log_run faulty l calls (store_run calls s).1 l' ∧ holds (store_run calls s).2 l') as Hrun.
  { revert s l Hholds. induction Hstorable as [|call calls Hst _ IH]; intros s l Hh; [by exists l; split; [constructor|]|].
    destruct (call_refines s l call Hh Hst) as (o & s1 & l1 & Hcall & Hstep & Hh1).
    destruct (IH s1 l1 Hh1) as (l2 & Hrun & Hh2). exists l2. cbn [store_run]. rewrite Hcall.
    destruct (store_run calls s1) as [os s2]. split; [by econstructor|done]. }
  split; [exact Hrun|]. intros Hf Hd. destruct Hrun as (l' & Hrun & _). by eapply no_fault_answers.
Qed.

Definition sample_calls : list LogCall :=
  [Append (mkEvent MESSAGE_APPENDED "agent" "s" "user" "a" "" "" "" "" json_object "");
   Append (mkEvent MESSAGE_APPENDED "other" "s" "user" "b" "" "" "" "" json_object "");
   SaveCursor "agent" "" "1";
   Append (mkEvent MESSAGE_APPENDED "agent" "t" "user" "c" "" "" "" "" json_object "");
   LoadCursor "agent" "";
   ReadAfter "agent" "" "1" ["s"];
   ReadRecent "agent" "" 1].

Lemma store_refines_log_witness :
  let _ := sample_json in let _ := reliable_env in
  (store_run sample_calls (opened empty_tables)).1 = Ret <$> answers empty_log sample_calls ∧
  last (answers empty_log sample_calls)
  = Some (Events (mkEventsResult true
      [mkEvent MESSAGE_APPENDED "agent" "t" "user" "c" "" "" "" "3" json_object ""] no_error)).
Proof.
  intros Hj He. split; [|reflexivity].
  apply (store_refines_log sample_calls (opened empty_tables) empty_log).
  - eexists. by split_and!.
  - repeat constructor; intros text Ht; vm_compute in Ht; injection Ht as <-; reflexivity.
  - intros (n & k & f & Hf). discriminate Hf.
  - repeat constructor; by eexists.
Defined.
