(* ===== verification/LongTermTheorems.v ===== *)
(** * Long-term memory: what saving promises to loading

    The effect of SaveEntity and SaveRelation on what LoadLongTermMemory delivers, for the agent that
    saved and for the others. *)

From Stdlib Require Import ZArith Lia Ascii String.
From stdpp Require Import base list strings gmap sorting.
From S2P Require Import Prelude CppString Floats Json Types Sqlite StoreInterface Store.
From S2P Require Import StoreInvariant StoreSearch Samples EventLog.

Open Scope am_scope.

(** ** Lemmas: reading back *)

Section Text.
Context `{JsonText}.

Lemma ParseSourceRefsColumn_readback text refs :
  is_empty text = false → json_parse text = Ret (strings_to_json refs) → ParseSourceRefsColumn text = refs.
Proof.
  intros He Hp. unfold ParseSourceRefsColumn, json_parse_noexcept. rewrite He, Hp.
  unfold ExtractSourceRefsFromJson, strings_to_json, StringVectorFromJson. simpl. apply string_items_strings.
Qed.

Lemma ParseJsonSafely_readback text j :
  json_parse text = Ret j → is_object j = true → ParseJsonSafely text = j.
Proof. intros Hp Ho. unfold ParseJsonSafely, json_parse_noexcept. by rewrite Hp, Ho. Qed.
End Text.

(** ** Lemmas: a reliable load *)

Section Load.
Context `{JsonText} `{SqlEnv} `{SqlPlan} (Hreliable : ∀ n k, sql_fault n k = None).

Lemma LoadLongTermMemory_reliable agent limit session s c :
  db_ s = Some c →
  (LoadLongTermMemory agent limit session s).1
  = Ret (let l := if (0 <? limit)%Z then limit else 100%Z in
         mkSnapshotResult true
           (mkSnapshot (ReadSummaryRow <$> long_term_summaries agent session l (conn_view c))
              (ReadEntityRow <$> long_term_entities agent l (conn_view c))
              (ReadRelationRow <$> long_term_relations agent l (conn_view c))) no_error).
Proof.
  intros Hs. unfold LoadLongTermMemory, on_db. rewrite Hs.
  set (l := if (0 <? limit)%Z then limit else 100%Z).
  destruct (select_reliable Hreliable "LoadLongTermMemory::summaries_prepare"
    "LoadLongTermMemory::summaries_step" (long_term_summaries agent session l) c) as (c1 & E1 & M1 & T1).
  rewrite (bind_run _ _ _ _ _ E1). simpl.
  destruct (select_reliable Hreliable "LoadLongTermMemory::entities_prepare"
    "LoadLongTermMemory::entities_step" (long_term_entities agent l) c1) as (c2 & E2 & M2 & T2).
  rewrite (bind_run _ _ _ _ _ E2). simpl.
  destruct (select_reliable Hreliable "LoadLongTermMemory::relations_prepare"
    "LoadLongTermMemory::relations_step" (long_term_relations agent l) c2) as (c3 & E3 & _).
  rewrite (bind_run _ _ _ _ _ E3). simpl. unfold conn_view. by rewrite M2, T2, M1, T1.
Qed.

(** With a limit beyond the table, the entities delivered are the active ones of the agent. *)
Lemma elem_of_long_term_entities agent l t r :
  (Z.of_nat (length (t_entities t)) ≤ l)%Z →
  r ∈ long_term_entities agent l t ↔ r ∈ t_entities t ∧ en_active r = true ∧ en_agent_id r = bind_text agent.
Proof.
  intros Hl. unfold long_term_entities. rewrite take_ge.
  - rewrite elem_of_sort_by, scan_entities_perm, list_elem_of_filter, Is_true_true, andb_true_iff.
    rewrite bool_decide_eq_true. naive_solver.
  - rewrite length_sort_by, scan_entities_perm.
    pose proof (length_filter (λ r, en_active r && bool_decide (en_agent_id r = bind_text agent)) (t_entities t)).
    lia.
Qed.

Lemma long_term_entities_sub agent l t r :
  r ∈ long_term_entities agent l t →
  r ∈ t_entities t ∧ en_active r = true ∧ en_agent_id r = bind_text agent.
Proof.
  unfold long_term_entities. intros Hr%elem_of_take_1. revert Hr.
  rewrite elem_of_sort_by, scan_entities_perm, list_elem_of_filter, Is_true_true, andb_true_iff,
    bool_decide_eq_true. naive_solver.
Qed.
End Load.

(** ** SaveEntity on the table *)

(** An active entity that SaveEntity marks obsolete because the saved one has its type and name. *)
Definition duplicate_of (e : MemoryEntity) (r : EntityRow) : bool :=
  negb (is_empty (entity_id e) || is_empty (entity_agentId e) || is_empty (entity_entityType e) ||
        is_empty (entity_name e)) &&
  (bool_decide (en_agent_id r = bind_text (entity_agentId e)) &&
   bool_decide (en_type r = bind_text (entity_entityType e)) &&
   bool_decide (en_name r = bind_text (entity_name e)) &&
   negb (bool_decide (en_id r = bind_text (entity_id e))) && en_active r).

(** The entity that the saved one names as superseded. *)
Definition superseded_by (e : MemoryEntity) (id : string) : bool :=
  negb (is_empty (entity_supersededEntityId e)) && bool_decide (id = bind_text (entity_supersededEntityId e)).

Definition saved_entity_row (e : MemoryEntity) (refsStr metadataStr now : string) (rowid : Z) : EntityRow :=
  mkEntityRow rowid (bind_text (entity_id e)) (bind_text (entity_agentId e)) (bind_text (entity_entityType e))
    (bind_text (entity_name e)) (bind_text (entity_summary e))
    (bind_double (f64_of_f32 (entity_confidence e))) (bind_text refsStr) (bind_text metadataStr)
    (entity_isActive e)
    (if is_empty (entity_supersededByEntityId e) then None
     else Some (bind_text (entity_supersededByEntityId e))) now.

Lemma elem_of_upsert_entity id agent type name summary conf refs md act sb now t :
  let row rowid := mkEntityRow rowid id agent type name summary conf refs md act sb now in
  let t' := upsert_entity id agent type name summary conf refs md act sb now t in
  (∃ rowid, row rowid ∈ t_entities t') ∧
  ∀ r, r ∈ t_entities t' → (∃ rowid, r = row rowid) ∨ (r ∈ t_entities t ∧ en_id r ≠ id).
Proof.
  intros row t'. unfold t', upsert_entity. destruct (existsb _ _) eqn:E; simpl; split.
  - apply existsb_exists in E as (r0 & Hr0%list_elem_of_In & Hid). exists (en_rowid r0).
    apply elem_of_update_where. exists r0. by rewrite Hid.
  - intros r (r0 & Hr0 & ->)%elem_of_update_where. case_bool_decide; [left; by eexists|by right].
  - eexists. apply elem_of_app. right. by apply list_elem_of_singleton.
  - intros r. rewrite elem_of_app, list_elem_of_singleton. intros [Hr| ->]; [right|left; by eexists].
    split; [done|]. intros Hid. apply not_true_iff_false in E. apply E, existsb_exists. exists r.
    rewrite bool_decide_true by done. split; [by apply list_elem_of_In|done].
Qed.

Lemma upsert_entity_keeps id agent type name summary conf refs md act sb now t r :
  r ∈ t_entities t → en_id r ≠ id →
  r ∈ t_entities (upsert_entity id agent type name summary conf refs md act sb now t).
Proof.
  intros Hr Hid. unfold upsert_entity. destruct (existsb _ _); simpl.
  - apply elem_of_update_where. exists r. by rewrite bool_decide_false.
  - apply elem_of_app. by left.
Qed.

(** After rows were marked obsolete, the active ones are those not marked. *)
Lemma elem_of_obsolete sel by_ now t r :
  (r ∈ t_entities (update_entities sel (entity_obsolete by_ now) t) ∧ en_active r = true) ↔
  (r ∈ t_entities t ∧ en_active r = true ∧ sel r = false).
Proof.
  simpl. rewrite elem_of_update_where. split.
  - intros [(r0 & Hr0 & ->) Ha]. destruct (sel r0) eqn:E; [done|by rewrite E].
  - intros (Hr & Ha & Hsel). split; [|done]. exists r. by rewrite Hsel.
Qed.

Lemma update_entities_none sel upd t : (∀ r, sel r = false) → update_entities sel upd t = t.
Proof.
  intros Hno. unfold update_entities, update_where, fts_updates, set_entities.
  replace ((λ r, if sel r then upd r else r) <$> t_entities t) with (t_entities t).
  - replace (foldl _ (t_fts_entities t) (t_entities t)) with (t_fts_entities t); [by destruct t|].
    generalize (t_fts_entities t). induction (t_entities t) as [|r l IH]; intros i; [done|].
    simpl. rewrite Hno. apply IH.
  - symmetry. induction (t_entities t) as [|r l IH]; [done|]. rewrite fmap_cons, Hno, IH. done.
Qed.

Section Save.
Context `{JsonText} `{SqlEnv} (Hreliable : ∀ n k, sql_fault n k = None).
Context (e : MemoryEntity) (refsStr metadataStr : string)
  (Hrefs : json_dump (strings_to_json (entity_sourceRefs e)) = Ret refsStr)
  (Hmeta : json_dump (JsonObject (entity_metadata e)) = Ret metadataStr).

(** The tables after the three statements. *)
Definition entity_saved (now1 now2 now3 : string) (t : Tables) : Tables :=
  let t1 := update_entities (duplicate_of e) (entity_obsolete (bind_text (entity_id e)) now1) t in
  let t2 := upsert_entity (bind_text (entity_id e)) (bind_text (entity_agentId e))
              (bind_text (entity_entityType e)) (bind_text (entity_name e)) (bind_text (entity_summary e))
              (bind_double (f64_of_f32 (entity_confidence e))) (bind_text refsStr) (bind_text metadataStr)
              (entity_isActive e)
              (if is_empty (entity_supersededByEntityId e) then None
               else Some (bind_text (entity_supersededByEntityId e))) now2 t1 in
  update_entities (λ r, superseded_by e (en_id r)) (entity_obsolete (bind_text (entity_id e)) now3) t2.

Lemma MarkDuplicate_reliable c :
  ∃ now c', MarkDuplicateEntitiesObsoleteUnlocked e c = (Ret true, c') ∧
    conn_view c' = update_entities (duplicate_of e) (entity_obsolete (bind_text (entity_id e)) now) (conn_view c).
Proof.
  unfold MarkDuplicateEntitiesObsoleteUnlocked.
  destruct (is_empty (entity_id e) || is_empty (entity_agentId e) || is_empty (entity_entityType e) ||
            is_empty (entity_name e)) eqn:E.
  - exists "", c. split; [done|]. rewrite update_entities_none; [done|]. intros r. unfold duplicate_of. by rewrite E.
  - edestruct run_write_reliable as (now & c' & Hrun & Hview & _); [done|]. exists now, c'.
    split; [exact Hrun|]. rewrite Hview. unfold duplicate_of. by rewrite E.
Qed.

Lemma SaveEntity_reliable s c :
  db_ s = Some c →
  ∃ s' c' now1 now2 now3, SaveEntity e s = (Ret MemorySuccess, s') ∧ db_ s' = Some c' ∧
    conn_view c' = entity_saved now1 now2 now3 (conn_view c).
Proof.
  intros Hs. destruct (MarkDuplicate_reliable c) as (now1 & c1 & E1 & V1).
  set (upsert := λ now, upsert_entity (bind_text (entity_id e)) (bind_text (entity_agentId e))
    (bind_text (entity_entityType e)) (bind_text (entity_name e)) (bind_text (entity_summary e))
    (bind_double (f64_of_f32 (entity_confidence e))) (bind_text refsStr) (bind_text metadataStr)
    (entity_isActive e) (if is_empty (entity_supersededByEntityId e) then None
       else Some (bind_text (entity_supersededByEntityId e))) now).
  destruct (run_write_reliable Hreliable upsert c1) as (now2 & c2 & E2 & V2 & _).
  assert (∃ now3 c3, (if negb (is_empty (entity_supersededEntityId e))
      then MarkEntityObsoleteUnlocked (entity_supersededEntityId e) (entity_id e) else ret true) c2 = (Ret true, c3) ∧
      conn_view c3 = update_entities (λ r, superseded_by e (en_id r))
        (entity_obsolete (bind_text (entity_id e)) now3) (conn_view c2)) as (now3 & c3 & E3 & V3).
  { unfold superseded_by. destruct (is_empty (entity_supersededEntityId e)) eqn:E; simpl.
    - exists "", c2. split; [done|]. by rewrite update_entities_none.
    - edestruct run_write_reliable as (now3 & c3 & Hrun & Hview & _); [done|]. exists now3, c3.
      split; [exact Hrun|]. exact Hview. }
  exists (mkSqliteStore (dbPath_ s) (Some c3)), c3, now1, now2, now3. split_and!.
  - unfold SaveEntity, on_db. rewrite Hs. unfold op_result, SaveEntityUnlocked, SerializeSourceRefs.
    unfold bind in *. unfold lift_outcome. rewrite Hrefs, Hmeta. rewrite E1. simpl.
    unfold upsert in E2. rewrite E2. simpl. by rewrite E3.
  - done.
  - unfold entity_saved. by rewrite V3, V2, V1.
Qed.

(** The active rows afterwards: the saved one, and those that were active under another id and are
    neither duplicates nor superseded. *)
Lemma entity_saved_active now1 now2 now3 t :
  (∃ rowid, entity_isActive e = true → superseded_by e (bind_text (entity_id e)) = false →
     saved_entity_row e refsStr metadataStr now2 rowid ∈ t_entities (entity_saved now1 now2 now3 t)) ∧
  (∀ r, r ∈ t_entities t → en_active r = true → en_id r ≠ bind_text (entity_id e) →
     duplicate_of e r = false → superseded_by e (en_id r) = false →
     r ∈ t_entities (entity_saved now1 now2 now3 t)) ∧
  (∀ r, r ∈ t_entities (entity_saved now1 now2 now3 t) → en_active r = true →
     superseded_by e (en_id r) = false ∧
     ((∃ rowid, r = saved_entity_row e refsStr metadataStr now2 rowid) ∨
      (r ∈ t_entities t ∧ en_id r ≠ bind_text (entity_id e) ∧ duplicate_of e r = false))).
Proof.
  unfold entity_saved. set (t1 := update_entities (duplicate_of e) _ t).
  pose proof (elem_of_upsert_entity (bind_text (entity_id e)) (bind_text (entity_agentId e))
    (bind_text (entity_entityType e)) (bind_text (entity_name e)) (bind_text (entity_summary e))
    (bind_double (f64_of_f32 (entity_confidence e))) (bind_text refsStr) (bind_text metadataStr)
    (entity_isActive e) (if is_empty (entity_supersededByEntityId e) then None
       else Some (bind_text (entity_supersededByEntityId e))) now2 t1) as [[rowid Hin] Hinv].
  split_and!.
  - exists rowid. intros Ha Hs. by apply (elem_of_obsolete _ _ now3).
  - intros r Hr Ha Hid Hd Hs. apply (elem_of_obsolete _ _ now3). split_and!; [|done|done].
    apply upsert_entity_keeps; [|done]. by apply elem_of_obsolete.
  - intros r Hr Ha. destruct (proj1 (elem_of_obsolete _ _ _ _ _) (conj Hr Ha)) as (Hr2 & _ & Hs).
    split; [done|]. destruct (Hinv r Hr2) as [[k ->]|[Hr1 Hid]]; [left; by exists k|right].
    destruct (proj1 (elem_of_obsolete _ _ _ _ _) (conj Hr1 Ha)) as (? & _ & ?). done.
Qed.
End Save.

Lemma length_entity_saved `{JsonText} e refsStr metadataStr now1 now2 now3 t :
  (length (t_entities (entity_saved e refsStr metadataStr now1 now2 now3 t)) ≤ S (length (t_entities t)))%nat.
Proof.
  unfold entity_saved, upsert_entity, update_entities, update_where. destruct (existsb _ _); simpl;
    rewrite ?length_fmap, ?length_app, ?length_fmap; simpl; lia.
Qed.

(** ** Properties *)

(** What LoadLongTermMemory makes of an entity that SaveEntity stored. *)
Definition stored_entity (e : MemoryEntity) (refs : list string) (metadata : json) : MemoryEntity :=
  mkEntity (bind_text (entity_id e)) (bind_text (entity_agentId e)) (bind_text (entity_entityType e))
    (bind_text (entity_name e)) (bind_text (entity_summary e))
    (f32_of_f64 (column_double (bind_double (f64_of_f32 (entity_confidence e))))) true "" "" refs metadata "" "".

(** [e] replaces the loaded entity [x]: both have the agent, type and name. *)
Definition replaces (e x : MemoryEntity) : bool :=
  negb (is_empty (entity_id e) || is_empty (entity_agentId e) || is_empty (entity_entityType e) ||
        is_empty (entity_name e)) &&
  bool_decide (entity_agentId x = bind_text (entity_agentId e)) &&
  bool_decide (entity_entityType x = bind_text (entity_entityType e)) &&
  bool_decide (entity_name x = bind_text (entity_name e)).

(** SaveEntity is the lifecycle of an entity: what LoadLongTermMemory delivers afterwards is the
    saved entity (if it is active, of the agent, and does not supersede itself) and what it delivered
    before, without the entity of the same id, those of the same agent, type and name, and the one
    the saved entity names as superseded; nothing else appears or goes. *)
Theorem save_entity_effect `{JsonText} `{SqlEnv} `{SqlPlan} (e : MemoryEntity)
    (refsStr metadataStr : string) (metadata : json) (agent session : string) (limit : Z)
    (s : MemorySqliteStore) (c : Conn Tables) (before : list MemoryEntity)
    (Hreliable : ∀ n k, sql_fault n k = None) (Hs : db_ s = Some c)
    (Hrefs : json_dump (strings_to_json (entity_sourceRefs e)) = Ret refsStr)
    (Hne : is_empty (bind_text refsStr) = false)
    (Hrefs' : json_parse (bind_text refsStr) = Ret (strings_to_json (entity_sourceRefs e)))
    (Hmeta : json_dump (JsonObject (entity_metadata e)) = Ret metadataStr)
    (Hmeta' : json_parse (bind_text metadataStr) = Ret metadata) (Hobj : is_object metadata = true)
    (Hlimit : (Z.of_nat (length (t_entities (conn_view c))) < limit)%Z)
    (Hbefore : snap_entities <$> (match (LoadLongTermMemory agent limit session s).1 with
                                  | Ret r => Some (snapres_snapshot r) | Throw _ => None end) = Some before) :
  ∃ s' summaries after relations, SaveEntity e s = (Ret MemorySuccess, s') ∧
    (LoadLongTermMemory agent limit session s').1
    = Ret (mkSnapshotResult true (mkSnapshot summaries after relations) no_error) ∧
    ∀ x, x ∈ after ↔
      (x = stored_entity e (entity_sourceRefs e) metadata ∧ entity_isActive e = true ∧
       bind_text (entity_agentId e) = bind_text agent ∧ superseded_by e (bind_text (entity_id e)) = false) ∨
      (x ∈ before ∧ entity_id x ≠ bind_text (entity_id e) ∧ replaces e x = false ∧
       superseded_by e (entity_id x) = false).
Proof.
  destruct (SaveEntity_reliable Hreliable e refsStr metadataStr Hrefs Hmeta s c Hs)
    as (s' & c' & now1 & now2 & now3 & Hsave & Hs' & Hview).
  do 4 eexists. split; [exact Hsave|]. split; [by rewrite (LoadLongTermMemory_reliable Hreliable _ _ _ _ _ Hs')|].
  rewrite (LoadLongTermMemory_reliable Hreliable _ _ _ _ _ Hs) in Hbefore.
  cbv zeta in *. replace (0 <? limit)%Z with true in * by lia. simpl in Hbefore. injection Hbefore as <-.
  assert (∀ rowid, ReadEntityRow (saved_entity_row e refsStr metadataStr now2 rowid)
                     = stored_entity e (entity_sourceRefs e) metadata) as Hread.
  { intros rowid. unfold ReadEntityRow, saved_entity_row, stored_entity. simpl.
    rewrite (ParseSourceRefsColumn_readback _ (entity_sourceRefs e)) by done.
    by rewrite (ParseJsonSafely_readback _ metadata). }
  assert (∀ r, en_id r ≠ bind_text (entity_id e) → en_active r = true →
               duplicate_of e r = replaces e (ReadEntityRow r)) as Hdup.
  { intros r Hid Ha. unfold duplicate_of, replaces. simpl. rewrite (bool_decide_false (en_id r = _)) by done.
    rewrite Ha. simpl. rewrite !andb_true_r, !andb_assoc. done. }
  pose proof (length_entity_saved e refsStr metadataStr now1 now2 now3 (conn_view c)) as Hlen.
  destruct (entity_saved_active e refsStr metadataStr now1 now2 now3 (conn_view c)) as ((rowid & Hnew) & Hold & Hinv).
  rewrite <- Hview in *.
  intros x. rewrite list_elem_of_fmap. setoid_rewrite elem_of_long_term_entities; [|lia]. split.
  - intros (r & -> & Hr & Ha & Hag). destruct (Hinv r Hr Ha) as (Hsup & [[k ->]|(Hr0 & Hid & Hd)]).
    + left. rewrite Hread. done.
    + right. rewrite <- Hdup by done. split; [|done]. apply list_elem_of_fmap. exists r.
      split; [done|]. apply elem_of_long_term_entities; [lia|done].
  - intros [(-> & Ha & Hag & Hsup)|(Hx & Hid & Hrep & Hsup)].
    + exists (saved_entity_row e refsStr metadataStr now2 rowid). rewrite Hread.
      split_and!; [done|by apply Hnew|done|done].
    + apply list_elem_of_fmap in Hx as (r & -> & Hr). exists r. split; [done|].
      apply elem_of_long_term_entities in Hr as (Hr & Ha & Hag); [|lia].
      split_and!; [|done|done]. apply Hold; [done..|by rewrite Hdup|done].
Qed.

Definition preference (agent id name : string) : MemoryEntity :=
  mkEntity id agent "preference" name "likes tests" (f32_lit 6 10) true "" "" ["session://s"] json_object "" "".

Definition entity_row_of (rowid : Z) (e : MemoryEntity) : EntityRow :=
  saved_entity_row e ("[session://s" +:+ String "010"%char EmptyString) "{}" sample_now rowid.

Definition one_entity (e : MemoryEntity) : Tables :=
  mkTables [] [] [] [entity_row_of 1 e] [] ∅ ∅ {[ 1%Z := fts_entity_columns (entity_row_of 1 e) ]} ∅.

Lemma save_entity_effect_witness :
  let _ := sample_json in let _ := reliable_env in let _ := sample_plan in
  ∃ s' after summaries relations,
    SaveEntity (preference "agent" "new" "p") (opened (one_entity (preference "agent" "old" "p")))
      = (Ret MemorySuccess, s') ∧
    (LoadLongTermMemory "agent" 5 "" s').1
      = Ret (mkSnapshotResult true (mkSnapshot summaries after relations) no_error) ∧
    preference "agent" "new" "p" ∈ after ∧ preference "agent" "old" "p" ∉ after.
Proof.
  intros Hj He Hp.
  edestruct (save_entity_effect (preference "agent" "new" "p")
    ("[session://s" +:+ String "010"%char EmptyString) "{}" json_object "agent" "" 5
    (opened (one_entity (preference "agent" "old" "p"))))
    as (s' & su & after & re & Hsave & Hload & Hiff).
  1-10: (try reflexivity); vm_compute; reflexivity.
  exists s', after, su, re. split; [exact Hsave|]. split; [exact Hload|]. split.
  - apply Hiff. left. split_and!; vm_compute; reflexivity.
  - intros Hin. apply Hiff in Hin as [(Hx & _)|(_ & _ & Hx & _)]; vm_compute in Hx; congruence.
Defined.

(** C18: an entity id belongs to one agent only: saving an entity takes the id away from every other
    agent, whatever that agent had stored under it. The rule-based processor gives every agent the
    same ids ("entity:preference.user", "entity:topic.api"), so consolidating for one agent removes
    the preference entity of the others. *)
Theorem entity_id_taken_from_other_agents `{JsonText} `{SqlEnv} `{SqlPlan} (e : MemoryEntity)
    (refsStr metadataStr other session : string) (limit : Z) (s : MemorySqliteStore) (c : Conn Tables)
    (Hreliable : ∀ n k, sql_fault n k = None) (Hs : db_ s = Some c)
    (Hrefs : json_dump (strings_to_json (entity_sourceRefs e)) = Ret refsStr)
    (Hmeta : json_dump (JsonObject (entity_metadata e)) = Ret metadataStr)
    (Hother : bind_text other ≠ bind_text (entity_agentId e)) :
  ∃ s' summaries after relations, SaveEntity e s = (Ret MemorySuccess, s') ∧
    (LoadLongTermMemory other limit session s').1
    = Ret (mkSnapshotResult true (mkSnapshot summaries after relations) no_error) ∧
    ∀ x, x ∈ after → entity_id x ≠ bind_text (entity_id e).
Proof.
  destruct (SaveEntity_reliable Hreliable e refsStr metadataStr Hrefs Hmeta s c Hs)
    as (s' & c' & now1 & now2 & now3 & Hsave & Hs' & Hview).
  do 4 eexists. split; [exact Hsave|]. split; [by rewrite (LoadLongTermMemory_reliable Hreliable _ _ _ _ _ Hs')|].
  cbv zeta. intros x (r & -> & Hr)%list_elem_of_fmap. apply long_term_entities_sub in Hr as (Hr & Ha & Hag).
  rewrite Hview in Hr.
  destruct (entity_saved_active e refsStr metadataStr now1 now2 now3 (conn_view c)) as (_ & _ & Hinv).
  destruct (Hinv r Hr Ha) as (_ & [[k ->]|(_ & Hid & _)]); [|done]. by rewrite <- Hag in Hother.
Qed.

Lemma entity_id_taken_from_other_agents_witness :
  let _ := sample_json in let _ := reliable_env in let _ := sample_plan in
  snap_entities <$> (match (LoadLongTermMemory "alice" 5 "" (opened
      (one_entity (preference "alice" "entity:preference.user" "User preference")))).1 with
    | Ret r => Some (snapres_snapshot r) | Throw _ => None end)
  = Some [preference "alice" "entity:preference.user" "User preference"] ∧
  ∃ s' summaries after relations,
    SaveEntity (preference "bob" "entity:preference.user" "User preference")
      (opened (one_entity (preference "alice" "entity:preference.user" "User preference")))
      = (Ret MemorySuccess, s') ∧
    (LoadLongTermMemory "alice" 5 "" s').1
      = Ret (mkSnapshotResult true (mkSnapshot summaries after relations) no_error) ∧
    ∀ x, x ∈ after → entity_id x ≠ "entity:preference.user".
Proof.
  intros Hj He Hp. split; [vm_compute; reflexivity|].
  apply (entity_id_taken_from_other_agents (preference "bob" "entity:preference.user" "User preference")
    ("[session://s" +:+ String "010"%char EmptyString) "{}" "alice" "" 5
    (opened (one_entity (preference "alice" "entity:preference.user" "User preference")))
    (mkConn (one_entity (preference "alice" "entity:preference.user" "User preference")) None 0 no_error_msg)).
  - done.
  - reflexivity.
  - vm_compute. reflexivity.
  - reflexivity.
  - vm_compute. congruence.
Defined.
