(* ===== verification/LongTermRefinement.v ===== *)
(** * The store refines knowledge

    The tables of summaries, entities and relations mean a [Knowledge]; each updating call of the store
    is a sequence of its steps, and outside a transaction a fault may cut the sequence short. *)

From Stdlib Require Import ZArith Lia Ascii String.
From stdpp Require Import base list strings gmap sorting.
From S2P Require Import Prelude CppString Floats Json Types Sqlite StoreInterface Store StoreInvariant.
From S2P Require Import StoreTransactions StoreSearch Samples StoreTheorems EventLog LongTermTheorems.
From S2P Require Import Refinement Knowledge.

Open Scope am_scope.

(** ** What the tables mean *)

Section Meaning.
Context `{JsonText}.

Definition summary_meaning (r : SummaryRow) : string * (string * string * LongTermSummaryRecord) :=
  (su_updated_at r, (su_agent_id r, su_session_id r, ReadSummaryRow r)).

Definition entity_meaning (r : EntityRow) : string * (string * MemoryEntity) :=
  (en_id r, (en_updated_at r, ReadEntityRow r)).

Definition relation_meaning (r : RelationRow) : string * MemoryRelation := (re_updated_at r, ReadRelationRow r).

Definition knowledge_of (t : Tables) : Knowledge :=
  mkKnowledge (summary_meaning <$> t_summaries t)
    (list_to_map (entity_meaning <$> filter (λ r, en_active r = true) (t_entities t)))
    (relation_meaning <$> filter (λ r, re_active r = true) (t_relations t))
    (next_id (re_id <$> t_relations t) - 1).

(** The text forms are read back as they were written. *)
Definition refs_storable (refs : list string) : Prop :=
  ∀ text, json_dump (strings_to_json refs) = Ret text →
    is_empty (bind_text text) = false ∧ json_parse (bind_text text) = Ret (strings_to_json refs).

Definition metadata_storable (j : json) : Prop :=
  ∀ text, json_dump j = Ret text → json_parse (bind_text text) = Ret j.

Definition update_storable (u : Update) : Prop :=
  match u with
  | PutSummary _ _ _ _ _ confidence refs => is_f32 confidence = true ∧ refs_storable refs
  | PutEntity e =>
      is_f32 (entity_confidence e) = true ∧ refs_storable (entity_sourceRefs e) ∧
      metadata_storable (JsonObject (entity_metadata e))
  | PutRelation r =>
      is_f32 (relation_confidence r) = true ∧ refs_storable (relation_sourceRefs r) ∧
      metadata_storable (relation_metadata_kept r)
  | Retire _ _ => True
  end.

(** The texts exist. *)
Definition update_writable (u : Update) : Prop :=
  match u with
  | PutSummary _ _ _ _ _ _ refs => has_text (strings_to_json refs)
  | PutEntity e => has_text (strings_to_json (entity_sourceRefs e)) ∧ has_text (JsonObject (entity_metadata e))
  | PutRelation r => has_text (strings_to_json (relation_sourceRefs r)) ∧ has_text (relation_metadata_kept r)
  | Retire _ _ => True
  end.

(** ** Lemmas: values read back *)

Lemma confidence_kept c :
  is_f32 c = true → f32_of_f64 (column_double (bind_double (f64_of_f32 c))) = kept_confidence c.
Proof.
  intros Hc. unfold kept_confidence, bind_double, column_double. destruct (is_nan c) eqn:En.
  - destruct c; try done.
  - assert (is_nan (f64_of_f32 c) = false) as -> by (apply (round_to_not_nan 53 1024 c En)).
    by apply f32_f64_f32.
Qed.

Lemma is_object_JsonObject j : is_object (JsonObject j) = true.
Proof. unfold JsonObject. by destruct (is_object j) eqn:E. Qed.

Lemma is_object_kept r : is_object (relation_metadata_kept r) = true.
Proof.
  unfold relation_metadata_kept. pose proof (is_object_JsonObject (relation_metadata r)) as Ho.
  destruct (JsonObject (relation_metadata r)); try done. by case_bool_decide.
Qed.

(** ** Lemmas: statements are steps *)

Definition ids_unique (t : Tables) : Prop := NoDup (en_id <$> t_entities t).

(** The statement [f] is the step [g]. *)
Definition is_step (f : string → Tables → Tables) (g : KnowledgeStep) : Prop :=
  ∀ now t, ids_unique t → ids_unique (f now t) ∧ knowledge_of (f now t) = g now (knowledge_of t).

Lemma active_ids_unique t :
  ids_unique t → NoDup (entity_meaning <$> filter (λ r, en_active r = true) (t_entities t)).*1.
Proof.
  rewrite <- list_fmap_compose. cbn. change (ids_unique t → NoDup (en_id <$> filter (λ r, en_active r = true) (t_entities t))).
  unfold ids_unique. induction (t_entities t) as [|r l IH]; intros Hnd; [constructor|].
  rewrite fmap_cons in Hnd. apply NoDup_cons in Hnd as [Hr Hl]. rewrite filter_cons. case_decide; [|by apply IH].
  rewrite fmap_cons. apply NoDup_cons. split; [|by apply IH]. intros (y & Hy & Hin)%list_elem_of_fmap.
  apply list_elem_of_filter in Hin as [_ Hin]. apply Hr. rewrite Hy. by apply list_elem_of_fmap_2.
Qed.

Lemma lookup_entities t id x :
  ids_unique t →
  kn_entities (knowledge_of t) !! id = Some x ↔
  ∃ r, r ∈ t_entities t ∧ en_active r = true ∧ en_id r = id ∧ x = (en_updated_at r, ReadEntityRow r).
Proof.
  intros Hnd. cbn. rewrite <- elem_of_list_to_map.
  - rewrite list_elem_of_fmap. unfold entity_meaning. setoid_rewrite list_elem_of_filter. naive_solver.
  - by apply active_ids_unique.
Qed.

Lemma ids_unique_update sel upd t :
  (∀ r, sel r = true → en_id (upd r) = en_id r) → ids_unique t → ids_unique (update_entities sel upd t).
Proof.
  intros Hid. unfold ids_unique. cbn. intros Hnd. replace (en_id <$> update_where sel upd (t_entities t))
    with (en_id <$> t_entities t); [done|].
  unfold update_where. rewrite <- list_fmap_compose. apply list_fmap_ext. intros i r _. cbn.
  destruct (sel r) eqn:E; [by rewrite Hid|done].
Qed.

(** Two tables with the same other parts and entities that mean the same. *)
Lemma knowledge_entities f t t' :
  ids_unique t → ids_unique t' → t_summaries t' = t_summaries t → t_relations t' = t_relations t →
  (∀ id x, f (kn_entities (knowledge_of t)) !! id = Some x ↔
     ∃ r, r ∈ t_entities t' ∧ en_active r = true ∧ en_id r = id ∧ x = (en_updated_at r, ReadEntityRow r)) →
  knowledge_of t' = on_entities f (knowledge_of t).
Proof.
  intros Ht Ht' Hs Hr Hf. unfold knowledge_of, on_entities. rewrite Hs, Hr. cbn. f_equal.
  apply map_eq. intros id. apply option_eq. intros x. rewrite Hf. apply (lookup_entities t' id x Ht').
Qed.

(** Marking active rows obsolete forgets their entities. *)
Lemma obsolete_is_step by_ (sel : EntityRow → bool) (P : string * (string * MemoryEntity) → Prop)
    `{∀ x, Decision (P x)} :
  (∀ r, en_active r = true → sel r = true ↔ P (entity_meaning r)) →
  is_step (λ now, update_entities sel (entity_obsolete by_ now)) (λ _, on_entities (filter (λ x, ¬ P x))).
Proof.
  intros Hsel now t Ht.
  assert (ids_unique (update_entities sel (entity_obsolete by_ now) t)) as Ht' by by apply ids_unique_update.
  split; [exact Ht'|]. apply knowledge_entities; [done..|].
  intros id x. rewrite map_lookup_filter_Some, lookup_entities by done. split.
  - intros [(r & Hr & Ha & <- & ->) HP]. exists r. split_and!; [|done..].
    apply (elem_of_obsolete sel by_ now t r). split_and!; [done|done|]. apply not_true_is_false.
    by rewrite (Hsel r Ha).
  - intros (r & Hr & Ha & <- & ->).
    apply (conj Hr), (elem_of_obsolete sel by_ now t r) in Ha as (Hr0 & Ha & Hs).
    split; [by exists r|]. intros HP. apply (Hsel r Ha) in HP. congruence.
Qed.

Lemma upsert_is_step (e : MemoryEntity) refsStr metaStr :
  is_f32 (entity_confidence e) = true →
  ParseSourceRefsColumn (bind_text refsStr) = entity_sourceRefs e →
  ParseJsonSafely (bind_text metaStr) = JsonObject (entity_metadata e) →
  is_step (λ now, upsert_entity (bind_text (entity_id e)) (bind_text (entity_agentId e))
    (bind_text (entity_entityType e)) (bind_text (entity_name e)) (bind_text (entity_summary e))
    (bind_double (f64_of_f32 (entity_confidence e))) (bind_text refsStr) (bind_text metaStr)
    (entity_isActive e) (if is_empty (entity_supersededByEntityId e) then None
       else Some (bind_text (entity_supersededByEntityId e))) now) (believe e).
Proof.
  intros Hc Hrefs Hmeta now t Ht.
  destruct (elem_of_upsert_entity (bind_text (entity_id e)) (bind_text (entity_agentId e))
    (bind_text (entity_entityType e)) (bind_text (entity_name e)) (bind_text (entity_summary e))
    (bind_double (f64_of_f32 (entity_confidence e))) (bind_text refsStr) (bind_text metaStr)
    (entity_isActive e) (if is_empty (entity_supersededByEntityId e) then None
       else Some (bind_text (entity_supersededByEntityId e))) now t) as [[rowid Hin] Hinv].
  pose proof (λ r, upsert_entity_keeps (bind_text (entity_id e)) (bind_text (entity_agentId e))
    (bind_text (entity_entityType e)) (bind_text (entity_name e)) (bind_text (entity_summary e))
    (bind_double (f64_of_f32 (entity_confidence e))) (bind_text refsStr) (bind_text metaStr)
    (entity_isActive e) (if is_empty (entity_supersededByEntityId e) then None
       else Some (bind_text (entity_supersededByEntityId e))) now t r) as Hkeep.
  set (t' := upsert_entity _ _ _ _ _ _ _ _ _ _ _ t) in *.
  assert (ids_unique t') as Ht'.
  { unfold t', upsert_entity. destruct (existsb _ _) eqn:E.
    - apply ids_unique_update; [|done]. intros r Hr. by apply bool_decide_eq_true in Hr.
    - unfold ids_unique. cbn. rewrite fmap_app. apply NoDup_snoc; [done|]. by apply existsb_false_not_elem. }
  split; [done|]. unfold believe. apply knowledge_entities; [done|done| |..].
  1,2: unfold t', upsert_entity; by destruct (existsb _ _).
  intros id x. unfold bind_text in *. destruct (decide (id = c_str (entity_id e))) as [->|Hne].
  - trans (entity_isActive e = true ∧ x = (now, kept_entity e)).
    + destruct (entity_isActive e); [rewrite lookup_insert_eq|rewrite lookup_delete_eq]; naive_solver.
    + split.
      * intros [Ha ->]. eexists. split; [exact Hin|]. split_and!; [done|done|]. cbn. unfold kept_entity, ReadEntityRow. cbn.
        by rewrite confidence_kept, Hrefs, Hmeta.
      * intros (r & Hr & Ha & Hid & ->). destruct (Hinv r Hr) as [[k ->]|[_ Hid']]; [|done]. split; [done|]. cbn.
        unfold kept_entity, ReadEntityRow. cbn. by rewrite confidence_kept, Hrefs, Hmeta.
  - trans (kn_entities (knowledge_of t) !! id = Some x).
    { destruct (entity_isActive e); [by rewrite lookup_insert_ne|by rewrite lookup_delete_ne]. }
    rewrite lookup_entities by done. split; intros (r & Hr & Ha & <- & ->); exists r.
    + split_and!; [by apply Hkeep|done..].
    + destruct (Hinv r Hr) as [[k ->]|[Hr' _]]; [by destruct Hne|done].
Qed.

Lemma filter_update_where {R} (active sel : R → bool) (upd : R → R) (rows : list R) :
  (∀ r, active (upd r) = false) →
  filter (λ r, active r = true) (update_where sel upd rows)
  = filter (λ r, sel r = false) (filter (λ r, active r = true) rows).
Proof.
  intros Hupd. unfold update_where. induction rows as [|r rows IH]; [done|].
  rewrite fmap_cons, !filter_cons, IH. destruct (sel r) eqn:Es.
  - rewrite decide_False by (by rewrite Hupd). case_decide; [|done]. rewrite filter_cons, decide_False; [done|].
    by rewrite Es.
  - case_decide; [|done]. by rewrite filter_cons, decide_True.
Qed.

Lemma forget_edge_is_step (r : MemoryRelation) :
  is_step (λ now, update_relations
    (λ x, bool_decide (re_from_entity x = bind_text (relation_fromEntityId r)) &&
          bool_decide (re_relation x = bind_text (relation_relationType r)) &&
          bool_decide (re_to_entity x = bind_text (relation_toEntityId r)) &&
          re_active x && bool_decide (re_agent_id x = bind_text (relation_agentId r)))
    (relation_obsolete now)) (forget_edge r).
Proof.
  intros now t Ht. split; [done|]. unfold knowledge_of, forget_edge, on_relations, update_relations. cbn.
  rewrite fmap_update_where by done. f_equal; [|lia].
  rewrite (filter_update_where re_active) by done. rewrite filter_fmap. f_equal.
  apply filter_ext_elem. intros x [Ha _]%list_elem_of_filter. unfold same_edge, bind_text. cbn. rewrite Ha.
  repeat case_bool_decide; naive_solver.
Qed.

Lemma next_id_app ids : next_id (ids ++ [next_id ids]) = (next_id ids + 1)%Z.
Proof.
  assert (∀ l x, (0 ≤ x)%Z → foldr Z.max 0%Z (l ++ [x]) = Z.max (foldr Z.max 0%Z l) x) as Hsnoc.
  { intros l x Hx. induction l as [|i l IH]; cbn; [lia|]. rewrite IH. lia. }
  unfold next_id at 1. rewrite Hsnoc by (pose proof (next_id_pos ids); lia). unfold next_id. lia.
Qed.

Lemma relate_is_step (r : MemoryRelation) refsStr metaStr :
  is_f32 (relation_confidence r) = true →
  ParseSourceRefsColumn (bind_text refsStr) = relation_sourceRefs r →
  ParseJsonSafely (bind_text metaStr) = relation_metadata_kept r →
  is_step (λ now, insert_relation (bind_text (relation_agentId r)) (bind_text (relation_fromEntityId r))
    (bind_text (relation_relationType r)) (bind_text (relation_toEntityId r))
    (bind_double (f64_of_f32 (relation_confidence r))) (bind_text refsStr) (bind_text metaStr) now) (relate r).
Proof.
  intros Hc Hrefs Hmeta now t Ht. split; [done|].
  unfold knowledge_of, relate, on_relations, insert_relation. cbn.
  rewrite fmap_app, next_id_app. f_equal; [|lia]. rewrite filter_app, fmap_app. f_equal. cbn.
  unfold relation_meaning, ReadRelationRow, kept_relation, column_int.
  rewrite decide_True by done. cbn. by rewrite Z.sub_add, Hrefs, Hmeta, confidence_kept.
Qed.

Lemma note_is_step agent session level topic summary confidence refs refsStr :
  is_f32 confidence = true → ParseSourceRefsColumn (bind_text refsStr) = refs →
  is_step (λ now, insert_summary (bind_text agent) (bind_text session) (bind_text level) (bind_text topic)
    (bind_text summary) (bind_double (f64_of_f32 confidence)) (bind_text refsStr) now)
    (note agent session level topic summary confidence refs).
Proof.
  intros Hc Hrefs now t Ht. split; [done|]. unfold knowledge_of, note, insert_summary. cbn.
  rewrite fmap_app. f_equal. f_equal. cbn. unfold summary_meaning, ReadSummaryRow, kept_summary. cbn.
  by rewrite confidence_kept, Hrefs.
Qed.

Lemma forget_is_step id by_ :
  is_step (λ now, update_entities (λ r, bool_decide (en_id r = bind_text id)) (entity_obsolete (bind_text by_) now))
    (forget id).
Proof.
  intros now t Ht.
  destruct (obsolete_is_step (bind_text by_) (λ r, bool_decide (en_id r = bind_text id)) (λ x, x.1 = c_str id)
    (λ r _, bool_decide_eq_true _) now t Ht) as [Ht' Hk].
  split; [done|]. rewrite Hk. unfold forget, on_entities. f_equal. cbn.
  apply map_eq. intros i. apply option_eq. intros x. rewrite map_lookup_filter_Some, lookup_delete_Some. cbn. naive_solver.
Qed.

Lemma forget_duplicates_is_step (e : MemoryEntity) :
  is_step (λ now, update_entities
      (λ r, bool_decide (en_agent_id r = bind_text (entity_agentId e)) &&
            bool_decide (en_type r = bind_text (entity_entityType e)) &&
            bool_decide (en_name r = bind_text (entity_name e)) &&
            negb (bool_decide (en_id r = bind_text (entity_id e))) && en_active r)
      (entity_obsolete (bind_text (entity_id e)) now)) (forget_duplicates e).
Proof.
  intros now t Ht.
  destruct (obsolete_is_step (bind_text (entity_id e))
    (λ r, bool_decide (en_agent_id r = bind_text (entity_agentId e)) &&
          bool_decide (en_type r = bind_text (entity_entityType e)) &&
          bool_decide (en_name r = bind_text (entity_name e)) &&
          negb (bool_decide (en_id r = bind_text (entity_id e))) && en_active r)
    (λ x, takes_place_of e x.2.2)) with (now := now) (t := t) as [Ht' Hk]; [|done|].
  - intros r Ha. rewrite Ha. unfold takes_place_of, bind_text. cbn. repeat case_bool_decide; naive_solver.
  - split; [done|]. rewrite Hk. unfold forget_duplicates, on_entities. f_equal.
    apply map_filter_ext. by intros i [now' x].
Qed.
End Meaning.

(** ** Calls are sequences of statements *)

Section Calls.
Context `{JsonText} `{SqlEnv}.

(** One write after the other until one fails. *)
Definition all_writes (fs : list (string → Tables → Tables)) : M (Conn Tables) bool :=
  foldr (λ f m, let* ok := run_write f in if negb ok then ret false else m) (ret true) fs.

Definition UpdateUnlocked (u : Update) : M (Conn Tables) bool :=
  match u with
  | PutSummary agentId sessionId level topic summary confidence sourceRefs =>
      SaveSummaryUnlocked agentId sessionId level topic summary confidence sourceRefs
  | PutEntity e => SaveEntityUnlocked e
  | PutRelation r => SaveRelationUnlocked r
  | Retire entityId supersededBy => MarkEntityObsoleteUnlocked entityId supersededBy
  end.

Lemma all_writes_one f c : all_writes [f] c = run_write f c.
Proof. unfold all_writes, bind. cbn. by destruct (run_write f c) as [[[]|] ?]. Qed.

(** The statements of [UpdateUnlocked u], given that its texts exist. *)
Definition made_of (u : Update) (fs : list (string → Tables → Tables)) : Prop :=
  Forall2 is_step fs (steps u) ∧ ∀ c, UpdateUnlocked u c = all_writes fs c.

Lemma read_refs text refs :
  refs_storable refs → json_dump (strings_to_json refs) = Ret text →
  ParseSourceRefsColumn (bind_text text) = refs.
Proof. intros Hr Hd. destruct (Hr _ Hd). by apply ParseSourceRefsColumn_readback. Qed.

Lemma read_metadata text j :
  metadata_storable j → is_object j = true → json_dump j = Ret text → ParseJsonSafely (bind_text text) = j.
Proof. intros Hm Ho Hd. apply ParseJsonSafely_readback; [by apply Hm|done]. Qed.

Lemma summary_made agent session level topic summary confidence refs text :
  is_f32 confidence = true → refs_storable refs → json_dump (strings_to_json refs) = Ret text →
  ∃ fs, made_of (PutSummary agent session level topic summary confidence refs) fs.
Proof.
  intros Hc Hr Hd. eexists [_]. split.
  - constructor; [|constructor]. apply note_is_step; [done|]. by apply read_refs, Hd.
  - intros c. rewrite all_writes_one. cbn. unfold SaveSummaryUnlocked, SerializeSourceRefs, bind, lift_outcome.
    by rewrite Hd.
Qed.

Lemma entity_made e refs text :
  is_f32 (entity_confidence e) = true → refs_storable (entity_sourceRefs e) →
  metadata_storable (JsonObject (entity_metadata e)) →
  json_dump (strings_to_json (entity_sourceRefs e)) = Ret refs →
  json_dump (JsonObject (entity_metadata e)) = Ret text →
  ∃ fs, made_of (PutEntity e) fs.
Proof.
  intros Hc Hr Hm Hd1 Hd2.
  eexists ((if identified e then [_] else []) ++ [_] ++
           (if is_empty (entity_supersededEntityId e) then [] else [_])). split.
  - cbn [steps]. apply Forall2_app; [|constructor].
    + destruct (identified e); [constructor; [apply forget_duplicates_is_step|]|]; constructor.
    + apply (upsert_is_step e refs text); [done|by apply read_refs|].
      apply read_metadata; [done|apply is_object_JsonObject|done].
    + destruct (is_empty (entity_supersededEntityId e)); [constructor|].
      constructor; [apply (forget_is_step _ (entity_id e))|constructor].
  - intros c. cbn [UpdateUnlocked]. unfold SaveEntityUnlocked, SerializeSourceRefs, lift_outcome.
    unfold bind at 1. rewrite Hd1. unfold bind at 1. rewrite Hd2.
    unfold MarkDuplicateEntitiesObsoleteUnlocked, identified, MarkEntityObsoleteUnlocked.
    destruct (is_empty (entity_id e) || _ || _ || _); destruct (is_empty (entity_supersededEntityId e));
      cbn -[run_write]; unfold bind, ret; cbn -[run_write];
      repeat match goal with |- context [run_write ?f ?c] => destruct (run_write f c) as [[[]|] ?]; cbn -[run_write] end;
      done.
Qed.

Lemma relation_made r refs text :
  is_f32 (relation_confidence r) = true → refs_storable (relation_sourceRefs r) →
  metadata_storable (relation_metadata_kept r) →
  json_dump (strings_to_json (relation_sourceRefs r)) = Ret refs →
  json_dump (relation_metadata_kept r) = Ret text →
  ∃ fs, made_of (PutRelation r) fs.
Proof.
  intros Hc Hr Hm Hd1 Hd2.
  eexists ([_; _] ++ (if bool_decide (relation_relationType r = "supersedes") then [_] else [])). split.
  - cbn [steps]. apply Forall2_app; [constructor; [|constructor; [|constructor]]|].
    + apply forget_edge_is_step.
    + apply (relate_is_step r refs text); [done|by apply read_refs|].
      apply read_metadata; [done|apply is_object_kept|done].
    + case_bool_decide; [|constructor].
      constructor; [apply (forget_is_step _ (relation_fromEntityId r))|constructor].
  - intros c. cbn [UpdateUnlocked]. unfold SaveRelationUnlocked, SerializeSourceRefs, lift_outcome.
    unfold bind at 1. rewrite Hd1. unfold bind at 1. unfold relation_metadata_kept in Hd2. rewrite Hd2.
    unfold MarkEntityObsoleteUnlocked.
    destruct (bool_decide (relation_relationType r = "supersedes"));
      cbn -[run_write]; unfold bind, ret; cbn -[run_write];
      repeat match goal with |- context [run_write ?f ?c] => destruct (run_write f c) as [[[]|] ?]; cbn -[run_write] end;
      done.
Qed.

(** An update throws before its first statement, for a text that does not exist, or is made of the
    statements of its steps. *)
Lemma update_made u :
  update_storable u →
  (∃ what, (∀ c, UpdateUnlocked u c = (Throw what, c)) ∧ ¬ update_writable u) ∨ ∃ fs, made_of u fs.
Proof.
  destruct u as [ag se le to su co refs|e|r|id by_]; cbn [update_storable update_writable]; intros Hst.
  - destruct (json_dump (strings_to_json refs)) as [text|what] eqn:Ed.
    + right. destruct Hst. by eapply summary_made.
    + left. exists what. split; [|by intros [? ?]; congruence]. intros c. cbn.
      unfold SaveSummaryUnlocked, SerializeSourceRefs, bind, lift_outcome. by rewrite Ed.
  - destruct Hst as (Hc & Hr & Hm).
    destruct (json_dump (strings_to_json (entity_sourceRefs e))) as [refs|what] eqn:Ed1.
    + destruct (json_dump (JsonObject (entity_metadata e))) as [text|what] eqn:Ed2.
      * right. by eapply entity_made.
      * left. exists what. split; [|by intros [_ [? ?]]; congruence]. intros c. cbn.
        unfold SaveEntityUnlocked, SerializeSourceRefs, bind, lift_outcome. by rewrite Ed1, Ed2.
    + left. exists what. split; [|by intros [[? ?] _]; congruence]. intros c. cbn.
      unfold SaveEntityUnlocked, SerializeSourceRefs, bind, lift_outcome. by rewrite Ed1.
  - destruct Hst as (Hc & Hr & Hm).
    destruct (json_dump (strings_to_json (relation_sourceRefs r))) as [refs|what] eqn:Ed1.
    + destruct (json_dump (relation_metadata_kept r)) as [text|what] eqn:Ed2.
      * right. by eapply relation_made.
      * left. exists what. split; [|by intros [_ [? ?]]; congruence]. intros c. cbn.
        unfold SaveRelationUnlocked, SerializeSourceRefs, bind, lift_outcome. rewrite Ed1.
        unfold relation_metadata_kept in Ed2. by rewrite Ed2.
    + left. exists what. split; [|by intros [[? ?] _]; congruence]. intros c. cbn.
      unfold SaveRelationUnlocked, SerializeSourceRefs, bind, lift_outcome. by rewrite Ed1.
  - right. eexists [_]. split; [constructor; [apply (forget_is_step id by_)|constructor]|].
    intros c. by rewrite all_writes_one.
Qed.
End Calls.

(** ** Running the statements *)

Section Running.
Context `{JsonText} `{SqlEnv}.

(** Outside a transaction every statement is permanent at once. *)
Lemma all_writes_cases fs c :
  conn_txn c = None →
  ∃ ok c' n times, all_writes fs c = (Ret ok, c') ∧ conn_txn c' = None ∧ length times = n ∧
    conn_main c' = run_steps (take n fs) times (conn_main c) ∧
    if ok : bool then n = length fs else (n < length fs)%nat ∧ faulty.
Proof.
  revert c. induction fs as [|f fs IH]; intros c Hc.
  { exists true, c, 0%nat, []. done. }
  cbn [all_writes foldr]. unfold bind at 1, run_write at 1, bind at 1.
  destruct (prepare_cases c Hc) as ([] & c1 & -> & [Ht Hm] & Hf); cbn -[step_write all_writes].
  2: { exists false, c1, 0%nat, []. split_and!; try done; [cbn; lia|by apply Hf]. }
  destruct (step_write_cases f c1 Ht) as (c2 & Ht2 & [(now & -> & Hw)|(-> & Hw & Hf')]); cbn -[all_writes].
  2: { exists false, c2, 0%nat, []. rewrite Hw, Hm. split_and!; try done. cbn. lia. }
  destruct (IH c2 Ht2) as (ok & c' & n & times & Hrun & Ht' & Hl & Hmain & Hok).
  exists ok, c', (S n), (now :: times). cbn [take run_steps length].
  rewrite Hmain, Hw, Hm, Hl. split_and!; try done.
  destruct ok; [by rewrite Hok|]. destruct Hok. split; [lia|done].
Qed.

(** Inside one, successful statements have changed its content. *)
Lemma tx_does_all_writes fs :
  tx_does id (λ _ t t', ∃ times, length times = length fs ∧ t' = run_steps fs times t) (all_writes fs).
Proof.
  induction fs as [|f fs IH].
  { apply tx_does_ret. intros _ t. by exists []. }
  eapply (tx_does_bind id id _ (λ _ _ t t', ∃ times, length times = length fs ∧ t' = run_steps fs times t));
    [apply tx_does_run_write|..].
  - intros [|] Ha; [|done]. exact IH.
  - intros [|] c Ha; [done|]. split; [done|]. by intros b [= <-].
  - intros a b t1 t2 t3 [now ->] (times & Hl & ->). exists (now :: times). cbn. by rewrite Hl.
Qed.

(** Their meaning. *)
Lemma made_of_meaning u fs n times t :
  made_of u fs → ids_unique t →
  knowledge_of (run_steps (take n fs) times t) = run_steps (take n (steps u)) times (knowledge_of t).
Proof.
  intros [Hs _] Ht. apply (run_steps_sim ids_unique); [|done]. by apply Forall2_take_both.
Qed.

Lemma run_steps_unique u fs times t : made_of u fs → ids_unique t → ids_unique (run_steps fs times t).
Proof.
  intros [Hs _]. revert times t. induction Hs as [|f g fs gs Hfg _ IH]; intros [|now times] t Ht; try done.
  cbn. apply IH. by apply Hfg.
Qed.

Lemma tx_throws {A} (good : A → bool) (R : A → Tables → Tables → Prop) (m : M (Conn Tables) A) what :
  (∀ c, m c = (Throw what, c)) → tx_does good R m.
Proof. intros Hm c Hc. rewrite Hm. split; [done|]. by intros a [= <-]. Qed.

(** A successful update in a transaction has made its steps. *)
Definition learned (gs : list KnowledgeStep) (t t' : Tables) : Prop :=
  ids_unique t → ids_unique t' ∧
    ∃ times, length times = length gs ∧ knowledge_of t' = run_steps gs times (knowledge_of t).

Lemma learned_nil t : learned [] t t.
Proof. intros Ht. split; [done|]. by exists []. Qed.

Lemma learned_app gs1 gs2 t1 t2 t3 : learned gs1 t1 t2 → learned gs2 t2 t3 → learned (gs1 ++ gs2) t1 t3.
Proof.
  intros H1 H2 Ht. destruct (H1 Ht) as [Ht2 (ts1 & Hl1 & Hk1)]. destruct (H2 Ht2) as [Ht3 (ts2 & Hl2 & Hk2)].
  split; [done|]. exists (ts1 ++ ts2). by rewrite run_steps_app, <- Hk1, !length_app, Hl1, Hl2.
Qed.

Lemma update_learned context u :
  update_storable u → tx_does op_succeeded (λ _, learned (steps u)) (op_result context (UpdateUnlocked u)).
Proof.
  intros Hst. apply does_op_result. destruct (update_made u Hst) as [(what & Hw & _)|(fs & Hfs)].
  { by apply (tx_throws _ _ _ what). }
  intros c Hc. rewrite (proj2 Hfs c). destruct (tx_does_all_writes fs c Hc) as [Hm Hd]. split; [done|].
  intros ok Ho Hid. destruct (Hd ok Ho Hid) as [Hs (times & Hl & Hv)]. split; [done|]. intros Ht.
  rewrite Hv. split; [by eapply run_steps_unique|]. exists times.
  pose proof (Forall2_length _ _ _ (proj1 Hfs)) as Hlen. split; [congruence|].
  pose proof (made_of_meaning u fs (length fs) times _ Hfs Ht) as Hk.
  rewrite firstn_all, Hlen, firstn_all in Hk. exact Hk.
Qed.

Lemma UpdateUnlocked_ok u : preserves tables_ok (UpdateUnlocked u).
Proof. destruct u; cbn; auto with am. Qed.
End Running.

(** ** The calls of a reader and a writer *)

Inductive KnowledgeCall :=
  | Change (u : Update)
  | ChangeAll (us : list Update)
  | Recall (agentId sessionId : string) (limit : Z).

Inductive KnowledgeAnswer :=
  | Changed (result : MemoryOperationResult)
  | Recalled (result : LongTermMemorySnapshotResult).

Definition knowledge_failed (a : KnowledgeAnswer) : Prop :=
  match a with
  | Changed r => op_succeeded r = false ∧ HasError (op_error r) = true
  | Recalled r => snapres_succeeded r = false ∧ HasError (snapres_error r) = true
  end.

Section KnowledgeSteps.
Context `{JsonText} (may_fail : Prop).

(** A change alone makes its steps or, where calls may fail, some of them; changes in a transaction
    make all of them or none. *)
Inductive knowledge_step : Knowledge → KnowledgeCall → Outcome KnowledgeAnswer → Knowledge → Prop :=
  | step_changed k u times :
      length times = length (steps u) →
      knowledge_step k (Change u) (Ret (Changed MemorySuccess)) (run_steps (steps u) times k)
  | step_cut_short k u n times a :
      may_fail → (n < length (steps u))%nat → length times = n → knowledge_failed a →
      knowledge_step k (Change u) (Ret a) (run_steps (take n (steps u)) times k)
  | step_unwritable k u what : ¬ update_writable u → knowledge_step k (Change u) (Throw what) k
  | step_all k us times :
      length times = length (us ≫= steps) →
      knowledge_step k (ChangeAll us) (Ret (Changed MemorySuccess)) (run_steps (us ≫= steps) times k)
  | step_none k us a : may_fail → knowledge_failed a → knowledge_step k (ChangeAll us) (Ret a) k
  | step_recalled k agentId sessionId limit s :
      recalls k agentId sessionId limit s →
      knowledge_step k (Recall agentId sessionId limit) (Ret (Recalled (mkSnapshotResult true s no_error))) k
  | step_not_recalled k agentId sessionId limit a :
      may_fail → knowledge_failed a → knowledge_step k (Recall agentId sessionId limit) (Ret a) k.
End KnowledgeSteps.

Section KnowledgeCalls.
Context `{JsonText} `{SqlEnv} `{SqlPlan}.

Definition UpdateStore (u : Update) : M MemorySqliteStore MemoryOperationResult :=
  match u with
  | PutSummary agentId sessionId level topic summary confidence sourceRefs =>
      SaveSummary agentId sessionId level topic summary confidence sourceRefs
  | PutEntity e => SaveEntity e
  | PutRelation r => SaveRelation r
  | Retire entityId supersededBy => MarkEntityObsolete entityId supersededBy
  end.

Definition UpdateTransaction (u : Update) : M (Conn Tables) MemoryOperationResult :=
  match u with
  | PutSummary agentId sessionId level topic summary confidence sourceRefs =>
      tx_SaveSummary agentId sessionId level topic summary confidence sourceRefs
  | PutEntity e => tx_SaveEntity e
  | PutRelation r => tx_SaveRelation r
  | Retire entityId supersededBy => tx_MarkEntityObsolete entityId supersededBy
  end.

(** Work that makes its calls in turn until one fails. *)
Fixpoint update_all (us : list Update) : M (Conn Tables) (MemoryOperationResult * unit) :=
  match us with
  | [] => ret (MemorySuccess, tt)
  | u :: us' =>
      let* r := UpdateTransaction u in
      if op_succeeded r then update_all us' else ret (r, tt)
  end.

Definition knowledge_call (call : KnowledgeCall) : M MemorySqliteStore KnowledgeAnswer :=
  match call with
  | Change u => let* r := UpdateStore u in ret (Changed r)
  | ChangeAll us => let* r := RunInTransaction tt (update_all us) in ret (Changed r.1)
  | Recall agentId sessionId limit =>
      let* r := LoadLongTermMemory agentId limit sessionId in ret (Recalled r)
  end.

Definition call_storable (call : KnowledgeCall) : Prop :=
  match call with
  | Change u => update_storable u
  | ChangeAll us => Forall (λ u, update_storable u ∧ update_writable u) us
  | Recall _ _ _ => True
  end.

(** The connection is outside a transaction and its tables mean [k]. *)
Definition knows (c : Conn Tables) (k : Knowledge) : Prop :=
  conn_txn c = None ∧ tables_ok (conn_main c) ∧ knowledge_of (conn_main c) = k.

(** ** Lemmas: changes *)

Lemma tables_unique t : tables_ok t → ids_unique t.
Proof. by intros []. Qed.

Lemma UpdateStore_unlocked u :
  ∃ context, UpdateStore u = on_db store_unavailable (op_result context (UpdateUnlocked u)).
Proof. destruct u; by eexists. Qed.

Lemma UpdateTransaction_unlocked u :
  ∃ context, UpdateTransaction u = op_result context (UpdateUnlocked u).
Proof. destruct u; by eexists. Qed.

Lemma change_refines u s c :
  db_ s = Some c → conn_txn c = None → tables_ok (conn_main c) → update_storable u →
  ∃ o c', knowledge_call (Change u) s = (o, mkSqliteStore (dbPath_ s) (Some c')) ∧
    conn_txn c' = None ∧ tables_ok (conn_main c') ∧
    knowledge_step faulty (knowledge_of (conn_main c)) (Change u) o (knowledge_of (conn_main c')).
Proof.
  intros Hs Hc Hok Hst. cbn [knowledge_call]. destruct (UpdateStore_unlocked u) as [context ->].
  assert (conn_ok tables_ok c) as Hcok by (split; [done|congruence]).
  pose proof (preserves_op_result tables_ok context _ (UpdateUnlocked_ok u) c Hcok) as [Hok' _].
  destruct (update_made u Hst) as [(what & Hw & Hnot)|(fs & Hfs)].
  - assert (op_result context (UpdateUnlocked u) c = (Throw what, c)) as Hop
      by (unfold op_result, bind; by rewrite Hw).
    unfold bind. rewrite (on_db_run _ _ _ _ _ _ Hs Hop). exists (Throw what), c. split_and!; try done.
    by constructor.
  - destruct (all_writes_cases fs c Hc) as (ok & c1 & n & times & Hrun & Hc1 & Hl & Hm & Hn).
    pose proof (made_of_meaning u fs n times _ Hfs (tables_unique _ Hok)) as Hk.
    pose proof (Forall2_length _ _ _ (proj1 Hfs)) as Hlen. unfold op_result in *.
    rewrite <- (proj2 Hfs) in Hrun. rewrite (bind_run _ _ _ _ _ Hrun) in Hok'.
    destruct ok.
    + unfold bind. erewrite on_db_run; [|exact Hs|unfold bind; rewrite Hrun; reflexivity].
      exists (Ret (Changed MemorySuccess)), c1. split_and!; try done.
      rewrite Hm, Hk, Hn, Hlen, firstn_all. constructor. congruence.
    + destruct (SqliteFailure_run context c1) as (r & HF & Hr & He). rewrite HF in Hok'.
      unfold bind. erewrite on_db_run; [|exact Hs|unfold bind; rewrite Hrun; exact HF].
      exists (Ret (Changed r)), c1. split_and!; try done.
      rewrite Hm, Hk. destruct Hn as [Hn Hfl]. apply step_cut_short; [done|lia|done|done].
Qed.

(** Work in a transaction that returns; it fails only by a fault and stays inside when it succeeds. *)
Definition blames {A} (good : A → bool) (m : M (Conn Tables) A) : Prop :=
  ∀ c, is_Some (conn_txn c) → ∃ a c', m c = (Ret a, c') ∧
    if good a then is_Some (conn_txn c') else faulty.

Lemma blames_bind {A B} (g : A → bool) (h : B → bool) (m : M (Conn Tables) A) k :
  blames g m → (∀ a, g a = true → blames h (k a)) →
  (∀ a c, g a = false → ∃ b c', k a c = (Ret b, c') ∧ h b = false) → blames h (bind m k).
Proof.
  intros Hm Hk Hstop c Hc. destruct (Hm c Hc) as (a & c1 & E & Ha). rewrite (bind_run _ _ _ _ _ E).
  destruct (g a) eqn:Hg; [by apply Hk|].
  destruct (Hstop a c1 Hg) as (b & c2 & E2 & Hb). exists b, c2. by rewrite Hb.
Qed.

Lemma blames_run_write f : blames id (run_write f).
Proof.
  intros c Hc. destruct Hc as [t Ht]. unfold run_write, bind, prepare, step_write.
  destruct (sql_fault (conn_tick c) KPrepare) as [fl|] eqn:E1; cbn.
  { do 2 eexists. split; [done|]. by do 3 eexists. }
  destruct (sql_fault (S (conn_tick c)) KStep) as [fl|] eqn:E2; cbn.
  { do 2 eexists. split; [done|]. by do 3 eexists. }
  do 2 eexists. split; [done|]. unfold conn_write. cbn. rewrite Ht. by eexists.
Qed.

Lemma blames_update context u :
  update_storable u → update_writable u → blames op_succeeded (op_result context (UpdateUnlocked u)).
Proof.
  intros Hst Hwr. destruct (update_made u Hst) as [(what & _ & Hnot)|(fs & Hfs)]; [done|].
  apply (blames_bind id).
  - intros c Hc. rewrite (proj2 Hfs c). revert c Hc. clear Hfs. change (blames id (all_writes fs)).
    induction fs as [|f fs IH]; [intros c Hc; by exists true, c|]. apply (blames_bind id); [apply blames_run_write|..].
    + intros [|] Ha; [exact IH|done].
    + intros [|] c Ha; [done|]. by do 2 eexists.
  - intros [|] Ha c Hc; [by do 2 eexists|done].
  - intros [|] c Ha; [done|]. destruct (SqliteFailure_run context c) as (r & E & Hr & _).
    cbn [bind]. exists r, c. by rewrite E.
Qed.

Lemma update_all_blames us :
  Forall (λ u, update_storable u ∧ update_writable u) us → blames work_succeeded (update_all us).
Proof.
  induction 1 as [|u us [Hst Hwr] _ IH]; [intros c Hc; by do 2 eexists|]. cbn [update_all].
  destruct (UpdateTransaction_unlocked u) as [context ->].
  apply (blames_bind op_succeeded); [by apply blames_update|..].
  - intros r Hr. by rewrite Hr.
  - intros r c Hr. rewrite Hr. by do 2 eexists.
Qed.

Lemma update_all_learned us :
  Forall (λ u, update_storable u ∧ update_writable u) us →
  tx_does work_succeeded (λ _, learned (us ≫= steps)) (update_all us).
Proof.
  induction 1 as [|u us [Hst _] _ IH]; [apply tx_does_ret; intros _ t; apply learned_nil|]. cbn [update_all].
  destruct (UpdateTransaction_unlocked u) as [context ->].
  eapply (tx_does_bind op_succeeded work_succeeded (λ _, learned (steps u)) (λ _ _, learned (us ≫= steps)));
    [by apply update_learned|..].
  - intros r Hr. by rewrite Hr.
  - intros r c Hr. rewrite Hr. split; [done|]. by intros b [= <-].
  - intros a b t1 t2 t3. apply learned_app.
Qed.

Lemma update_all_ok us : preserves tables_ok (update_all us).
Proof.
  induction us as [|u us IH]; cbn; [auto with am|]. apply preserves_bind.
  - destruct (UpdateTransaction_unlocked u) as [context ->]. apply preserves_op_result, UpdateUnlocked_ok.
  - intros r. destruct (op_succeeded r); auto with am.
Qed.

(** A transaction of such work returns, and fails only by a fault. *)
Lemma run_in_transaction_blames {W} (captured : W) work c :
  conn_txn c = None → blames work_succeeded work →
  ∃ r c', run_in_transaction captured work c = (Ret r, c') ∧ (op_succeeded r.1 = false → faulty).
Proof.
  intros Hc Hw. unfold run_in_transaction, bind at 1, exec_begin.
  destruct (sql_fault (conn_tick c) KExec) as [f|] eqn:Ef; cbn -[SqliteFailure].
  { unfold bind. destruct (SqliteFailure_run "RunInTransaction::begin" (conn_failed f c)) as (r & -> & _).
    do 2 eexists. split; [done|]. intros _. by do 3 eexists. }
  rewrite Hc. cbn -[SqliteFailure]. unfold bind at 1.
  destruct (Hw (mkConn (conn_main c) (Some (conn_main c)) (S (conn_tick c)) no_error_msg)) as (r & c1 & -> & Hr);
    [by eexists|]. unfold work_succeeded in Hr. destruct (op_succeeded r.1) eqn:Er.
  - destruct Hr as [t Ht]. unfold bind at 1, exec_commit.
    destruct (sql_fault (conn_tick c1) KExec) as [f|] eqn:Ef'; cbn -[SqliteFailure].
    + unfold bind. destruct (SqliteFailure_run "RunInTransaction::commit" (conn_failed f c1)) as (r' & -> & _).
      unfold exec_rollback. destruct (conn_txn (conn_failed f c1)); cbn; do 2 eexists; (split; [reflexivity|]); intros _;
        by do 3 eexists.
    + rewrite Ht. cbn. by do 2 eexists.
  - unfold bind, exec_rollback. destruct (conn_txn c1); do 2 eexists; (split; [done|]); done.
Qed.

Lemma run_in_transaction_success {W} (captured : W) work c r c' :
  run_in_transaction captured work c = (Ret r, c') → op_succeeded r.1 = true → r.1 = MemorySuccess.
Proof.
  unfold run_in_transaction, SqliteFailure, SqliteErrorMessage, get_errmsg, bind, ret, exec_rollback.
  intros Hrun Hr. repeat case_match; simplify_eq/=; congruence.
Qed.

Lemma change_all_refines us s c :
  db_ s = Some c → conn_txn c = None → tables_ok (conn_main c) →
  Forall (λ u, update_storable u ∧ update_writable u) us →
  ∃ o c', knowledge_call (ChangeAll us) s = (o, mkSqliteStore (dbPath_ s) (Some c')) ∧
    conn_txn c' = None ∧ tables_ok (conn_main c') ∧
    knowledge_step faulty (knowledge_of (conn_main c)) (ChangeAll us) o (knowledge_of (conn_main c')).
Proof.
  intros Hs Hc Hok Hus. cbn [knowledge_call]. unfold RunInTransaction.
  destruct (run_in_transaction_blames tt (update_all us) c Hc (update_all_blames us Hus)) as (r & c' & Hrun & Hf).
  assert (conn_ok tables_ok c) as Hcok by (split; [done|congruence]).
  pose proof (run_in_transaction_ok tt _ (update_all_ok us) c Hcok) as [Hok' _]. rewrite Hrun in Hok'.
  destruct (RunInTransaction_outcome tt (update_all us) s c _ Hs Hc (update_all_learned us Hus)) as (c1 & Hc1 & Hres).
  unfold RunInTransaction in Hc1, Hres. rewrite (on_db_run _ _ _ _ _ _ Hs Hrun) in Hc1, Hres.
  cbn in Hc1, Hres. injection Hc1 as <-. unfold bind. rewrite (on_db_run _ _ _ _ _ _ Hs Hrun).
  exists (Ret (Changed r.1)), c'. destruct Hres as [Hc' Hres]. split_and!; [done|done|done|].
  destruct (op_succeeded r.1) eqn:Er.
  - destruct Hres as (r' & _ & _ & Hl). destruct (Hl (tables_unique _ Hok)) as [_ (times & Hlen & ->)].
    assert (r.1 = MemorySuccess) as ->; [|by constructor].
    by apply (run_in_transaction_success tt (update_all us) c r c').
  - destruct Hres as [He ->]. apply step_none; [by apply Hf|done].
Qed.

(** ** Lemmas: recalling *)

(** Rows of growing ids, and what is kept of them in their order. *)
Lemma newest_rows {R A} (f : R → string * A) (id : R → Z) (n : nat) (rows : list R) :
  StronglySorted (λ r1 r2, (id r1 < id r2)%Z) rows →
  (λ r, (f r).2) <$> take n (sort_by (λ r1 r2, text_then_id ((f r1).1, id r1) ((f r2).1, id r2)) rows)
  = newest n (f <$> rows).
Proof.
  intros Hids. unfold newest. rewrite <- fmap_reverse, sort_by_fmap, <- fmap_take, <- list_fmap_compose.
  by rewrite (sort_newest_rows (λ r, (f r).1) id rows Hids).
Qed.

Lemma sorted_ids {R} (id : R → Z) rows (P : R → Prop) `{∀ r, Decision (P r)} :
  ids_ok (id <$> rows) → StronglySorted (λ r1 r2, (id r1 < id r2)%Z) (filter P rows).
Proof. intros [Hs _]. apply StronglySorted_filter_sub, (StronglySorted_fmap_inv id Z.lt), Hs. Qed.

Lemma recalled_summaries agent session n t :
  tables_ok t →
  ReadSummaryRow <$> long_term_summaries agent session n t
  = snd <$> newest (Z.to_nat n) (filter (λ '(_, (a, s, _)), a = c_str agent ∧ (c_str session = "" ∨ s = c_str session))
                                  (kn_summaries (knowledge_of t))).
Proof.
  intros Hok. cbn. rewrite filter_fmap, <- newest_rows with (id := su_id) by (apply sorted_ids, Hok).
  rewrite <- list_fmap_compose. unfold long_term_summaries, newest_summary.
  f_equal. f_equal. f_equal. apply filter_ext_elem. intros r _. unfold session_scope, bind_text. cbn.
  rewrite Is_true_true, andb_true_iff, orb_true_iff, !bool_decide_eq_true. done.
Qed.

Lemma recalled_relations agent n t :
  tables_ok t →
  ReadRelationRow <$> long_term_relations agent n t
  = newest (Z.to_nat n) (filter (λ '(_, x), relation_agentId x = c_str agent) (kn_relations (knowledge_of t))).
Proof.
  intros Hok. cbn. rewrite filter_fmap, list_filter_filter, <- newest_rows with (id := re_id) by (apply sorted_ids, Hok).
  unfold long_term_relations, newest_relation. cbn.
  f_equal. f_equal. f_equal. apply filter_ext_elem. intros r _. unfold bind_text. cbn.
  rewrite Is_true_true, andb_true_iff, bool_decide_eq_true. tauto.
Qed.

Lemma StronglySorted_fmap_of {A B} (f : A → B) (R : B → B → Prop) l :
  StronglySorted (λ x y, R (f x) (f y)) l → StronglySorted R (f <$> l).
Proof. induction 1; [constructor|]. rewrite fmap_cons. constructor; [done|]. by apply Forall_fmap. Qed.

Lemma recalled_entities agent n t :
  tables_ok t →
  some_newest (Z.to_nat n) (filter (λ '(_, x), entity_agentId x = c_str agent) (map_to_list (kn_entities (knowledge_of t))).*2)
    (ReadEntityRow <$> long_term_entities agent n t).
Proof.
  intros Hok. set (f := λ r, (en_updated_at r, ReadEntityRow r)).
  exists (f <$> sort_by newest_entity (scan_entities
    (filter (λ r, en_active r && bool_decide (en_agent_id r = bind_text agent)) (t_entities t)))). split_and!.
  - rewrite sort_by_Permutation, scan_entities_perm. cbn. rewrite map_to_list_to_map.
    + rewrite <- list_fmap_compose. cbn. rewrite (filter_fmap (snd ∘ entity_meaning)), list_filter_filter.
      apply reflexive_eq. f_equal. apply filter_ext_elem. intros r _. unfold bind_text. cbn.
      rewrite Is_true_true, andb_true_iff, bool_decide_eq_true. tauto.
    + by apply active_ids_unique, tables_unique.
  - apply StronglySorted_fmap_of. eapply StronglySorted_weaken; [|apply sort_by_StronglySorted].
    + intros x y Hxy. exact Hxy.
    + intros a b c. unfold newest_entity. intros Hxy Hyz. by eapply str_le_trans.
    + intros a b. apply str_le_total.
  - unfold long_term_entities. rewrite <- fmap_take, <- list_fmap_compose. done.
Qed.

(** Without a fault on the way, a load delivers what its three queries find. *)
Lemma load_cases agent session limit c :
  conn_txn c = None →
  ∃ r c', (∀ s, db_ s = Some c → LoadLongTermMemory agent limit session s = (Ret r, mkSqliteStore (dbPath_ s) (Some c'))) ∧
    untouched c c' ∧
    ((knowledge_failed (Recalled r) ∧ faulty) ∨
     let n := if (0 <? limit)%Z then limit else 100%Z in
     r = mkSnapshotResult true
           (mkSnapshot (ReadSummaryRow <$> long_term_summaries agent session n (conn_main c))
              (ReadEntityRow <$> long_term_entities agent n (conn_main c))
              (ReadRelationRow <$> long_term_relations agent n (conn_main c))) no_error).
Proof.
  intros Hc. set (n := if (0 <? limit)%Z then limit else 100%Z).
  destruct (select_cases "LoadLongTermMemory::summaries_prepare" "LoadLongTermMemory::summaries_step"
    (long_term_summaries agent session n) c Hc) as ([su e1] & c1 & E1 & [T1 M1] & R1); cbn in R1.
  destruct (select_cases "LoadLongTermMemory::entities_prepare" "LoadLongTermMemory::entities_step"
    (long_term_entities agent n) c1 T1) as ([en e2] & c2 & E2 & [T2 M2] & R2); cbn in R2.
  destruct (select_cases "LoadLongTermMemory::relations_prepare" "LoadLongTermMemory::relations_step"
    (long_term_relations agent n) c2 T2) as ([re e3] & c3 & E3 & [T3 M3] & R3); cbn in R3.
  rewrite M2, M1 in R3. rewrite M1 in R2.
  destruct e1 as [e1|]; [|destruct e2 as [e2|]].
  1: exists (mkSnapshotResult false (mkSnapshot (ReadSummaryRow <$> su) [] []) e1), c1.
  2: exists (mkSnapshotResult false (mkSnapshot (ReadSummaryRow <$> su) (ReadEntityRow <$> en) []) e2), c2.
  3: exists (match e3 with
             | Some e => mkSnapshotResult false
                 (mkSnapshot (ReadSummaryRow <$> su) (ReadEntityRow <$> en) (ReadRelationRow <$> re)) e
             | None => mkSnapshotResult true
                 (mkSnapshot (ReadSummaryRow <$> su) (ReadEntityRow <$> en) (ReadRelationRow <$> re)) no_error
             end), c3.
  all: split; [intros s Hs; unfold LoadLongTermMemory, on_db; rewrite Hs; fold n; rewrite (bind_run _ _ _ _ _ E1); cbn [fst snd];
    rewrite ?(bind_run _ _ _ _ _ E2); cbn [fst snd]; rewrite ?(bind_run _ _ _ _ _ E3); reflexivity|].
  all: split; [split; [done|congruence]|].
  - left. destruct R1. split; [by split|done].
  - left. destruct R2. split; [by split|done].
  - destruct e3 as [e3|]; [left; destruct R3; split; [by split|done]|right]. cbn. by subst.
Qed.

Lemma recall_refines agent session limit s c :
  db_ s = Some c → conn_txn c = None → tables_ok (conn_main c) →
  ∃ o c', knowledge_call (Recall agent session limit) s = (o, mkSqliteStore (dbPath_ s) (Some c')) ∧
    untouched c c' ∧
    knowledge_step faulty (knowledge_of (conn_main c)) (Recall agent session limit) o (knowledge_of (conn_main c)).
Proof.
  intros Hs Hc Hok. destruct (load_cases agent session limit c Hc) as (r & c' & Hrun & Hu & Hr).
  cbn [knowledge_call]. rewrite (bind_run _ _ _ _ _ (Hrun s Hs)).
  exists (Ret (Recalled r)), c'. split_and!; [done|done|].
  destruct Hr as [[Hf Hfl]|Hr]; [by apply step_not_recalled|]. cbv zeta in Hr. subst r.
  apply step_recalled. split_and!; cbn [snap_summaries snap_entities snap_relations].
  - by apply recalled_summaries.
  - by apply recalled_entities.
  - by apply recalled_relations.
Qed.

(** Every call is a step of the knowledge. *)
Lemma knowledge_call_refines call s c :
  db_ s = Some c → conn_txn c = None → tables_ok (conn_main c) → call_storable call →
  ∃ o c', knowledge_call call s = (o, mkSqliteStore (dbPath_ s) (Some c')) ∧
    conn_txn c' = None ∧ tables_ok (conn_main c') ∧
    knowledge_step faulty (knowledge_of (conn_main c)) call o (knowledge_of (conn_main c')).
Proof.
  intros Hs Hc Hok Hst. destruct call as [u|us|agent session limit].
  - by apply change_refines.
  - by apply change_all_refines.
  - destruct (recall_refines agent session limit s c Hs Hc Hok) as (o & c' & Hrun & [Ht Hm] & Hstep).
    exists o, c'. rewrite Hm. by split_and!.
Qed.
End KnowledgeCalls.
