(* ===== verification/MemoryRefinement.v ===== *)
(** * The store refines a memory

    The contract of the whole store but the search: a log of events with cursors, a list of payload
    references and a knowledge. Each call works on its part and leaves the others as they are. *)

From Stdlib Require Import ZArith Lia Ascii String.
From stdpp Require Import base list strings gmap sorting.
From S2P Require Import Prelude CppString Floats Json Types Sqlite StoreInterface Store StoreInvariant.
From S2P Require Import StoreTransactions StoreReads StoreSearch Samples StoreTheorems EventLog LongTermTheorems.
From S2P Require Import Refinement Knowledge LongTermRefinement.

Open Scope am_scope.

(** ** The specification *)

Record Memory := mkMemory {
  mem_log : MemoryLog;
  mem_payloads : list MemoryPayloadRef;
  mem_knowledge : Knowledge
}.

Definition empty_memory : Memory := mkMemory empty_log [] no_knowledge.

(** What is kept of a payload reference first saved at [created]. *)
Definition kept_payload (p : MemoryPayloadRef) (created : string) : MemoryPayloadRef :=
  mkPayloadRef (c_str (payload_agentId p)) (c_str (payload_sessionId p)) (c_str (payload_uri p))
    (c_str (payload_contentType p)) (c_str (payload_summary p)) (c_str (payload_toolName p))
    (wrap32 (payload_originalChars p)) json_object created.

Definition same_uri (p x : MemoryPayloadRef) : bool := bool_decide (payload_uri x = c_str (payload_uri p)).

(** A reference saved again changes in its place and keeps its age. *)
Definition keep_payload (p : MemoryPayloadRef) (now : string) (l : list MemoryPayloadRef) : list MemoryPayloadRef :=
  if existsb (same_uri p) l
  then (λ x, if same_uri p x then kept_payload p (payload_createdAt x) else x) <$> l
  else l ++ [kept_payload p now].

Definition payload_visible (agentId sessionId : string) (p : MemoryPayloadRef) : Prop :=
  payload_agentId p = c_str agentId ∧ (c_str sessionId = "" ∨ payload_sessionId p = c_str sessionId).

#[export] Instance payload_visible_dec agentId sessionId p : Decision (payload_visible agentId sessionId p) := _.

Definition recent_payload_refs (agentId sessionId : string) (limit : Z) (l : list MemoryPayloadRef)
    : list MemoryPayloadRef :=
  newest (Z.to_nat (if (0 <? limit)%Z then limit else 20%Z))
    ((λ p, (payload_createdAt p, p)) <$> filter (payload_visible agentId sessionId) l).

Inductive MemoryCall :=
  | OnLog (call : LogCall)
  | KeepPayload (payload : MemoryPayloadRef)
  | RecentPayloads (agentId sessionId : string) (limit : Z)
  | OnKnowledge (call : KnowledgeCall).

Inductive MemoryAnswer :=
  | LogAnswered (a : LogAnswer)
  | Kept (result : MemoryOperationResult)
  | Payloads (result : MemoryPayloadRefsResult)
  | KnowledgeAnswered (a : KnowledgeAnswer).

Definition payload_call_failed (a : MemoryAnswer) : Prop :=
  match a with
  | Kept r => op_succeeded r = false ∧ HasError (op_error r) = true
  | Payloads r => payloads_succeeded r = false ∧ HasError (payloads_error r) = true
  | _ => False
  end.

Section Steps.
Context `{JsonText} (may_fail : Prop).

Inductive memory_step : Memory → MemoryCall → Outcome MemoryAnswer → Memory → Prop :=
  | step_log l l' ps k call o :
      log_step may_fail l call o l' →
      memory_step (mkMemory l ps k) (OnLog call) (omap_outcome LogAnswered o) (mkMemory l' ps k)
  | step_kept l ps k p now :
      memory_step (mkMemory l ps k) (KeepPayload p) (Ret (Kept MemorySuccess)) (mkMemory l (keep_payload p now ps) k)
  | step_not_kept m p a :
      may_fail → payload_call_failed a → memory_step m (KeepPayload p) (Ret a) m
  | step_payloads l ps k agentId sessionId limit :
      memory_step (mkMemory l ps k) (RecentPayloads agentId sessionId limit)
        (Ret (Payloads (mkPayloadRefsResult true (recent_payload_refs agentId sessionId limit ps) no_error)))
        (mkMemory l ps k)
  | step_no_payloads m agentId sessionId limit a :
      may_fail → payload_call_failed a → memory_step m (RecentPayloads agentId sessionId limit) (Ret a) m
  | step_knowledge l ps k k' call o :
      knowledge_step may_fail k call o k' →
      memory_step (mkMemory l ps k) (OnKnowledge call) (omap_outcome KnowledgeAnswered o) (mkMemory l ps k').

Inductive memory_run : Memory → list MemoryCall → list (Outcome MemoryAnswer) → Memory → Prop :=
  | memory_nil m : memory_run m [] [] m
  | memory_cons m m1 m2 call calls o os :
      memory_step m call o m1 → memory_run m1 calls os m2 → memory_run m (call :: calls) (o :: os) m2.
End Steps.

(** ** The store *)

Section Store.
Context `{JsonText} `{SqlEnv} `{SqlPlan}.

Definition memory_call (call : MemoryCall) : M MemorySqliteStore MemoryAnswer :=
  match call with
  | OnLog call => let* a := store_call call in ret (LogAnswered a)
  | KeepPayload p => let* r := SavePayload p in ret (Kept r)
  | RecentPayloads agentId sessionId limit =>
      let* r := LoadRecentPayloads agentId sessionId limit in ret (Payloads r)
  | OnKnowledge call => let* a := knowledge_call call in ret (KnowledgeAnswered a)
  end.

(** Every call in turn, whatever the ones before it returned or threw. *)
Fixpoint memory_calls (calls : list MemoryCall) (s : MemorySqliteStore)
    : list (Outcome MemoryAnswer) * MemorySqliteStore :=
  match calls with
  | [] => ([], s)
  | call :: calls' =>
      let '(o, s) := memory_call call s in
      let '(os, s) := memory_calls calls' s in
      (o :: os, s)
  end.

Definition memory_storable (call : MemoryCall) : Prop :=
  match call with
  | OnLog call => storable call
  | OnKnowledge call => call_storable call
  | _ => True
  end.

(** The store holds the log, and its tables are in order and mean the rest. *)
Definition remembers (s : MemorySqliteStore) (m : Memory) : Prop :=
  holds s (mem_log m) ∧
  ∃ c, db_ s = Some c ∧ tables_ok (conn_main c) ∧
    (ReadPayloadRow <$> t_payloads (conn_main c)) = mem_payloads m ∧
    knowledge_of (conn_main c) = mem_knowledge m.

(** ** Lemmas: what a call leaves alone *)

(** Outside a transaction, [m] relates the content before to the content after by [R]. *)
Definition evolves {A} (R : Tables → Tables → Prop) (m : M (Conn Tables) A) : Prop :=
  ∀ c, conn_txn c = None → conn_txn (m c).2 = None ∧ R (conn_main c) (conn_main (m c).2).

Section Evolves.
Context (R : Tables → Tables → Prop) `{!PreOrder R}.

Lemma evolves_reads {A} (m : M (Conn Tables) A) : reads m → evolves R m.
Proof. intros Hm c Hc. destruct (Hm c Hc) as [-> ?]. by split. Qed.

Lemma evolves_bind {A B} (m : M (Conn Tables) A) (k : A → M (Conn Tables) B) :
  evolves R m → (∀ a, evolves R (k a)) → evolves R (bind m k).
Proof.
  intros Hm Hk c Hc. unfold bind. destruct (Hm c Hc) as [Ht Hr].
  destruct (m c) as [[a|w] c']; [|done]. destruct (Hk a c' Ht) as [? ?]. split; [done|by etrans].
Qed.

Lemma evolves_lift {A B} (o : Outcome A) (k : A → M (Conn Tables) B) :
  (∀ a, evolves R (k a)) → evolves R (bind (lift_outcome o) k).
Proof. intros Hk c Hc. unfold bind, lift_outcome. destruct o; [by apply Hk|done]. Qed.

Lemma evolves_step_write f : (∀ now t, R t (f now t)) → evolves R (step_write f).
Proof.
  intros Hf c Hc. destruct (step_write_cases f c Hc) as (c' & Ht & [(now & -> & Hm)|(-> & Hm & _)]); cbn;
    rewrite Hm; by split.
Qed.

Lemma evolves_run_write f : (∀ now t, R t (f now t)) → evolves R (run_write f).
Proof.
  intros Hf. apply evolves_bind; [apply evolves_reads; auto with am|]. intros [|]; cbn.
  - by apply evolves_step_write.
  - apply evolves_reads. auto with am.
Qed.

Lemma evolves_op_result context m : evolves R m → evolves R (op_result context m).
Proof. intros Hm. apply evolves_bind; [done|]. intros [|]; apply evolves_reads; auto with am. Qed.
End Evolves.

(** What the log calls and the payload calls do not touch, and what the knowledge calls do not. *)
Definition knowledge_kept (t t' : Tables) : Prop :=
  t_summaries t' = t_summaries t ∧ t_entities t' = t_entities t ∧ t_relations t' = t_relations t.

Definition payloads_kept (t t' : Tables) : Prop := t_payloads t' = t_payloads t.

Definition log_kept (t t' : Tables) : Prop := t_events t' = t_events t ∧ t_cursors t' = t_cursors t.

Definition log_only (t t' : Tables) : Prop := payloads_kept t t' ∧ knowledge_kept t t'.
Definition payloads_only (t t' : Tables) : Prop := log_kept t t' ∧ knowledge_kept t t'.
Definition knowledge_only (t t' : Tables) : Prop := log_kept t t' ∧ payloads_kept t t'.

#[export] Instance log_only_preorder : PreOrder log_only.
Proof. split; unfold log_only, payloads_kept, knowledge_kept; [done|]. intros x y z; naive_solver congruence. Qed.

#[export] Instance payloads_only_preorder : PreOrder payloads_only.
Proof. split; unfold payloads_only, log_kept, knowledge_kept; [done|]. intros x y z; naive_solver congruence. Qed.

#[export] Instance knowledge_only_preorder : PreOrder knowledge_only.
Proof. split; unfold knowledge_only, log_kept, payloads_kept; [done|]. intros x y z; naive_solver congruence. Qed.

Lemma knowledge_of_kept t t' : knowledge_kept t t' → knowledge_of t' = knowledge_of t.
Proof. intros (Hsu & Hen & Hre). unfold knowledge_of. by rewrite Hsu, Hen, Hre. Qed.

(** A call on an opened store outside a transaction. *)
Lemma on_db_evolves {A} (R : Tables → Tables → Prop) (u : A) m s c :
  db_ s = Some c → conn_txn c = None → evolves R m →
  ∃ c', db_ (on_db u m s).2 = Some c' ∧ conn_txn c' = None ∧ R (conn_main c) (conn_main c').
Proof.
  intros Hs Hc Hm. unfold on_db. rewrite Hs. destruct (Hm c Hc) as [Ht Hr]. destruct (m c) as [r c'].
  by exists c'.
Qed.

Lemma bind_ret_state {S A B} (m : M S A) (f : A → B) s : (bind m (λ a, ret (f a)) s).2 = (m s).2.
Proof. unfold bind. by destruct (m s) as [[a|w] s']. Qed.

Lemma reads_first {A B} (q : Tables → list A) (k : StepResult A → M (Conn Tables) B) context (fail : MemoryOperationResult → B) :
  (∀ r, reads (k r)) →
  reads (let* ok := prepare in
         if negb ok then let* e := SqliteFailure context in ret (fail e) else let* rc := step_first q in k rc).
Proof.
  intros Hk. apply reads_bind; [auto with am|]. intros [|]; cbn.
  - apply reads_bind; [auto with am|exact Hk].
  - apply reads_bind; [auto with am|]. intros. auto with am.
Qed.

Lemma reads_select_then {A B} cp cs (q : Tables → list A) (f : list A * option MemoryError → B) :
  reads (let* res := select cp cs q in ret (f res)).
Proof. apply reads_bind; [apply reads_select|]. intros. auto with am. Qed.

Lemma log_call_frame call s c :
  db_ s = Some c → conn_txn c = None → tables_ok (conn_main c) →
  ∃ c', db_ (store_call call s).2 = Some c' ∧ log_only (conn_main c) (conn_main c').
Proof.
  intros Hs Hc Hok.
  assert (∀ A (u : A) m, evolves log_only m →
    ∃ c', db_ (on_db u m s).2 = Some c' ∧ log_only (conn_main c) (conn_main c')) as Hgo.
  { intros A u m Hm. destruct (on_db_evolves log_only u m s c Hs Hc Hm) as (c' & ? & _ & ?). by exists c'. }
  destruct call; cbn [store_call]; rewrite bind_ret_state.
  - apply Hgo, (evolves_op_result log_only), (evolves_bind log_only).
    + apply (evolves_reads log_only). auto with am.
    + intros [|]; cbn; [|apply (evolves_reads log_only); auto with am].
      apply (evolves_lift log_only). intros text. by apply (evolves_step_write log_only).
  - apply Hgo, (evolves_reads log_only), reads_select_then.
  - apply Hgo, (evolves_reads log_only), reads_select_then.
  - apply Hgo, (evolves_reads log_only), reads_first. intros [k| |]; auto with am.
  - apply Hgo, (evolves_op_result log_only). by apply (evolves_run_write log_only).
Qed.

Lemma payload_kept_frame p s c :
  db_ s = Some c → conn_txn c = None →
  ∃ c', db_ (SavePayload p s).2 = Some c' ∧ payloads_only (conn_main c) (conn_main c').
Proof.
  intros Hs Hc. unfold SavePayload.
  destruct (on_db_evolves payloads_only store_unavailable (op_result "SavePayload" (SavePayloadUnlocked p)) s c Hs Hc)
    as (c' & ? & _ & ?); [|by exists c'].
  apply (evolves_op_result payloads_only), (evolves_run_write payloads_only). intros now t.
  unfold upsert_payload. by destruct (existsb _ _).
Qed.

Lemma UpdateUnlocked_evolves u : evolves knowledge_only (UpdateUnlocked u).
Proof.
  assert (∀ m1 m2 : M (Conn Tables) bool, evolves knowledge_only m1 → evolves knowledge_only m2 →
    evolves knowledge_only (let* ok := m1 in if negb ok then ret false else m2)) as Hand.
  { intros m1 m2 Hm1 Hm2. apply (evolves_bind knowledge_only); [done|]. intros [|]; cbn; [done|].
    apply (evolves_reads knowledge_only). auto with am. }
  assert (evolves knowledge_only (ret true : M (Conn Tables) bool)) as Htrue
    by (apply (evolves_reads knowledge_only); auto with am).
  assert (∀ id by_, evolves knowledge_only (MarkEntityObsoleteUnlocked id by_)) as Hmark
    by (intros; by apply (evolves_run_write knowledge_only)).
  destruct u; cbn.
  - apply (evolves_lift knowledge_only). intros text. by apply (evolves_run_write knowledge_only).
  - apply (evolves_lift knowledge_only). intros refs. apply (evolves_lift knowledge_only). intros text. apply Hand.
    + unfold MarkDuplicateEntitiesObsoleteUnlocked. destruct (_ || _); [done|]. by apply (evolves_run_write knowledge_only).
    + apply Hand; [|by destruct (is_empty _); cbn]. apply (evolves_run_write knowledge_only).
      intros now t. unfold upsert_entity. by destruct (existsb _ _).
  - apply (evolves_lift knowledge_only). intros refs. apply (evolves_lift knowledge_only). intros text.
    apply Hand; [by apply (evolves_run_write knowledge_only)|].
    apply Hand; [by apply (evolves_run_write knowledge_only)|]. by destruct (bool_decide _).
  - apply Hmark.
Qed.

Lemma update_all_frame us : tx_does work_succeeded (λ _, knowledge_only) (update_all us).
Proof.
  induction us as [|u us IH]; [by apply tx_does_ret|]. cbn [update_all].
  eapply (tx_does_bind op_succeeded work_succeeded (λ _, knowledge_only) (λ _ _, knowledge_only)).
  - apply (tx_does_weaken _ (λ _ t t', ∃ n, saved n t t')).
    { intros _ t t' (n & He & Hp & Hc & _). by split. }
    destruct u; cbn; (eapply tx_does_weaken; [intros a t t' Hd; eexists; exact Hd|]); auto with am.
  - intros r Hr. by rewrite Hr.
  - intros r c Hr. rewrite Hr. split; [done|]. by intros b [= <-].
  - intros a b t1 t2 t3 Hd1 Hd2. by etrans.
Qed.

Lemma knowledge_call_frame call s c :
  db_ s = Some c → conn_txn c = None →
  ∃ c', db_ (knowledge_call call s).2 = Some c' ∧ knowledge_only (conn_main c) (conn_main c').
Proof.
  intros Hs Hc. destruct call as [u|us|agent session limit]; cbn [knowledge_call]; rewrite bind_ret_state.
  - destruct (UpdateStore_unlocked u) as [context ->].
    destruct (on_db_evolves knowledge_only store_unavailable (op_result context (UpdateUnlocked u)) s c Hs Hc)
      as (c' & ? & _ & ?); [|by exists c'].
    apply (evolves_op_result knowledge_only), UpdateUnlocked_evolves.
  - destruct (RunInTransaction_outcome tt (update_all us) s c _ Hs Hc (update_all_frame us)) as (c' & Hc' & Hres).
    exists c'. split; [done|].
    destruct ((RunInTransaction tt (update_all us) s).1) as [r|what]; [|by rewrite Hres].
    destruct Hres as [_ Hres]. destruct (op_succeeded r.1); [by destruct Hres as (? & _ & _ & Hk)|].
    by destruct Hres as [_ ->].
  - destruct (load_cases agent session limit c Hc) as (r & c' & Hrun & [_ Hm] & _). rewrite (Hrun s Hs). exists c'.
    split; [done|]. by rewrite Hm.
Qed.

(** ** Lemmas: payload references *)

Lemma upsert_payload_keeps p now t :
  ReadPayloadRow <$> t_payloads (upsert_payload (bind_text (payload_agentId p)) (bind_text (payload_sessionId p))
    (bind_text (payload_uri p)) (bind_text (payload_contentType p)) (bind_text (payload_toolName p))
    (bind_text (payload_summary p)) (payload_originalChars p) now t)
  = keep_payload p now (ReadPayloadRow <$> t_payloads t).
Proof.
  unfold upsert_payload, keep_payload.
  assert (∀ rows, existsb (same_uri p) (ReadPayloadRow <$> rows)
                  = existsb (λ r, bool_decide (pl_ref r = bind_text (payload_uri p))) rows) as ->.
  { induction rows as [|r rows IH]; [done|]. cbn. cbn in IH. by rewrite IH. }
  destruct (existsb _ _); cbn.
  - unfold update_where. rewrite <- !list_fmap_compose. apply list_fmap_ext. intros i r _. cbn.
    unfold same_uri, bind_text. cbn. by case_bool_decide.
  - by rewrite fmap_app.
Qed.

Lemma recent_payloads_read agent session limit t :
  tables_ok t →
  ReadPayloadRow <$> recent_payloads agent session (if (0 <? limit)%Z then limit else 20%Z) t
  = recent_payload_refs agent session limit (ReadPayloadRow <$> t_payloads t).
Proof.
  intros Hok. unfold recent_payload_refs. rewrite filter_fmap, <- list_fmap_compose.
  rewrite <- (newest_rows ((λ p, (payload_createdAt p, p)) ∘ ReadPayloadRow) pl_id) by (apply sorted_ids, Hok).
  unfold recent_payloads. cbn. f_equal. f_equal. f_equal. apply filter_ext_elem. intros r _.
  unfold session_scope, bind_text, payload_visible. cbn.
  by rewrite Is_true_true, andb_true_iff, orb_true_iff, !bool_decide_eq_true.
Qed.

Lemma holds_kept s s' c c' l :
  db_ s = Some c → db_ s' = Some c' → conn_txn c' = None → log_kept (conn_main c) (conn_main c') →
  holds s l → holds s' l.
Proof.
  intros Hs Hs' Hc' [He Hk] (c0 & Hs0 & _ & Hids & Hrows & Hcur). rewrite Hs in Hs0. injection Hs0 as <-.
  exists c'. rewrite He, Hk. by split_and!.
Qed.

(** A call that leaves a store with the same memory. *)
Lemma remembers_untouched s m c c' :
  db_ s = Some c → remembers s m → untouched c c' → remembers (mkSqliteStore (dbPath_ s) (Some c')) m.
Proof.
  intros Hs [Hh (c0 & Hs0 & Hok & Hps & Hk)] Hu. rewrite Hs in Hs0. injection Hs0 as <-.
  split; [by eapply holds_untouched|]. exists c'. destruct Hu as [_ ->]. done.
Qed.

Lemma keep_payload_refines p s m :
  remembers s m →
  ∃ o s' m', memory_call (KeepPayload p) s = (o, s') ∧ memory_step faulty m (KeepPayload p) o m' ∧ remembers s' m'.
Proof.
  intros Hr. pose proof Hr as [Hh (c & Hs & Hok & Hps & Hk)]. pose proof Hh as (c0 & Hs0 & Hc & _).
  rewrite Hs in Hs0. injection Hs0 as <-. cbn [memory_call]. unfold SavePayload.
  destruct (op_result_cases "SavePayload" (λ now, upsert_payload (bind_text (payload_agentId p))
    (bind_text (payload_sessionId p)) (bind_text (payload_uri p)) (bind_text (payload_contentType p))
    (bind_text (payload_toolName p)) (bind_text (payload_summary p)) (payload_originalChars p) now) c Hc)
    as (r & c' & Hop & Hc' & Hcase).
  unfold bind. rewrite (on_db_run _ _ _ _ _ _ Hs Hop). cbn.
  destruct Hcase as [(-> & now & Hm)|(Hf & Hm & Hfl)].
  - destruct m as [l ps k]. do 3 eexists. split; [reflexivity|]. split; [apply (step_kept _ _ _ _ _ now)|].
    assert (payloads_only (conn_main c) (conn_main c')) as [Hl Hkn].
    { rewrite Hm. unfold upsert_payload. by destruct (existsb _ _). }
    cbn in *. split; [by eapply holds_kept|]. exists c'. split; [done|].
    rewrite (knowledge_of_kept _ _ Hkn). split_and!; [|by rewrite Hm, upsert_payload_keeps, Hps|done].
    rewrite Hm. by apply upsert_payload_ok.
  - do 3 eexists. split; [reflexivity|]. split; [by apply step_not_kept|]. by eapply remembers_untouched.
Qed.

Lemma recent_payloads_refines agent session limit s m :
  remembers s m →
  ∃ o s' m', memory_call (RecentPayloads agent session limit) s = (o, s') ∧
    memory_step faulty m (RecentPayloads agent session limit) o m' ∧ remembers s' m'.
Proof.
  intros Hr. pose proof Hr as [Hh (c & Hs & Hok & Hps & Hk)]. pose proof Hh as (c0 & Hs0 & Hc & _).
  rewrite Hs in Hs0. injection Hs0 as <-. cbn [memory_call]. unfold LoadRecentPayloads.
  destruct (select_cases "LoadRecentPayloads::prepare" "LoadRecentPayloads::step"
    (recent_payloads agent session (if (0 <? limit)%Z then limit else 20%Z)) c Hc)
    as ([rows e] & c' & Hsel & Hu & He).
  unfold bind at 1. erewrite on_db_run; [|done|unfold bind; rewrite Hsel; reflexivity]. cbn in *.
  destruct e as [e|].
  - do 3 eexists. split; [reflexivity|].
    split; [apply step_no_payloads; [apply He|split; [done|apply He]]|]. by eapply remembers_untouched.
  - subst rows. destruct m as [l ps k]. do 3 eexists. split; [reflexivity|]. split; [|by eapply remembers_untouched].
    cbn in Hps. subst ps. rewrite recent_payloads_read by done. apply step_payloads.
Qed.

Lemma log_call_ok call s s' c c' o :
  db_ s = Some c → conn_txn c = None → tables_ok (conn_main c) → store_call call s = (o, s') →
  db_ s' = Some c' → tables_ok (conn_main c').
Proof.
  intros Hs Hc Hok Hcall Hs'. assert (conn_ok tables_ok c) as Hcok by (split; [done|congruence]).
  assert (∀ A (u : A) m, preserves tables_ok m → s' = (on_db u m s).2 → tables_ok (conn_main c')) as Hgo.
  { intros A u m Hm Heq. subst s'. unfold on_db in Hs'. rewrite Hs in Hs'. destruct (Hm c Hcok) as [Hm' _].
    destruct (m c) as [r c1]. cbn in *. by injection Hs' as <-. }
  assert (s' = (store_call call s).2) as Heq by by rewrite Hcall. revert Heq.
  destruct call; cbn [store_call]; rewrite bind_ret_state; apply Hgo.
  all: repeat (apply preserves_bind; [auto with am|]; intros; repeat case_match); auto using preserves_get_errmsg with am.
Qed.

(** ** The simulation *)

Lemma memory_call_refines call s m :
  remembers s m → memory_storable call →
  ∃ o s' m', memory_call call s = (o, s') ∧ memory_step faulty m call o m' ∧ remembers s' m'.
Proof.
  intros Hr Hst. destruct call as [call|p|agent session limit|call].
  - destruct Hr as [Hh (c & Hs & Hok & Hps & Hk)]. pose proof Hh as (c0 & Hs0 & Hc & _).
    rewrite Hs in Hs0. injection Hs0 as <-.
    destruct (call_refines s (mem_log m) call Hh Hst) as (o & s' & l' & Hcall & Hstep & Hh').
    destruct (log_call_frame call s c Hs Hc Hok) as (c' & Hs' & Hpk & Hkk). rewrite Hcall in Hs'. cbn in Hs'.
    exists (omap_outcome LogAnswered o), s', (mkMemory l' (mem_payloads m) (mem_knowledge m)). split_and!.
    + cbn [memory_call]. unfold bind. rewrite Hcall. by destruct o.
    + destruct m. by constructor.
    + split; [done|]. exists c'. split_and!; [done| |by rewrite Hpk|by rewrite (knowledge_of_kept _ _ Hkk)].
      by apply (log_call_ok call s s' c c' o).
  - by apply keep_payload_refines.
  - by apply recent_payloads_refines.
  - destruct Hr as [Hh (c & Hs & Hok & Hps & Hk)]. pose proof Hh as (c0 & Hs0 & Hc & _).
    rewrite Hs in Hs0. injection Hs0 as <-.
    destruct (knowledge_call_refines call s c Hs Hc Hok Hst) as (o & c' & Hcall & Hc' & Hok' & Hstep).
    destruct (knowledge_call_frame call s c Hs Hc) as (c1 & Hs1 & Hlk & Hpk). rewrite Hcall in Hs1. cbn in Hs1.
    injection Hs1 as <-. destruct m as [l ps k].
    exists (omap_outcome KnowledgeAnswered o), (mkSqliteStore (dbPath_ s) (Some c')),
      (mkMemory l ps (knowledge_of (conn_main c'))). split; [|split].
    + cbn [memory_call]. unfold bind. rewrite Hcall. by destruct o.
    + apply step_knowledge. cbn in Hk. rewrite Hk in Hstep. exact Hstep.
    + cbn in *. split; [by eapply holds_kept|]. exists c'. cbn. split_and!; [done|done| |done]. by rewrite Hpk.
Qed.

(** ** Lemmas for clients: what a store that remembers answers *)

(** A call that always returns, with [Q] of its result, and leaves the memory as it is. *)
Definition asks {A} (m : Memory) (Q : A → Prop) (call : M MemorySqliteStore A) : Prop :=
  ∀ s, remembers s m → ∃ a s', call s = (Ret a, s') ∧ remembers s' m ∧ Q a.

Lemma asks_ret {A} m (Q : A → Prop) a : Q a → asks m Q (ret a).
Proof. intros Ha s Hs. by exists a, s. Qed.

Lemma asks_bind {A B} m (P : A → Prop) (Q : B → Prop) call (k : A → M MemorySqliteStore B) :
  asks m P call → (∀ a, P a → asks m Q (k a)) → asks m Q (bind call k).
Proof.
  intros Hcall Hk s Hs. destruct (Hcall s Hs) as (a & s1 & E & Hs1 & Ha).
  destruct (Hk a Ha s1 Hs1) as (b & s2 & E2 & Hs2 & Hb). exists b, s2.
  split; [|done]. unfold bind. by rewrite E.
Qed.

(** A reading call of the specification is one of the store. *)
Lemma asks_of_call {A} m call (mcall : M MemorySqliteStore A) (f : A → MemoryAnswer) (Q : A → Prop) :
  memory_storable call →
  (∀ s, memory_call call s = (omap_outcome f (mcall s).1, (mcall s).2)) →
  (∀ o m', memory_step faulty m call o m' → m' = m ∧ ∃ a, o = Ret a ∧ ∀ r, f r = a → Q r) →
  asks m Q mcall.
Proof.
  intros Hst Hrun Hstep s Hs. destruct (memory_call_refines call s m Hs Hst) as (o & s' & m' & E & Hm & Hs').
  destruct (Hstep o m' Hm) as (-> & a & -> & Ha). rewrite Hrun in E.
  destruct (mcall s) as [[r|w] s1]; [|done]. injection E as Ea <-. exists r, s1. split_and!; auto.
Qed.

(** A reading call of the log. *)
Lemma log_asked {A} m call (mcall : M MemorySqliteStore A) (f : A → LogAnswer) (Q : A → Prop) :
  (∀ event, call ≠ Append event) → (answer (mem_log m) call).2 = mem_log m →
  (∀ s, store_call call s = (omap_outcome f (mcall s).1, (mcall s).2)) →
  (∀ r, f r = (answer (mem_log m) call).1 → Q r) → (∀ r, faulty → failed (f r) → Q r) →
  asks m Q mcall.
Proof.
  intros Hread Hsame Hrun Hans Hfail.
  apply (asks_of_call m (OnLog call) _ (λ r, LogAnswered (f r))).
  - destruct call as [event| | | |]; [by destruct (Hread event)|done..].
  - intros s. cbn. unfold bind. rewrite Hrun. by destruct (mcall s) as [[r|w] s'].
  - intros o m' Hstep. inversion Hstep as [l l' ps k call' o' Hlog E1 E2 E3 E4| | | | |]; subst.
    inversion Hlog as [l0 call0|l0 call0 a Hf Ha|l0 event]; subst; [| |by destruct (Hread event)]; cbn in *.
    + split; [by rewrite Hsame|]. eexists. split; [reflexivity|]. intros r [= Er]. by apply Hans.
    + split; [done|]. eexists. split; [reflexivity|]. intros r [= <-]. by apply Hfail.
Qed.

(** The store calls of the runtime's state are those of the specification, with their answer wrapped. *)
Lemma wrapped_call {S A B} (call : M S A) (f : A → B) s :
  (let* r := call in ret (f r)) s = (omap_outcome f (call s).1, (call s).2).
Proof. unfold bind. by destruct (call s) as [[r|w] s']. Qed.
End Store.

(** ** The property *)

Lemma memory_run_impl `{JsonText} (P Q : Prop) m calls os m' :
  (P → Q) → memory_run P m calls os m' → memory_run Q m calls os m'.
Proof.
  intros HPQ. induction 1 as [|m m1 m2 call calls o os Hstep _ IH]; [constructor|]. econstructor; [|exact IH].
  destruct Hstep as [l l' ps k call o Hl| | | | |l ps k k' call o Hk]; try by constructor; auto.
  - constructor. destruct Hl; by constructor; auto.
  - constructor. destruct Hk; by constructor; auto.
Qed.

Lemma memory_calls_refine `{JsonText} `{SqlEnv} `{SqlPlan} calls s m :
  remembers s m → Forall memory_storable calls →
  ∃ m', memory_run faulty m calls (memory_calls calls s).1 m' ∧ remembers (memory_calls calls s).2 m'.
Proof.
  intros Hr Hstorable. revert s m Hr. induction Hstorable as [|call calls Hst _ IH]; intros s m Hr;
    [by exists m; split; [constructor|]|].
  destruct (memory_call_refines call s m Hr Hst) as (o & s1 & m1 & Hcall & Hstep & Hr1).
  destruct (IH s1 m1 Hr1) as (m2 & Hrun & Hr2). exists m2. cbn [memory_calls]. rewrite Hcall.
  destruct (memory_calls calls s1) as [os s2]. split; [by econstructor|done].
Qed.

(** The memory that the tables mean. *)
Definition memory_of `{JsonText} (t : Tables) : Memory :=
  mkMemory (mkLog (ReadEventRow <$> t_events t) (t_cursors t)) (ReadPayloadRow <$> t_payloads t) (knowledge_of t).

(** A store remembers one memory. *)
Lemma remembers_unique `{JsonText} s m c :
  remembers s m → db_ s = Some c →
  m = memory_of (conn_main c).
Proof.
  intros [(c1 & Hs1 & _ & _ & He & Hcur) (c2 & Hs2 & _ & Hp & Hk)] Hs. rewrite Hs in Hs1, Hs2.
  injection Hs1 as <-. injection Hs2 as <-. destruct m as [[es cs] ps k]. cbn in *. by subst.
Qed.

(** C3: refinement: a store that remembers a memory (a log of events with cursors, payload references,
    and the knowledge of summaries, believed entities by id and edges) answers every sequence of its
    calls as the memory does and remembers what the memory becomes, under any faults. A call works on
    its part and no other. A call that meets a fault reports an error and changes nothing, except that
    a change of the knowledge outside a transaction may have made some of its steps; changes in a
    transaction are made all or not at all. Without faults no call fails. *)
Theorem store_refines_memory `{JsonText} `{SqlEnv} `{SqlPlan} (calls : list MemoryCall)
    (s : MemorySqliteStore) (m : Memory)
    (Hremembers : remembers s m) (Hstorable : Forall memory_storable calls) :
  ∃ m', memory_run faulty m calls (memory_calls calls s).1 m' ∧ remembers (memory_calls calls s).2 m' ∧
    (¬ faulty → memory_run False m calls (memory_calls calls s).1 m').
Proof.
  destruct (memory_calls_refine calls s m Hremembers Hstorable) as (m' & Hrun & Hr).
  exists m'. split_and!; [done|done|]. intros Hf. by eapply memory_run_impl.
Qed.

Definition sample_payload (uri summary : string) : MemoryPayloadRef :=
  mkPayloadRef "agent" "s" uri "text/plain" summary "tool" 9 json_object "".

(** The second entity takes the place of the first; a reference saved again changes in its place. *)
Definition sample_memory_calls : list MemoryCall :=
  [OnKnowledge (Change (PutEntity (preference "agent" "old" "p")));
   KeepPayload (sample_payload "u" "first"); KeepPayload (sample_payload "u" "second");
   OnKnowledge (ChangeAll [PutSummary "agent" "s" "topic" "auto" "likes tests" (f32_lit 5 10) ["session://s"];
                           PutEntity (preference "agent" "new" "p");
                           PutRelation (mkRelation "" "agent" "new" "supersedes" "other" (f32_lit 5 10)
                                          ["session://s"] json_object "" "")]);
   RecentPayloads "agent" "s" 0; OnKnowledge (Recall "agent" "s" 0)].

Lemma store_refines_memory_witness :
  let _ := sample_json in let _ := reliable_env in let _ := sample_plan in
  ∃ m', memory_run False empty_memory sample_memory_calls (memory_calls sample_memory_calls (opened empty_tables)).1 m' ∧
    remembers (memory_calls sample_memory_calls (opened empty_tables)).2 m' ∧
    last (memory_calls sample_memory_calls (opened empty_tables)).1
    = Some (Ret (KnowledgeAnswered (Recalled (mkSnapshotResult true
        (mkSnapshot [mkSummaryRecord "topic" "auto" "likes tests" (f32_lit 5 10) ["session://s"] "" ""]
           [preference "agent" "new" "p"]
           [mkRelation "1" "agent" "new" "supersedes" "other" (f32_lit 5 10) ["session://s"] json_object "" ""])
        no_error)))).
Proof.
  intros Hj He Hp.
  destruct (store_refines_memory sample_memory_calls (opened empty_tables) empty_memory) as (m' & _ & Hr & Hrun).
  - split; [eexists; by split_and!|]. eexists. split_and!; [reflexivity|apply empty_tables_ok|reflexivity..].
  - repeat first [apply Forall_nil_2 | apply Forall_cons_2 | apply conj]; try exact I;
      first [reflexivity | by eexists | intros text Ht; vm_compute in Ht; injection Ht as <-; first [by split | reflexivity]].
  - exists m'. split_and!; [|exact Hr|vm_compute; reflexivity].
    apply Hrun. intros (n & k & f & Hf). discriminate Hf.
Defined.
