(* ===== verification/SearchTheorems.v ===== *)
(** * What the search promises

    Every hit comes from a row the caller may see, the hits are ordered and limited, the full-text
    query has no syntax left in it, and the LIKE fallback is a case-insensitive substring search. *)

From Stdlib Require Import ZArith Lia Ascii String SpecFloat.
From stdpp Require Import base list strings gmap sorting.
From S2P Require Import Prelude CppString Floats Json Types Sqlite StoreInterface Store.
From S2P Require Import StoreReads StoreSearch Samples EventLog.

Open Scope am_scope.

(** ** Lemmas: the order of hits *)

Definition scored (h : MemorySearchHit) : Prop := f_not_nan (hit_score h).

Lemma key_lt_trans a b c : key_lt a b → key_lt b c → key_lt a c.
Proof. unfold key_lt. lia. Qed.

Lemma key_lt_trichotomy a b : key_lt a b ∨ a = b ∨ key_lt b a.
Proof.
  destruct a as [a1 [a2 a3]], b as [b1 [b2 b3]]. unfold key_lt. simpl.
  destruct (Z.lt_trichotomy a1 b1) as [|[->|]]; [lia| |lia].
  destruct (Z.lt_trichotomy a2 b2) as [|[->|]]; [lia| |lia].
  destruct (Z.lt_trichotomy a3 b3) as [|[->|]]; [lia|tauto|lia].
Qed.

Lemma key_lt_irrefl a : ¬ key_lt a a.
Proof. unfold key_lt. lia. Qed.

(** The order of the results: a higher score first, then the smaller id. *)
Lemma hit_le_spec h1 h2 :
  scored h1 → scored h2 →
  hit_le h1 h2 = true ↔
  key_lt (f_key (hit_score h2)) (f_key (hit_score h1)) ∨
  (f_key (hit_score h1) = f_key (hit_score h2) ∧ str_le (hit_id h1) (hit_id h2) = true).
Proof.
  intros H1 H2. unfold hit_le, hit_before, str_le. rewrite negb_true_iff.
  pose proof (key_lt_trichotomy (f_key (hit_score h1)) (f_key (hit_score h2))) as Htri.
  destruct (f_eq (hit_score h2) (hit_score h1)) eqn:E; simpl.
  - apply f_eq_key in E; [|done|done]. rewrite E, negb_true_iff. split; [by right|].
    intros [[]%key_lt_irrefl|[_ ?]]. done.
  - assert (f_key (hit_score h1) ≠ f_key (hit_score h2)) as Hne.
    { intros He. symmetry in He. apply f_eq_key in He; [congruence|done|done]. }
    rewrite <- not_true_iff_false, f_lt_key by done. split; [tauto|].
    intros [Hlt|[? _]]; [|done]. intros Hgt. by apply (key_lt_irrefl _ (key_lt_trans _ _ _ Hlt Hgt)).
Qed.

Lemma hit_le_total h1 h2 : scored h1 → scored h2 → hit_le h1 h2 = true ∨ hit_le h2 h1 = true.
Proof.
  intros H1 H2. rewrite !hit_le_spec by done.
  destruct (key_lt_trichotomy (f_key (hit_score h1)) (f_key (hit_score h2))) as [|[He|]]; [tauto| |tauto].
  destruct (str_le_total (hit_id h1) (hit_id h2)); [left|right]; right; split; congruence.
Qed.

Lemma hit_le_trans h1 h2 h3 :
  scored h1 → scored h2 → scored h3 → hit_le h1 h2 = true → hit_le h2 h3 = true → hit_le h1 h3 = true.
Proof.
  intros H1 H2 H3. rewrite !hit_le_spec by done. intros [L1|[E1 S1]] [L2|[E2 S2]].
  - left. by eapply key_lt_trans.
  - left. by rewrite <- E2.
  - left. by rewrite E1.
  - right. split; [congruence|]. by eapply str_le_trans.
Qed.

(** Scores are numbers. *)
Lemma ApplyFtsScore_scored hit rank : f_finite rank = true → scored (ApplyFtsScore hit rank).
Proof.
  intros Hr. unfold scored, ApplyFtsScore. cbn [hit_score].
  set (raw := f64_max f64_zero (SFopp rank)).
  assert (f_finite raw = true) as Hraw.
  { unfold raw, f64_max. case_match; [|done]. destruct rank; done. }
  apply round_to_not_nan. assert (∃ m e, TypeWeight (hit_type hit) = S754_finite false m e) as (m & e & ->).
  { unfold TypeWeight. repeat case_match; by do 2 eexists. }
  apply SFmul_finite_not_nan. destruct (f_lt f64_zero raw) eqn:E; [|done].
  destruct raw as [sg|?| |sg mr er]; [by destruct sg|done|done|]. apply SFdiv_finite_not_nan.
  assert (∃ m e, f64_one = S754_finite false m e) as (m1 & e1 & ->) by (by do 2 eexists).
  by apply SFadd_finite_not_nan.
Qed.

Lemma ApplyFallbackScore_scored hit : scored (ApplyFallbackScore hit).
Proof.
  unfold scored, ApplyFallbackScore. cbn [hit_score]. apply round_to_not_nan. unfold FallbackScore.
  repeat case_match; by vm_compute.
Qed.

Lemma SortAndLimit_spec hits limit :
  (0 < limit)%Z → Forall scored hits →
  StronglySorted (λ h1 h2, hit_before h2 h1 = false) (SortAndLimitSearchResults hits limit) ∧
  (Z.of_nat (length (SortAndLimitSearchResults hits limit)) ≤ limit)%Z ∧
  (∀ h, h ∈ SortAndLimitSearchResults hits limit → h ∈ hits) ∧
  ((Z.of_nat (length hits) ≤ limit)%Z → SortAndLimitSearchResults hits limit ≡ₚ hits).
Proof.
  intros Hl Hs. unfold SortAndLimitSearchResults. rewrite length_sort_by.
  assert (StronglySorted (λ h1 h2, hit_before h2 h1 = false) (sort_by hit_le hits)) as Hsort.
  { eapply StronglySorted_weaken; [|by apply (sort_by_StronglySorted_on _ scored _ hit_le_trans hit_le_total)].
    intros h1 h2. unfold hit_le. by rewrite negb_true_iff. }
  replace (0 <? limit)%Z with true by lia. simpl. destruct (limit <? Z.of_nat (length hits))%Z eqn:E.
  - split_and!; [by apply StronglySorted_take|rewrite length_take; lia| |lia].
    intros h Hh%elem_of_take_1. by apply elem_of_sort_by in Hh.
  - split_and!; [done|rewrite length_sort_by; lia| |intros _; apply sort_by_Permutation].
    intros h Hh. by apply elem_of_sort_by in Hh.
Qed.

(** ** Lemmas: where hits come from *)

(** Two hits that show the same memory, whatever the score. *)
Definition same_memory (h1 h2 : MemorySearchHit) : Prop :=
  hit_id h1 = hit_id h2 ∧ hit_type h1 = hit_type h2 ∧ hit_content h1 = hit_content h2 ∧
  hit_sourceRefs h1 = hit_sourceRefs h2.

Section Search.
Context `{JsonText} `{SqlEnv} `{SqlPlan} `{FtsEngine}.

(** The hit shows a row the request may see: a summary in the scope of its agent and session, or an
    active entity or relation of its agent. *)
Definition visible (request : MemorySearchRequest) (t : Tables) (h : MemorySearchHit) : Prop :=
  (∃ r, r ∈ t_summaries t ∧ same_memory h (summary_hit r) ∧
     session_scope (sreq_agentId request) (sreq_sessionId request) (su_agent_id r) (su_session_id r) = true) ∨
  (∃ r, r ∈ t_entities t ∧ same_memory h (entity_hit r) ∧ en_active r = true ∧
     en_agent_id r = bind_text (sreq_agentId request)) ∨
  (∃ r, r ∈ t_relations t ∧ same_memory h (relation_hit r) ∧ re_active r = true ∧
     re_agent_id r = bind_text (sreq_agentId request)).

Definition good_hit (request : MemorySearchRequest) (t : Tables) (h : MemorySearchHit) : Prop :=
  visible request t h ∧ scored h.

Lemma elem_of_fts_join {R} (id : R → Z) sel rows matches r rank :
  (r, rank) ∈ fts_join id sel rows matches →
  r ∈ rows ∧ sel r = true ∧ ∃ rowid, (rowid, rank) ∈ matches.
Proof.
  unfold fts_join. intros ([rowid k] & Hm & Hr)%list_elem_of_omap.
  destruct (filter _ rows) as [|x l] eqn:E; [done|]. simplify_eq.
  assert (r ∈ r :: l) as Hin by left. rewrite <- E in Hin. apply list_elem_of_filter in Hin as [Hs Hin].
  rewrite Is_true_true in Hs. apply andb_prop in Hs as [_ Hs]. eauto.
Qed.

Lemma delivers_step_match {R} t (q : Tables → option (list R)) :
  delivers t (λ r, ∀ x, x ∈ r.1 → ∃ l, q t = Some l ∧ x ∈ l) (step_match q).
Proof.
  intros c Hc Ht. unfold step_match, conn_view. rewrite Hc, Ht. simpl. destruct (q t) as [l|] eqn:E.
  - destruct (delivers_step_rows t (λ t, default [] (q t)) c Hc Ht) as (r & c' & Er & Hc' & Ht' & Hsub & _).
    exists r, c'. split; [exact Er|]. split; [exact Hc'|]. split; [exact Ht'|]. intros x Hx%Hsub. rewrite E in Hx. eauto.
  - do 2 eexists. split; [done|]. split; [done|]. split; [done|]. by intros x Hx%not_elem_of_nil.
Qed.

Lemma delivers_fts_select {R} t (G : MemorySearchHit → Prop) cp (q : Tables → option (list R)) to_hit results :
  Forall G results → (∀ l x, q t = Some l → x ∈ l → G (to_hit x)) →
  delivers t (λ r, Forall G r.1 ∧ match r.2 with FtsPrepareFailed e => HasError e = true | _ => True end)
    (fts_select cp q to_hit results).
Proof.
  intros HG Hx. eapply delivers_bind; [apply delivers_prepare|]. intros [|] _; simpl.
  - eapply delivers_bind; [apply delivers_step_match|]. intros [rows ok] Hrows. simpl in *.
    destruct ok; apply delivers_ret; (split; [|done]); simpl; [|done].
    apply Forall_app. split; [done|]. apply Forall_fmap, Forall_forall. intros x Hin.
    destruct (Hrows x Hin) as (l & ? & ?). by eapply Hx.
  - eapply delivers_bind; [apply delivers_failure|]. intros e He. by apply delivers_ret.
Qed.

(** The rows of the three full-text SELECTs give good hits. *)
Lemma fts_summaries_good request q limit t l x :
  fts_summaries request q limit t = Some l → x ∈ l →
  good_hit request t (let '(r, rank) := x in ApplyFtsScore (summary_hit r) rank).
Proof.
  unfold fts_summaries. destruct (fts_match _ _) as [m|] eqn:E; [|done]. intros [= <-]. destruct x as [r rank].
  intros Hx%elem_of_take_1. apply elem_of_sort_by, elem_of_fts_join in Hx as (Hr & Hs & rowid & Hm). split.
  - left. exists r. done.
  - apply ApplyFtsScore_scored. by eapply fts_match_rank.
Qed.

Lemma fts_entities_good request q limit t l x :
  fts_entities request q limit t = Some l → x ∈ l →
  good_hit request t (let '(r, rank) := x in ApplyFtsScore (entity_hit r) rank).
Proof.
  unfold fts_entities. destruct (fts_match _ _) as [m|] eqn:E; [|done]. intros [= <-]. destruct x as [r rank].
  intros Hx%elem_of_take_1. apply elem_of_sort_by, elem_of_fts_join in Hx as (Hr & Hs & rowid & Hm).
  apply andb_prop in Hs as [Ha Hag%bool_decide_eq_true]. split.
  - right. left. exists r. done.
  - apply ApplyFtsScore_scored. by eapply fts_match_rank.
Qed.

Lemma fts_relations_good request q limit t l x :
  fts_relations request q limit t = Some l → x ∈ l →
  good_hit request t (let '(r, rank) := x in ApplyFtsScore (relation_hit r) rank).
Proof.
  unfold fts_relations. destruct (fts_match _ _) as [m|] eqn:E; [|done]. intros [= <-]. destruct x as [r rank].
  intros Hx%elem_of_take_1. apply elem_of_sort_by, elem_of_fts_join in Hx as (Hr & Hs & rowid & Hm).
  apply andb_prop in Hs as [Ha Hag%bool_decide_eq_true]. split.
  - right. right. exists r. done.
  - apply ApplyFtsScore_scored. by eapply fts_match_rank.
Qed.

Definition phase_ok (request : MemorySearchRequest) (t : Tables) (r : list MemorySearchHit * option MemoryError)
    : Prop :=
  Forall (good_hit request t) r.1 ∧ match r.2 with Some e => HasError e = true | None => True end.

Lemma delivers_fts_phase request q limit t : delivers t (phase_ok request t) (fts_phase request q limit).
Proof.
  unfold fts_phase. destruct (is_empty q); [by apply delivers_ret|].
  eapply delivers_bind; [by apply delivers_fts_select, fts_summaries_good|].
  intros [h1 e1] [HF1 E1]; simpl in *. destruct e1 as [e| |]; [by apply delivers_ret..|].
  eapply delivers_bind; [by apply delivers_fts_select, fts_entities_good|].
  intros [h2 e2] [HF2 E2]; simpl in *. destruct e2 as [e| |]; [by apply delivers_ret..|].
  eapply delivers_bind; [by apply delivers_fts_select, fts_relations_good|].
  intros [h3 e3] [HF3 E3]; simpl in *. apply delivers_ret. split; [done|]. by destruct e3.
Qed.

(** The rows of the LIKE SELECTs. *)
Lemma elem_of_like_summaries request p limit t r :
  r ∈ like_summaries request p limit t →
  r ∈ t_summaries t ∧ session_scope (sreq_agentId request) (sreq_sessionId request) (su_agent_id r) (su_session_id r) = true ∧
  like (bind_text p) (su_topic r) || like (bind_text p) (su_summary r) = true.
Proof.
  intros Hr%elem_of_take_1. apply elem_of_sort_by, list_elem_of_filter in Hr as [Hs Hr].
  rewrite Is_true_true in Hs. apply andb_prop in Hs. tauto.
Qed.

Lemma elem_of_like_entities request p limit t r :
  r ∈ like_entities request p limit t →
  r ∈ t_entities t ∧ en_active r = true ∧ en_agent_id r = bind_text (sreq_agentId request) ∧
  like (bind_text p) (en_id r) || like (bind_text p) (en_type r) || like (bind_text p) (en_name r) ||
    like (bind_text p) (en_summary r) = true.
Proof.
  intros Hr%elem_of_take_1. apply elem_of_sort_by in Hr. rewrite scan_entities_perm in Hr.
  apply list_elem_of_filter in Hr as [Hs Hr]. rewrite Is_true_true, !andb_true_iff, bool_decide_eq_true in Hs. tauto.
Qed.

Lemma elem_of_like_relations request p limit t r :
  r ∈ like_relations request p limit t →
  r ∈ t_relations t ∧ re_active r = true ∧ re_agent_id r = bind_text (sreq_agentId request) ∧
  like (bind_text p) (re_from_entity r) || like (bind_text p) (re_relation r) ||
    like (bind_text p) (re_to_entity r) = true.
Proof.
  intros Hr%elem_of_take_1. apply elem_of_sort_by, list_elem_of_filter in Hr as [Hs Hr].
  rewrite Is_true_true, !andb_true_iff, bool_decide_eq_true in Hs. tauto.
Qed.

Lemma Forall_fallback {R} request t (to_hit : R → MemorySearchHit) rows :
  (∀ r, r ∈ rows → visible request t (to_hit r)) →
  Forall (good_hit request t) ((λ r, ApplyFallbackScore (to_hit r)) <$> rows).
Proof.
  intros Hv. apply Forall_fmap, Forall_forall. intros r Hr. split; [|apply ApplyFallbackScore_scored].
  destruct (Hv r Hr) as [(x & Hx & (?&?&?&?) & ?)|[(x & Hx & (?&?&?&?) & ?)|(x & Hx & (?&?&?&?) & ?)]];
    [left|right; left|right; right]; by exists x.
Qed.

Lemma delivers_like_phase request limit t : delivers t (phase_ok request t) (like_phase request limit).
Proof.
  unfold like_phase. set (p := "%" +:+ _ +:+ "%").
  eapply delivers_bind; [apply delivers_select|]. intros [rows1 e1] [HF1 E1]. simpl in *.
  assert (Forall (good_hit request t) ((λ r, ApplyFallbackScore (summary_hit r)) <$> rows1)) as G1.
  { apply Forall_fallback. intros r Hr%HF1. apply elem_of_like_summaries in Hr as (?&?&_). left. by exists r. }
  destruct e1; [by apply delivers_ret|].
  eapply delivers_bind; [apply delivers_select|]. intros [rows2 e2] [HF2 E2]. simpl in *.
  assert (Forall (good_hit request t) ((λ r, ApplyFallbackScore (entity_hit r)) <$> rows2)) as G2.
  { apply Forall_fallback. intros r Hr%HF2. apply elem_of_like_entities in Hr as (?&?&?&_). right. left. by exists r. }
  destruct e2; [apply delivers_ret; split; [by apply Forall_app|done]|].
  eapply delivers_bind; [apply delivers_select|]. intros [rows3 e3] [HF3 E3]. simpl in *.
  assert (Forall (good_hit request t) ((λ r, ApplyFallbackScore (relation_hit r)) <$> rows3)) as G3.
  { apply Forall_fallback. intros r Hr%HF3. apply elem_of_like_relations in Hr as (?&?&?&_). right. right. by exists r. }
  apply delivers_ret. split; [simpl; by rewrite !Forall_app|]. simpl. by destruct e3.
Qed.

Definition effective_limit (request : MemorySearchRequest) : Z :=
  if (0 <? sreq_limit request)%Z then sreq_limit request else 10%Z.

Lemma delivers_search request t :
  delivers t (λ res, if ssres_succeeded res
    then ∃ found, Forall (good_hit request t) found ∧
           ssres_results res = SortAndLimitSearchResults found (effective_limit request)
    else HasError (ssres_error res) = true) (search_long_term request).
Proof.
  unfold search_long_term, effective_limit. destruct (is_empty (sreq_query request)).
  { apply delivers_ret. simpl. exists []. split; [done|]. unfold SortAndLimitSearchResults. simpl.
    destruct (_ && _); [by rewrite take_nil|done]. }
  eapply delivers_bind; [apply delivers_fts_phase|]. intros [hits e] [Hh He]. simpl in *.
  destruct e as [e|]; [by apply delivers_ret|].
  eapply (delivers_bind _ (phase_ok request t)).
  { destruct hits; [apply delivers_like_phase|by apply delivers_ret]. }
  intros [found e] [Hf Hfe]. simpl in *. apply delivers_ret. destruct e; simpl; [done|]. by exists found.
Qed.
End Search.

(** ** Lemmas: escaped patterns *)

Fixpoint literals (s : string) : list LikeToken :=
  match s with
  | EmptyString => []
  | String c s' => LLit c :: literals s'
  end.

Lemma like_tokens_escaped q rest :
  like_tokens (EscapeLikePattern q +:+ rest) false = literals q ++ like_tokens rest false.
Proof.
  induction q as [|c q IH]; [done|]. cbn [EscapeLikePattern].
  destruct (bool_decide (c = backslash) || bool_decide (c = "%"%char) || bool_decide (c = "_"%char)) eqn:E.
  - rewrite !str_app_cons. simpl. by rewrite IH.
  - rewrite str_app_cons. rewrite !orb_false_iff in E. destruct E as [[E1 E2] E3].
    simpl. rewrite E1, E2, E3. by rewrite IH.
Qed.

Lemma like_match_literals q s :
  like_match (literals q ++ [LAny]) s = String.prefix (ToLower q) (ToLower s).
Proof.
  revert s. induction q as [|c q IH]; intros s; simpl.
  - transitivity true; [|by destruct s]. induction s as [|d s IH]; [done|]. exact IH.
  - destruct s as [|d s]; [done|]. simpl. case_bool_decide as E; simpl.
    + rewrite E. destruct (ascii_dec _ _); [|done]. apply IH.
    + destruct (ascii_dec _ _); done.
Qed.

Lemma like_match_any tokens s :
  like_match (LAny :: tokens) s =
  like_match tokens s || match s with String _ s' => like_match (LAny :: tokens) s' | EmptyString => false end.
Proof. by destruct s. Qed.

Lemma like_escaped_contains q s :
  like ("%" +:+ EscapeLikePattern q +:+ "%") s = str_contains (ToLower q) (ToLower s).
Proof.
  unfold like. change ("%" +:+ EscapeLikePattern q +:+ "%") with (String "%" (EscapeLikePattern q +:+ "%")).
  assert (like_tokens (String "%" (EscapeLikePattern q +:+ "%")) false = LAny :: (literals q ++ [LAny])) as ->.
  { cbn [like_tokens]. rewrite like_tokens_escaped. done. }
  induction s as [|c s IH]; rewrite like_match_any, like_match_literals; [done|].
  rewrite IH. done.
Qed.

Lemma EscapeLikePattern_nul_free q : nul_free q → nul_free (EscapeLikePattern q).
Proof.
  unfold nul_free. induction q as [|c q IH]; [done|]. simpl. destruct (decide (c = NUL)); [done|].
  intros [= Hq]. case_match; simpl; rewrite ?decide_False by done; by rewrite IH.
Qed.

(** ** Lemmas: the full-text query *)

Lemma str_app_snoc s1 c s2 : ((s1 +:+ String c EmptyString) +:+ s2) = (s1 +:+ String c s2).
Proof. by rewrite str_app_assoc. Qed.

(** Every byte of the text passes, and every [*] comes after a word byte; [prev] is the byte before. *)
Fixpoint fts_clean (prev : option ascii) (s : string) : bool :=
  match s with
  | EmptyString => true
  | String c s' =>
      (fts_plain c || (bool_decide (c = "*"%char) &&
                       match prev with Some p => word_char p | None => false end)) &&
      fts_clean (Some c) s'
  end.

Lemma fts_clean_snoc prev s c :
  fts_clean prev (s +:+ String c EmptyString) =
  fts_clean prev s && (fts_plain c || (bool_decide (c = "*"%char) &&
    match (match str_back s with Some p => Some p | None => prev end) with
    | Some p => word_char p | None => false end)).
Proof.
  revert prev. induction s as [|d s IH]; intros prev; [simpl; by rewrite andb_true_r|].
  rewrite str_app_cons. cbn [fts_clean]. rewrite IH, andb_assoc. do 2 f_equal.
  destruct s as [|x s]; [done|]. change (str_back (String d (String x s))) with (str_back (String x s)).
  by destruct (str_back_cons x s) as [p ->].
Qed.

Lemma fts_escape_go_clean query escaped :
  fts_clean None escaped = true → fts_clean None (fts_escape_go query escaped) = true.
Proof.
  revert escaped. induction query as [|c query IH]; intros escaped He; simpl; [done|].
  destruct (fts_plain c) eqn:Ep.
  - apply IH. rewrite fts_clean_snoc, He, Ep. done.
  - case_bool_decide as Es; [|by apply IH]. destruct (str_back escaped) as [p|] eqn:Eb; [|by apply IH].
    destruct (word_char p) eqn:Ew; simpl; [|by apply IH].
    apply IH. rewrite fts_clean_snoc, He, Eb, bool_decide_true by done. rewrite Ew. by rewrite orb_true_r.
Qed.

(** On a clean text the loop changes nothing. *)
Lemma fts_escape_go_id query escaped :
  fts_clean (str_back escaped) query = true → fts_escape_go query escaped = (escaped +:+ query).
Proof.
  revert escaped. induction query as [|c query IH]; intros escaped Hq; simpl in *; [by rewrite str_app_nil_r|].
  apply andb_prop in Hq as [Hc Hq]. rewrite <- (str_app_snoc escaped c query).
  destruct (fts_plain c) eqn:Ep; simpl in *.
  - apply IH. by rewrite str_back_snoc.
  - apply andb_prop in Hc as [Hs Hp]. rewrite Hs. destruct (str_back escaped) as [p|] eqn:Eb; [|done].
    rewrite Hp. simpl. apply IH. by rewrite str_back_snoc.
Qed.

(** When nothing passes, the second filter finds nothing either. *)
Lemma fts_escape_go_app query escaped : ∃ s, fts_escape_go query escaped = (escaped +:+ s).
Proof.
  revert escaped. induction query as [|c query IH]; intros escaped; simpl.
  { exists "". by rewrite str_app_nil_r. }
  assert (∃ s, fts_escape_go query (escaped +:+ String c EmptyString) = (escaped +:+ s)) as Hsnoc.
  { destruct (IH (escaped +:+ String c EmptyString)) as [s ->]. exists (String c s). by rewrite str_app_snoc. }
  repeat case_match; auto.
Qed.

Lemma fts_escape_go_empty query :
  fts_escape_go query EmptyString = EmptyString →
  str_filter (λ c, isalnum c || bool_decide (c = "_"%char) || bool_decide (c = " "%char)) query = EmptyString.
Proof.
  induction query as [|c query IH]; simpl; [done|]. destruct (fts_plain c) eqn:Ep.
  - intros He. destruct (fts_escape_go_app query (String c EmptyString)) as [s Hs].
    change (EmptyString +:+ String c EmptyString) with (String c EmptyString) in He.
    rewrite Hs, str_app_cons in He. done.
  - unfold fts_plain in Ep. rewrite !orb_false_iff in Ep. destruct Ep as [[[E1 E2] E3] E4]. rewrite E1, E2. simpl.
    rewrite (bool_decide_false (c = " "%char)) by (intros ->; by vm_compute in E3).
    destruct (bool_decide (c = "*"%char)); apply IH.
Qed.

Lemma Fts5EscapeQuery_loop query : Fts5EscapeQuery query = fts_escape_go query EmptyString.
Proof.
  unfold Fts5EscapeQuery. destruct (fts_escape_go query EmptyString) eqn:E; [|done].
  simpl. by apply fts_escape_go_empty.
Qed.

(** ** Properties *)

(** C9: whatever calls fail, a search returns (it does not throw), leaves the database as it is, and
    either reports an error or delivers hits that all show memory the caller may see (a summary of
    its agent and session, an active entity or relation of its agent), at most the limit (10 when it
    is not positive), the highest score first and equal scores by id. *)
Theorem search_results_sound `{JsonText} `{SqlEnv} `{SqlPlan} `{FtsEngine} (request : MemorySearchRequest)
    (s : MemorySqliteStore) (c : Conn Tables) (Hs : db_ s = Some c) (Hc : conn_txn c = None) :
  ∃ res s' c', SearchLongTermMemory request s = (Ret res, s') ∧ db_ s' = Some c' ∧
    conn_main c' = conn_main c ∧
    if ssres_succeeded res then
      Forall (visible request (conn_main c)) (ssres_results res) ∧
      StronglySorted (λ h1 h2, hit_before h2 h1 = false) (ssres_results res) ∧
      (Z.of_nat (length (ssres_results res)) ≤ effective_limit request)%Z
    else HasError (ssres_error res) = true.
Proof.
  destruct (delivers_search request (conn_main c) c Hc eq_refl) as (res & c' & E & Hc' & Hm & HQ).
  exists res, (mkSqliteStore (dbPath_ s) (Some c')), c'. unfold SearchLongTermMemory, on_db.
  rewrite Hs, E. split_and!; [done|done|done|]. destruct (ssres_succeeded res); [|done].
  destruct HQ as (found & Hf & ->). assert (0 < effective_limit request)%Z as Hl.
  { unfold effective_limit. case_match; lia. }
  destruct (SortAndLimit_spec found (effective_limit request) Hl) as (H1' & H2' & H3' & _).
  { eapply Forall_impl; [exact Hf|]. by intros h [_ ?]. }
  split_and!; [|done|done]. rewrite Forall_forall in *. intros h Hh%H3'. by apply Hf.
Qed.

(** Two agents' summaries with the word "tests". *)
Definition two_agents : Tables :=
  insert_summary "alice" "s" "topic" "auto" "tests" (Some (f64_of_Z 1)) "[]" sample_now
    (insert_summary "bob" "s" "topic" "auto" "tests" (Some (f64_of_Z 1)) "[]" sample_now empty_tables).

Lemma search_results_sound_witness :
  let _ := sample_json in let _ := failing_env 3 (mkFault 0 "disk I/O error" false) in
  let _ := sample_plan in let _ := sample_fts in
  let request := mkSearchRequest "alice" "" "tests" 5 [] json_object in
  ∃ res s' c', SearchLongTermMemory request (opened two_agents) = (Ret res, s') ∧ db_ s' = Some c' ∧
    conn_main c' = two_agents.
Proof.
  intros Hj He Hp Hf request.
  destruct (search_results_sound request (opened two_agents) (mkConn two_agents None 0 no_error_msg))
    as (res & s' & c' & E & Hs' & Hm & _); [reflexivity|reflexivity|].
  exists res, s', c'. split; [exact E|]. split; [exact Hs'|]. exact Hm.
Defined.

(** The LIKE pattern made of a query finds exactly the texts that contain the query, in any case
    of its ASCII letters: the wildcards and the escape character in the query are literal. *)
Theorem like_pattern_is_substring_search (query text : string) :
  like ("%" +:+ EscapeLikePattern query +:+ "%") text = str_contains (ToLower query) (ToLower text).
Proof. apply like_escaped_contains. Qed.

(** A query loses all syntax of FTS5 but the prefix star: in the escaped query every byte is a
    letter, a digit, an underscore, white space or not ASCII, or a star right after a word byte.
    Escaping is idempotent, and the second filter, for an empty result, never adds anything. *)
Theorem fts_query_is_clean (query : string) :
  fts_clean None (Fts5EscapeQuery query) = true ∧
  Fts5EscapeQuery (Fts5EscapeQuery query) = Fts5EscapeQuery query ∧
  (fts_clean None query = true → Fts5EscapeQuery query = query) ∧
  Fts5EscapeQuery query = fts_escape_go query EmptyString.
Proof.
  assert (∀ q, fts_clean None q = true → Fts5EscapeQuery q = q) as Hid.
  { intros q Hq. by rewrite Fts5EscapeQuery_loop, fts_escape_go_id. }
  assert (fts_clean None (Fts5EscapeQuery query) = true) as Hclean.
  { rewrite Fts5EscapeQuery_loop. by apply fts_escape_go_clean. }
  split_and!; [done|by apply Hid|apply Hid|apply Fts5EscapeQuery_loop].
Qed.

Lemma fts_query_is_clean_witness : Fts5EscapeQuery "api* tests" = "api* tests".
Proof. apply (proj1 (proj2 (proj2 (fts_query_is_clean "api* tests")))). vm_compute. reflexivity. Defined.

(** ** The fallback *)

Section Fallback.
Context `{JsonText} `{SqlEnv} `{SqlPlan} `{FtsEngine} (Hreliable : ∀ n k, sql_fault n k = None).

(** The text of the query occurs in one of the columns, in any case. *)
Definition mentions (query : string) (columns : list string) : bool :=
  existsb (λ text, str_contains (ToLower query) (ToLower text)) columns.

(** The memory that the fallback is to find. *)
Definition mentioned (request : MemorySearchRequest) (t : Tables) : list MemorySearchHit :=
  ((λ r, ApplyFallbackScore (summary_hit r)) <$> filter (λ r,
     session_scope (sreq_agentId request) (sreq_sessionId request) (su_agent_id r) (su_session_id r) = true ∧
     mentions (sreq_query request) [su_topic r; su_summary r] = true) (t_summaries t)) ++
  ((λ r, ApplyFallbackScore (entity_hit r)) <$> filter (λ r,
     (en_active r = true ∧ en_agent_id r = bind_text (sreq_agentId request)) ∧
     mentions (sreq_query request) [en_id r; en_type r; en_name r; en_summary r] = true) (t_entities t)) ++
  ((λ r, ApplyFallbackScore (relation_hit r)) <$> filter (λ r,
     (re_active r = true ∧ re_agent_id r = bind_text (sreq_agentId request)) ∧
     mentions (sreq_query request) [re_from_entity r; re_relation r; re_to_entity r] = true) (t_relations t)).

Lemma bind_like_pattern q :
  nul_free q → bind_text ("%" +:+ EscapeLikePattern q +:+ "%") = ("%" +:+ EscapeLikePattern q +:+ "%").
Proof. intros Hq. apply nul_free_app; [done|]. apply nul_free_app; [by apply EscapeLikePattern_nul_free|done]. Qed.

(** Part of [l]: nothing else, nothing more often, and as much as the limit allows. *)
Definition limited {A} (limit : Z) (part l : list A) : Prop :=
  part ⊆+ l ∧ Z.of_nat (length part) = Z.min limit (Z.of_nat (length l)).

Lemma limited_take {A} (l rows : list A) limit :
  (0 < limit)%Z → l ≡ₚ rows → limited limit (take (Z.to_nat limit) l) rows.
Proof.
  intros Hl Hp. split; [rewrite <- Hp; apply submseteq_take|]. rewrite length_take, (Permutation_length Hp). lia.
Qed.

Lemma SortAndLimit_limited hits limit : (0 < limit)%Z → limited limit (SortAndLimitSearchResults hits limit) hits.
Proof.
  intros Hl. unfold SortAndLimitSearchResults. rewrite length_sort_by. replace (0 <? limit)%Z with true by lia. simpl.
  destruct (limit <? Z.of_nat (length hits))%Z eqn:E; [apply limited_take; [done|apply sort_by_Permutation]|].
  split; [by rewrite sort_by_Permutation|]. rewrite length_sort_by. lia.
Qed.

Lemma limited_fmap {A B} (f : A → B) limit part l : limited limit part l → limited limit (f <$> part) (f <$> l).
Proof. intros [Hs Hn]. split; [by apply fmap_submseteq|by rewrite !length_fmap]. Qed.

(** Limiting parts and then their concatenation limits the whole. *)
Lemma limited_app3 {A} limit (p1 p2 p3 l1 l2 l3 res : list A) :
  limited limit p1 l1 → limited limit p2 l2 → limited limit p3 l3 →
  limited limit res (p1 ++ p2 ++ p3) → limited limit res (l1 ++ l2 ++ l3).
Proof.
  intros [S1 N1] [S2 N2] [S3 N3] [S N]. split; [etransitivity; [exact S|by repeat apply submseteq_app]|].
  rewrite !length_app in *. lia.
Qed.

Lemma limited_all {A} limit (part l : list A) :
  limited limit part l → (Z.of_nat (length l) ≤ limit)%Z → part ≡ₚ l.
Proof. intros [Hs Hn] Hl. apply submseteq_length_Permutation; [done|lia]. Qed.

(** Each of the three SELECTs delivers rows that mention the query, up to the limit. *)
Lemma like_rows request limit t res :
  let p := "%" +:+ EscapeLikePattern (sreq_query request) +:+ "%" in
  nul_free (sreq_query request) → (0 < limit)%Z →
  limited limit res
    (((λ r, ApplyFallbackScore (summary_hit r)) <$> like_summaries request p limit t) ++
     ((λ r, ApplyFallbackScore (entity_hit r)) <$> like_entities request p limit t) ++
     ((λ r, ApplyFallbackScore (relation_hit r)) <$> like_relations request p limit t)) →
  limited limit res (mentioned request t).
Proof.
  intros p Hq Hl. unfold mentioned, like_summaries, like_entities, like_relations, p.
  rewrite bind_like_pattern by done.
  assert (∀ q s, like ("%" +:+ EscapeLikePattern q +:+ "%") s = str_contains (ToLower q) (ToLower s)) as Hlike
    by exact like_escaped_contains.
  apply limited_app3; apply limited_fmap, limited_take; try done; rewrite sort_by_Permutation, ?scan_entities_perm;
    (match goal with |- ?l1 ≡ₚ ?l2 => replace l1 with l2; [done|] end); apply list_filter_iff;
    intros r; unfold mentions; cbn [existsb];
    rewrite !Hlike, Is_true_true, ?orb_false_r, ?orb_assoc, ?andb_true_iff, ?bool_decide_eq_true; tauto.
Qed.

(** Full-text search finds nothing: no match, or not a query FTS5 accepts. *)
Definition fts_finds_nothing (request : MemorySearchRequest) (t : Tables) : Prop :=
  Forall (λ i, default [] (fts_match i (bind_text (Fts5EscapeQuery (sreq_query request)))) = [])
    [t_fts_summaries t; t_fts_entities t; t_fts_relations t].

Lemma fts_select_nothing {R} cp (q : Tables → option (list R)) to_hit c :
  default [] (q (conn_view c)) = [] →
  ∃ e c', fts_select cp q to_hit [] c = (Ret ([], e), c') ∧ conn_view c' = conn_view c ∧
    (e = FtsStepFailed ∨ e = FtsDone).
Proof.
  intros Hq. unfold fts_select, bind, prepare. rewrite (Hreliable _ KPrepare). simpl.
  unfold step_match. change (conn_view (conn_said no_error_msg c)) with (conn_view c).
  destruct (q (conn_view c)) as [l|] eqn:E.
  - unfold step_rows. rewrite (Hreliable _ KStep). simpl.
    change (conn_view (conn_said no_error_msg c)) with (conn_view c). rewrite E. simpl in *. subst l.
    do 2 eexists. split; [done|]. split; [done|]. by right.
  - do 2 eexists. split; [done|]. split; [done|]. by left.
Qed.

Lemma fts_rows_nothing {R} le (id : R → Z) sel rows limit (m : option (list (Z * f64))) :
  default [] m = [] →
  default [] (matches ← m; Some (take (Z.to_nat limit) (sort_by le (fts_join id sel rows matches)))) = [].
Proof. destruct m as [l|]; [|done]. simpl. intros ->. simpl. by rewrite take_nil. Qed.

Lemma fts_phase_nothing request limit c :
  fts_finds_nothing request (conn_view c) →
  ∃ c', fts_phase request (Fts5EscapeQuery (sreq_query request)) limit c = (Ret ([], None), c') ∧
    conn_view c' = conn_view c.
Proof.
  unfold fts_finds_nothing. rewrite !Forall_cons. intros (Hn1 & Hn2 & Hn3 & _). unfold fts_phase.
  destruct (is_empty _); [by exists c|]. set (q := Fts5EscapeQuery (sreq_query request)) in *.
  destruct (fts_select_nothing "SearchLongTermMemory::fts_summaries_prepare" (fts_summaries request q limit)
    (λ '(r, rank), ApplyFtsScore (summary_hit r) rank) c) as (e1 & c1 & E1 & V1 & He1).
  { by apply fts_rows_nothing. }
  rewrite (bind_run _ _ _ _ _ E1). simpl. destruct He1 as [->| ->]; [by exists c1|]. rewrite <- V1 in Hn2, Hn3.
  destruct (fts_select_nothing "SearchLongTermMemory::fts_entities_prepare" (fts_entities request q limit)
    (λ '(r, rank), ApplyFtsScore (entity_hit r) rank) c1) as (e2 & c2 & E2 & V2 & He2).
  { by apply fts_rows_nothing. }
  rewrite (bind_run _ _ _ _ _ E2). simpl.
  destruct He2 as [->| ->]; [exists c2; split; [done|congruence]|]. rewrite <- V2 in Hn3.
  destruct (fts_select_nothing "SearchLongTermMemory::fts_relations_prepare" (fts_relations request q limit)
    (λ '(r, rank), ApplyFtsScore (relation_hit r) rank) c2) as (e3 & c3 & E3 & V3 & He3).
  { by apply fts_rows_nothing. }
  rewrite (bind_run _ _ _ _ _ E3). simpl. exists c3. split; [by destruct He3 as [->| ->]|congruence].
Qed.

Lemma like_phase_reliable request limit c :
  let p := "%" +:+ EscapeLikePattern (sreq_query request) +:+ "%" in
  ∃ c', like_phase request limit c
  = (Ret (((λ r, ApplyFallbackScore (summary_hit r)) <$> like_summaries request p limit (conn_view c)) ++
          ((λ r, ApplyFallbackScore (entity_hit r)) <$> like_entities request p limit (conn_view c)) ++
          ((λ r, ApplyFallbackScore (relation_hit r)) <$> like_relations request p limit (conn_view c)), None), c').
Proof.
  intros p. unfold like_phase.
  destruct (select_reliable Hreliable "SearchLongTermMemory::like_summaries_prepare"
    "SearchLongTermMemory::like_summaries_step" (like_summaries request p limit) c) as (c1 & E1 & M1 & T1).
  rewrite (bind_run _ _ _ _ _ E1). simpl.
  destruct (select_reliable Hreliable "SearchLongTermMemory::like_entities_prepare"
    "SearchLongTermMemory::like_entities_step" (like_entities request p limit) c1) as (c2 & E2 & M2 & T2).
  rewrite (bind_run _ _ _ _ _ E2). simpl.
  destruct (select_reliable Hreliable "SearchLongTermMemory::like_relations_prepare"
    "SearchLongTermMemory::like_relations_step" (like_relations request p limit) c2) as (c3 & E3 & _).
  rewrite (bind_run _ _ _ _ _ E3). simpl. unfold conn_view. rewrite M2, T2, M1, T1. by exists c3.
Qed.
End Fallback.

(** C16: without database faults, for a query that is not empty and holds no NUL: when full-text search
    finds nothing or rejects the query, the search still succeeds and delivers, with the fallback
    scores, only memory the caller may see whose text contains the query in any case of its letters,
    nothing more often than it occurs, and as many as the limit (10 when it is not positive) allows:
    all of it when that is not more than the limit. *)
Theorem search_falls_back_to_substrings `{JsonText} `{SqlEnv} `{SqlPlan} `{FtsEngine}
    (request : MemorySearchRequest) (s : MemorySqliteStore) (c : Conn Tables)
    (Hreliable : ∀ n k, sql_fault n k = None) (Hs : db_ s = Some c)
    (Hq : sreq_query request ≠ "") (Hnul : nul_free (sreq_query request))
    (Hfts : fts_finds_nothing request (conn_view c)) :
  ∃ results s', SearchLongTermMemory request s = (Ret (mkSearchStoreResult true results no_error), s') ∧
    results ⊆+ mentioned request (conn_view c) ∧
    Z.of_nat (length results)
    = Z.min (effective_limit request) (Z.of_nat (length (mentioned request (conn_view c)))) ∧
    ((Z.of_nat (length (mentioned request (conn_view c))) ≤ effective_limit request)%Z →
     results ≡ₚ mentioned request (conn_view c)).
Proof.
  unfold SearchLongTermMemory, on_db, search_long_term. rewrite Hs.
  destruct (is_empty (sreq_query request)) eqn:He; [by destruct (sreq_query request)|].
  fold (effective_limit request).
  destruct (fts_phase_nothing Hreliable request (effective_limit request) c Hfts) as (c1 & E1 & V1).
  rewrite (bind_run _ _ _ _ _ E1). simpl.
  destruct (like_phase_reliable Hreliable request (effective_limit request) c1) as (c2 & E2).
  rewrite (bind_run _ _ _ _ _ E2). simpl. do 2 eexists. split; [reflexivity|]. rewrite V1.
  assert (0 < effective_limit request)%Z as Hl by (unfold effective_limit; case_match; lia).
  match goal with |- ?res ⊆+ _ ∧ _ =>
    assert (limited (effective_limit request) res (mentioned request (conn_view c))) as Hlim end.
  { by apply like_rows, SortAndLimit_limited. }
  split; [apply Hlim|]. split; [apply Hlim|]. by apply limited_all.
Qed.

Lemma search_falls_back_to_substrings_witness :
  let _ := sample_json in let _ := reliable_env in let _ := sample_plan in let _ := sample_fts in
  ∃ results s',
    SearchLongTermMemory (mkSearchRequest "alice" "" "TES" 5 [] json_object) (opened two_agents)
      = (Ret (mkSearchStoreResult true results no_error), s') ∧
    hit_content <$> results = ["topic: auto: tests"].
Proof.
  intros Hj He Hp Hf.
  destruct (search_falls_back_to_substrings (mkSearchRequest "alice" "" "TES" 5 [] json_object)
    (opened two_agents) (mkConn two_agents None 0 no_error_msg)) as (results & s' & E & _ & _ & Hperm).
  - done.
  - reflexivity.
  - done.
  - reflexivity.
  - repeat constructor; vm_compute; reflexivity.
  - exists results, s'. split; [exact E|].
    assert (mentioned (mkSearchRequest "alice" "" "TES" 5 [] json_object) two_agents
      = [ApplyFallbackScore (summary_hit (mkSummaryRow 2 "alice" "s" "topic" "auto" "tests" "[]"
           (Some (f64_of_Z 1)) sample_now))]) as Hm by (vm_compute; reflexivity).
    change (conn_view (mkConn two_agents None 0 no_error_msg)) with two_agents in Hperm.
    rewrite Hm in Hperm. assert (results ≡ₚ [ApplyFallbackScore (summary_hit (mkSummaryRow 2 "alice" "s" "topic" "auto"
      "tests" "[]" (Some (f64_of_Z 1)) sample_now))]) as Hone by (apply Hperm; vm_compute; discriminate).
    apply Permutation_singleton_r in Hone as ->. reflexivity.
Defined.
