(* ===== verification/Consolidation.v ===== *)
(** * Consolidation: src/src/consolidation

    The batch builder, the rule-based and the model-backed processor, the writer and the service
    that ties them together, against the interfaces of [StoreInterface]. *)

From Stdlib Require Import ZArith Lia Ascii String.
From stdpp Require Import base list strings gmap.
From S2P Require Import Prelude CppString Floats Json Types StoreInterface.

Open Scope am_scope.

(** ** long_term_memory_processor.h *)

Record LongTermMemoryBatch := mkBatch {
  batch_events : list MemoryEvent;
  batch_sourceRefs : list string
}.

Record LongTermMemoryUpdate := mkUpdate {
  update_entities : list MemoryEntity;
  update_relations : list MemoryRelation;
  update_profileSummaries : list string;
  update_topicSummaries : list string
}.

Definition empty_update : LongTermMemoryUpdate := mkUpdate [] [] [] [].

(** [class LongTermMemoryProcessor]: a processor that may throw. *)
Definition LongTermMemoryProcessor : Type := LongTermMemoryBatch → Outcome LongTermMemoryUpdate.

(** ** consolidation_batch_builder.cpp *)

Module BatchBuilder.

Record ConsolidationBatchBuildResult := mkBuild {
  build_batch : LongTermMemoryBatch;
  build_sessionId : string;
  build_sessionSummary : string;
  build_sessionSourceRefs : list string;
  build_nextCursor : string
}.

Definition newline : string := String "010"%char EmptyString.

Definition event_cursor (i : nat) (event : MemoryEvent) : string :=
  if negb (is_empty (event_storeCursor event)) then event_storeCursor event
  else to_string (Z.of_nat i + 1).

(** The conditions under which the loop does not [continue]. *)
Definition enters_batch (request : MemoryConsolidationRequest) (event : MemoryEvent) : bool :=
  negb (negb (is_empty (creq_sessionId request)) &&
        negb (bool_decide (event_sessionId event = creq_sessionId request))) &&
  negb (negb (bool_decide (creq_excludedSessionIds request = [])) &&
        bool_decide (event_sessionId event ∈ creq_excludedSessionIds request)) &&
  bool_decide (event_type event = MESSAGE_APPENDED).

Definition source_ref (sessionId cursor : string) : string :=
  "session://" +:+ sessionId +:+ "#event:" +:+ cursor.

(** The loop over the events from index [i]; [summary], [batch] and [nextCursor] are what it has
    collected, [count] the events in the batch. *)
Fixpoint build_loop (request : MemoryConsolidationRequest) (limit : Z) (i : nat) (count : Z)
    (summary : string) (batch : LongTermMemoryBatch) (nextCursor : string) (events : list MemoryEvent)
    : LongTermMemoryBatch * string * string :=
  match events with
  | [] => (batch, summary, nextCursor)
  | event :: rest =>
      let eventCursor := event_cursor i event in
      if negb (enters_batch request event) then
        build_loop request limit (S i) count summary batch eventCursor rest
      else
        let summary := summary +:+ event_role event +:+ ": " +:+ event_content event +:+ newline in
        let batch := mkBatch (batch_events batch ++ [event])
                       (batch_sourceRefs batch ++ [source_ref (creq_sessionId request) eventCursor]) in
        let count := (count + 1)%Z in
        if (0 <? limit)%Z && (limit <=? count)%Z then (batch, summary, eventCursor)
        else build_loop request limit (S i) count summary batch eventCursor rest
  end.

Definition Build (request : MemoryConsolidationRequest) (events : list MemoryEvent)
    : ConsolidationBatchBuildResult :=
  if negb (creq_forceReprocess request) && (creq_maxEvents request <=? 0)%Z then
    mkBuild (mkBatch [] []) (creq_sessionId request) "" [] ""
  else
    let limit := if creq_forceReprocess request && (creq_maxEvents request <=? 0)%Z
                 then wrap32 (Z.of_nat (length events)) else creq_maxEvents request in
    let '(batch, summary, nextCursor) := build_loop request limit 0 0 "" (mkBatch [] []) "" events in
    mkBuild batch (creq_sessionId request) summary ["session://" +:+ creq_sessionId request] nextCursor.
End BatchBuilder.

(** ** rule_based_processor.cpp *)

Module RuleBased.

Definition ContainsPreferenceSignal (text : string) : bool :=
  let lower := ToLower text in
  str_contains "i like" lower || str_contains "i prefer" lower || str_contains "i want" lower ||
  str_contains "please" lower || str_contains "always" lower || str_contains "never" lower.

Definition patterns : list (string * string) :=
  [("project", "project"); ("repository", "project"); ("code", "coding"); ("api", "api");
   ("test", "testing"); ("deploy", "deployment"); ("database", "database");
   ("config", "configuration"); ("security", "security"); ("ui", "ui"); ("frontend", "ui");
   ("backend", "backend"); ("memory", "memory_system")].

Fixpoint first_pattern (lower : string) (l : list (string * string)) : string :=
  match l with
  | [] => ""
  | (needle, topic) :: l' => if str_contains needle lower then topic else first_pattern lower l'
  end.

Definition DetectTopic (text : string) : string := first_pattern (ToLower text) patterns.

Definition topic_entity (batch : LongTermMemoryBatch) (event : MemoryEvent) (topic : string) : MemoryEntity :=
  mkEntity ("entity:topic." +:+ topic) (event_agentId event) "topic" (topic +:+ " topic")
    ("Discussed topic: " +:+ topic) (f32_lit 5 10) true "" "" (batch_sourceRefs batch) json_object "" "".

Definition preference_entity (batch : LongTermMemoryBatch) (event : MemoryEvent) : MemoryEntity :=
  mkEntity "entity:preference.user" (event_agentId event) "preference" "User preference"
    "User expressed preferences in session" (f32_lit 6 10) true "" "" (batch_sourceRefs batch)
    json_object "" "".

Definition preference_relation (batch : LongTermMemoryBatch) (event : MemoryEvent) : MemoryRelation :=
  mkRelation "" (event_agentId event) "entity:user" "has_preference" "entity:preference.user"
    (f32_lit 5 10) (batch_sourceRefs batch) json_object "" "".

(** One iteration of the loop over the batch. *)
Definition process_event (batch : LongTermMemoryBatch)
    (st : LongTermMemoryUpdate * list string * bool) (event : MemoryEvent)
    : LongTermMemoryUpdate * list string * bool :=
  let '(update, seenTopics, hasPreference) := st in
  if negb (bool_decide (event_type event = MESSAGE_APPENDED)) then st
  else
    let topic := DetectTopic (event_content event) in
    let '(update, seenTopics) :=
      if negb (is_empty topic) && negb (bool_decide (topic ∈ seenTopics)) then
        (mkUpdate
           (if bool_decide (topic ≠ "memory_system")
            then update_entities update ++ [topic_entity batch event topic] else update_entities update)
           (update_relations update) (update_profileSummaries update)
           (update_topicSummaries update ++ ["Discussed topic: " +:+ topic]),
         topic :: seenTopics)
      else (update, seenTopics) in
    if negb hasPreference && bool_decide (event_role event = "user") &&
       ContainsPreferenceSignal (event_content event) then
      (mkUpdate (update_entities update ++ [preference_entity batch event])
         (update_relations update ++ [preference_relation batch event])
         (update_profileSummaries update) (update_topicSummaries update),
       seenTopics, true)
    else (update, seenTopics, hasPreference).

Definition Process (batch : LongTermMemoryBatch) : LongTermMemoryUpdate :=
  (foldl (process_event batch) (empty_update, [], false) (batch_events batch)).1.1.

(** As the [LongTermMemoryProcessor] the service is given. *)
Definition RuleBasedLongTermMemoryProcessor : LongTermMemoryProcessor := λ batch, Ret (Process batch).
End RuleBased.

(** ** llm_processor.cpp *)

Module Llm.
Import BatchBuilder.

(** A backquote stands for the double quote in the text below. *)
Definition unquote (s : string) : string :=
  str_map (λ c, if decide (c = "`"%char) then "034"%char else c) s.

Definition prompt_head : string := unquote
"Extract structured long-term memory from the conversation events below.
Return ONLY valid JSON with this exact schema (no markdown fences, no explanation):

{
  `topicSummaries`: [`brief topic summary 1`, `brief topic summary 2`],
  `profileSummaries`: [`user profile insight 1`],
  `entities`: [
    {
      `id`: `entity:unique.id.here`,
      `entityType`: `preference|topic|project|task|file|user|style`,
      `name`: `short name`,
      `summary`: `one-line summary`,
      `confidence`: 0.0-1.0,
      `sourceRefs`: [`session://session-id#event:1`]
    }
  ],
  `relations`: [
    {
      `fromEntityId`: `entity:user`,
      `relationType`: `prefers|works_on|mentions|related_to|supersedes|contradicts`,
      `toEntityId`: `entity:...`,
      `confidence`: 0.0-1.0,
      `sourceRefs`: [`session://session-id#event:1`]
    }
  ]
}

Use `supersedes` when new information replaces an older entity.
Use `contradicts` when information conflicts with a previous entity.
Use `prefers` for user preferences.

Conversation events:
".

Definition prompt_line (batch : LongTermMemoryBatch) (i : nat) (event : MemoryEvent) : string :=
  let sourceRef := match batch_sourceRefs batch !! i with
                   | Some ref => ref
                   | None => "event://" +:+ to_string (Z.of_nat i + 1)
                   end in
  sourceRef +:+ " [" +:+ event_role event +:+ "]: " +:+ event_content event +:+ newline.

Definition BuildPrompt (batch : LongTermMemoryBatch) : string :=
  foldl (λ prompt line, prompt +:+ line) prompt_head (imap (prompt_line batch) (batch_events batch)).

(** [item.contains(key) && item[key].is_string() ? item[key].get<std::string>() : fallback] *)
Definition item_string (item : json) (key fallback : string) : string :=
  if json_contains item key && is_string (json_at item key)
  then match json_at item key with JString s => s | _ => fallback end
  else fallback.

Definition item_confidence (item : json) : f32 :=
  if json_contains item "confidence" && is_number (json_at item "confidence")
  then get_f32 (json_at item "confidence") else f32_lit 5 10.

Definition item_sourceRefs (item : json) (sourceRefs : list string) : list string :=
  let refs := if json_contains item "sourceRefs" && is_array (json_at item "sourceRefs")
              then StringVectorFromJson (json_at item "sourceRefs") else [] in
  match refs with [] => sourceRefs | _ => refs end.

(** The strings of an array field. *)
Definition json_strings (j : json) (key : string) : list string :=
  if json_contains j key && is_array (json_at j key) then StringVectorFromJson (json_at j key) else [].

(** The items of an array field that are objects. *)
Definition json_objects (j : json) (key : string) : list json :=
  match json_at j key with
  | JArray items => if json_contains j key then filter (λ item, is_object item) items else []
  | _ => []
  end.

(** [index] is the number of entities collected before. *)
Definition parse_entity (sourceRefs : list string) (agentId : string) (index : nat) (item : json)
    : MemoryEntity :=
  mkEntity (item_string item "id" ("entity:llm." +:+ to_string (Z.of_nat index))) agentId
    (item_string item "entityType" "unknown") (item_string item "name" "")
    (item_string item "summary" "") (item_confidence item) true "" "" (item_sourceRefs item sourceRefs)
    json_object "" "".

Definition parse_relation (sourceRefs : list string) (agentId : string) (item : json) : MemoryRelation :=
  mkRelation "" agentId (item_string item "fromEntityId" "") (item_string item "relationType" "related_to")
    (item_string item "toEntityId" "") (item_confidence item) (item_sourceRefs item sourceRefs)
    json_object "" "".

Section Model.
Context `{JsonText}.

Definition ParseResponse (jsonStr : string) (sourceRefs : list string) (agentId : string)
    : LongTermMemoryUpdate :=
  match json_parse_noexcept jsonStr with
  | None => empty_update
  | Some j =>
      if negb (is_object j) then empty_update
      else
        mkUpdate (imap (parse_entity sourceRefs agentId) (json_objects j "entities"))
          (parse_relation sourceRefs agentId <$> json_objects j "relations")
          (json_strings j "profileSummaries") (json_strings j "topicSummaries")
  end.

(** The text between the first opening and the last closing brace. *)
Definition clean_response (text : string) : string :=
  match find_char "{"%char text, rfind_char "}"%char text with
  | Some start, Some stop =>
      if (start <? stop)%nat then substring start (stop - start + 1) text else text
  | _, _ => text
  end.

Definition Process (model_ : option MemoryModelClient) (batch : LongTermMemoryBatch)
    : Outcome LongTermMemoryUpdate :=
  match model_ with
  | None => Ret empty_update
  | Some model =>
      let? invokeResult := model (BuildPrompt batch) in
      if negb (invoke_ok invokeResult) then Ret empty_update
      else
        Ret (ParseResponse (clean_response (invoke_text invokeResult)) (batch_sourceRefs batch)
               (match batch_events batch with [] => "" | event :: _ => event_agentId event end))
  end.
End Model.
End Llm.

(** ** memory_update_writer.cpp *)

Module Writer.

Record MemoryUpdateWriteResult := mkWriteResult {
  write_succeeded : bool;
  write_savedSummaries : Z;
  write_savedEntities : Z;
  write_savedRelations : Z;
  write_error : MemoryError
}.

Definition default_WriteResult : MemoryUpdateWriteResult := mkWriteResult true 0 0 0 no_error.

Definition FailedWrite (operation : MemoryOperationResult) : MemoryUpdateWriteResult :=
  mkWriteResult false 0 0 0 (op_error operation).

Section Transaction.
Context {X : Type} `{MemoryStoreTransaction X}.

Definition SaveSessionSummary (agentId sessionId summary : string) (sourceRefs : list string)
    : M X MemoryUpdateWriteResult :=
  let* operation := tx_SaveSummary agentId sessionId "session" "conversation" summary (f32_lit 5 10)
                      sourceRefs in
  if negb (op_succeeded operation) then ret (FailedWrite operation)
  else ret (mkWriteResult true 1 0 0 no_error).

(** One of the loops of SaveUpdate: how many items were saved, or the operation that failed. *)
Fixpoint save_each {A} (save : A → M X MemoryOperationResult) (items : list A)
    : M X (Z + MemoryOperationResult) :=
  match items with
  | [] => ret (inl 0%Z)
  | item :: items' =>
      let* operation := save item in
      if negb (op_succeeded operation) then ret (inr operation)
      else
        let* rest := save_each save items' in
        ret (match rest with inl n => inl (n + 1)%Z | inr failed => inr failed end)
  end.

Definition with_entity_agent (agentId : string) (entity : MemoryEntity) : MemoryEntity :=
  if is_empty (entity_agentId entity)
  then mkEntity (entity_id entity) agentId (entity_entityType entity) (entity_name entity)
         (entity_summary entity) (entity_confidence entity) (entity_isActive entity)
         (entity_supersededByEntityId entity) (entity_supersededEntityId entity)
         (entity_sourceRefs entity) (entity_metadata entity) (entity_createdAt entity)
         (entity_updatedAt entity)
  else entity.

Definition with_relation_agent (agentId : string) (relation : MemoryRelation) : MemoryRelation :=
  if is_empty (relation_agentId relation)
  then mkRelation (relation_id relation) agentId (relation_fromEntityId relation)
         (relation_relationType relation) (relation_toEntityId relation)
         (relation_confidence relation) (relation_sourceRefs relation) (relation_metadata relation)
         (relation_createdAt relation) (relation_updatedAt relation)
  else relation.

Definition save_entity (agentId : string) (entity : MemoryEntity) : M X MemoryOperationResult :=
  let e := with_entity_agent agentId entity in
  let* operation := tx_SaveEntity e in
  if negb (op_succeeded operation) then ret operation
  else if negb (is_empty (entity_supersededEntityId e))
  then tx_MarkEntityObsolete (entity_supersededEntityId e) (entity_id e)
  else ret operation.

Definition save_relation (agentId : string) (relation : MemoryRelation) : M X MemoryOperationResult :=
  tx_SaveRelation (with_relation_agent agentId relation).

Definition SaveUpdate (agentId sessionId : string) (update : LongTermMemoryUpdate)
    (sourceRefs : list string) : M X MemoryUpdateWriteResult :=
  let* topics := save_each (λ s, tx_SaveSummary agentId sessionId "topic" "auto" s (f32_lit 5 10) sourceRefs)
                   (update_topicSummaries update) in
  match topics with
  | inr failed => ret (FailedWrite failed)
  | inl n1 =>
      let* profiles := save_each (λ s, tx_SaveSummary agentId sessionId "profile" "user" s (f32_lit 6 10)
                                         sourceRefs) (update_profileSummaries update) in
      match profiles with
      | inr failed => ret (FailedWrite failed)
      | inl n2 =>
          let* entities := save_each (save_entity agentId) (update_entities update) in
          match entities with
          | inr failed => ret (FailedWrite failed)
          | inl n3 =>
              let* relations := save_each (save_relation agentId) (update_relations update) in
              match relations with
              | inr failed => ret (FailedWrite failed)
              | inl n4 => ret (mkWriteResult true (n1 + n2) n3 n4 no_error)
              end
          end
      end
  end.
End Transaction.
End Writer.

(** ** consolidation_service.cpp *)

Module Service.
Import BatchBuilder Writer.

Definition has_update (update : LongTermMemoryUpdate) : bool :=
  negb (bool_decide (update_topicSummaries update = [])) ||
  negb (bool_decide (update_profileSummaries update = [])) ||
  match update_entities update with [] => false | _ => true end ||
  match update_relations update with [] => false | _ => true end.

Section Consolidate.
Context {S X : Type} `{MemoryLongTermStore S X} `{JsonText}.

(** The tail shared by the two closures: persist the cursor. *)
Definition save_cursor (request : MemoryConsolidationRequest) (nextCursor : string)
    : M X MemoryOperationResult :=
  let* cursorWrite := tx_SaveConsolidationCursor (creq_agentId request) (creq_sessionId request) nextCursor in
  if negb (op_succeeded cursorWrite) then
    ret (if HasError (op_error cursorWrite) then cursorWrite
         else MemoryFailure "cursor_save_failed" "failed to persist consolidation cursor" "" false)
  else ret MemorySuccess.

(** The closure of a run without a batch. *)
Definition cursor_work (request : MemoryConsolidationRequest) (nextCursor : string)
    : M X (MemoryOperationResult * unit) :=
  let* r := save_cursor request nextCursor in
  ret (r, tt).

(** The closure of a run with a batch; it captures [sessionWrite] and [updateWrite]. *)
Definition update_work (request : MemoryConsolidationRequest) (build : ConsolidationBatchBuildResult)
    (update : LongTermMemoryUpdate)
    : M X (MemoryOperationResult * (MemoryUpdateWriteResult * MemoryUpdateWriteResult)) :=
  let* sessionWrite := SaveSessionSummary (creq_agentId request) (build_sessionId build)
                         (build_sessionSummary build) (build_sessionSourceRefs build) in
  if negb (write_succeeded sessionWrite) then
    ret (MemoryFailure "consolidation_failed" "failed to persist session summary"
           (error_details (write_error sessionWrite)) (error_retryable (write_error sessionWrite)),
         (sessionWrite, default_WriteResult))
  else
    let* updateWrite := if has_update update
                        then SaveUpdate (creq_agentId request) (build_sessionId build) update
                               (batch_sourceRefs (build_batch build))
                        else ret default_WriteResult in
    if negb (write_succeeded updateWrite) then
      ret (MemoryFailure "consolidation_failed" "failed to persist memory update"
             (error_details (write_error updateWrite)) (error_retryable (write_error updateWrite)),
           (sessionWrite, updateWrite))
    else
      let* r := if negb (is_empty (build_nextCursor build))
                then save_cursor request (build_nextCursor build) else ret MemorySuccess in
      ret (r, (sessionWrite, updateWrite)).

(** The update of a batch: the model's, or the fallback's when it is empty; and [fallbackUsed]. *)
Definition make_update (fallbackProcessor_ : option LongTermMemoryProcessor)
    (model : option MemoryModelClient) (batch : LongTermMemoryBatch)
    : Outcome (LongTermMemoryUpdate * bool) :=
  let? update := match model with
                 | None => Ret empty_update
                 | Some m => Llm.Process (Some m) batch
                 end in
  match negb (has_update update), fallbackProcessor_ with
  | true, Some fallback => let? update := fallback batch in Ret (update, true)
  | _, _ => Ret (update, false)
  end.

Definition Consolidate (fallbackProcessor_ : option LongTermMemoryProcessor)
    (request : MemoryConsolidationRequest) (events : list MemoryEvent) (model : option MemoryModelClient)
    : M S MemoryConsolidationResult :=
  let build := Build request events in
  let processed := wrap32 (Z.of_nat (length (batch_events (build_batch build)))) in
  let result succeeded fallbackUsed savedSummaries savedEntities savedRelations error :=
    mkConsolidationResult succeeded fallbackUsed processed savedSummaries savedEntities savedRelations
      (build_nextCursor build) (build_sessionId build) error in
  match batch_events (build_batch build) with
  | [] =>
      if is_empty (build_nextCursor build) then ret (result true false 0%Z 0%Z 0%Z no_error)
      else
        let* operation := st_RunInTransaction tt (cursor_work request (build_nextCursor build)) in
        let operation := operation.1 in
        ret (result (op_succeeded operation) false 0%Z 0%Z 0%Z
               (if op_succeeded operation then no_error
                else if HasError (op_error operation) then op_error operation
                else mkError "cursor_save_failed" "failed to persist consolidation cursor" "" false))
  | _ =>
      let* made := lift_outcome (make_update fallbackProcessor_ model (build_batch build)) in
      let '(update, fallbackUsed) := made in
      let* operation := st_RunInTransaction (default_WriteResult, default_WriteResult)
                          (update_work request build update) in
      let '(operation, (sessionWrite, updateWrite)) := operation in
      ret (if op_succeeded operation then
             result true fallbackUsed (write_savedSummaries sessionWrite + write_savedSummaries updateWrite)%Z
               (write_savedEntities updateWrite) (write_savedRelations updateWrite) no_error
           else
             result false fallbackUsed 0%Z 0%Z 0%Z
               (if HasError (op_error operation) then op_error operation
                else mkError "consolidation_failed" "failed to persist consolidation update" "" false))
  end.
End Consolidate.
End Service.
