(* ===== verification/Curl.v ===== *)
(** * The HTTP client: src/src/utils/curl_client.h, curl_client.cpp

    [DoRequest] with the options it sets on every transfer and its retry loop, over libcurl as a
    record of operations on a world of its own; and the ownership of the share handles under
    construction, moves and destruction of clients. Memory is never short: the [bad_alloc] branch of
    the write callback is left out. The headers of an [unordered_map] are sent in the order of
    [map_to_list]; no theorem depends on it. *)

From Stdlib Require Import ZArith Lia Ascii String.
From stdpp Require Import base list strings gmap.
From S2P Require Import Prelude CppString.

Open Scope am_scope.

(** ** Data *)

Definition CURLE_OK : Z := 0.
Definition CURLE_FAILED_INIT : Z := 2.

Record CurlResponse := mkCurlResponse {
  resp_status : Z;
  resp_body : string;
  resp_curlCode : Z;
  resp_errorMessage : string
}.

Definition default_CurlResponse : CurlResponse := mkCurlResponse 0 "" CURLE_OK "".

Definition Ok (response : CurlResponse) : bool :=
  (resp_curlCode response =? CURLE_OK)%Z && (200 <=? resp_status response)%Z && (resp_status response <? 300)%Z.

Record CurlRequestOptions := mkCurlOptions {
  co_timeoutSeconds : Z;
  co_connectTimeoutSeconds : Z;
  co_followRedirects : bool;
  co_maxRetries : Z
}.

Definition default_CurlOptions : CurlRequestOptions := mkCurlOptions 10 5 true 0.

(** The options of an easy handle at [curl_easy_perform]. *)
Record Transfer := mkTransfer {
  tr_share : option positive;
  tr_url : string;
  tr_headers : list string;
  tr_timeout : Z;
  tr_connecttimeout : Z;
  tr_useragent : string;
  tr_accept_encoding : string;
  tr_maxredirs : option Z;
  tr_postfields : option string
}.

(** What a transfer does: the chunks given to the write callback, the code of [curl_easy_perform],
    the response code of [curl_easy_getinfo], and the error buffer. *)
Record Performed := mkPerformed {
  pf_chunks : list string;
  pf_code : Z;
  pf_response_code : Z;
  pf_error : string
}.

(** libcurl and the clock, on a world [W]. *)
Record LibCurl (W : Type) := mkLibCurl {
  curl_easy_init : W → bool * W;
  curl_easy_perform : Transfer → W → Performed * W;
  sleep_milliseconds : Z → W → W;
  curl_easy_escape : string → W → option string * W
}.
Arguments curl_easy_init {W}.
Arguments curl_easy_perform {W}.
Arguments sleep_milliseconds {W}.
Arguments curl_easy_escape {W}.

(** ** The request of one attempt *)

Definition WriteCallback (buffer contents : string) : string := buffer +:+ contents.

Definition header_line (h : string * string) : string := c_str (h.1 +:+ ": " +:+ h.2).

Definition BuildSlist (headers : gmap string string) : list string := header_line <$> map_to_list headers.

Definition HasContentType (headers : gmap string string) : bool :=
  existsb (λ h : string * string, (String.length h.1 =? 12)%nat && EqualsIgnoreCase h.1 "content-type")
    (map_to_list headers).

Definition json_content_type : string := "Content-Type: application/json".

(** The handle as [DoRequest] sets it up. *)
Definition set_options (share_ : option positive) (url : string) (headers : gmap string string)
    (options : CurlRequestOptions) (isPost : bool) (postBody : string) : Transfer :=
  mkTransfer share_ (c_str url)
    (BuildSlist headers ++ (if isPost && negb (HasContentType headers) then [json_content_type] else []))
    (co_timeoutSeconds options) (Z.min (co_connectTimeoutSeconds options) (co_timeoutSeconds options))
    "agent-memory-cpp/1.0" "gzip, deflate"
    (if co_followRedirects options then Some 5%Z else None)
    (if isPost then Some postBody else None).

(** The response after [curl_easy_perform]. *)
Definition performed_response (p : Performed) : CurlResponse :=
  let body := foldl WriteCallback "" (pf_chunks p) in
  if (pf_code p =? CURLE_OK)%Z then mkCurlResponse (pf_response_code p) body (pf_code p) ""
  else mkCurlResponse 0 body (pf_code p) (c_str (pf_error p)).

(** The condition under which the loop stops retrying. *)
Definition settled (response : CurlResponse) : bool :=
  (resp_curlCode response =? CURLE_OK)%Z && (200 <=? resp_status response)%Z &&
  (resp_status response <? 500)%Z && negb (resp_status response =? 429)%Z.

(** ** DoRequest *)

Section Requests.
Context {W : Type} (lib : LibCurl W).

(** One pass of the loop body up to the break; [None] where [curl_easy_init] gives no handle. *)
Definition attempt_once (transfer : Transfer) (w : W) : option CurlResponse * W :=
  let '(ok, w) := curl_easy_init lib w in
  if negb ok then (None, w)
  else let '(p, w) := curl_easy_perform lib transfer w in (Some (performed_response p), w).

(** The loop with [fuel] passes left of [attempts]. *)
Fixpoint request_loop (fuel : nat) (attempts attempt : Z) (transfer : Transfer) (response : CurlResponse) (w : W)
    : CurlResponse * W :=
  match fuel with
  | O => (response, w)
  | S fuel' =>
      match attempt_once transfer w with
      | (None, w) => (mkCurlResponse 0 "" CURLE_FAILED_INIT "", w)
      | (Some response, w) =>
          if settled response then (response, w)
          else
            let w := if (attempt <? attempts - 1)%Z then sleep_milliseconds lib (100 * (attempt + 1)) w else w in
            request_loop fuel' attempts (attempt + 1) transfer response w
      end
  end.

Definition DoRequest (share_ : option positive) (url : string) (headers : gmap string string)
    (options : CurlRequestOptions) (isPost : bool) (postBody : string) (w : W) : CurlResponse * W :=
  let attempts := (1 + co_maxRetries options)%Z in
  request_loop (Z.to_nat attempts) attempts 0
    (set_options share_ url headers options isPost postBody) default_CurlResponse w.

Definition Get (share_ : option positive) (url : string) (headers : gmap string string)
    (options : CurlRequestOptions) (w : W) : CurlResponse * W :=
  DoRequest share_ url headers options false "" w.

Definition Post (share_ : option positive) (url body : string) (extraHeaders : gmap string string)
    (options : CurlRequestOptions) (w : W) : CurlResponse * W :=
  DoRequest share_ url extraHeaders options true body w.

Definition UrlEscape (str : string) (w : W) : string * W :=
  let '(ok, w) := curl_easy_init lib w in
  if negb ok then (str, w)
  else let '(escaped, w) := curl_easy_escape lib str w in
       (match escaped with Some e => c_str e | None => str end, w).
End Requests.

(** ** Share handles

    [shares] maps every live share handle to the client whose mutex it locks ([CURLSHOPT_USERDATA]);
    [clients] maps every live client to its [share_]. Cleaning a handle that is not live, or using one,
    is undefined: [None]. *)

Record ShareState := mkShareState {
  shares : gmap positive positive;
  clients : gmap positive (option positive)
}.

(** [curl_share_cleanup(share_)] where [share_] is not null. *)
Definition share_cleanup (share_ : option positive) (live : gmap positive positive)
    : option (gmap positive positive) :=
  match share_ with
  | None => Some live
  | Some h => match live !! h with Some _ => Some (delete h live) | None => None end
  end.

(** [curl_share_setopt(share_, CURLSHOPT_USERDATA, &shareMutex_)] where [share_] is not null. *)
Definition set_userdata (share_ : option positive) (self : positive) (live : gmap positive positive)
    : option (gmap positive positive) :=
  match share_ with
  | None => Some live
  | Some h => match live !! h with Some _ => Some (<[h := self]> live) | None => None end
  end.

(** [CurlClient()], where [curl_share_init] gave [made]. *)
Definition construct (self : positive) (made : option positive) (s : ShareState) : option ShareState :=
  let live := match made with Some h => <[h := self]> (shares s) | None => shares s end in
  Some (mkShareState live (<[self := made]> (clients s))).

(** [~CurlClient()] *)
Definition destroy (self : positive) (s : ShareState) : option ShareState :=
  match clients s !! self with
  | None => None
  | Some share_ =>
      match share_cleanup share_ (shares s) with
      | None => None
      | Some live => Some (mkShareState live (delete self (clients s)))
      end
  end.

(** [CurlClient(CurlClient&& other)] *)
Definition move_construct (self other : positive) (s : ShareState) : option ShareState :=
  match clients s !! other with
  | None => None
  | Some share_ =>
      match set_userdata share_ self (shares s) with
      | None => None
      | Some live => Some (mkShareState live (<[self := share_]> (<[other := None]> (clients s))))
      end
  end.

(** [operator=(CurlClient&& other)] *)
Definition move_assign (self other : positive) (s : ShareState) : option ShareState :=
  if bool_decide (self = other) then Some s
  else
    match clients s !! self, clients s !! other with
    | Some mine, Some share_ =>
        match share_cleanup mine (shares s) with
        | None => None
        | Some live =>
            match set_userdata share_ self live with
            | None => None
            | Some live => Some (mkShareState live (<[self := share_]> (<[other := None]> (clients s))))
            end
        end
    | _, _ => None
    end.

(** What a program does with clients: a new object where none lives, moves between live ones (or into
    a new one), and the destruction of a live one. [curl_share_init] gives a handle that is not live. *)
Inductive client_step : ShareState → option ShareState → Prop :=
  | step_construct s self made :
      clients s !! self = None → (∀ h, made = Some h → shares s !! h = None) →
      client_step s (construct self made s)
  | step_move_construct s self other :
      clients s !! self = None → is_Some (clients s !! other) → client_step s (move_construct self other s)
  | step_move_assign s self other :
      is_Some (clients s !! self) → is_Some (clients s !! other) → client_step s (move_assign self other s)
  | step_destroy s self :
      is_Some (clients s !! self) → client_step s (destroy self s).

Inductive clients_reachable : ShareState → Prop :=
  | reach_start : clients_reachable (mkShareState ∅ ∅)
  | reach_step s s' : clients_reachable s → client_step s (Some s') → clients_reachable s'.
