(* ===== verification/CurlTheorems.v ===== *)
(** * Theorems on the HTTP client

    The retry loop of [DoRequest] ends after at most one attempt more than the retries, a request is
    sent as it was given, and the share handles have one owner each under moves. *)

From Stdlib Require Import ZArith Lia Ascii String.
From stdpp Require Import base list strings gmap.
From S2P Require Import Prelude CppString Curl.

Open Scope am_scope.

(** ** The retry loop *)

Section Retry.
Context {W : Type} (lib : LibCurl W) (transfer : Transfer).

(** [n] attempts of the same transfer from the [i]-th on, with a pause of 100 ms more between each two:
    what each gave, and the world afterwards. *)
Fixpoint replay (n : nat) (i : Z) (w : W) : list (option CurlResponse) * W :=
  match n with
  | O => ([], w)
  | S n' =>
      let '(r, w) := attempt_once lib transfer w in
      match n' with
      | O => ([r], w)
      | S _ => let '(rs, w) := replay n' (i + 1) (sleep_milliseconds lib (100 * (i + 1)) w) in (r :: rs, w)
      end
  end.

(** The response of an attempt, and whether it ends the loop. *)
Definition response_of (r : option CurlResponse) : CurlResponse :=
  match r with Some r => r | None => mkCurlResponse 0 "" CURLE_FAILED_INIT "" end.
Definition final (r : option CurlResponse) : Prop :=
  match r with
  | Some r => resp_curlCode r = CURLE_OK ∧ (200 ≤ resp_status r < 500)%Z ∧ resp_status r ≠ 429%Z
  | None => True
  end.

Lemma settled_final r : settled r = true ↔ final (Some r).
Proof.
  unfold settled, final. rewrite !andb_true_iff, negb_true_iff, Z.eqb_eq, Z.leb_le, Z.ltb_lt, Z.eqb_neq. tauto.
Qed.

(** The attempts that a run of the loop with [fuel] passes left makes. *)
Definition loop_made (fuel : nat) (i : Z) (response : CurlResponse) (w : W) (run : CurlResponse * W) : Prop :=
  ∃ n passes, (n ≤ fuel)%nat ∧ length passes = n ∧ replay n i w = (passes, run.2) ∧
    run.1 = from_option response_of response (last passes) ∧
    (∀ k r, (S k < n)%nat → passes !! k = Some r → ¬ final r) ∧
    ((n < fuel)%nat → ∃ r, last passes = Some r ∧ final r).

Lemma request_loop_made fuel attempts i response w :
  Z.of_nat fuel = Z.max 0 (attempts - i) →
  loop_made fuel i response w (request_loop lib fuel attempts i transfer response w).
Proof.
  revert i response w. induction fuel as [|fuel IH]; intros i response w Hf; cbn [request_loop].
  { exists 0, []. split_and!; try done; intros; lia. }
  destruct (attempt_once lib transfer w) as [[r|] w1] eqn:Ea.
  2: { exists 1, [None]. cbn [replay]. rewrite Ea. split_and!; try done; [lia|intros; lia|by eexists]. }
  destruct (settled r) eqn:Es.
  { apply settled_final in Es. exists 1, [Some r]. cbn [replay]. rewrite Ea. split_and!; try done; [lia|intros; lia|by eexists]. }
  assert (¬ final (Some r)) as Hr by (rewrite <- settled_final, Es; done).
  destruct (IH (i + 1)%Z r (if (i <? attempts - 1)%Z then sleep_milliseconds lib (100 * (i + 1)) w1 else w1))
    as (n & passes & Hn & Hlen & Hrep & Hres & Hearly & Hend); [lia|].
  destruct n as [|n].
  { (* the fuel was for this attempt only *)
    exists 1, [Some r]. cbn [replay] in Hrep |- *. rewrite Ea. injection Hrep as <- Hw. cbn in Hres.
    destruct fuel as [|fuel]; [|by destruct Hend as (? & ? & ?); [lia|]].
    cbn [request_loop] in Hw, Hres |- *. rewrite (proj2 (Z.ltb_ge _ _)) in Hw |- * by lia. cbn [fst snd].
    split_and!; try done; intros; lia. }
  assert ((i <? attempts - 1)%Z = true) as Hlt by (apply Z.ltb_lt; lia). rewrite Hlt in *.
  exists (S (S n)), (Some r :: passes). split_and!; [lia|by rewrite <- Hlen| | | |].
  - change (replay (S (S n)) i w) with
      (let '(r, w) := attempt_once lib transfer w in
       let '(rs, w) := replay (S n) (i + 1) (sleep_milliseconds lib (100 * (i + 1)) w) in (r :: rs, w)).
    rewrite Ea, Hrep. reflexivity.
  - rewrite Hres. destruct passes as [|p passes]; [done|]. cbn [last].
    destruct (last (p :: passes)) eqn:El; [done|]. by apply last_None in El.
  - intros [|k] r' Hk Hr'; cbn in Hr'; [by injection Hr' as <-|]. eapply Hearly; [|done]. lia.
  - intros Hlt'. destruct Hend as (r' & Hr' & He); [lia|]. exists r'. split; [|done].
    by destruct passes.
Qed.
End Retry.

(** C34: a request ends after at most one attempt more than the retries allow, with linearly growing
    pauses between the attempts; it ends early exactly when an attempt is answered with a status from
    200 to 499 other than 429 (or libcurl gives no handle), and the response is that of the last
    attempt; without retries, as model requests are sent, a single attempt is made. *)
Theorem do_request_attempts {W} (lib : LibCurl W) share url headers options isPost body w :
  let transfer := set_options share url headers options isPost body in
  let run := DoRequest lib share url headers options isPost body w in
  (∃ n passes, (Z.of_nat n ≤ Z.max 0 (1 + co_maxRetries options))%Z ∧ length passes = n ∧
     replay lib transfer n 0 w = (passes, run.2) ∧
     run.1 = from_option response_of default_CurlResponse (last passes) ∧
     (∀ k r, (S k < n)%nat → passes !! k = Some r → ¬ final r) ∧
     ((Z.of_nat n < 1 + co_maxRetries options)%Z → ∃ r, last passes = Some r ∧ final r)) ∧
  (co_maxRetries options = 0%Z →
     run = let '(r, w') := attempt_once lib transfer w in (response_of r, w')).
Proof.
  cbv zeta. unfold DoRequest. set (transfer := set_options _ _ _ _ _ _). split.
  - destruct (request_loop_made lib transfer (Z.to_nat (1 + co_maxRetries options)) (1 + co_maxRetries options) 0
      default_CurlResponse w) as (n & passes & Hn & Hlen & Hrep & Hres & Hearly & Hend); [lia|].
    exists n, passes. split_and!; try done; [lia|]. intros Hlt. apply Hend. lia.
  - intros ->. change (Z.to_nat (1 + 0)) with 1%nat. cbn [request_loop].
    destruct (attempt_once lib transfer w) as [[r|] w']; [|done]. by destruct (settled r).
Qed.

(** ** The transfer of a request *)

Lemma ToLower_length s : String.length (ToLower s) = String.length s.
Proof. apply length_str_map. Qed.

Lemma EqualsIgnoreCase_spec s1 s2 : EqualsIgnoreCase s1 s2 = true ↔ ToLower s1 = ToLower s2.
Proof.
  unfold EqualsIgnoreCase. destruct (Nat.eqb_spec (String.length s1) (String.length s2)) as [_|Hne]; cbn [negb].
  - apply bool_decide_eq_true.
  - split; [done|]. intros He. destruct Hne. by rewrite <- (ToLower_length s1), He, ToLower_length.
Qed.

Lemma HasContentType_spec headers :
  HasContentType headers = true ↔ ∃ k v, headers !! k = Some v ∧ ToLower k = "content-type".
Proof.
  unfold HasContentType. rewrite existsb_exists. split.
  - intros ([k v] & Hin & Hk). apply andb_prop in Hk as [_ Hk]. exists k, v.
    split; [by apply elem_of_map_to_list, list_elem_of_In|]. by apply EqualsIgnoreCase_spec in Hk.
  - intros (k & v & Hl & Hk). exists (k, v). split; [by apply list_elem_of_In, elem_of_map_to_list|].
    cbn [fst]. apply andb_true_intro. split.
    + apply Nat.eqb_eq. rewrite <- ToLower_length, Hk. reflexivity.
    + by apply EqualsIgnoreCase_spec.
Qed.

(** Every attempt sends what the caller gave: a post has the whole body, each header of the caller
    is a line of the request, the JSON content type is added exactly when the caller named no content
    type in any letter case, and connecting never takes longer than the whole request may. *)
Theorem transfer_spec share url headers options isPost body :
  let transfer := set_options share url headers options isPost body in
  tr_postfields transfer = (if isPost then Some body else None) ∧
  tr_url transfer = c_str url ∧ tr_timeout transfer = co_timeoutSeconds options ∧
  (tr_connecttimeout transfer ≤ tr_timeout transfer)%Z ∧
  (∀ k v, headers !! k = Some v → header_line (k, v) ∈ tr_headers transfer) ∧
  (∀ line, line ∈ tr_headers transfer ↔
     (∃ k v, headers !! k = Some v ∧ line = header_line (k, v)) ∨
     line = json_content_type ∧ isPost = true ∧ ¬ ∃ k v, headers !! k = Some v ∧ ToLower k = "content-type").
Proof.
  cbv zeta. unfold set_options. cbn [tr_postfields tr_url tr_timeout tr_connecttimeout tr_headers].
  assert (∀ line, line ∈ BuildSlist headers ↔ ∃ k v, headers !! k = Some v ∧ line = header_line (k, v)) as Hs.
  { intros line. unfold BuildSlist. rewrite list_elem_of_fmap. split.
    - intros ([k v] & -> & Hin). exists k, v. by apply elem_of_map_to_list in Hin.
    - intros (k & v & Hl & ->). exists (k, v). by rewrite elem_of_map_to_list. }
  split_and!; try done; [lia| |].
  - intros k v Hl. apply elem_of_app. left. apply Hs. by exists k, v.
  - intros line. rewrite elem_of_app, Hs. apply or_iff_compat_l. rewrite <- HasContentType_spec.
    destruct isPost, (HasContentType headers); cbn; rewrite ?elem_of_nil, ?list_elem_of_singleton; naive_solver.
Qed.

(** ** Share handles *)

(** Every live handle belongs to exactly one client and locks that client's mutex. *)
Definition owned (s : ShareState) : Prop :=
  ∀ h c, shares s !! h = Some c ↔ clients s !! c = Some (Some h).

(** A live client's own handle can be cleaned up; then no handle is its own. *)
Lemma cleanup_owned s self share_ :
  owned s → clients s !! self = Some share_ →
  ∃ live, share_cleanup share_ (shares s) = Some live ∧
    ∀ h c, live !! h = Some c ↔ c ≠ self ∧ clients s !! c = Some (Some h).
Proof.
  intros Ho Hs. destruct share_ as [h0|]; cbn.
  - apply Ho in Hs as Hl. rewrite Hl. eexists. split; [done|]. intros h c. rewrite lookup_delete_Some, (Ho h c).
    split; [intros [Hne Hc]|intros [Hne Hc]]; (split; [|done]).
    + intros ->. rewrite Hs in Hc. by injection Hc as ->.
    + intros ->. apply Ho in Hc. rewrite Hl in Hc. by injection Hc as ->.
  - eexists. split; [done|]. intros h c. rewrite (Ho h c). split; [|tauto]. intros Hc. split; [|done].
    intros ->. by rewrite Hs in Hc.
Qed.

(** A handle passed from [other] to a client that has none. *)
Lemma handover_owned live cl self other share_ :
  self ≠ other → cl !! other = Some share_ →
  (∀ h c, live !! h = Some c ↔ c ≠ self ∧ cl !! c = Some (Some h)) →
  ∃ live', set_userdata share_ self live = Some live' ∧
    owned (mkShareState live' (<[self := share_]> (<[other := None]> cl))).
Proof.
  intros Hne Hother Ho. destruct share_ as [h0|]; cbn.
  - rewrite (proj2 (Ho h0 other)) by done. eexists. split; [done|]. intros h c. cbn [shares clients].
    rewrite lookup_insert_Some, !lookup_insert_Some, (Ho h c). split.
    + intros [[-> ->]|[Hh [Hc Hl]]]; [by left|]. right. split; [done|]. right. split; [|done].
      intros <-. rewrite Hother in Hl. by injection Hl.
    + intros [[-> [= ->]]|[Hc [[? ?]|[Hc' Hl]]]]; [by left|done|]. right. split; [|done].
      intros <-. apply Hc'. pose proof (proj2 (Ho h0 other) (conj (not_eq_sym Hne) Hother)) as H1.
      pose proof (proj2 (Ho h0 c) (conj (not_eq_sym Hc) Hl)) as H2. congruence.
  - eexists. split; [done|]. intros h c. cbn [shares clients].
    rewrite !lookup_insert_Some, (Ho h c). split.
    + intros [Hc Hl]. right. split; [done|]. right. split; [|done]. intros <-. by rewrite Hother in Hl.
    + intros [[_ ?]|[Hc [[_ ?]|[_ Hl]]]]; done.
Qed.

Lemma step_owned s o : owned s → client_step s o → ∃ s', o = Some s' ∧ owned s'.
Proof.
  intros Ho Hstep. destruct Hstep as [s self made Hnew Hfresh|s self other Hnew [share_ Hs]|
    s self other [mine Hm] [share_ Hs]|s self [share_ Hs]].
  - unfold construct. eexists. split; [done|]. intros h c. cbn [shares clients]. destruct made as [h0|].
    + specialize (Hfresh h0 eq_refl). rewrite !lookup_insert_Some, (Ho h c). split.
      * intros [[-> ->]|[Hh Hc]]; [by left|]. right. split; [|done]. intros <-. by rewrite Hnew in Hc.
      * intros [[-> [= ->]]|[Hc Hl]]; [by left|]. right. split; [|done]. intros <-. apply Ho in Hl.
        by rewrite Hfresh in Hl.
    + rewrite lookup_insert_Some, (Ho h c). split; [|by intros [[_ ?]|[]]].
      intros Hc. right. split; [|done]. intros <-. by rewrite Hnew in Hc.
  - unfold move_construct. rewrite Hs.
    destruct (handover_owned (shares s) (clients s) self other share_) as (live & -> & Hl); eauto.
    + intros ->. by rewrite Hnew in Hs.
    + intros h c. rewrite (Ho h c). split; [|tauto]. intros Hc. split; [|done]. intros ->. by rewrite Hnew in Hc.
  - unfold move_assign. case_bool_decide as Heq; [by eexists|]. rewrite Hm, Hs.
    destruct (cleanup_owned s self mine Ho Hm) as (live & -> & Hl).
    destruct (handover_owned live (clients s) self other share_) as (live' & -> & Hl'); eauto.
  - unfold destroy. rewrite Hs. destruct (cleanup_owned s self share_ Ho Hs) as (live & -> & Hl).
    eexists. split; [done|]. intros h c. cbn [shares clients]. rewrite (Hl h c), lookup_delete_Some.
    naive_solver.
Qed.

(** C35: however clients are made, moved and destroyed, no share handle is used or freed after it was
    freed; every live handle has exactly one owner, whose own mutex it locks; and none is left when no
    client is. *)
Theorem share_handles_owned s :
  clients_reachable s →
  (∀ o, client_step s o → is_Some o) ∧
  (∀ h c, shares s !! h = Some c ↔ clients s !! c = Some (Some h)) ∧
  (clients s = ∅ → shares s = ∅).
Proof.
  intros Hr. assert (owned s) as Ho.
  { induction Hr as [|s s' _ IH Hstep].
    - intros h c. cbn. rewrite !lookup_empty. done.
    - destruct (step_owned s (Some s') IH Hstep) as (? & [= <-] & Ho). done. }
  split_and!; [|exact Ho|].
  - intros o Hstep. destruct (step_owned s o Ho Hstep) as (s' & -> & _). by eexists.
  - intros He. apply map_empty. intros h. destruct (shares s !! h) as [c|] eqn:Eh; [|done].
    apply Ho in Eh. by rewrite He, lookup_empty in Eh.
Qed.


(** A client with the handle 7, moved into a new client, and destroyed. *)
Definition no_clients : ShareState := mkShareState ∅ ∅.
Definition made_state : ShareState := default no_clients (construct 1 (Some 7%positive) no_clients).
Definition moved_state : ShareState := default no_clients (move_construct 2 1 made_state).
Definition left_state : ShareState := default no_clients (destroy 1 moved_state).

Lemma share_handles_owned_witness :
  clients_reachable left_state ∧ shares left_state !! 7%positive = Some 2%positive ∧
  clients left_state !! 2%positive = Some (Some 7%positive).
Proof.
  assert (clients_reachable left_state) as Hr.
  { apply (reach_step moved_state left_state); [apply (reach_step made_state moved_state)|].
    - apply (reach_step no_clients made_state); [apply reach_start|].
      change (Some made_state) with (construct 1 (Some 7%positive) no_clients).
      apply step_construct; [done|]. intros h [= <-]. done.
    - change (Some moved_state) with (move_construct 2 1 made_state).
      apply step_move_construct; [done|by eexists].
    - change (Some left_state) with (destroy 1 moved_state). apply step_destroy. by eexists. }
  split; [exact Hr|]. assert (shares left_state !! 7%positive = Some 2%positive) as Hs by reflexivity.
  split; [exact Hs|]. apply (proj1 (proj2 (share_handles_owned left_state Hr))). exact Hs.
Defined.
