(* ===== verification/ModelClients.v ===== *)
(** * The model clients: src/src/model/

    The checks of a model configuration, the factory, and the two providers: endpoint, request body,
    headers, and the reading of the answer. A provider's HTTP transport is a function of the request
    that may throw ([JsonPostTransport]); the default one posts with [CurlClient] (file [Curl]). *)

From Stdlib Require Import ZArith Lia Ascii String.
From stdpp Require Import base list strings gmap.
From S2P Require Import Prelude CppString Floats Json Types Curl.

Open Scope am_scope.

(** ** model_config.h *)

Record ModelConfig := mkBaseConfig {
  mc_baseUrl : string;
  mc_apiKey : string;
  mc_modelName : string;
  mc_timeoutSeconds : Z;
  mc_temperature : f64;
  mc_maxTokens : Z;
  mc_headers : gmap string string;
  mc_extraParams : json
}.

(** [extraParams] as both loaders of a configuration read it. *)
Definition load_extraParams (j : json) : json :=
  if json_contains j "extraParams" && is_object (json_at j "extraParams") then json_at j "extraParams"
  else json_object.

Definition LoadModelConfig (j : json) (defaultMaxTokens : Z) : ModelConfig :=
  mkBaseConfig (JsonString j "baseUrl" "") (JsonString j "apiKey" "") (JsonString j "modelName" "")
    (JsonInt j "timeoutSeconds" 60) (JsonDouble j "temperature" f64_zero)
    (JsonInt j "maxTokens" (JsonInt j "max_tokens" defaultMaxTokens)) (JsonStringMap j "headers")
    (load_extraParams j).

(** [OpenAiModelConfig] and [AnthropicModelConfig] add one field each. *)
Record OpenAiModelConfig := mkOpenAiConfig { oa_config : ModelConfig; oa_organization : string }.
Record AnthropicModelConfig := mkAnthropicConfig { an_config : ModelConfig; an_anthropicVersion : string }.

(** ** model_http_client.h *)

Definition HttpResponse : Type := CurlResponse.

Record JsonPostRequest := mkJsonPost {
  jp_url : string;
  jp_body : string;
  jp_timeoutSeconds : Z;
  jp_headers : gmap string string
}.

Definition JsonPostTransport : Type := JsonPostRequest → Outcome HttpResponse.

(** The post with a client made for it, whose share handle is [share_], in the world [w]. *)
Definition DefaultPostJson {W} (lib : LibCurl W) (share_ : option positive) (w : W) : JsonPostTransport := λ request,
  let options := mkCurlOptions (jp_timeoutSeconds request) (co_connectTimeoutSeconds default_CurlOptions)
                   (co_followRedirects default_CurlOptions) (co_maxRetries default_CurlOptions) in
  Ret (Post lib share_ (jp_url request) (jp_body request) (jp_headers request) options w).1.

(** [ModelHttpClient(transport)]; an empty [std::function] is [None]. *)
Definition ModelHttpClient {W} (lib : LibCurl W) (share_ : option positive) (w : W)
    (transport : option JsonPostTransport) : JsonPostTransport :=
  match transport with Some transport_ => transport_ | None => DefaultPostJson lib share_ w end.

(** ** Helpers of the providers *)

(** [while (!url.empty() && url.back() == '/') url.pop_back();]; the length bounds the iterations. *)
Fixpoint pop_slashes (fuel : nat) (url : string) : string :=
  match fuel with
  | O => url
  | S fuel' => if decide (str_back url = Some "/"%char) then pop_slashes fuel' (pop_back url) else url
  end.

Definition trimmed (url : string) : string := pop_slashes (String.length url) url.

Definition instruction : string := "You are a memory extraction assistant. Output ONLY valid JSON.".

Definition chat_message (role content : string) : json :=
  mk_object [("role", JString role); ("content", JString content)].

(** [error_code], [error_message] and [provider_error] of a failed invocation. *)
Definition invoke_failed (status : Z) (code message provider : string) : ModelInvokeResult :=
  mkInvoke "" status code message provider.

(** The part of [GenerateMemoryUpdate] after the request was sent. *)
Definition read_response (parse : string → Outcome string) (name : string) (response : HttpResponse)
    : Outcome ModelInvokeResult :=
  if (resp_status response <? 200)%Z || (300 <=? resp_status response)%Z then
    Ret (invoke_failed (resp_status response) "http_error" (name +:+ " model request failed") (resp_body response))
  else
    let? text := parse (resp_body response) in
    Ret (if is_empty text then
           invoke_failed (resp_status response) "parse_error"
             (name +:+ " model response did not contain memory update text") (resp_body response)
         else mkInvoke text (resp_status response) "" "" "").

(** ** provider/openai *)

Module OpenAi.
Section Client.
Context `{JsonText}.

Definition Endpoint (config_ : ModelConfig) : string :=
  let url := trimmed (mc_baseUrl config_) in
  if ends_with "/chat/completions" url then url else url +:+ "/chat/completions".

Definition request_body (config_ : ModelConfig) (prompt : string) : json :=
  let body := if is_object (mc_extraParams config_) then mc_extraParams config_ else json_object in
  let body := json_set body "model" (JString (mc_modelName config_)) in
  let body := json_set body "temperature" (JFloat (mc_temperature config_)) in
  let body := if (0 <? mc_maxTokens config_)%Z then json_set body "max_tokens" (JInteger (mc_maxTokens config_))
              else body in
  json_set body "messages" (JArray [chat_message "system" instruction; chat_message "user" prompt]).

Definition BuildRequestBody (config_ : ModelConfig) (prompt : string) : Outcome string :=
  json_dump (request_body config_ prompt).

Definition ParseResponseBody (body : string) : Outcome string :=
  match json_parse_noexcept body with
  | None => Ret ""
  | Some j =>
      if negb (is_object j) then Ret ""
      else if json_contains j "error" then Ret ""
      else
        match json_at j "choices" with
        | JArray (choice :: _) =>
            if json_contains choice "message" && is_object (json_at choice "message") then
              json_value_string (json_at choice "message") "content" ""
            else if json_contains choice "text" && is_string (json_at choice "text") then
              get_string (json_at choice "text")
            else Ret ""
        | _ => Ret ""
        end
  end.

Definition request_headers (config_ : OpenAiModelConfig) : gmap string string :=
  let headers := mc_headers (oa_config config_) in
  let headers := if negb (is_empty (mc_apiKey (oa_config config_)))
                 then <["Authorization" := "Bearer " +:+ mc_apiKey (oa_config config_)]> headers else headers in
  if negb (is_empty (oa_organization config_))
  then <["OpenAI-Organization" := oa_organization config_]> headers else headers.

Definition GenerateMemoryUpdate (config_ : OpenAiModelConfig) (httpClient_ : JsonPostTransport)
    : MemoryModelClient := λ prompt,
  if is_empty (mc_baseUrl (oa_config config_)) || is_empty (mc_modelName (oa_config config_)) then
    Ret (invoke_failed 0 "invalid_config" "OpenAI model config requires baseUrl and modelName" "")
  else
    let? body := BuildRequestBody (oa_config config_) prompt in
    let? response := httpClient_ (mkJsonPost (Endpoint (oa_config config_)) body
                                    (mc_timeoutSeconds (oa_config config_)) (request_headers config_)) in
    read_response ParseResponseBody "OpenAI" response.
End Client.
End OpenAi.

(** ** provider/anthropic *)

Module Anthropic.
Section Client.
Context `{JsonText}.

Definition Endpoint (config_ : ModelConfig) : string :=
  let url := trimmed (mc_baseUrl config_) in
  if ends_with "/v1/messages" url then url
  else if ends_with "/v1" url then url +:+ "/messages"
  else url +:+ "/v1/messages".

Definition request_body (config_ : ModelConfig) (prompt : string) : json :=
  let body := if is_object (mc_extraParams config_) then mc_extraParams config_ else json_object in
  let body := json_set body "model" (JString (mc_modelName config_)) in
  let body := json_set body "max_tokens"
                (JInteger (if (0 <? mc_maxTokens config_)%Z then mc_maxTokens config_ else 4096)) in
  let body := json_set body "temperature" (JFloat (mc_temperature config_)) in
  let body := json_set body "system" (JString instruction) in
  json_set body "messages" (JArray [chat_message "user" prompt]).

Definition BuildRequestBody (config_ : ModelConfig) (prompt : string) : Outcome string :=
  json_dump (request_body config_ prompt).

(** The text of one block of the content. *)
Definition block_text (block : json) : Outcome string :=
  if negb (is_object block) then Ret ""
  else
    let? type := json_value_string block "type" "" in
    if bool_decide (type = "text") && json_contains block "text" && is_string (json_at block "text")
    then get_string (json_at block "text") else Ret "".

Fixpoint blocks_text (text : string) (blocks : list json) : Outcome string :=
  match blocks with
  | [] => Ret text
  | block :: blocks' => let? t := block_text block in blocks_text (text +:+ t) blocks'
  end.

Definition ParseResponseBody (body : string) : Outcome string :=
  match json_parse_noexcept body with
  | None => Ret ""
  | Some j =>
      if negb (is_object j) then Ret ""
      else if json_contains j "error" then Ret ""
      else match json_at j "content" with
           | JArray blocks => blocks_text "" blocks
           | _ => Ret ""
           end
  end.

Definition request_headers (config_ : AnthropicModelConfig) : gmap string string :=
  let headers := mc_headers (an_config config_) in
  let headers := if negb (is_empty (mc_apiKey (an_config config_)))
                 then <["x-api-key" := mc_apiKey (an_config config_)]> headers else headers in
  if negb (is_empty (an_anthropicVersion config_))
  then <["anthropic-version" := an_anthropicVersion config_]> headers else headers.

Definition GenerateMemoryUpdate (config_ : AnthropicModelConfig) (httpClient_ : JsonPostTransport)
    : MemoryModelClient := λ prompt,
  if is_empty (mc_baseUrl (an_config config_)) || is_empty (mc_modelName (an_config config_)) then
    Ret (invoke_failed 0 "invalid_config" "Anthropic model config requires baseUrl and modelName" "")
  else
    let? body := BuildRequestBody (an_config config_) prompt in
    let? response := httpClient_ (mkJsonPost (Endpoint (an_config config_)) body
                                    (mc_timeoutSeconds (an_config config_)) (request_headers config_)) in
    read_response ParseResponseBody "Anthropic" response.
End Client.
End Anthropic.

(** ** model_client_factory.cpp *)

Section Factory.
Context `{JsonText}.

Definition base_config (source : MemoryModelConfig) (maxTokens : Z) : ModelConfig :=
  mkBaseConfig (model_baseUrl source) (model_apiKey source) (model_modelName source)
    (model_timeoutSeconds source) (model_temperature source) maxTokens (model_headers source)
    (model_extraParams source).

Definition LoadOpenAiConfig (source : MemoryModelConfig) : OpenAiModelConfig :=
  mkOpenAiConfig (base_config source (model_maxTokens source)) (model_organization source).

Definition LoadAnthropicConfig (source : MemoryModelConfig) : AnthropicModelConfig :=
  mkAnthropicConfig
    (base_config source (if (model_maxTokens source =? 0)%Z then 4096 else model_maxTokens source))
    (if is_empty (model_anthropicVersion source) then "2023-06-01" else model_anthropicVersion source).

(** The error, empty if there is none. *)
Definition ValidateCommon (formatType : string) (config : ModelConfig) : string :=
  if is_empty (mc_baseUrl config) then formatType +:+ " model config missing baseUrl"
  else if is_empty (mc_modelName config) then formatType +:+ " model config missing modelName"
  else if (mc_timeoutSeconds config <=? 0)%Z then
    formatType +:+ " model config timeoutSeconds must be positive"
  else if (mc_maxTokens config <? 0)%Z then formatType +:+ " model config maxTokens must be non-negative"
  else if f_lt (mc_temperature config) f64_zero || f_lt (f64_of_Z 2) (mc_temperature config) then
    formatType +:+ " model config temperature must be between 0 and 2"
  else "".

Definition ValidateJsonConfig (j : json) (formatType : string) : string :=
  if HasInvalidString j "formatType" then "model config formatType must be a string"
  else if HasInvalidString j "baseUrl" then formatType +:+ " model config baseUrl must be a string"
  else if HasInvalidString j "apiKey" then formatType +:+ " model config apiKey must be a string"
  else if HasInvalidString j "organization" then formatType +:+ " model config organization must be a string"
  else if HasInvalidString j "anthropicVersion" || HasInvalidString j "anthropic-version" then
    formatType +:+ " model config anthropicVersion must be a string"
  else if HasInvalidString j "modelName" then formatType +:+ " model config modelName must be a string"
  else if HasInvalidInteger j "timeoutSeconds" then
    formatType +:+ " model config timeoutSeconds must be an integer"
  else if HasInvalidInteger j "maxTokens" || HasInvalidInteger j "max_tokens" then
    formatType +:+ " model config maxTokens must be an integer"
  else if HasInvalidNumber j "temperature" then formatType +:+ " model config temperature must be a number"
  else if HasInvalidObject j "headers" then formatType +:+ " model config headers must be an object"
  else if HasInvalidObject j "extraParams" then formatType +:+ " model config extraParams must be an object"
  else "".

(** The configuration and the error. *)
Definition LoadMemoryModelConfigFromJson (j : json) : MemoryModelConfig * string :=
  if negb (is_object j) then (default_ModelConfig, "invalid model config JSON")
  else
    let formatType := JsonString j "formatType" "openai" in
    let error := ValidateJsonConfig j formatType in
    if negb (is_empty error) then (default_ModelConfig, error)
    else
      (mkModelConfig true formatType (JsonString j "baseUrl" "") (JsonString j "apiKey" "")
         (JsonString j "modelName" "") (JsonString j "organization" "")
         (JsonString j "anthropicVersion"
            (JsonString j "anthropic-version" (model_anthropicVersion default_ModelConfig)))
         (JsonInt j "timeoutSeconds" (model_timeoutSeconds default_ModelConfig))
         (JsonDouble j "temperature" (model_temperature default_ModelConfig))
         (JsonInt j "maxTokens" (JsonInt j "max_tokens" (model_maxTokens default_ModelConfig)))
         (JsonStringMap j "headers") (load_extraParams j), "").

(** The client, if there is one, and the error. *)
Definition LoadModelClientFromConfig (modelConfig : MemoryModelConfig) (httpClient : JsonPostTransport)
    : option MemoryModelClient * string :=
  if negb (model_enabled modelConfig) then (None, "")
  else if bool_decide (model_formatType modelConfig = "openai") then
    let config := LoadOpenAiConfig modelConfig in
    let validation := ValidateCommon (model_formatType modelConfig) (oa_config config) in
    if negb (is_empty validation) then (None, validation)
    else (Some (OpenAi.GenerateMemoryUpdate config httpClient), "")
  else if bool_decide (model_formatType modelConfig = "anthropic") then
    let config := LoadAnthropicConfig modelConfig in
    let validation := ValidateCommon (model_formatType modelConfig) (an_config config) in
    if negb (is_empty validation) then (None, validation)
    else (Some (Anthropic.GenerateMemoryUpdate config httpClient), "")
  else (None, "unsupported model formatType: " +:+ model_formatType modelConfig).

Definition LoadModelClientFromJson (j : json) (httpClient : JsonPostTransport)
    : option MemoryModelClient * string :=
  let '(config, error) := LoadMemoryModelConfigFromJson j in
  if negb (is_empty error) then (None, error) else LoadModelClientFromConfig config httpClient.

(** [read] is the file system: the text of a file that can be opened. *)
Definition LoadModelClientWithResult (read : string → option string) (jsonFile : string)
    (httpClient : JsonPostTransport) : option MemoryModelClient * string :=
  match read jsonFile with
  | None => (None, "failed to open model config: " +:+ jsonFile)
  | Some text =>
      match json_parse_noexcept text with
      | Some j => if is_object j then LoadModelClientFromJson j httpClient
                  else (None, "invalid model config JSON")
      | None => (None, "invalid model config JSON")
      end
  end.
End Factory.
