(* ===== verification/ModelTheorems.v ===== *)
(** * Theorems on the model clients

    Which configurations give a client, what a request body holds whatever the extra parameters, the
    endpoints, and what becomes of a consolidation when the model does not deliver: an HTTP error or
    an unreadable answer falls back to the rules, an answer with a null content does not. *)

From Stdlib Require Import ZArith Lia Ascii String SpecFloat.
From stdpp Require Import base list strings gmap.
From S2P Require Import Prelude CppString Floats Json Types Utf8 StoreInterface Sqlite Store StoreSearch Samples.
From S2P Require Import Consolidation Curl ModelClients.

Open Scope am_scope.

(** ** The factory *)

(** A base URL, a model, a positive timeout and a token limit that is not negative. *)
Definition complete (source : MemoryModelConfig) : Prop :=
  model_baseUrl source ≠ "" ∧ model_modelName source ≠ "" ∧ (0 < model_timeoutSeconds source)%Z ∧
  (0 ≤ model_maxTokens source)%Z.

(** The documented range, [0 <= t && t <= 2]. *)
Definition temperature_documented (t : f64) : Prop := f_le f64_zero t = true ∧ f_le t (f64_of_Z 2) = true.

(** A temperature the factory takes: one in the documented range, or NaN, which fails no test of the code. *)
Definition usable (source : MemoryModelConfig) : Prop :=
  complete source ∧ (temperature_documented (model_temperature source) ∨ is_nan (model_temperature source) = true).

Lemma is_empty_false s : is_empty s = false ↔ s ≠ "".
Proof. by destruct s. Qed.

Lemma is_empty_true s : is_empty s = true ↔ s = "".
Proof. by destruct s. Qed.

Lemma str_app_not_empty s1 s2 : s2 ≠ "" → (s1 +:+ s2) ≠ "".
Proof. by destruct s1. Qed.

Lemma ValidateCommon_spec name source tokens :
  (tokens < 0 ↔ model_maxTokens source < 0)%Z →
  ValidateCommon name (base_config source tokens) = "" ↔ usable source.
Proof.
  intros Ht. unfold usable, complete, temperature_documented. rewrite <- f_range_tests by done.
  unfold ValidateCommon. cbn [mc_baseUrl mc_modelName mc_timeoutSeconds mc_maxTokens mc_temperature base_config].
  destruct (is_empty (model_baseUrl source)) eqn:E1.
  { apply is_empty_true in E1. split; [by intros ?%str_app_not_empty|]. by intros [[? _] _]. }
  destruct (is_empty (model_modelName source)) eqn:E2.
  { apply is_empty_true in E2. split; [by intros ?%str_app_not_empty|]. by intros [(_ & ? & _) _]. }
  apply is_empty_false in E1, E2.
  destruct (model_timeoutSeconds source <=? 0)%Z eqn:E3.
  { apply Z.leb_le in E3. split; [by intros ?%str_app_not_empty|]. intros [(_ & _ & ? & _) _]. lia. }
  apply Z.leb_gt in E3. destruct (tokens <? 0)%Z eqn:E4.
  { apply Z.ltb_lt in E4. split; [by intros ?%str_app_not_empty|]. intros [(_ & _ & _ & ?) _]. lia. }
  apply Z.ltb_ge in E4.
  destruct (f_lt (model_temperature source) f64_zero), (f_lt (f64_of_Z 2) (model_temperature source)); simpl;
    (split; [by intros ?%str_app_not_empty || (intros _; split_and!; try done; lia)|intros [_ [? ?]]; done]).
Qed.

(** What the factory promises of the client and the error it returns. *)
Definition load_spec (source : MemoryModelConfig) (loaded : option MemoryModelClient * string) : Prop :=
  (is_Some loaded.1 ↔ model_enabled source = true ∧
     model_formatType source ∈ ["openai"; "anthropic"] ∧ complete source ∧
     (temperature_documented (model_temperature source) ∨ is_nan (model_temperature source) = true)) ∧
  (loaded.2 ≠ "" ↔ model_enabled source = true ∧ loaded.1 = None) ∧
  (∀ c prompt r, loaded.1 = Some c → c prompt = Ret r → invoke_errorCode r ≠ "invalid_config").

(** The branch of one provider, whose validation is [v]. *)
Lemma provider_spec source v (client : MemoryModelClient) :
  model_enabled source = true → model_formatType source ∈ ["openai"; "anthropic"] → (v = "" ↔ usable source) →
  (usable source → ∀ prompt r, client prompt = Ret r → invoke_errorCode r ≠ "invalid_config") →
  load_spec source (if negb (is_empty v) then (None, v) else (Some client, "")).
Proof.
  intros He Hf Hv Hc. unfold load_spec. destruct (is_empty v) eqn:E; cbn [negb fst snd].
  - apply is_empty_true in E. apply Hv in E as Hu. split_and!.
    + split; [by intros _|by eexists].
    + split; [done|by intros [_ ?]].
    + intros c prompt r [= <-]. by apply Hc.
  - apply is_empty_false in E. split_and!; [|done|done].
    split; [by intros []|]. intros (_ & _ & Hu). by apply Hv in Hu.
Qed.

Lemma read_response_code parse name response r :
  read_response parse name response = Ret r → invoke_errorCode r ≠ "invalid_config".
Proof.
  unfold read_response. destruct (_ || _); [by intros [= <-]|].
  destruct (parse _) as [text|]; [|done]. cbn. destruct (is_empty text); by intros [= <-].
Qed.

(** A prompt sent with a usable configuration is judged by its answer. *)
Lemma openai_code `{JsonText} source http prompt r :
  usable source → OpenAi.GenerateMemoryUpdate (LoadOpenAiConfig source) http prompt = Ret r →
  invoke_errorCode r ≠ "invalid_config".
Proof.
  intros [(Hb & Hn & _) _]. unfold OpenAi.GenerateMemoryUpdate.
  cbn [LoadOpenAiConfig oa_config base_config mc_baseUrl mc_modelName].
  rewrite (proj2 (is_empty_false _) Hb), (proj2 (is_empty_false _) Hn). cbn [orb].
  destruct (OpenAi.BuildRequestBody _ prompt); [|done]. cbn [obind].
  destruct (http _); [|done]. apply read_response_code.
Qed.

Lemma anthropic_code `{JsonText} source http prompt r :
  usable source → Anthropic.GenerateMemoryUpdate (LoadAnthropicConfig source) http prompt = Ret r →
  invoke_errorCode r ≠ "invalid_config".
Proof.
  intros [(Hb & Hn & _) _]. unfold Anthropic.GenerateMemoryUpdate.
  cbn [LoadAnthropicConfig an_config base_config mc_baseUrl mc_modelName].
  rewrite (proj2 (is_empty_false _) Hb), (proj2 (is_empty_false _) Hn). cbn [orb].
  destruct (Anthropic.BuildRequestBody _ prompt); [|done]. cbn [obind].
  destruct (http _); [|done]. apply read_response_code.
Qed.

(** C36: the factory gives a client exactly for an enabled configuration of a known provider with a
    base URL, a model, a positive timeout, a non-negative token limit and a temperature that is in the
    documented range, 0 to 2, or is NaN, which the two comparisons of the code let through;
    it reports an error exactly when an enabled configuration gives none; and a client it gave never
    refuses a prompt for its configuration. *)
Theorem client_loaded_iff_usable `{JsonText} (source : MemoryModelConfig) (http : JsonPostTransport) :
  load_spec source (LoadModelClientFromConfig source http).
Proof.
  unfold LoadModelClientFromConfig. destruct (model_enabled source) eqn:Ee; cbn [negb].
  2: { unfold load_spec. cbn [fst snd]. rewrite Ee.
       split_and!; [split; [by intros []|by intros [? _]]|split; [done|by intros [? _]]|done]. }
  destruct (decide (model_formatType source = "openai")) as [Ho|Ho].
  { rewrite bool_decide_eq_true_2 by done. apply provider_spec; [done|rewrite Ho; left| |].
    - by apply ValidateCommon_spec.
    - intros Hu prompt r. by apply openai_code. }
  rewrite (bool_decide_eq_false_2 (_ = "openai")) by done.
  destruct (decide (model_formatType source = "anthropic")) as [Ha|Ha].
  { rewrite bool_decide_eq_true_2 by done. apply provider_spec; [done|rewrite Ha; right; left| |].
    - apply ValidateCommon_spec. destruct (model_maxTokens source =? 0)%Z eqn:E0; [apply Z.eqb_eq in E0; lia|done].
    - intros Hu prompt r. by apply anthropic_code. }
  rewrite bool_decide_eq_false_2 by done. unfold load_spec. cbn [fst snd]. split_and!; [|done|done].
  split; [by intros []|]. intros (_ & Hf & _). rewrite !elem_of_cons, elem_of_nil in Hf. by destruct_or! Hf.
Qed.

(** NaN is outside the documented range and gets a client. *)
Lemma nan_temperature_accepted `{JsonText} (http : JsonPostTransport) :
  let source := mkModelConfig true "openai" "http://localhost/v1/" "" "m" "" "" 60 S754_nan 0 ∅ json_object in
  ¬ temperature_documented (model_temperature source) ∧ is_Some (LoadModelClientFromConfig source http).1.
Proof. split; [by intros []|]. by eexists. Qed.

(** ** Request bodies *)

Lemma json_at_set_eq m k v : json_at (JObject (obj_set k v m)) k = v.
Proof. cbn. by rewrite obj_lookup_set_eq. Qed.

Lemma json_at_set_ne m k k' v : k ≠ k' → json_at (JObject (obj_set k v m)) k' = json_at (JObject m) k'.
Proof. intros Hne. cbn. by rewrite obj_lookup_set_ne. Qed.

(** The extra parameters of a configuration as the providers use them. *)
Definition extra (config : ModelConfig) : json :=
  if is_object (mc_extraParams config) then mc_extraParams config else json_object.

Lemma extra_object config : ∃ m, extra config = JObject m.
Proof. unfold extra. destruct (mc_extraParams config) as [| | | | | | |m]; by eexists. Qed.

(** Read a field of an object that was set key by key. *)
Ltac read_fields :=
  intros; repeat (rewrite json_at_set_eq || rewrite json_at_set_ne by done); reflexivity.

Ltac read_other H :=
  rewrite !not_elem_of_cons in H; destruct_and! H; by rewrite !json_at_set_ne by congruence.

(** C37: extra parameters cannot take over a request: whatever they are, the body names the configured
    model, has the configured temperature and token limit, and its messages are the fixed instruction
    and the prompt; every other parameter is passed on as it was given. *)
Theorem request_body_spec (config : ModelConfig) (prompt : string) :
  (let body := OpenAi.request_body config prompt in
   json_at body "model" = JString (mc_modelName config) ∧
   json_at body "temperature" = JFloat (mc_temperature config) ∧
   json_at body "messages" = JArray [chat_message "system" instruction; chat_message "user" prompt] ∧
   ((0 < mc_maxTokens config)%Z → json_at body "max_tokens" = JInteger (mc_maxTokens config)) ∧
   ∀ key, key ∉ ["model"; "temperature"; "max_tokens"; "messages"] → json_at body key = json_at (extra config) key) ∧
  (let body := Anthropic.request_body config prompt in
   json_at body "model" = JString (mc_modelName config) ∧
   json_at body "temperature" = JFloat (mc_temperature config) ∧
   json_at body "system" = JString instruction ∧
   json_at body "messages" = JArray [chat_message "user" prompt] ∧
   (∃ n, json_at body "max_tokens" = JInteger n ∧ (0 < n)%Z ∧
         ((0 < mc_maxTokens config)%Z → n = mc_maxTokens config)) ∧
   ∀ key, key ∉ ["model"; "max_tokens"; "temperature"; "system"; "messages"] →
     json_at body key = json_at (extra config) key).
Proof.
  destruct (extra_object config) as [m Hm].
  unfold OpenAi.request_body, Anthropic.request_body. change (if is_object _ then _ else _) with (extra config).
  rewrite Hm. cbn [json_set]. split.
  - destruct (0 <? mc_maxTokens config)%Z eqn:E; cbv zeta; cbn [json_set]; split_and!; try read_fields.
    + intros key Hkey. read_other Hkey.
    + apply Z.ltb_ge in E. lia.
    + intros key Hkey. read_other Hkey.
  - cbv zeta. cbn [json_set]. split_and!; try read_fields.
    + eexists. split; [read_fields|]. destruct (0 <? mc_maxTokens config)%Z eqn:E.
      * apply Z.ltb_lt in E. done.
      * apply Z.ltb_ge in E. split; [done|lia].
    + intros key Hkey. read_other Hkey.
Qed.

(** ** Endpoints *)

Fixpoint slashes (n : nat) : string :=
  match n with O => EmptyString | S n' => slashes n' +:+ "/" end.

Lemma pop_slashes_slashes n fuel s :
  (n ≤ fuel)%nat → str_back s ≠ Some "/"%char → pop_slashes fuel (s +:+ slashes n) = s.
Proof.
  revert fuel. induction n as [|n IH]; intros fuel Hf Hs; cbn [slashes].
  - rewrite str_app_nil_r. destruct fuel; [done|]. cbn [pop_slashes]. by rewrite decide_False.
  - destruct fuel as [|fuel]; [lia|]. rewrite <- str_app_assoc. cbn [pop_slashes].
    rewrite decide_True by apply str_back_snoc. rewrite pop_back_snoc. apply IH; [lia|done].
Qed.

Lemma length_slashes n : String.length (slashes n) = n.
Proof. induction n as [|n IH]; [done|]. cbn [slashes]. rewrite length_str_app, IH. cbn. lia. Qed.

Lemma trimmed_slashes n s : str_back s ≠ Some "/"%char → trimmed (s +:+ slashes n) = s.
Proof. intros Hs. apply pop_slashes_slashes; [|done]. rewrite length_str_app, length_slashes. lia. Qed.

Lemma ends_with_app s t : ends_with t (s +:+ t) = true.
Proof. apply ends_with_spec. by exists s. Qed.

Lemma ends_with_back t s : t ≠ "" → ends_with t s = true → str_back s = str_back t.
Proof. intros Ht [p ->]%ends_with_spec. by apply str_back_app. Qed.

Definition with_baseUrl (url : string) (config : ModelConfig) : ModelConfig :=
  mkBaseConfig url (mc_apiKey config) (mc_modelName config) (mc_timeoutSeconds config) (mc_temperature config)
    (mc_maxTokens config) (mc_headers config) (mc_extraParams config).

(** An endpoint that ends in its suffix is its own endpoint, with any slashes after it. *)
Lemma openai_endpoint_fixed config url n :
  ends_with "/chat/completions" url = true → OpenAi.Endpoint (with_baseUrl (url +:+ slashes n) config) = url.
Proof.
  intros He. unfold OpenAi.Endpoint. cbn [mc_baseUrl with_baseUrl].
  apply ends_with_back in He as Hb; [|done]. rewrite trimmed_slashes by (rewrite Hb; intros Hq; vm_compute in Hq; discriminate).
  by rewrite He.
Qed.

Lemma anthropic_endpoint_fixed config url n :
  ends_with "/v1/messages" url = true → Anthropic.Endpoint (with_baseUrl (url +:+ slashes n) config) = url.
Proof.
  intros He. unfold Anthropic.Endpoint. cbn [mc_baseUrl with_baseUrl].
  apply ends_with_back in He as Hb; [|done]. rewrite trimmed_slashes by (rewrite Hb; intros Hq; vm_compute in Hq; discriminate).
  by rewrite He.
Qed.

Lemma openai_endpoint_suffix config : ends_with "/chat/completions" (OpenAi.Endpoint config) = true.
Proof.
  unfold OpenAi.Endpoint. cbv zeta. destruct (ends_with _ (trimmed _)) eqn:E; [done|]. apply ends_with_app.
Qed.

Lemma anthropic_endpoint_suffix config : ends_with "/v1/messages" (Anthropic.Endpoint config) = true.
Proof.
  unfold Anthropic.Endpoint. cbv zeta. destruct (ends_with "/v1/messages" (trimmed _)) eqn:E; [done|].
  destruct (ends_with "/v1" (trimmed _)) eqn:E1; [|apply ends_with_app].
  apply ends_with_spec in E1 as [p ->]. rewrite str_app_assoc. apply (ends_with_app p "/v1/messages").
Qed.

(** The URL a provider posts to ends in the path of its API; slashes after the configured base URL
    make no difference; and configuring the URL itself, with or without slashes after it, gives the
    same URL: it is never appended twice. *)
Theorem endpoint_idempotent (config : ModelConfig) (n : nat) :
  (let url := OpenAi.Endpoint config in
   ends_with "/chat/completions" url = true ∧ OpenAi.Endpoint (with_baseUrl (url +:+ slashes n) config) = url) ∧
  (let url := Anthropic.Endpoint config in
   ends_with "/v1/messages" url = true ∧ Anthropic.Endpoint (with_baseUrl (url +:+ slashes n) config) = url) ∧
  (∀ base, str_back base ≠ Some "/"%char →
   OpenAi.Endpoint (with_baseUrl (base +:+ slashes n) config) = OpenAi.Endpoint (with_baseUrl base config) ∧
   Anthropic.Endpoint (with_baseUrl (base +:+ slashes n) config) = Anthropic.Endpoint (with_baseUrl base config)).
Proof.
  split_and!.
  - split; [apply openai_endpoint_suffix|apply openai_endpoint_fixed, openai_endpoint_suffix].
  - split; [apply anthropic_endpoint_suffix|apply anthropic_endpoint_fixed, anthropic_endpoint_suffix].
  - intros base Hb. unfold OpenAi.Endpoint, Anthropic.Endpoint. cbn [mc_baseUrl with_baseUrl].
    rewrite (trimmed_slashes n) by done. pose proof (trimmed_slashes 0 base Hb) as H0.
    cbn [slashes] in H0. rewrite str_app_nil_r in H0. by rewrite H0.
Qed.

(** ** Consolidation with a model that does not deliver *)

Inductive Provider :=
  | OpenAiProvider (config : OpenAiModelConfig)
  | AnthropicProvider (config : AnthropicModelConfig).

Section Answers.
Context `{JsonText}.

Definition provider_config (p : Provider) : ModelConfig :=
  match p with OpenAiProvider c => oa_config c | AnthropicProvider c => an_config c end.

Definition provider_client (p : Provider) (http : JsonPostTransport) : MemoryModelClient :=
  match p with
  | OpenAiProvider c => OpenAi.GenerateMemoryUpdate c http
  | AnthropicProvider c => Anthropic.GenerateMemoryUpdate c http
  end.

Definition provider_parse (p : Provider) (body : string) : Outcome string :=
  match p with OpenAiProvider _ => OpenAi.ParseResponseBody body
             | AnthropicProvider _ => Anthropic.ParseResponseBody body end.

(** The post that carries a prompt; it throws if the body cannot be written. *)
Definition provider_post (p : Provider) (prompt : string) : Outcome JsonPostRequest :=
  match p with
  | OpenAiProvider c =>
      let? body := OpenAi.BuildRequestBody (oa_config c) prompt in
      Ret (mkJsonPost (OpenAi.Endpoint (oa_config c)) body (mc_timeoutSeconds (oa_config c)) (OpenAi.request_headers c))
  | AnthropicProvider c =>
      let? body := Anthropic.BuildRequestBody (an_config c) prompt in
      Ret (mkJsonPost (Anthropic.Endpoint (an_config c)) body (mc_timeoutSeconds (an_config c))
             (Anthropic.request_headers c))
  end.

Definition http_success (response : HttpResponse) : Prop := (200 ≤ resp_status response < 300)%Z.

(** The answer to a prompt cannot be used: its status is no success, or its text is none or no JSON. *)
Definition unusable (p : Provider) (response : HttpResponse) : Prop :=
  ¬ http_success response ∨
  ∃ text, provider_parse p (resp_body response) = Ret text ∧
    (text = "" ∨ json_parse_noexcept (Llm.clean_response text) = None).

(** What a client makes of an answer. *)
Lemma provider_client_answer p http prompt post response :
  mc_baseUrl (provider_config p) ≠ "" → mc_modelName (provider_config p) ≠ "" →
  provider_post p prompt = Ret post → http post = Ret response →
  ∃ name, provider_client p http prompt = read_response (provider_parse p) name response.
Proof.
  intros Hb Hn Hpost Hhttp. destruct p as [c|c]; cbn in *;
    unfold OpenAi.GenerateMemoryUpdate, Anthropic.GenerateMemoryUpdate;
    rewrite (proj2 (is_empty_false _) Hb), (proj2 (is_empty_false _) Hn); cbn [orb].
  - destruct (OpenAi.BuildRequestBody _ _) as [body|]; [|done]. cbn in Hpost |- *. injection Hpost as <-.
    rewrite Hhttp. by eexists.
  - destruct (Anthropic.BuildRequestBody _ _) as [body|]; [|done]. cbn in Hpost |- *. injection Hpost as <-.
    rewrite Hhttp. by eexists.
Qed.

Lemma read_response_success parse name response :
  http_success response → read_response parse name response =
    let? text := parse (resp_body response) in
    Ret (if is_empty text then invoke_failed (resp_status response) "parse_error"
           (name +:+ " model response did not contain memory update text") (resp_body response)
         else mkInvoke text (resp_status response) "" "" "").
Proof.
  intros [H1 H2]. unfold read_response. by rewrite (proj2 (Z.ltb_ge _ _) H1), (proj2 (Z.leb_gt _ _) H2).
Qed.

Lemma unusable_update p name response batch (client : MemoryModelClient) :
  client (Llm.BuildPrompt batch) = read_response (provider_parse p) name response →
  unusable p response → Llm.Process (Some client) batch = Ret empty_update.
Proof.
  intros Hc Hu. unfold Llm.Process. rewrite Hc. destruct (decide (http_success response)) as [Hs|Hs].
  - rewrite read_response_success by done. destruct Hu as [|(text & -> & Ht)]; [done|]. cbn [obind].
    destruct (is_empty text) eqn:Ee.
    + unfold invoke_failed, invoke_ok. cbn. by rewrite andb_false_r.
    + destruct Ht as [->|Hp]; [done|]. unfold invoke_ok. cbn. rewrite Ee. cbn. unfold Llm.ParseResponse. by rewrite Hp.
  - unfold read_response.
    destruct (_ || _) eqn:Es; [unfold invoke_failed, invoke_ok; cbn; by rewrite andb_false_r|].
    apply orb_false_elim in Es as [?%Z.ltb_ge ?%Z.leb_gt]. destruct Hs. by split.
Qed.

(** An answer of the OpenAI API whose message has a null content, as refusals and tool calls have. *)
Definition null_content (body : string) : Prop :=
  ∃ doc choice rest, json_parse_noexcept body = Some doc ∧ is_object doc = true ∧
    json_contains doc "error" = false ∧ json_at doc "choices" = JArray (choice :: rest) ∧
    json_contains choice "message" = true ∧ is_object (json_at choice "message") = true ∧
    json_contains (json_at choice "message") "content" = true ∧ json_at (json_at choice "message") "content" = JNull.

Lemma null_content_throws body : null_content body → ∃ what, OpenAi.ParseResponseBody body = Throw what.
Proof.
  intros (doc & choice & rest & Hp & Ho & He & Hc & Hm & Hmo & Hct & Hn). unfold OpenAi.ParseResponseBody.
  rewrite Hp, Ho, He, Hc. cbn [negb]. rewrite Hm, Hmo. cbn [andb].
  destruct (json_at choice "message") as [| | | | | | |m]; try done. cbn in *.
  destruct (obj_lookup "content" m) as [v|]; [|done]. cbn in Hn. rewrite Hn. by eexists.
Qed.
End Answers.

(** C29: a consolidation whose model answers with an HTTP error, without text or with text that is not
    JSON is exactly the consolidation without a model, rules included; but where the answer throws while
    it is read, as an OpenAI answer with a null content does, nothing falls back: the exception leaves
    the consolidation, and nothing is stored. *)
Theorem model_failures_fall_back `{JsonText} {S X : Type} `{MemoryLongTermStore S X} (p : Provider)
    (http : JsonPostTransport) fallback request events post response (s : S)
    (Hb : mc_baseUrl (provider_config p) ≠ "") (Hn : mc_modelName (provider_config p) ≠ "")
    (Hpost : provider_post p (Llm.BuildPrompt (BatchBuilder.build_batch (BatchBuilder.Build request events))) = Ret post)
    (Hhttp : http post = Ret response) :
  (unusable p response →
   Service.Consolidate fallback request events (Some (provider_client p http)) s =
   Service.Consolidate fallback request events None s) ∧
  (http_success response → ∀ what, provider_parse p (resp_body response) = Throw what →
   batch_events (BatchBuilder.build_batch (BatchBuilder.Build request events)) ≠ [] →
   Service.Consolidate fallback request events (Some (provider_client p http)) s = (Throw what, s)) ∧
  (null_content (resp_body response) → ∃ what, OpenAi.ParseResponseBody (resp_body response) = Throw what).
Proof.
  destruct (provider_client_answer p http _ post response Hb Hn Hpost Hhttp) as [name Hclient].
  split_and!; [| |apply null_content_throws].
  - intros Hu. unfold Service.Consolidate, Service.make_update.
    by rewrite (unusable_update p name response _ _ Hclient Hu).
  - intros Hs what Hp Hne. unfold Service.Consolidate, Service.make_update, Llm.Process.
    rewrite Hclient, read_response_success, Hp by done.
    by destruct (batch_events _).
Qed.

(** An OpenAI model that answers 200 with a null content. *)
Definition null_answer : json :=
  mk_object [("choices", JArray [mk_object [("message", mk_object [("role", JString "assistant"); ("content", JNull)])]])].
Definition null_transport : JsonPostTransport := λ _, Ret (mkCurlResponse 200 (write_json null_answer) CURLE_OK "").
Definition failing_transport : JsonPostTransport := λ _, Ret (mkCurlResponse 503 "" CURLE_OK "").
Definition sample_provider : Provider :=
  OpenAiProvider (mkOpenAiConfig (mkBaseConfig "http://localhost/v1/" "" "m" 60 f64_zero 0 ∅ json_object) "").
Definition sample_event : MemoryEvent :=
  mkEvent MESSAGE_APPENDED "agent" "s" "user" "I prefer tea" "" "" "" "1" json_object "".
Definition sample_consolidation : MemoryConsolidationRequest :=
  mkConsolidationRequest "agent" "s" 10 false [] json_object.

Lemma model_failures_fall_back_witness :
  let _ := document_json [null_answer] in let _ := reliable_env in let _ := sample_plan in let _ := sample_fts in
  let run := Service.Consolidate (Some RuleBased.RuleBasedLongTermMemoryProcessor) sample_consolidation
               [sample_event] in
  let s := opened empty_tables in
  run (Some (provider_client sample_provider failing_transport)) s = run None s ∧
  ∃ what, run (Some (provider_client sample_provider null_transport)) s = (Throw what, s).
Proof.
  intros Hj He Hp Hf run s.
  assert (∃ post, provider_post sample_provider (Llm.BuildPrompt (BatchBuilder.build_batch
    (BatchBuilder.Build sample_consolidation [sample_event]))) = Ret post) as [post Hpost].
  { destruct (provider_post _ _) as [post|] eqn:E; [by exists post|]. vm_compute in E. discriminate. }
  split.
  - apply (model_failures_fall_back sample_provider failing_transport _ sample_consolidation [sample_event] post
      (mkCurlResponse 503 "" CURLE_OK "")); try done.
    left. intros [_ Hs]. vm_compute in Hs. discriminate.
  - destruct (model_failures_fall_back sample_provider null_transport (Some RuleBased.RuleBasedLongTermMemoryProcessor)
      sample_consolidation [sample_event] post (mkCurlResponse 200 (write_json null_answer) CURLE_OK "") s) as (_ & Hthrow & Hnull); try done.
    destruct Hnull as [what Hw].
    { exists null_answer. do 2 eexists. split_and!; reflexivity. }
    exists what. apply Hthrow; [|exact Hw|done]. split; vm_compute; congruence.
Defined.
