(* ===== verification/ContextBuilder.v ===== *)
(** * Context building: src/src/core/context_builder.cpp and payload_query.cpp

    Every read of the stores, the selection and the rendering of a context package, against the
    store interfaces. The four store pointers of the builder may be null; the state they point to is
    [S]. *)

From Stdlib Require Import ZArith Lia Ascii String.
From stdpp Require Import base list strings gmap.
From S2P Require Import Prelude CppString Floats Json Types StoreInterface.

Open Scope am_scope.

(** ** payload_query.cpp *)

Record PayloadQuery := mkPayloadQuery { query_terms : list string }.

Definition query_empty (q : PayloadQuery) : bool :=
  match query_terms q with [] => true | _ => false end.

Definition newline : string := String "010"%char EmptyString.

Definition ContainsTerm (payload : MemoryPayloadRef) (term : string) : bool :=
  let haystack := ToLower (payload_uri payload +:+ newline +:+ payload_toolName payload +:+ newline +:+
                           payload_summary payload +:+ newline +:+ payload_contentType payload) in
  str_contains term haystack.

Definition ParsePayloadQuery (query : string) : PayloadQuery :=
  mkPayloadQuery (ToLower <$> split_ws query).

Definition MatchesPayloadQuery (payload : MemoryPayloadRef) (query : PayloadQuery) : bool :=
  if query_empty query then true else forallb (ContainsTerm payload) (query_terms query).

(** ** Citations and rendering *)

Definition AddUniqueCitation (citations : list string) (citation : string) : list string :=
  if negb (is_empty citation) && negb (bool_decide (citation ∈ citations))
  then citations ++ [citation] else citations.

Definition AddUniqueCitations (citations refs : list string) : list string :=
  foldl AddUniqueCitation citations refs.

Definition RelationIdMatches (relation : MemoryRelation) (resultId : string) : bool :=
  bool_decide (relation_id relation = resultId) ||
  bool_decide (("relation:" +:+ relation_id relation) = resultId).

Record SelectedLongTermMemory := mkSelected {
  sel_succeeded : bool;
  sel_snapshot : LongTermMemorySnapshot;
  sel_searchResults : list MemorySearchHit;
  sel_usedSearch : bool;
  sel_error : MemoryError
}.

Definition concat_lines (l : list string) : string := foldr (λ line rest, line +:+ rest) "" l.

(** A section of the snapshot text, after an empty line if there is text before it. *)
Definition add_section (text title : string) (lines : list string) : string :=
  match lines with
  | [] => text
  | _ => text +:+ (if negb (is_empty text) then newline else "") +:+ title +:+ newline +:+ concat_lines lines
  end.

Definition FormatLongTermSnapshot (snapshot : LongTermMemorySnapshot) : string :=
  let text := add_section "" "## Long-term Summaries"
    ((λ s, "- [" +:+ summary_level s +:+ "] " +:+ summary_topic s +:+ ": " +:+ summary_summary s
           +:+ " (confidence=" +:+ format_float (summary_confidence s) +:+ ")" +:+ newline)
       <$> snap_summaries snapshot) in
  let text := add_section text "## Memory Entities"
    ((λ e, "- " +:+ entity_id e +:+ " (" +:+ entity_entityType e +:+ ", " +:+ entity_name e +:+ "): "
           +:+ entity_summary e +:+ " (confidence=" +:+ format_float (entity_confidence e) +:+ ")" +:+ newline)
       <$> snap_entities snapshot) in
  add_section text "## Memory Relations"
    ((λ r, "- " +:+ relation_fromEntityId r +:+ " " +:+ relation_relationType r +:+ " "
           +:+ relation_toEntityId r +:+ " (confidence=" +:+ format_float (relation_confidence r) +:+ ")"
           +:+ newline)
       <$> snap_relations snapshot).

Definition FormatSearchResults (searchResults : list MemorySearchHit) : string :=
  match searchResults with
  | [] => ""
  | _ => "## Relevant Long-Term Memory" +:+ newline +:+ concat_lines
           ((λ item, "- [" +:+ hit_type item +:+ "] " +:+ hit_content item +:+ newline) <$> searchResults)
  end.

Definition CollectSnapshotCitations (citations : list string) (snapshot : LongTermMemorySnapshot)
    : list string :=
  let citations := foldl (λ c s, AddUniqueCitations c (summary_sourceRefs s)) citations (snap_summaries snapshot) in
  let citations := foldl (λ c e, AddUniqueCitations c (entity_sourceRefs e)) citations (snap_entities snapshot) in
  foldl (λ c r, AddUniqueCitations c (relation_sourceRefs r)) citations (snap_relations snapshot).

Definition CollectSearchCitations (citations : list string) (searchResults : list MemorySearchHit)
    : list string :=
  foldl (λ c hit, AddUniqueCitations c (hit_sourceRefs hit)) citations searchResults.

(** The rendered text, and the citations. *)
Definition RenderLongTermMemory (selected : SelectedLongTermMemory) (citations : list string)
    : string * list string :=
  if sel_usedSearch selected then
    (FormatSearchResults (sel_searchResults selected),
     CollectSearchCitations (CollectSnapshotCitations citations (sel_snapshot selected))
       (sel_searchResults selected))
  else (FormatLongTermSnapshot (sel_snapshot selected),
        CollectSnapshotCitations citations (sel_snapshot selected)).

(** ** class ContextBuilder *)

Record Builder := mkBuilder {
  cb_config : MemoryConfig;
  cb_eventStore : bool;
  cb_payloadStore : bool;
  cb_longTermStore : bool;
  cb_searchStore : bool
}.

(** context_sections.h *)
Definition Messages : string := "messages".
Definition Payloads : string := "payloads".
Definition Payload : string := "payload".
Definition LongTerm : string := "long_term".
Definition LongTermMemory : string := "long_term_memory".

Definition ShouldInclude (request : MemoryContextRequest) (section : string) : bool :=
  match ctxreq_includeSections request with
  | [] => true
  | sections =>
      existsb (λ item, bool_decide (item = section) ||
        (bool_decide (section = Payloads) && bool_decide (item = Payload)) ||
        (bool_decide (section = LongTerm) && bool_decide (item = LongTermMemory))) sections
  end.

(** [tokenBudget / 200] of a positive [int] *)
Definition LongTermMemoryLimit (cb : Builder) (request : MemoryContextRequest) : Z :=
  let configuredLimit := MetadataInt (ctxreq_metadata request) "long_term_limit" (-1) in
  if (0 <=? configuredLimit)%Z then configuredLimit
  else
    let tokenBudget := if (0 <? ctxreq_tokenBudget request)%Z then ctxreq_tokenBudget request
                       else config_tokenBudget (cb_config cb) in
    if (tokenBudget <=? 0)%Z then 20
    else Z.max 1 (Z.min 50 (tokenBudget / 200)).

Section Build.
Context {S X : Type} `{MemoryEventStore S} `{MemoryPayloadStore S} `{MemoryLongTermStore S X}
  `{MemorySearchStore S}.

Definition LoadMessagesForContext (cb : Builder) (request : MemoryContextRequest) : M S MemoryEventsResult :=
  if negb (cb_eventStore cb) then ret (mkEventsResult true [] no_error)
  else
    let limit := Z.max 0 (MetadataInt (ctxreq_metadata request) "message_limit" 20) in
    if (limit =? 0)%Z then ret (mkEventsResult true [] no_error)
    else
      let* events := st_LoadRecentEvents (ctxreq_agentId request) (ctxreq_sessionId request) limit in
      if negb (events_succeeded events) then ret events
      else ret (mkEventsResult true
                  (filter (λ event, event_type event = MESSAGE_APPENDED) (events_events events)) no_error).

(** The loop over the payloads: [seen] are the URIs met so far, [count] the payloads selected. *)
Fixpoint select_payloads (limit : Z) (query : PayloadQuery) (seen : list string) (count : Z)
    (payloads : list MemoryPayloadRef) : list MemoryPayloadRef :=
  match payloads with
  | [] => []
  | payload :: rest =>
      if bool_decide (payload_uri payload ∈ seen) then select_payloads limit query seen count rest
      else
        let seen := payload_uri payload :: seen in
        if negb (MatchesPayloadQuery payload query) then select_payloads limit query seen count rest
        else
          let count := (count + 1)%Z in
          if (0 <? limit)%Z && (limit <=? count)%Z then [payload]
          else payload :: select_payloads limit query seen count rest
  end.

Definition LoadPayloadsForContext (cb : Builder) (request : MemoryContextRequest)
    : M S MemoryPayloadRefsResult :=
  let limit := Z.max 0 (MetadataInt (ctxreq_metadata request) "payload_limit" 20) in
  if (limit =? 0)%Z || negb (cb_payloadStore cb) then ret (mkPayloadRefsResult true [] no_error)
  else
    let* payloads := st_LoadRecentPayloads (ctxreq_agentId request) (ctxreq_sessionId request) limit in
    if negb (payloads_succeeded payloads) then ret payloads
    else
      let query := ParsePayloadQuery (ctxreq_query request) in
      ret (mkPayloadRefsResult true (select_payloads limit query [] 0 (payloads_payloads payloads)) no_error).

Definition default_selected : SelectedLongTermMemory := mkSelected true empty_snapshot [] false no_error.

Definition SelectLongTermMemory (longTermStore searchStore : bool) (request : MemoryContextRequest)
    (limit : Z) : M S SelectedLongTermMemory :=
  if negb longTermStore || negb searchStore || (limit <=? 0)%Z then ret default_selected
  else if is_empty (ctxreq_query request) then
    let* snapshot := st_LoadLongTermMemory (ctxreq_agentId request) limit (ctxreq_sessionId request) in
    ret (if negb (snapres_succeeded snapshot)
         then mkSelected false empty_snapshot [] false (snapres_error snapshot)
         else mkSelected true (snapres_snapshot snapshot) [] false no_error)
  else
    let* searchResult := st_SearchLongTermMemory
      (mkSearchRequest (ctxreq_agentId request) (ctxreq_sessionId request) (ctxreq_query request) limit []
         json_object) in
    if negb (ssres_succeeded searchResult) then
      ret (mkSelected false empty_snapshot [] false (ssres_error searchResult))
    else
      let searchResults := ssres_results searchResult in
      let* snapshotResult := st_LoadLongTermMemory (ctxreq_agentId request) limit (ctxreq_sessionId request) in
      if negb (snapres_succeeded snapshotResult) then
        ret (mkSelected false empty_snapshot searchResults true (snapres_error snapshotResult))
      else
        let snapshot := snapres_snapshot snapshotResult in
        let ids type := hit_id <$> filter (λ hit, hit_type hit = type) searchResults in
        ret (mkSelected true
          (mkSnapshot []
             (filter (λ entity, entity_id entity ∈ ids "entity") (snap_entities snapshot))
             (filter (λ relation, existsb (RelationIdMatches relation) (ids "relation"))
                (snap_relations snapshot)))
          searchResults true no_error).

(** A [size_t] in JSON is an unsigned number. *)
Definition json_size (n : nat) : json := JUnsigned (Z.of_nat n).

Definition payload_line (p : MemoryPayloadRef) : string :=
  "- uri: " +:+ payload_uri p +:+ ", tool: " +:+ payload_toolName p +:+ ", chars: "
  +:+ to_string (payload_originalChars p) +:+ ", summary: " +:+ payload_summary p +:+ newline.

Definition failed_context (e : MemoryError) : MemoryContextResult :=
  mkContextResult false default_ContextPackage e.

(** The metadata written before the payload section. *)
Definition context_metadata (cb : Builder) (request : MemoryContextRequest) (longTermLimit : Z)
    (messages entities relations citations : nat) : json :=
  let m := json_set json_object "message_count" (json_size messages) in
  let m := json_set m "agentId" (JString (ctxreq_agentId request)) in
  let m := json_set m "sessionId" (JString (ctxreq_sessionId request)) in
  let m := json_set m "tokenBudget"
             (JInteger (if (0 <? ctxreq_tokenBudget request)%Z then ctxreq_tokenBudget request
                        else config_tokenBudget (cb_config cb))) in
  let m := json_set m "long_term_limit" (JInteger longTermLimit) in
  let m := json_set m "include_count" (json_size (length (ctxreq_includeSections request))) in
  let m := json_set m "query_applied" (JBool (negb (is_empty (ctxreq_query request)))) in
  let m := match citations with O => m | _ => json_set m "citation_count" (json_size citations) end in
  let m := json_set m "entity_count" (json_size entities) in
  json_set m "relation_count" (json_size relations).

Definition BuildContext (cb : Builder) (request : MemoryContextRequest) : M S MemoryContextResult :=
  let* messages := if ShouldInclude request Messages then LoadMessagesForContext cb request
                   else ret (mkEventsResult true [] no_error) in
  if negb (events_succeeded messages) then ret (failed_context (events_error messages))
  else
    let ctx_msgs := (λ event, mkMessage (event_role event) (event_content event) (event_toolCallId event)
                                (event_toolName event) (event_payloadRef event)) <$> events_events messages in
    let longTermLimit := LongTermMemoryLimit cb request in
    let* selected :=
      if ShouldInclude request LongTerm && cb_longTermStore cb && cb_searchStore cb && (0 <? longTermLimit)%Z
      then SelectLongTermMemory (cb_longTermStore cb) (cb_searchStore cb) request longTermLimit
      else ret default_selected in
    if negb (sel_succeeded selected) then ret (failed_context (sel_error selected))
    else
      let '(memoryText, citations) := RenderLongTermMemory selected [] in
      let entities := snap_entities (sel_snapshot selected) in
      let relations := snap_relations (sel_snapshot selected) in
      let metadata := context_metadata cb request longTermLimit (length ctx_msgs) (length entities)
                        (length relations) (length citations) in
      if negb (ShouldInclude request Payloads) then
        ret (mkContextResult true
               (mkContextPackage ctx_msgs memoryText entities relations [] citations metadata) no_error)
      else
        let* selectedPayloads := LoadPayloadsForContext cb request in
        if negb (payloads_succeeded selectedPayloads) then
          ret (failed_context (payloads_error selectedPayloads))
        else
          let payloads := payloads_payloads selectedPayloads in
          match payloads with
          | [] =>
              ret (mkContextResult true
                     (mkContextPackage ctx_msgs memoryText entities relations [] citations
                        (json_set metadata "payload_count" (JInteger 0))) no_error)
          | _ =>
              let overview := (if negb (is_empty memoryText) then newline else "")
                +:+ "## Offloaded Payloads" +:+ newline +:+ newline
                +:+ concat_lines (payload_line <$> payloads) in
              ret (mkContextResult true
                     (mkContextPackage ctx_msgs (memoryText +:+ overview) entities relations payloads citations
                        (json_set metadata "payload_count" (json_size (length payloads)))) no_error)
          end.
End Build.
