(* ===== verification/ContextTheorems.v ===== *)
(** * What a context package holds

    The budget of the long-term memory, the citations, the selected payloads and the metadata of a
    package, for any stores that implement the interfaces. *)

From Stdlib Require Import ZArith Lia Ascii String.
From stdpp Require Import base list strings gmap.
From S2P Require Import Prelude CppString Floats Json Types StoreInterface ContextBuilder.

Open Scope am_scope.

(** ** Lemmas: citations *)

(** Citations without repetition and without the empty one. *)
Definition citations_ok (l : list string) : Prop := NoDup l ∧ "" ∉ l.

Lemma AddUniqueCitation_ok l c : citations_ok l → citations_ok (AddUniqueCitation l c).
Proof.
  intros [Hn He]. unfold AddUniqueCitation. destruct (is_empty c) eqn:Ee; [done|]. simpl.
  case_bool_decide as Hc; simpl; [done|]. split.
  - apply NoDup_app. split_and!; [done| |apply NoDup_singleton].
    intros x Hx ->%list_elem_of_singleton. done.
  - rewrite elem_of_app, list_elem_of_singleton. intros [?| <-]; done.
Qed.

Lemma elem_of_AddUniqueCitation l c x :
  x ∈ AddUniqueCitation l c ↔ x ∈ l ∨ (x = c ∧ c ≠ "").
Proof.
  unfold AddUniqueCitation. destruct (is_empty c) eqn:Ee; simpl.
  { destruct c; [|done]. naive_solver. }
  assert (c ≠ "") by (by intros ->). case_bool_decide as Hc; simpl; [naive_solver|].
  rewrite elem_of_app, list_elem_of_singleton. naive_solver.
Qed.

Lemma AddUniqueCitations_ok refs l : citations_ok l → citations_ok (AddUniqueCitations l refs).
Proof. revert l. induction refs as [|r refs IH]; intros l Hl; [done|]. by apply IH, AddUniqueCitation_ok. Qed.

Lemma elem_of_AddUniqueCitations refs l x :
  x ∈ AddUniqueCitations l refs ↔ x ∈ l ∨ (x ∈ refs ∧ x ≠ "").
Proof.
  revert l. induction refs as [|r refs IH]; intros l; simpl; [set_solver|].
  unfold AddUniqueCitations in *. rewrite IH, elem_of_AddUniqueCitation, elem_of_cons. naive_solver.
Qed.

(** Folding over records that carry references. *)
Section Fold.
Context {A : Type} (refs : A → list string).

Lemma fold_citations_ok items l :
  citations_ok l → citations_ok (foldl (λ c x, AddUniqueCitations c (refs x)) l items).
Proof. revert l. induction items as [|x items IH]; intros l Hl; [done|]. by apply IH, AddUniqueCitations_ok. Qed.

Lemma elem_of_fold_citations items l y :
  y ∈ foldl (λ c x, AddUniqueCitations c (refs x)) l items ↔
  y ∈ l ∨ (y ∈ (items ≫= refs) ∧ y ≠ "").
Proof.
  revert l. induction items as [|x items IH]; intros l; simpl; [set_solver|].
  rewrite IH, elem_of_AddUniqueCitations, elem_of_app. tauto.
Qed.
End Fold.

(** The references of everything selected. *)
Definition selected_refs (selected : SelectedLongTermMemory) : list string :=
  (snap_summaries (sel_snapshot selected) ≫= summary_sourceRefs) ++
  (snap_entities (sel_snapshot selected) ≫= entity_sourceRefs) ++
  (snap_relations (sel_snapshot selected) ≫= relation_sourceRefs) ++
  (if sel_usedSearch selected then sel_searchResults selected ≫= hit_sourceRefs else []).

Lemma RenderLongTermMemory_citations selected :
  citations_ok (RenderLongTermMemory selected []).2 ∧
  ∀ x, x ∈ (RenderLongTermMemory selected []).2 ↔ x ∈ selected_refs selected ∧ x ≠ "".
Proof.
  assert (citations_ok []) as H0 by (split; [constructor|apply not_elem_of_nil]).
  unfold RenderLongTermMemory, CollectSearchCitations, CollectSnapshotCitations, selected_refs.
  split; [|intros x]; destruct (sel_usedSearch selected); simpl.
  1,2: by repeat apply fold_citations_ok.
  all: rewrite !elem_of_fold_citations, !elem_of_app, ?elem_of_nil; tauto.
Qed.

(** ** Lemmas: payload selection *)

(** The payloads whose reference has not been met. *)
Fixpoint first_by_uri (seen : list string) (payloads : list MemoryPayloadRef) : list MemoryPayloadRef :=
  match payloads with
  | [] => []
  | p :: rest =>
      if bool_decide (payload_uri p ∈ seen) then first_by_uri seen rest
      else p :: first_by_uri (payload_uri p :: seen) rest
  end.

Lemma select_payloads_spec limit query seen count payloads :
  (0 < limit)%Z → (0 ≤ count < limit)%Z →
  select_payloads limit query seen count payloads
  = take (Z.to_nat (limit - count))
      (filter (λ p, MatchesPayloadQuery p query = true) (first_by_uri seen payloads)).
Proof.
  intros Hl. revert seen count. induction payloads as [|p payloads IH]; intros seen count Hc; simpl.
  { by rewrite filter_nil, take_nil. }
  case_bool_decide; [by apply IH|]. rewrite filter_cons.
  destruct (MatchesPayloadQuery p query) eqn:Em; simpl; [|by apply IH].
  replace (0 <? limit)%Z with true by lia. simpl. destruct (limit <=? count + 1)%Z eqn:Es.
  - replace (Z.to_nat (limit - count)) with 1%nat by lia. done.
  - rewrite IH by lia. replace (Z.to_nat (limit - count)) with (S (Z.to_nat (limit - (count + 1)))) by lia. done.
Qed.

Lemma first_by_uri_NoDup seen payloads :
  NoDup (payload_uri <$> first_by_uri seen payloads) ∧
  ∀ p, p ∈ first_by_uri seen payloads → payload_uri p ∉ seen ∧ p ∈ payloads.
Proof.
  revert seen. induction payloads as [|p payloads IH]; intros seen; simpl.
  { split; [constructor|]. by intros p Hp%not_elem_of_nil. }
  case_bool_decide as Hs.
  - destruct (IH seen) as [Hn Hin]. split; [done|]. intros q Hq. destruct (Hin q Hq). split; [done|by right].
  - destruct (IH (payload_uri p :: seen)) as [Hn Hin]. rewrite fmap_cons. split.
    + constructor; [|done]. intros (q & Hq & Hpq)%list_elem_of_fmap. destruct (Hin q Hpq) as [Hni _].
      apply Hni. rewrite <- Hq. left.
    + intros q [->|Hq]%elem_of_cons; [split; [done|left]|]. destruct (Hin q Hq) as [Hni ?].
      split; [|by right]. intros Hqs. apply Hni. by right.
Qed.

Lemma NoDup_fmap_sublist {A B} (f : A → B) l1 l2 : l1 `sublist_of` l2 → NoDup (f <$> l2) → NoDup (f <$> l1).
Proof. intros Hs Hn. eapply sublist_NoDup; [exact Hn|by apply fmap_sublist]. Qed.

(** ** Lemmas: the parts of BuildContext *)

Section Build.
Context {S X : Type} `{MemoryEventStore S} `{MemoryPayloadStore S} `{MemoryLongTermStore S X}
  `{MemorySearchStore S}.

Definition payload_limit (request : MemoryContextRequest) : Z :=
  Z.max 0 (MetadataInt (ctxreq_metadata request) "payload_limit" 20).

(** The payloads of a package: no reference twice, all matching the query, at most the limit. *)
Definition payloads_ok (request : MemoryContextRequest) (payloads : list MemoryPayloadRef) : Prop :=
  NoDup (payload_uri <$> payloads) ∧
  Forall (λ p, MatchesPayloadQuery p (ParsePayloadQuery (ctxreq_query request)) = true) payloads ∧
  (Z.of_nat (length payloads) ≤ payload_limit request)%Z.

Lemma payloads_ok_nil request : payloads_ok request [].
Proof. split_and!; [constructor|constructor|]. unfold payload_limit. simpl. lia. Qed.

Lemma LoadPayloadsForContext_ok cb request s r s' :
  LoadPayloadsForContext cb request s = (Ret r, s') → payloads_succeeded r = true →
  payloads_ok request (payloads_payloads r).
Proof.
  unfold LoadPayloadsForContext. fold (payload_limit request). cbv zeta.
  destruct (payload_limit request =? 0)%Z eqn:E0; simpl.
  { intros [= <- _] _. apply payloads_ok_nil. }
  destruct (cb_payloadStore cb); simpl; [|intros [= <- _] _; apply payloads_ok_nil].
  intros (loaded & s1 & _ & Hk)%bind_Ret_inv Hok. destruct (payloads_succeeded loaded) eqn:Es; simpl in Hk.
  2: { injection Hk as <- _. congruence. }
  injection Hk as <- _. simpl. assert (0 < payload_limit request)%Z as Hl.
  { apply Z.eqb_neq in E0. unfold payload_limit in *. lia. }
  rewrite select_payloads_spec by lia.
  destruct (first_by_uri_NoDup [] (payloads_payloads loaded)) as [Hn _]. split_and!.
  - eapply NoDup_fmap_sublist; [|exact Hn]. etransitivity; [apply sublist_take|apply sublist_filter].
  - apply Forall_take, Forall_forall. by intros p [? _]%list_elem_of_filter.
  - rewrite length_take. lia.
Qed.

Lemma LoadMessagesForContext_type cb request s r s' :
  LoadMessagesForContext cb request s = (Ret r, s') → events_succeeded r = true →
  Forall (λ e, event_type e = MESSAGE_APPENDED) (events_events r).
Proof.
  unfold LoadMessagesForContext. cbv zeta. destruct (negb (cb_eventStore cb)); [by intros [= <- _]|].
  destruct (_ =? 0)%Z; [by intros [= <- _]|]. intros (events & s1 & _ & Hk)%bind_Ret_inv Hok.
  destruct (events_succeeded events) eqn:Ee; simpl in Hk; [|injection Hk as <- _; congruence].
  injection Hk as <- _. simpl. apply Forall_forall. by intros e [? _]%list_elem_of_filter.
Qed.

(** What the metadata says of the listed payloads: nothing when that section was not asked for. *)
Definition payload_count (request : MemoryContextRequest) (payloads : list MemoryPayloadRef) : json :=
  if ShouldInclude request Payloads then
    match payloads with [] => JInteger 0 | _ => json_size (length payloads) end
  else JNull.

(** The metadata keys with the sizes of the parts. *)
Definition metadata_counts (request : MemoryContextRequest) (ctx : MemoryContextPackage) : Prop :=
  json_at (ctx_metadata ctx) "message_count" = json_size (length (ctx_messages ctx)) ∧
  json_at (ctx_metadata ctx) "entity_count" = json_size (length (ctx_entities ctx)) ∧
  json_at (ctx_metadata ctx) "relation_count" = json_size (length (ctx_relations ctx)) ∧
  json_at (ctx_metadata ctx) "citation_count"
  = match ctx_citations ctx with [] => JNull | l => json_size (length l) end ∧
  json_at (ctx_metadata ctx) "payload_count" = payload_count request (ctx_payloadRefs ctx).

Lemma context_metadata_counts cb request ltl m e r c :
  json_at (context_metadata cb request ltl m e r c) "message_count" = json_size m ∧
  json_at (context_metadata cb request ltl m e r c) "entity_count" = json_size e ∧
  json_at (context_metadata cb request ltl m e r c) "relation_count" = json_size r ∧
  json_at (context_metadata cb request ltl m e r c) "citation_count"
  = match c with O => JNull | _ => json_size c end ∧
  json_at (context_metadata cb request ltl m e r c) "payload_count" = JNull.
Proof. by destruct c. Qed.

Lemma metadata_with_payload_count cb request ltl m e r c v key :
  key ∈ ["message_count"; "entity_count"; "relation_count"; "citation_count"] →
  json_at (json_set (context_metadata cb request ltl m e r c) "payload_count" v) key
  = json_at (context_metadata cb request ltl m e r c) key.
Proof. intros Hk. destruct c; repeat (apply elem_of_cons in Hk as [->|Hk]; [done|]); by apply elem_of_nil in Hk. Qed.

Lemma metadata_payload_count cb request ltl m e r c v :
  json_at (json_set (context_metadata cb request ltl m e r c) "payload_count" v) "payload_count" = v.
Proof. by destruct c. Qed.

(** What holds of a package built from the selected memory. *)
Definition package_ok (request : MemoryContextRequest) (ctx : MemoryContextPackage) : Prop :=
  citations_ok (ctx_citations ctx) ∧
  (∀ e ref, e ∈ ctx_entities ctx → ref ∈ entity_sourceRefs e → ref ≠ "" → ref ∈ ctx_citations ctx) ∧
  (∀ r ref, r ∈ ctx_relations ctx → ref ∈ relation_sourceRefs r → ref ≠ "" → ref ∈ ctx_citations ctx) ∧
  payloads_ok request (ctx_payloadRefs ctx) ∧ metadata_counts request ctx ∧
  (ShouldInclude request Messages = false → ctx_messages ctx = []) ∧
  (ShouldInclude request LongTerm = false →
     ctx_entities ctx = [] ∧ ctx_relations ctx = [] ∧ ctx_citations ctx = []) ∧
  (ShouldInclude request Payloads = false → ctx_payloadRefs ctx = []).

Lemma package_ok_intro request selected msgs text payloads metadata cb ltl :
  payloads_ok request payloads →
  (ShouldInclude request Messages = false → msgs = []) →
  (ShouldInclude request LongTerm = false → selected = default_selected) →
  (ShouldInclude request Payloads = false → payloads = []) →
  (let counted := context_metadata cb request ltl (length msgs) (length (snap_entities (sel_snapshot selected)))
                    (length (snap_relations (sel_snapshot selected)))
                    (length (RenderLongTermMemory selected []).2) in
   metadata = if ShouldInclude request Payloads
              then json_set counted "payload_count" (payload_count request payloads) else counted) →
  package_ok request (mkContextPackage msgs text (snap_entities (sel_snapshot selected))
    (snap_relations (sel_snapshot selected)) payloads (RenderLongTermMemory selected []).2 metadata).
Proof.
  intros Hp Hm Hl Hpl Hmeta. destruct (RenderLongTermMemory_citations selected) as [Hok Hin].
  unfold package_ok. simpl. split_and!; [done| | |done| |done| |done].
  - intros e ref He Hr Hne. apply Hin. split; [|done]. unfold selected_refs. rewrite !elem_of_app. right. left.
    apply list_elem_of_bind. by exists e.
  - intros r ref He Hr Hne. apply Hin. split; [|done]. unfold selected_refs. rewrite !elem_of_app. right. right. left.
    apply list_elem_of_bind. by exists r.
  - unfold metadata_counts. simpl.
    pose proof (context_metadata_counts cb request ltl (length msgs) (length (snap_entities (sel_snapshot selected)))
      (length (snap_relations (sel_snapshot selected))) (length (RenderLongTermMemory selected []).2)) as Hc.
    rewrite Hmeta. unfold payload_count. destruct (ShouldInclude request Payloads);
      rewrite ?metadata_payload_count, ?metadata_with_payload_count by set_solver;
      destruct Hc as (-> & -> & -> & -> & Hnone); (split_and!; [done|done|done| |done]);
      by destruct (RenderLongTermMemory selected []).2.
  - intros Hno. by rewrite (Hl Hno).
Qed.
End Build.

(** ** Properties *)

(** C12: a context package is well formed, whatever the stores return: every source of a listed entity
    or relation is cited, once; no payload is listed twice, every one matches the query and they keep
    to the payload limit; the counts in the metadata are the sizes of the parts (of the messages, entities,
    relations, citations and, when payloads were asked for, the payload references); and a section that
    was not asked for is empty. *)
Theorem build_context_well_formed {S X : Type} `{MemoryEventStore S} `{MemoryPayloadStore S}
    `{MemoryLongTermStore S X} `{MemorySearchStore S} (cb : Builder) (request : MemoryContextRequest)
    (s s' : S) (r : MemoryContextResult) (Hbuild : BuildContext cb request s = (Ret r, s'))
    (Hok : ctxres_succeeded r = true) :
  package_ok request (ctxres_context r).
Proof.
  unfold BuildContext in Hbuild. apply bind_Ret_inv in Hbuild as (messages & s1 & Hm & Hbuild).
  destruct (events_succeeded messages) eqn:Em; simpl in Hbuild; [|injection Hbuild as <- _; done].
  assert (ShouldInclude request Messages = false → events_events messages = []) as Hmsgs.
  { intros Hno. rewrite Hno in Hm. by injection Hm as <- _. }
  cbv zeta in Hbuild. apply bind_Ret_inv in Hbuild as (selected & s2 & Hs & Hbuild).
  destruct (sel_succeeded selected) eqn:Es; simpl in Hbuild; [|injection Hbuild as <- _; done].
  assert (ShouldInclude request LongTerm = false → selected = default_selected) as Hsel.
  { intros Hno. rewrite Hno in Hs. simpl in Hs. by injection Hs as <- _. }
  destruct (RenderLongTermMemory selected []) as [text citations] eqn:Er.
  assert (citations = (RenderLongTermMemory selected []).2) as Hc by (by rewrite Er).
  destruct (ShouldInclude request Payloads) eqn:Ep; simpl in Hbuild.
  2: { injection Hbuild as <- _. simpl. rewrite Hc. eapply package_ok_intro; [apply payloads_ok_nil| |done|done|cbv zeta; by rewrite Ep].
       intros Hno. by rewrite (Hmsgs Hno). }
  apply bind_Ret_inv in Hbuild as (loaded & s3 & Hp & Hbuild).
  destruct (payloads_succeeded loaded) eqn:El; simpl in Hbuild; [|injection Hbuild as <- _; done].
  pose proof (LoadPayloadsForContext_ok cb request s2 loaded s3 Hp El) as Hpok.
  destruct (payloads_payloads loaded) as [|p l]; injection Hbuild as <- _; simpl; rewrite Hc;
    (eapply package_ok_intro; [done| |done|congruence|cbv zeta; unfold payload_count; by rewrite Ep]);
    intros Hno; by rewrite (Hmsgs Hno).
Qed.

(** A store with two messages, and no payload or long-term memory. *)
Definition message_store : MemoryEventStore unit := {|
  st_SaveEvent := λ _ s, (Ret MemorySuccess, s);
  st_LoadEventsAfterCursor := λ _ _ _ _ s, (Ret (mkEventsResult true [] no_error), s);
  st_LoadRecentEvents := λ a session limit s,
    (Ret (mkEventsResult true
       [mkEvent MESSAGE_APPENDED a session "user" "hi" "" "" "" "1" json_object "";
        mkEvent SESSION_ENDED a session "" "" "" "" "" "2" json_object ""] no_error), s)
|}.

Definition refuse : MemoryOperationResult := MemoryFailure "no" "no" "" false.

Definition no_transaction : MemoryStoreTransaction unit := {|
  tx_SaveSummary := λ _ _ _ _ _ _ _ s, (Ret refuse, s);
  tx_SaveEntity := λ _ s, (Ret refuse, s);
  tx_SaveRelation := λ _ s, (Ret refuse, s);
  tx_MarkEntityObsolete := λ _ _ s, (Ret refuse, s);
  tx_SaveConsolidationCursor := λ _ _ _ s, (Ret refuse, s)
|}.

Definition one_entity_store : @MemoryLongTermStore unit unit no_transaction := {|
  st_RunInTransaction W captured work s := (Ret (refuse, captured), s);
  st_LoadConsolidationCursor := λ _ _ s, (Ret (mkCursorResult true "" no_error), s);
  st_SaveConsolidationCursor := λ _ _ _ s, (Ret refuse, s);
  st_LoadLongTermMemory := λ agent _ _ s,
    (Ret (mkSnapshotResult true (mkSnapshot []
       [mkEntity "e" agent "topic" "n" "x" (f32_lit 1 2) true "" "" ["ref:1"; "ref:1"; ""] json_object "" ""] [])
       no_error), s)
|}.

Definition payload_store : MemoryPayloadStore unit := {|
  st_SavePayload := λ _ s, (Ret refuse, s);
  st_LoadRecentPayloads := λ a session _ s,
    (Ret (mkPayloadRefsResult true
       [mkPayloadRef a session "file://a" "text" "" "grep" 10 json_object "";
        mkPayloadRef a session "file://a" "text" "" "grep" 10 json_object ""] no_error), s)
|}.

Definition no_search : MemorySearchStore unit := {|
  st_SearchLongTermMemory := λ _ s, (Ret (mkSearchStoreResult true [] no_error), s)
|}.

Lemma build_context_well_formed_witness :
  let _ := message_store in let _ := payload_store in let _ := no_transaction in
  let _ := one_entity_store in let _ := no_search in
  let cb := mkBuilder default_Config true true true true in
  let request := mkContextRequest "agent" "s" "" 1000 [] json_object in
  ∃ r s', BuildContext cb request tt = (Ret r, s') ∧ ctxres_succeeded r = true ∧
    citations_ok (ctx_citations (ctxres_context r)) ∧
    NoDup (payload_uri <$> ctx_payloadRefs (ctxres_context r)).
Proof.
  intros He Hp Ht Hl Hs cb request. destruct (BuildContext cb request tt) as [[r|w] s'] eqn:E.
  2: { exfalso. vm_compute in E. discriminate. }
  assert (ctxres_succeeded r = true) as Hok by (vm_compute in E; injection E as <- _; reflexivity).
  pose proof (build_context_well_formed cb request tt s' r E Hok) as (Hc & _ & _ & (Hn & _) & _).
  exists r, s'. split; [reflexivity|]. split; [exact Hok|]. split; [exact Hc|exact Hn].
Defined.

(** The number of long-term memories in a context: a configured limit that is not negative is
    taken as it is; otherwise one for every 200 tokens of the budget (the request's, or the
    configuration's), but at least one and at most 50, and 20 without a budget. *)
Theorem long_term_limit_bounds (cb : Builder) (request : MemoryContextRequest) :
  let configured := MetadataInt (ctxreq_metadata request) "long_term_limit" (-1) in
  let budget := if (0 <? ctxreq_tokenBudget request)%Z then ctxreq_tokenBudget request
                else config_tokenBudget (cb_config cb) in
  let limit := LongTermMemoryLimit cb request in
  if (0 <=? configured)%Z then limit = configured
  else (1 ≤ limit ≤ 50)%Z ∧
       ((budget ≤ 0)%Z → limit = 20%Z) ∧
       ((200 ≤ budget ≤ 10000)%Z → (limit * 200 ≤ budget < (limit + 1) * 200)%Z).
Proof.
  intros configured budget limit. unfold limit, LongTermMemoryLimit. fold configured budget.
  destruct (0 <=? configured)%Z; [done|].
  destruct (budget <=? 0)%Z eqn:Eb.
  - apply Z.leb_le in Eb. split_and!; [lia|lia|done|lia].
  - apply Z.leb_gt in Eb. pose proof (Z.div_mod budget 200 ltac:(lia)).
    pose proof (Z.mod_pos_bound budget 200 ltac:(lia)).
    assert (0 ≤ budget / 200)%Z by (apply Z.div_pos; lia). split_and!; lia.
Qed.
