(* ===== verification/ContextRefinement.v ===== *)
(** * A context package shows the memory

    The client of the abstract memory of [MemoryRefinement] that matters most: [BuildContext] over the
    SQLite store delivers a function of the log, the payload references and the knowledge, not of
    tables, and leaves them as they are. *)

From Stdlib Require Import ZArith Lia Ascii String.
From stdpp Require Import base list strings gmap sorting.
From S2P Require Import Prelude CppString Floats Json Types Sqlite StoreInterface Store StoreInvariant.
From S2P Require Import StoreTransactions StoreReads StoreSearch Samples StoreTheorems EventLog LongTermTheorems.
From S2P Require Import Refinement Knowledge LongTermRefinement MemoryRefinement SearchTheorems.
From S2P Require Import ContextBuilder ContextTheorems.

Open Scope am_scope.

(** ** The specification *)

Definition message_of (e : MemoryEvent) : MemoryMessage :=
  mkMessage (event_role e) (event_content e) (event_toolCallId e) (event_toolName e) (event_payloadRef e).

Definition message_limit (request : MemoryContextRequest) : Z :=
  Z.max 0 (MetadataInt (ctxreq_metadata request) "message_limit" 20).

(** The messages among the last events of the session. *)
Definition recalled_messages (cb : Builder) (request : MemoryContextRequest) (m : Memory) : list MemoryMessage :=
  if ShouldInclude request Messages && cb_eventStore cb && (0 <? message_limit request)%Z then
    message_of <$> filter (λ e, event_type e = MESSAGE_APPENDED)
      (last_n (message_limit request)
         (seen (ctxreq_agentId request) (c_str (ctxreq_sessionId request)) [] (log_events (mem_log m))))
  else [].

(** The newest references that match the query. *)
Definition recalled_payloads (cb : Builder) (request : MemoryContextRequest) (m : Memory) : list MemoryPayloadRef :=
  if ShouldInclude request Payloads && cb_payloadStore cb && (0 <? payload_limit request)%Z then
    filter (λ p, MatchesPayloadQuery p (ParsePayloadQuery (ctxreq_query request)) = true)
      (recent_payload_refs (ctxreq_agentId request) (ctxreq_sessionId request) (payload_limit request)
         (mem_payloads m))
  else [].

Definition long_term_included (cb : Builder) (request : MemoryContextRequest) : bool :=
  ShouldInclude request LongTerm && cb_longTermStore cb && cb_searchStore cb &&
  (0 <? LongTermMemoryLimit cb request)%Z.

(** What is recalled of the knowledge; with a query, part of it. *)
Definition shows_knowledge (cb : Builder) (request : MemoryContextRequest) (m : Memory)
    (package : MemoryContextPackage) : Prop :=
  if long_term_included cb request then
    ∃ snapshot, recalls (mem_knowledge m) (ctxreq_agentId request) (ctxreq_sessionId request)
                  (LongTermMemoryLimit cb request) snapshot ∧
      if is_empty (ctxreq_query request) then
        ctx_entities package = snap_entities snapshot ∧ ctx_relations package = snap_relations snapshot ∧
        ctx_citations package = CollectSnapshotCitations [] snapshot ∧
        ∃ overview, ctx_memoryText package = (FormatLongTermSnapshot snapshot +:+ overview) ∧
          (ctx_payloadRefs package = [] → overview = "")
      else
        ctx_entities package `sublist_of` snap_entities snapshot ∧
        ctx_relations package `sublist_of` snap_relations snapshot
  else ctx_entities package = [] ∧ ctx_relations package = [] ∧ ctx_citations package = [].

(** ** Lemmas: what a store that remembers answers *)

Section Store.
Context `{JsonText} `{SqlEnv} `{SqlPlan} `{FtsEngine}.

Lemma recent_events_asked m agent session limit :
  (0 < limit)%Z →
  asks m (λ r, if events_succeeded r
               then events_events r = last_n limit (seen agent (c_str session) [] (log_events (mem_log m)))
               else HasError (events_error r) = true ∧ faulty)
    (LoadRecentEvents agent session limit).
Proof.
  intros Hl. eapply (log_asked m (ReadRecent agent session limit) _ Events);
    [done|done|intros; apply wrapped_call| |by intros r Hf [-> ?]].
  intros r [= ->]. cbn. by rewrite (proj2 (Z.ltb_lt 0 limit)).
Qed.

Lemma recent_payloads_asked m agent session limit :
  asks m (λ r, if payloads_succeeded r then payloads_payloads r = recent_payload_refs agent session limit (mem_payloads m)
               else HasError (payloads_error r) = true ∧ faulty)
    (LoadRecentPayloads agent session limit).
Proof.
  apply (asks_of_call m (RecentPayloads agent session limit) _ MemoryRefinement.Payloads); [done| |].
  - intros s. apply wrapped_call.
  - intros o m' Hstep. inversion Hstep as [| | |l ps k a ss lim|m0 a ss lim ans Hf Ha|]; subst.
    + split; [done|]. eexists. split; [reflexivity|]. by intros r [= ->].
    + split; [done|]. eexists. split; [reflexivity|]. intros r <-. destruct Ha as [-> ?]. done.
Qed.

Lemma snapshot_asked m agent session limit :
  asks m (λ r, if snapres_succeeded r then recalls (mem_knowledge m) agent session limit (snapres_snapshot r)
               else HasError (snapres_error r) = true ∧ faulty)
    (LoadLongTermMemory agent limit session).
Proof.
  apply (asks_of_call m (OnKnowledge (Recall agent session limit)) _ (λ r, KnowledgeAnswered (Recalled r))); [done| |].
  - intros s. cbn. unfold bind. by destruct (LoadLongTermMemory agent limit session s) as [[r|w] s'].
  - intros o m' Hstep. inversion Hstep as [| | | | |l ps k k' call o' Hk]; subst.
    inversion Hk as [| | | | |k0 a ss lim sn Hr|k0 a ss lim ans Hf Ha]; subst; cbn.
    + split; [done|]. eexists. split; [reflexivity|]. by intros r [= ->].
    + split; [done|]. eexists. split; [reflexivity|]. intros r [= <-]. destruct Ha as [-> ?]. done.
Qed.

(** A search finds what it finds and leaves the memory as it is. *)
Lemma search_asked m request :
  asks m (λ r, ssres_succeeded r = false → HasError (ssres_error r) = true) (SearchLongTermMemory request).
Proof.
  intros s Hs. pose proof Hs as [(c & Hc & Ht & _) _].
  destruct (delivers_search request (conn_main c) c Ht eq_refl) as (r & c' & E & Ht' & Hm & Hr).
  exists r, (mkSqliteStore (dbPath_ s) (Some c')). unfold SearchLongTermMemory. split_and!.
  - by apply on_db_run with c.
  - by eapply remembers_untouched.
  - intros Hf. by rewrite Hf in Hr.
Qed.

(** ** Lemmas: the parts of BuildContext *)

(** In a store that remembers, no reference is kept twice. *)
Lemma remembered_uris s m agent session limit :
  remembers s m → NoDup (payload_uri <$> recent_payload_refs agent session limit (mem_payloads m)).
Proof.
  intros [_ (c & _ & Hok & <- & _)]. unfold recent_payload_refs, newest.
  eapply NoDup_fmap_sublist; [apply fmap_sublist, sublist_take|].
  assert (∀ l, snd <$> ((λ p, (payload_createdAt p, p)) <$> l) = l) as Hsnd
    by (intros l; rewrite <- list_fmap_compose; apply list_fmap_id).
  rewrite sort_by_Permutation, reverse_Permutation, Hsnd.
  eapply NoDup_fmap_sublist; [apply sublist_filter|]. rewrite <- list_fmap_compose. apply (ok_payload_refs _ Hok).
Qed.

Lemma recent_payload_refs_limit agent session limit l :
  (0 < limit)%Z → (Z.of_nat (length (recent_payload_refs agent session limit l)) ≤ limit)%Z.
Proof.
  intros Hl. unfold recent_payload_refs, newest. rewrite (proj2 (Z.ltb_lt 0 limit)) by done.
  rewrite length_fmap, length_take. lia.
Qed.

Lemma first_by_uri_all seen payloads :
  NoDup (payload_uri <$> payloads) → Forall (λ p, payload_uri p ∉ seen) payloads → first_by_uri seen payloads = payloads.
Proof.
  revert seen. induction payloads as [|p payloads IH]; intros seen; [done|]. cbn.
  intros [Hp Hn]%NoDup_cons [Hs Hseen]%Forall_cons. rewrite bool_decide_eq_false_2 by done. f_equal.
  apply IH; [done|]. rewrite Forall_forall in *. intros q Hq [Heq|Hin]%elem_of_cons; [|by eapply Hseen].
  apply Hp. rewrite <- Heq. by apply list_elem_of_fmap_2.
Qed.

Lemma messages_asked cb request m :
  asks m (λ r, if events_succeeded r
               then message_of <$> events_events r = recalled_messages cb request m
               else HasError (events_error r) = true ∧ faulty)
    (if ShouldInclude request Messages then LoadMessagesForContext cb request else ret (mkEventsResult true [] no_error)).
Proof.
  unfold recalled_messages. destruct (ShouldInclude request Messages); [|by apply asks_ret].
  unfold LoadMessagesForContext. destruct (cb_eventStore cb); cbn [negb andb]; [|by apply asks_ret].
  fold (message_limit request). destruct (Z.eqb_spec (message_limit request) 0) as [->|Hl]; [by apply asks_ret|].
  assert (0 < message_limit request)%Z as Hpos by (unfold message_limit in *; lia).
  rewrite (proj2 (Z.ltb_lt 0 _) Hpos). eapply asks_bind; [by apply recent_events_asked|]. cbn beta. intros r Hr.
  destruct (events_succeeded r) eqn:Es; cbn [negb]; apply asks_ret; cbn; [by rewrite Hr|by rewrite Es].
Qed.

Lemma payloads_asked cb request m :
  ShouldInclude request Payloads = true →
  asks m (λ r, if payloads_succeeded r then payloads_payloads r = recalled_payloads cb request m
               else HasError (payloads_error r) = true ∧ faulty)
    (LoadPayloadsForContext cb request).
Proof.
  intros Hi. unfold LoadPayloadsForContext, recalled_payloads. rewrite Hi. fold (payload_limit request).
  destruct (cb_payloadStore cb); cbn [negb andb]; [|rewrite orb_true_r; by apply asks_ret].
  rewrite orb_false_r. destruct (Z.eqb_spec (payload_limit request) 0) as [->|Hl]; [by apply asks_ret|].
  assert (0 < payload_limit request)%Z as Hpos by (unfold payload_limit in *; lia).
  rewrite (proj2 (Z.ltb_lt 0 _) Hpos). intros s Hs.
  pose proof (remembered_uris s m (ctxreq_agentId request) (ctxreq_sessionId request) (payload_limit request) Hs) as Hn.
  revert s Hs. eapply asks_bind; [apply recent_payloads_asked|]. cbn beta. intros r Hr.
  destruct (payloads_succeeded r) eqn:Es; cbn [negb]; apply asks_ret; cbn; [|by rewrite Es]. rewrite Hr.
  rewrite select_payloads_spec by lia. rewrite first_by_uri_all by (done || by apply Forall_true; set_solver).
  apply take_ge. rewrite length_filter. pose proof (recent_payload_refs_limit (ctxreq_agentId request)
    (ctxreq_sessionId request) (payload_limit request) (mem_payloads m) Hpos). lia.
Qed.

(** What was selected of the knowledge. *)
Definition selected_of (cb : Builder) (request : MemoryContextRequest) (m : Memory)
    (selected : SelectedLongTermMemory) : Prop :=
  if long_term_included cb request then
    ∃ snapshot, recalls (mem_knowledge m) (ctxreq_agentId request) (ctxreq_sessionId request)
                  (LongTermMemoryLimit cb request) snapshot ∧
      if is_empty (ctxreq_query request) then sel_snapshot selected = snapshot ∧ sel_usedSearch selected = false
      else snap_entities (sel_snapshot selected) `sublist_of` snap_entities snapshot ∧
           snap_relations (sel_snapshot selected) `sublist_of` snap_relations snapshot
  else selected = default_selected.

Lemma selected_asked cb request m :
  asks m (λ r, if sel_succeeded r then selected_of cb request m r
               else HasError (sel_error r) = true ∧ (ctxreq_query request = "" → faulty))
    (if ShouldInclude request LongTerm && cb_longTermStore cb && cb_searchStore cb && (0 <? LongTermMemoryLimit cb request)%Z
     then SelectLongTermMemory (cb_longTermStore cb) (cb_searchStore cb) request (LongTermMemoryLimit cb request)
     else ret default_selected).
Proof.
  unfold selected_of. fold (long_term_included cb request).
  destruct (long_term_included cb request) eqn:Ei; [|by apply asks_ret].
  unfold long_term_included in Ei. rewrite !andb_true_iff, Z.ltb_lt in Ei. destruct Ei as [[[_ Hl] Hse] Hlim].
  unfold SelectLongTermMemory. rewrite Hl, Hse. cbn [negb orb].
  destruct (Z.leb_spec (LongTermMemoryLimit cb request) 0) as [?|_]; [lia|].
  destruct (is_empty (ctxreq_query request)) eqn:Eq.
  - eapply asks_bind; [apply snapshot_asked|]. cbn beta. intros r Hr. apply asks_ret.
    destruct (snapres_succeeded r); cbn; [by eexists|]. split; [apply Hr|]. intros _. apply Hr.
  - assert (ctxreq_query request ≠ "") as Hq by (intros Hq; by rewrite Hq in Eq).
    eapply asks_bind; [apply search_asked|]. cbn beta. intros r Hr.
    destruct (ssres_succeeded r); cbn [negb]; [|apply asks_ret; split; [by apply Hr|done]].
    eapply asks_bind; [apply snapshot_asked|]. cbn beta. intros sn Hsn.
    destruct (snapres_succeeded sn); cbn [negb]; apply asks_ret; cbn; [|by split; [apply Hsn|]].
    eexists. split; [exact Hsn|]. split; apply sublist_filter.
Qed.
Lemma selected_shows cb request m selected text shown citations msgs ps metadata overview :
  selected_of cb request m selected → RenderLongTermMemory selected [] = (text, citations) →
  shown = (text +:+ overview) → (ps = [] → overview = "") →
  shows_knowledge cb request m
    (mkContextPackage msgs shown (snap_entities (sel_snapshot selected))
       (snap_relations (sel_snapshot selected)) ps citations metadata).
Proof.
  unfold selected_of, shows_knowledge. destruct (long_term_included cb request).
  - intros (snapshot & Hr & Hsel) Hrender -> Ho. exists snapshot. split; [done|].
    destruct (is_empty _); [|exact Hsel]. destruct Hsel as [<- Hused]. unfold RenderLongTermMemory in Hrender.
    rewrite Hused in Hrender. injection Hrender as <- <-. cbn. split_and!; [done..|]. by exists overview.
  - intros ->. by intros [= <- <-] _ _.
Qed.

(** ** The property *)

(** C7: refinement of a client: over a store that remembers a memory, BuildContext always returns and
    leaves the memory as it is, whatever fails. A package it delivers shows the memory: its messages
    are the messages among the last events of the session, its payloads the newest references of the
    agent and session that match the query, and its long-term part is what the knowledge recalls (all
    of it without a query, with its text and its sources; with a query a part of it). Otherwise it
    reports an error, and without a query only for a fault of the database. *)
Theorem context_shows_memory (cb : Builder) (request : MemoryContextRequest) (s : MemorySqliteStore) (m : Memory)
    (Hremembers : remembers s m) :
  ∃ r s', BuildContext cb request s = (Ret r, s') ∧ remembers s' m ∧
    if ctxres_succeeded r then
      ctx_messages (ctxres_context r) = recalled_messages cb request m ∧
      ctx_payloadRefs (ctxres_context r) = recalled_payloads cb request m ∧
      shows_knowledge cb request m (ctxres_context r)
    else HasError (ctxres_error r) = true ∧ (ctxreq_query request = "" → faulty).
Proof.
  revert s Hremembers. change (asks m (λ r, if ctxres_succeeded r then
      ctx_messages (ctxres_context r) = recalled_messages cb request m ∧
      ctx_payloadRefs (ctxres_context r) = recalled_payloads cb request m ∧
      shows_knowledge cb request m (ctxres_context r)
    else HasError (ctxres_error r) = true ∧ (ctxreq_query request = "" → faulty)) (BuildContext cb request)).
  unfold BuildContext. eapply asks_bind; [apply messages_asked|]. cbn beta. intros msgs Hmsgs.
  destruct (events_succeeded msgs); cbn [negb]; [|by apply asks_ret; split; [apply Hmsgs|intros _; apply Hmsgs]].
  eapply asks_bind; [apply selected_asked|]. cbn beta. intros sel Hsel.
  destruct (sel_succeeded sel); cbn [negb]; [|by apply asks_ret].
  destruct (RenderLongTermMemory sel []) as [text citations] eqn:Er.
  destruct (ShouldInclude request Payloads) eqn:Ei; cbn [negb].
  - eapply asks_bind; [by apply payloads_asked|]. cbn beta. intros ps Hps.
    destruct (payloads_succeeded ps); cbn [negb]; [|by apply asks_ret; split; [apply Hps|intros _; apply Hps]].
    rewrite <- Hps. destruct (payloads_payloads ps) as [|p l] eqn:Ep; apply asks_ret; cbn -[RenderLongTermMemory];
      (split_and!; [exact Hmsgs|done|]).
    + eapply (selected_shows _ _ _ _ _ _ _ _ _ _ ""); [exact Hsel|exact Er|symmetry; apply str_app_nil_r|done].
    + eapply selected_shows; [exact Hsel|exact Er|reflexivity|done].
  - apply asks_ret. cbn. split_and!; [exact Hmsgs|unfold recalled_payloads; by rewrite Ei|].
    eapply (selected_shows _ _ _ _ _ _ _ _ _ _ ""); [exact Hsel|exact Er|symmetry; apply str_app_nil_r|done].
Qed.
End Store.

Definition said (session content : string) : MemoryEvent :=
  mkEvent MESSAGE_APPENDED "agent" session "user" content "" "" "" "" json_object "".

(** Two messages, a payload reference and an entity are shown. *)
Definition sample_context_calls : list MemoryCall :=
  [OnLog (Append (said "s" "hello")); OnLog (Append (said "s" "I like tests"));
   OnLog (Append (said "other" "elsewhere"));
   KeepPayload (sample_payload "u" "report"); OnKnowledge (Change (PutEntity (preference "agent" "new" "p")))].

Definition sample_context_request : MemoryContextRequest :=
  mkContextRequest "agent" "s" "" 0 [] json_object.

Lemma context_shows_memory_witness :
  let _ := sample_json in let _ := reliable_env in let _ := sample_plan in let _ := sample_fts in
  let s := (memory_calls sample_context_calls (opened empty_tables)).2 in
  let cb := mkBuilder default_Config true true true true in
  ∃ r s', BuildContext cb sample_context_request s = (Ret r, s') ∧ ctxres_succeeded r = true ∧
    message_content <$> ctx_messages (ctxres_context r) = ["hello"; "I like tests"] ∧
    payload_summary <$> ctx_payloadRefs (ctxres_context r) = ["report"].
Proof.
  intros Hj He Hp Hf s cb.
  destruct (memory_calls_refine sample_context_calls (opened empty_tables) empty_memory) as (m & _ & Hr).
  - split; [eexists; by split_and!|]. eexists. split_and!; [reflexivity|apply empty_tables_ok|reflexivity..].
  - repeat first [apply Forall_nil_2 | apply Forall_cons_2 | apply conj]; try exact I;
      first [reflexivity | by eexists | intros text Ht; vm_compute in Ht; injection Ht as <-; first [by split | reflexivity]].
  - destruct (context_shows_memory cb sample_context_request s m Hr) as (r & s' & E & _ & Hres).
    exists r, s'. split; [exact E|]. destruct (ctxres_succeeded r).
    + split; [reflexivity|]. destruct Hres as (-> & -> & _).
      assert (∃ c, db_ s = Some c ∧
        message_content <$> recalled_messages cb sample_context_request
          (memory_of (conn_main c)) = ["hello"; "I like tests"] ∧
        payload_summary <$> recalled_payloads cb sample_context_request
          (memory_of (conn_main c)) = ["report"]) as (c & Hs & Hm & Hps).
      { eexists. split; [vm_compute; reflexivity|]. split; vm_compute; reflexivity. }
      rewrite (remembers_unique s m c Hr Hs). by split.
    + destruct Hres as [_ Hfault]. destruct (Hfault eq_refl) as (n & k & fl & Hfl). discriminate Hfl.
Defined.
