(* ===== verification/PayloadService.v ===== *)
(** * Payload offloading: src/src/core/payload_service.cpp, utils/path_util.cpp, utils/file_util.cpp

    The file system is a map from path texts to contents plus what the operating system decides:
    whether a call fails ([fs_fault]) and what [weakly_canonical] resolves a path to. The random
    generators are a stream of 64-bit numbers. The cleanup runs in a detached thread: it is an
    operation of its own that may happen between any two steps of the others. *)

From Stdlib Require Import ZArith Lia Ascii String.
From stdpp Require Import base list strings gmap.
From S2P Require Import Prelude CppString Floats Json Types StoreInterface.

Open Scope am_scope.

(** ** std::filesystem *)

Definition slash : ascii := "/"%char.

Definition starts_with_slash (p : string) : bool :=
  match p with String c _ => bool_decide (c = slash) | EmptyString => false end.

(** [lhs / rhs] *)
Definition path_append (lhs rhs : string) : string :=
  if starts_with_slash rhs then rhs
  else
    match str_back lhs with
    | None => rhs
    | Some c => if bool_decide (c = slash) then lhs +:+ rhs else lhs +:+ "/" +:+ rhs
    end.

(** The names between slashes; [cur] is the name read so far. *)
Fixpoint path_names (p cur : string) : list string :=
  match p with
  | EmptyString => if is_empty cur then [] else [cur]
  | String c p' =>
      if bool_decide (c = slash)
      then (if is_empty cur then [] else [cur]) ++ path_names p' EmptyString
      else path_names p' (cur +:+ String c EmptyString)
  end.

(** [begin()] to [end()] of a path: its root directory, its names, and an empty element after a
    trailing slash. *)
Definition path_elements (p : string) : list string :=
  let names := path_names p EmptyString in
  (if starts_with_slash p then ["/"] else []) ++ names ++
  (match names, str_back p with
   | _ :: _, Some c => if bool_decide (c = slash) then [""] else []
   | _, _ => []
   end).

Inductive FsCall := FsCreateDirectories | FsExists | FsOpen | FsWrite | FsRename | FsRemove | FsRead.

Record FileSystem := mkFs {
  fs_files : gmap string string;
  fs_tick : nat;
  fs_draws : nat
}.

Class FsEnv : Type := {
  fs_fault : nat → FsCall → option string;
  (** how much of the content a failed write has left in the file *)
  fs_partial : nat → nat;
  fs_random : nat → Z;
  fs_random_range n : (0 ≤ fs_random n < 2 ^ 64)%Z;
  weakly_canonical : FileSystem → string → option string
}.

Section Fs.
Context `{FsEnv}.

Definition fs_next (files : gmap string string) (f : FileSystem) : FileSystem :=
  mkFs files (S (fs_tick f)) (fs_draws f).

(** A call with an error code: the error's text, or the new files. *)
Definition fs_call (call : FsCall) (files : gmap string string → gmap string string)
    : M FileSystem (option string) := λ f,
  match fs_fault (fs_tick f) call with
  | Some error => (Ret (Some error), fs_next (fs_files f) f)
  | None => (Ret None, fs_next (files (fs_files f)) f)
  end.

Definition create_directories : M FileSystem (option string) := fs_call FsCreateDirectories id.

(** [exists(path, error)] is false when it fails. *)
Definition exists_ (path : string) : M FileSystem bool := λ f,
  match fs_fault (fs_tick f) FsExists with
  | Some _ => (Ret false, fs_next (fs_files f) f)
  | None => (Ret (bool_decide (is_Some (fs_files f !! path))), fs_next (fs_files f) f)
  end.

(** [std::ofstream file(path, binary | trunc)] *)
Definition open_trunc (path : string) : M FileSystem bool :=
  let* error := fs_call FsOpen <[path := EmptyString]> in
  ret (match error with None => true | Some _ => false end).

(** [file << content; file.close();] and the stream's state. *)
Definition write_close (path content : string) : M FileSystem bool := λ f,
  match fs_fault (fs_tick f) FsWrite with
  | Some _ =>
      (Ret false, fs_next (<[path := substring 0 (fs_partial (fs_tick f)) content]> (fs_files f)) f)
  | None => (Ret true, fs_next (<[path := content]> (fs_files f)) f)
  end.

(** A source that is not there is an error of the system's own. *)
Definition rename (from to : string) : M FileSystem (option string) := λ f,
  match fs_fault (fs_tick f) FsRename, fs_files f !! from with
  | Some error, _ => (Ret (Some error), fs_next (fs_files f) f)
  | None, None => (Ret (Some "No such file or directory"), fs_next (fs_files f) f)
  | None, Some content => (Ret None, fs_next (<[to := content]> (delete from (fs_files f))) f)
  end.

Definition remove (path : string) : M FileSystem (option string) := fs_call FsRemove (delete path).

(** [distribution(generator)] *)
Definition draw : M FileSystem Z := λ f,
  (Ret (fs_random (fs_draws f)), mkFs (fs_files f) (fs_tick f) (S (fs_draws f))).

(** ** file_util.cpp and path_util.cpp *)

Definition LoadTextFile (path : string) : M FileSystem (option string) := λ f,
  match fs_fault (fs_tick f) FsRead with
  | Some _ => (Ret None, fs_next (fs_files f) f)
  | None => (Ret (fs_files f !! path), fs_next (fs_files f) f)
  end.

Definition CanonicalPath (path : string) : M FileSystem string := λ f,
  (Ret (default EmptyString (weakly_canonical f path)), f).

(** The loop of IsPathInsideDirectory over the two element sequences. *)
Fixpoint elements_inside (dir path : list string) : bool :=
  match dir, path with
  | [], _ => true
  | d :: dir', p :: path' => if bool_decide (d ≠ p) then false else elements_inside dir' path'
  | _ :: _, [] => false
  end.

Definition IsPathInsideDirectory (path directory : string) : M FileSystem bool := λ f,
  (Ret (match weakly_canonical f path with
        | None => false
        | Some canonicalPath =>
            match weakly_canonical f directory with
            | None => false
            | Some canonicalDirectory =>
                if bool_decide (path_elements canonicalPath = path_elements canonicalDirectory) then false
                else elements_inside (path_elements canonicalDirectory) (path_elements canonicalPath)
            end
        end), f).

(** ** payload_service.cpp *)

Record PayloadService := mkPayloadService {
  ps_config : MemoryConfig;
  ps_dataPath : string;
  ps_canonicalPayloadDirectory : string;
  ps_store : bool
}.

Definition PayloadDirectory (dataPath : string) : string :=
  path_append (path_append dataPath "memory_runtime") "payloads".

(** The constructor *)
Definition new_PayloadService (config : MemoryConfig) (dataPath : string) (store : bool)
    : M FileSystem PayloadService :=
  let* canonical := CanonicalPath (PayloadDirectory dataPath) in
  ret (mkPayloadService config dataPath canonical store).

Definition RandomHexSuffix : M FileSystem string :=
  let* a := draw in
  let* b := draw in
  ret (to_hex a +:+ to_hex b).

Definition safe_ref_char (c : ascii) : bool :=
  isalnum c || bool_decide (c = "_"%char) || bool_decide (c = "-"%char).

Definition BuildPayloadRef (request : MemoryPayloadWriteRequest) : M FileSystem string :=
  let sessionId := if is_empty (pwrite_sessionId request) then "default" else pwrite_sessionId request in
  let toolCallId := if is_empty (pwrite_toolCallId request) then "payload" else pwrite_toolCallId request in
  let* a := draw in
  let* b := draw in
  let value := sessionId +:+ "_" +:+ toolCallId +:+ "_" +:+ to_hex a +:+ to_hex b in
  ret (str_map (λ ch, if negb (safe_ref_char ch) then "_"%char else ch) value).

Definition BuildPayloadSummary (request : MemoryPayloadWriteRequest) : string :=
  "Tool result offloaded" +:+
  (if negb (is_empty (pwrite_toolName request)) then " from " +:+ pwrite_toolName request else "") +:+
  ", original chars: " +:+ to_string (str_size (pwrite_content request)) +:+ ".".

Definition write_failed (message details : string) : option MemoryError :=
  Some (mkError "payload_write_failed" message details false).

(** The error stored in the result, [None] where the function returns true. *)
Definition WritePayloadFileAtomically (payloadPath content : string) : M FileSystem (option MemoryError) :=
  let* error := create_directories in
  match error with
  | Some message => ret (write_failed "failed to create payload directory" message)
  | None =>
      let* taken := exists_ payloadPath in
      if (taken : bool) then ret (write_failed "payload file already exists" "")
      else
        let* suffix := RandomHexSuffix in
        let tempPath := payloadPath +:+ ".tmp." +:+ suffix in
        let* taken := exists_ tempPath in
        if (taken : bool) then ret (write_failed "payload temp file already exists" "")
        else
          let* opened := open_trunc tempPath in
          if negb opened then ret (write_failed "failed to open payload temp file for write" "")
          else
            let* written := write_close tempPath content in
            if negb written then
              let* _ := remove tempPath in
              ret (write_failed "failed to write payload temp file" "")
            else
              let* error := rename tempPath payloadPath in
              match error with
              | Some message =>
                  let* _ := remove tempPath in
                  ret (write_failed "failed to finalize payload file" message)
              | None => ret None
              end
  end.

(** Times and durations in ticks of the file clock, of which an hour has 3600 * 10^9. *)
Definition hours (n : Z) : Z := (n * 3600 * 10 ^ 9)%Z.
Definition kTempFileCleanupTtl : Z := hours 24.

(** [last_write_time] is what the entry answers, [None] with an error; [now] what the clock says. *)
Definition IsExpired (last_write_time : option Z) (now ttl : Z) : bool :=
  match last_write_time with
  | None => false
  | Some writeTime => (ttl <? now - writeTime)%Z
  end.

(** One run of the thread that ScheduleTempFileCleanup starts at [now]; [removable] says which removals
    succeed. *)
Definition cleanup_temp_files (directory : string) (last_write_time : string → option Z) (now : Z)
    (removable : string → bool) (files : gmap string string) : gmap string string :=
  filter (λ '(path, _),
    match path_elements path with
    | elements =>
        negb (bool_decide (removelast elements = path_elements directory) &&
              str_contains ".txt.tmp." (List.last elements "") &&
              IsExpired (last_write_time path) now kTempFileCleanupTtl && removable path)
    end = true) files.
End Fs.

Section Service.
Context `{FsEnv} {S : Type} `{MemoryPayloadStore S}.

Definition on_fs {A} (m : M FileSystem A) : M (S * FileSystem) A :=
  zoom snd (λ f w, (w.1, f)) m.

Definition on_store {A} (m : M S A) : M (S * FileSystem) A :=
  zoom fst (λ s w, (s, w.2)) m.

Definition inline_result (request : MemoryPayloadWriteRequest) : MemoryPayloadWriteResult :=
  mkPayloadWriteResult true false default_PayloadRef (pwrite_content request) no_error.

Definition WritePayload (ps : PayloadService) (request : MemoryPayloadWriteRequest)
    : M (S * FileSystem) MemoryPayloadWriteResult :=
  let content := pwrite_content request in
  if negb (config_enablePayloadOffload (ps_config ps)) || is_empty content then ret (inline_result request)
  else if (wrap32 (str_size content) <? config_offloadThresholdChars (ps_config ps))%Z
  then ret (inline_result request)
  else if negb (ps_store ps) then
    ret (mkPayloadWriteResult false false default_PayloadRef content
           (mkError "payload_store_unavailable"
              "payload offload requires a persistent store for metadata" "" false))
  else
    let* ref := on_fs (BuildPayloadRef request) in
    let payloadPath := path_append (PayloadDirectory (ps_dataPath ps)) (ref +:+ ".txt") in
    let* failed := on_fs (WritePayloadFileAtomically payloadPath content) in
    match failed with
    | Some error => ret (mkPayloadWriteResult false false default_PayloadRef content error)
    | None =>
        let payload := mkPayloadRef (pwrite_agentId request) (pwrite_sessionId request)
                         ("file://" +:+ payloadPath) (pwrite_contentType request)
                         (BuildPayloadSummary request) (pwrite_toolName request)
                         (wrap32 (str_size content)) json_object "" in
        let* saveResult := on_store (st_SavePayload payload) in
        if negb (op_succeeded saveResult) then
          let* removeError := on_fs (remove payloadPath) in
          let error := if HasError (op_error saveResult) then op_error saveResult
                       else mkError "payload_write_failed" "failed to persist payload metadata" "" false in
          let error :=
            match removeError with
            | None => error
            | Some message =>
                mkError (error_code error) (error_message error)
                  ((if negb (is_empty (error_details error)) then error_details error +:+ "; " else "")
                   +:+ "orphan payload file remaining: " +:+ payloadPath +:+ ", remove error: " +:+ message)
                  (error_retryable error)
            end in
          ret (mkPayloadWriteResult false false payload content error)
        else
          ret (mkPayloadWriteResult true true payload
                 ("[memory-ref: " +:+ payload_uri payload +:+ "]" +:+ String "010"%char EmptyString
                  +:+ payload_summary payload) no_error)
    end.

Definition read_failed (message : string) : MemoryPayloadReadResult :=
  mkPayloadReadResult false "" (mkError "payload_read_failed" message "" false).

(** [ref.rfind("file://", 0) != 0], and [ref.substr(7)] *)
Definition ReadPayload (ps : PayloadService) (ref : string) : M FileSystem MemoryPayloadReadResult :=
  if negb (String.prefix "file://" ref) then ret (read_failed "unsupported payload ref scheme")
  else
    let payloadPath := substring 7 (String.length ref - 7) ref in
    if is_empty (ps_canonicalPayloadDirectory ps) then
      ret (read_failed "payload directory path is not resolved")
    else
      let* inside := IsPathInsideDirectory payloadPath (ps_canonicalPayloadDirectory ps) in
      if negb inside then ret (read_failed "payload path outside configured payload directory")
      else
        let* canonical := CanonicalPath payloadPath in
        let* contentOpt := LoadTextFile canonical in
        match contentOpt with
        | None => ret (read_failed "payload file is unreadable or does not exist")
        | Some content =>
            if is_empty content then ret (read_failed "payload file is empty")
            else ret (mkPayloadReadResult true content no_error)
        end.
End Service.
