(* ===== verification/PayloadTheorems.v ===== *)
(** * What payload offloading promises

    Content is never lost, files that exist are never touched, references stay inside the payload
    directory, reading serves nothing outside it, and what was written can be read back. *)

From Stdlib Require Import ZArith Lia Ascii String.
From stdpp Require Import base list strings gmap.
From S2P Require Import Prelude CppString Floats Json Types StoreInterface PayloadService.

Open Scope am_scope.

(** ** Lemmas: strings *)

Lemma str_forall_map (p : ascii → bool) f s :
  (∀ c, p (f c) = true) → str_forall p (str_map f s) = true.
Proof. intros Hp. induction s as [|c s IH]; [done|]. simpl. by rewrite Hp. Qed.

Lemma str_app_inj_l s s1 s2 : (s +:+ s1) = (s +:+ s2) → s1 = s2.
Proof. induction s as [|c s IH]; [done|]. rewrite !str_app_cons. intros [= ?]. auto. Qed.

Lemma str_app_not_prefix s1 s2 : s2 ≠ "" → (s1 +:+ s2) ≠ s1.
Proof.
  intros Hs Heq. apply Hs, (str_app_inj_l s1). by rewrite str_app_nil_r.
Qed.

(** ** Lemmas: the atomic write *)

(** Under any fault a write changes nothing but its file and its temporary file, and when it reports no
    error its file holds the content. *)
Definition confined (path content : string) (written : bool) (files files' : gmap string string) : Prop :=
  ∃ suffix, (∀ p, p ≠ path → p ≠ path +:+ ".tmp." +:+ suffix → files' !! p = files !! p) ∧
    (if written then files' !! path = Some content else True).

Lemma confined_same path content files : confined path content false files files.
Proof. by exists "". Qed.

Lemma confined_error path content suffix files files' :
  (∀ p, p ≠ path +:+ ".tmp." +:+ suffix → files' !! p = files !! p) → confined path content false files files'.
Proof. intros Hp. exists suffix. split; [|done]. intros p _. apply Hp. Qed.

Lemma RandomHexSuffix_returns `{FsEnv} f :
  ∃ suffix f', RandomHexSuffix f = (Ret suffix, f') ∧ fs_files f' = fs_files f.
Proof. by do 2 eexists. Qed.

Lemma exists_returns `{FsEnv} path f : ∃ b f', exists_ path f = (Ret b, f') ∧ fs_files f' = fs_files f.
Proof. unfold exists_. destruct (fs_fault (fs_tick f) FsExists); by do 2 eexists. Qed.

(** The calls from the opening of the temporary file on. *)
Lemma temp_file_confined `{FsEnv} path temp content f :
  ∃ error f',
    (let* opened := open_trunc temp in
     if negb opened then ret (write_failed "failed to open payload temp file for write" "")
     else
       let* written := write_close temp content in
       if negb written then
         let* _ := remove temp in
         ret (write_failed "failed to write payload temp file" "")
       else
         let* error := rename temp path in
         match error with
         | Some message =>
             let* _ := remove temp in
             ret (write_failed "failed to finalize payload file" message)
         | None => ret None
         end) f = (Ret error, f') ∧
    (∀ p, p ≠ path → p ≠ temp → fs_files f' !! p = fs_files f !! p) ∧
    (error = None → fs_files f' !! path = Some content).
Proof.
  assert (∀ v p, p ≠ temp → <[temp := v]> (fs_files f) !! p = fs_files f !! p) as Hins
    by (intros; by rewrite lookup_insert_ne).
  assert (∀ (m : gmap string string) p, p ≠ temp → delete temp m !! p = m !! p) as Hdel
    by (intros m p Hp; by rewrite lookup_delete_ne by auto).
  unfold open_trunc, bind, fs_call. cbn. match goal with |- context [fs_fault ?n FsOpen] => destruct (fs_fault n FsOpen) end; cbn; [by do 2 eexists|].
  unfold write_close. cbn. match goal with |- context [fs_fault ?n FsWrite] => destruct (fs_fault n FsWrite) end; cbn.
  { unfold remove, fs_call. rewrite insert_insert_eq.
    match goal with |- context [fs_fault ?n FsRemove] => destruct (fs_fault n FsRemove) end; cbn; do 2 eexists; (split; [done|split; [|done]]); intros p _ Hp; cbn.
    - by apply Hins.
    - by rewrite Hdel, Hins. }
  unfold rename. cbn. rewrite lookup_insert_eq, insert_insert_eq. match goal with |- context [fs_fault ?n FsRename] => destruct (fs_fault n FsRename) end; cbn.
  { unfold remove, fs_call. match goal with |- context [fs_fault ?n FsRemove] => destruct (fs_fault n FsRemove) end; cbn; do 2 eexists; (split; [done|split; [|done]]);
      intros p _ Hp; cbn.
    - by apply Hins.
    - by rewrite Hdel, Hins. }
  do 2 eexists. split; [done|]. cbn. split; [|intros _; by rewrite lookup_insert_eq].
  intros p Hp Ht. by rewrite lookup_insert_ne, Hdel, Hins by auto.
Qed.

Lemma WritePayloadFileAtomically_confined `{FsEnv} path content f :
  ∃ error f', WritePayloadFileAtomically path content f = (Ret error, f') ∧
    confined path content (match error with None => true | Some _ => false end) (fs_files f) (fs_files f').
Proof.
  unfold WritePayloadFileAtomically. unfold bind at 1, create_directories, fs_call.
  destruct (fs_fault (fs_tick f) FsCreateDirectories); [do 2 eexists; split; [done|apply confined_same]|].
  set (f0 := fs_next _ f). change (fs_files f) with (fs_files f0).
  destruct (exists_returns path f0) as (b & f1 & E1 & <-). rewrite (bind_run _ _ _ _ _ E1).
  destruct b; [do 2 eexists; split; [done|apply confined_same]|].
  destruct (RandomHexSuffix_returns f1) as (suffix & f2 & E2 & <-). rewrite (bind_run _ _ _ _ _ E2). cbv zeta.
  set (temp := path +:+ ".tmp." +:+ suffix).
  destruct (exists_returns temp f2) as (b & f3 & E3 & <-). rewrite (bind_run _ _ _ _ _ E3).
  destruct b; [do 2 eexists; split; [done|apply confined_same]|].
  destruct (temp_file_confined path temp content f3) as (error & f4 & E4 & Hother & Hcontent).
  exists error, f4. split; [exact E4|]. exists suffix. split; [exact Hother|]. destruct error; [done|by apply Hcontent].
Qed.

Section Write.
Context `{FsEnv} (Hexists : ∀ n, fs_fault n FsExists = None).

(** What is done to the files when a write ended without ([None]) or with an error. *)
Definition write_effect (path content : string) (error : option MemoryError)
    (files files' : gmap string string) : Prop :=
  match error with
  | None => files !! path = None ∧ files' = <[path := content]> files
  | Some _ =>
      (∀ p v, files !! p = Some v → files' !! p = Some v) ∧
      ((∀ n, fs_fault n FsRemove = None) → files' = files)
  end.

Lemma insert_keeps (files : gmap string string) p' v' :
  files !! p' = None → ∀ p v, files !! p = Some v → <[p' := v']> files !! p = Some v.
Proof. intros Hp p v Hv. rewrite lookup_insert_ne; [done|]. intros ->. congruence. Qed.

Lemma WritePayloadFileAtomically_effect path content f :
  ∃ error f', WritePayloadFileAtomically path content f = (Ret error, f') ∧
    write_effect path content error (fs_files f) (fs_files f').
Proof.
  unfold WritePayloadFileAtomically, bind, create_directories, fs_call.
  destruct (fs_fault (fs_tick f) FsCreateDirectories); simpl; [by do 2 eexists|].
  unfold exists_. rewrite Hexists. simpl. case_bool_decide as Hp; simpl; [by do 2 eexists|].
  rewrite Hexists. simpl. case_bool_decide as Ht; simpl; [by do 2 eexists|].
  rewrite <- eq_None_not_Some in Hp, Ht. unfold open_trunc, bind, fs_call. simpl.
  match goal with |- context [<[?t := EmptyString]> _] => set (temp := t) in * end.
  destruct (fs_fault _ FsOpen); simpl; [by do 2 eexists|].
  unfold write_close. simpl. destruct (fs_fault _ FsWrite); simpl.
  { unfold remove, fs_call. simpl. destruct (fs_fault _ FsRemove) eqn:Er; simpl; do 2 eexists; (split; [done|]);
      split; simpl.
    - rewrite insert_insert_eq. by apply insert_keeps.
    - intros Hr. by rewrite Hr in Er.
    - rewrite insert_insert_eq. intros p v Hv. rewrite lookup_delete_ne by congruence.
      by apply insert_keeps.
    - intros _. rewrite insert_insert_eq. by rewrite delete_insert_id. }
  unfold rename, fs_call. simpl. rewrite lookup_insert_eq, insert_insert_eq. destruct (fs_fault _ FsRename); simpl.
  { unfold remove, fs_call. simpl. destruct (fs_fault _ FsRemove) eqn:Er; simpl; do 2 eexists; (split; [done|]);
      split; simpl.
    - by apply insert_keeps.
    - intros Hr. by rewrite Hr in Er.
    - intros p v Hv. rewrite lookup_delete_ne by congruence. by apply insert_keeps.
    - intros _. by rewrite delete_insert_id. }
  do 2 eexists. split; [done|]. split; [done|]. simpl. by rewrite delete_insert_id.
Qed.
End Write.

(** ** Lemmas: references and paths *)

Lemma on_fs_run {S A} (s : S) (m : M FileSystem A) f r f' : m f = (r, f') → on_fs m (s, f) = (r, (s, f')).
Proof. intros E. unfold on_fs, zoom. simpl. by rewrite E. Qed.

Lemma on_store_run {S A} f (m : M S A) s r s' : m s = (r, s') → on_store m (s, f) = (r, (s', f)).
Proof. intros E. unfold on_store, zoom. simpl. by rewrite E. Qed.

Lemma BuildPayloadRef_safe `{FsEnv} request f :
  ∃ ref f', BuildPayloadRef request f = (Ret ref, f') ∧ str_forall safe_ref_char ref = true ∧ ref ≠ "" ∧
    fs_files f' = fs_files f.
Proof.
  unfold BuildPayloadRef, bind, draw. simpl. do 2 eexists. split; [reflexivity|]. split_and!.
  - apply str_forall_map. intros c. destruct (safe_ref_char c) eqn:E; simpl; [done|]. by vm_compute.
  - destruct (is_empty (pwrite_sessionId request)) eqn:E; [done|].
    destruct (pwrite_sessionId request); [done|]. by rewrite str_app_cons.
  - done.
Qed.

Lemma safe_ref_char_not_special c :
  safe_ref_char c = true → c ≠ slash ∧ c ≠ "."%char.
Proof. intros Hc. split; intros ->; by vm_compute in Hc. Qed.

Definition ends_with_slash (p : string) : bool :=
  match str_back p with Some c => bool_decide (c = slash) | None => false end.

(** A name without a slash is one element. *)
Lemma path_names_name name cur :
  str_forall (λ c, negb (bool_decide (c = slash))) name = true →
  path_names name cur = if is_empty (cur +:+ name) then [] else [cur +:+ name].
Proof.
  revert cur. induction name as [|c name IH]; intros cur; cbn [str_forall path_names].
  { by rewrite str_app_nil_r. }
  intros [Hc Hn]%andb_prop. apply negb_true_iff in Hc. rewrite Hc, IH by done.
  by rewrite str_app_assoc.
Qed.

Lemma path_names_app_slash p q cur :
  path_names (p +:+ String slash q) cur = path_names p cur ++ path_names q EmptyString.
Proof.
  revert cur. induction p as [|c p IH]; intros cur.
  - cbn [path_names]. change (EmptyString +:+ String slash q) with (String slash q). cbn [path_names].
    by rewrite bool_decide_true.
  - rewrite str_app_cons. cbn [path_names]. case_bool_decide; rewrite IH; [by rewrite app_assoc|done].
Qed.

(** The elements of a directory joined with a name. *)
Lemma path_elements_join dir name :
  dir ≠ "" → ends_with_slash dir = false → name ≠ "" →
  str_forall (λ c, negb (bool_decide (c = slash))) name = true →
  path_elements (path_append dir name) = path_elements dir ++ [name].
Proof.
  intros Hd Hs Hn Hname. unfold path_append, ends_with_slash in *.
  assert (starts_with_slash name = false) as ->.
  { destruct name as [|c name]; [done|]. simpl in *. apply andb_prop in Hname as [Hc _].
    by apply negb_true_iff in Hc. }
  destruct (str_back dir) as [c|] eqn:Eb; [|by destruct (str_back_is_some dir Hd)].
  rewrite Hs. unfold path_elements. change ("/" +:+ name) with (String slash name).
  rewrite path_names_app_slash, (path_names_name name) by done.
  change (EmptyString +:+ name) with name. rewrite Eb, Hs.
  assert (str_back (dir +:+ String slash name) = str_back name) as ->.
  { rewrite str_back_app by done. change (String slash name) with ("/" +:+ name). by rewrite str_back_app. }
  assert (starts_with_slash (dir +:+ String slash name) = starts_with_slash dir) as -> by (by destruct dir).
  assert (is_empty name = false) as -> by (by destruct name).
  assert (match str_back name with Some c => if bool_decide (c = slash) then [""] else [] | None => [] end = [])
    as Hback.
  { clear -Hname. induction name as [|x name IH]; [done|]. simpl in Hname. apply andb_prop in Hname as [Hx Hn].
    destruct name as [|y name]; [|by apply IH]. simpl. by apply negb_true_iff in Hx as ->. }
  destruct (path_names dir EmptyString) as [|x l]; simpl; rewrite Hback.
  - by rewrite !app_nil_r.
  - by rewrite !app_nil_r, <- app_assoc.
Qed.

Lemma elements_inside_spec dir path : elements_inside dir path = true ↔ ∃ rest, path = dir ++ rest.
Proof.
  revert path. induction dir as [|d dir IH]; intros path; simpl.
  { split; [intros _; by exists path|done]. }
  destruct path as [|p path]; [split; [done|by intros [rest ?]]|].
  case_bool_decide as E.
  - split; [done|]. intros [rest [= <- _]]. done.
  - rewrite IH. subst p. split; intros [rest Hr]; exists rest; congruence.
Qed.

(** The path resolves to one strictly below the directory. *)
Definition strictly_inside `{FsEnv} (f : FileSystem) (path directory : string) : Prop :=
  ∃ p d rest, weakly_canonical f path = Some p ∧ weakly_canonical f directory = Some d ∧ rest ≠ [] ∧
    path_elements p = path_elements d ++ rest.

Lemma IsPathInsideDirectory_spec `{FsEnv} f path directory :
  ∃ b, IsPathInsideDirectory path directory f = (Ret b, f) ∧ (b = true ↔ strictly_inside f path directory).
Proof.
  unfold IsPathInsideDirectory, strictly_inside. eexists. split; [reflexivity|].
  destruct (weakly_canonical f path) as [p|], (weakly_canonical f directory) as [d|].
  2-4: split; [done|]; intros (?&?&?&?&?&?); done.
  case_bool_decide as E.
  - split; [done|]. intros (?&?&rest&[= <-]&[= <-]&Hr&Hp). rewrite Hp in E.
    apply (f_equal length) in E. rewrite length_app in E. destruct rest; [done|]. simpl in E. lia.
  - rewrite elements_inside_spec. split.
    + intros [rest Hr]. exists p, d, rest. split_and!; [done|done| |done]. intros ->.
      by rewrite app_nil_r in Hr.
    + intros (?&?&rest&[= <-]&[= <-]&_&Hp). by exists rest.
Qed.

(** The path of an offloaded payload: a file of a safe name right in the payload directory. *)
Definition payload_path (ps : PayloadService) (path : string) : Prop :=
  ∃ ref, path = path_append (PayloadDirectory (ps_dataPath ps)) (ref +:+ ".txt") ∧
    str_forall safe_ref_char ref = true ∧ ref ≠ "".

Lemma WritePayload_effect `{FsEnv} {S : Type} `{MemoryPayloadStore S} (ps : PayloadService)
    (request : MemoryPayloadWriteRequest) (s s' : S) (f f' : FileSystem) (r : MemoryPayloadWriteResult) :
  (∀ n, fs_fault n FsExists = None) →
  WritePayload ps request (s, f) = (Ret r, (s', f')) →
  if pwres_offloaded r then
    pwres_succeeded r = true ∧ pwrite_content request ≠ "" ∧
    ∃ path, payload_uri (pwres_payload r) = "file://" +:+ path ∧ payload_path ps path ∧
      fs_files f !! path = None ∧ fs_files f' = <[path := pwrite_content request]> (fs_files f)
  else
    pwres_replacementContent r = pwrite_content request ∧
    (∀ p v, fs_files f !! p = Some v → fs_files f' !! p = Some v) ∧
    ((∀ n, fs_fault n FsRemove = None) → fs_files f' = fs_files f).
Proof.
  intros Hexists Hwrite.
  unfold WritePayload in Hwrite.
  destruct (_ || _) eqn:Ee; [injection Hwrite as <- _ <-; done|].
  destruct (_ <? _)%Z; [injection Hwrite as <- _ <-; done|].
  destruct (negb (ps_store ps)); [injection Hwrite as <- _ <-; done|].
  destruct (BuildPayloadRef_safe request f) as (ref & f1 & E1 & Hsafe & Hne & Hf1).
  rewrite (bind_run _ _ _ _ _ (on_fs_run s _ _ _ _ E1)) in Hwrite. cbv zeta in Hwrite.
  set (path := path_append (PayloadDirectory (ps_dataPath ps)) (ref +:+ ".txt")) in *.
  destruct (WritePayloadFileAtomically_effect Hexists path (pwrite_content request) f1) as (error & f2 & E2 & Heff).
  rewrite (bind_run _ _ _ _ _ (on_fs_run s _ _ _ _ E2)) in Hwrite. rewrite Hf1 in Heff.
  destruct error as [e|]; [injection Hwrite as <- _ <-; simpl; by destruct Heff|].
  destruct Heff as [Hnone Hins]. match type of Hwrite with context [on_store (st_SavePayload ?p)] =>
    destruct (st_SavePayload p s) as [[op|w] s2] eqn:E3 end.
  2: { by rewrite (bind_throw _ _ _ _ _ (on_store_run f2 _ _ _ _ E3)) in Hwrite. }
  rewrite (bind_run _ _ _ _ _ (on_store_run f2 _ _ _ _ E3)) in Hwrite.
  destruct (op_succeeded op); simpl in Hwrite.
  - injection Hwrite as <- _ <-. simpl. split; [done|].
    split; [intros Hc; rewrite Hc, orb_true_r in Ee; done|]. exists path. split_and!; [done|by exists ref|done|done].
  - unfold on_fs, zoom, bind, remove, fs_call in Hwrite. simpl in Hwrite.
    destruct (fs_fault (fs_tick f2) FsRemove) eqn:Er; simpl in Hwrite; injection Hwrite as <- _ <-; simpl.
    + split; [done|]. rewrite Hins. split; [by apply insert_keeps|]. intros Hr. by rewrite Hr in Er.
    + split; [done|]. rewrite Hins, delete_insert_id by done. done.
Qed.

(** The same under any fault: what a write may change, and where the content is afterwards. *)
Lemma WritePayload_confined `{FsEnv} {S : Type} `{MemoryPayloadStore S} (ps : PayloadService)
    (request : MemoryPayloadWriteRequest) (s s' : S) (f f' : FileSystem) (r : MemoryPayloadWriteResult) :
  WritePayload ps request (s, f) = (Ret r, (s', f')) →
  ∃ path suffix, payload_path ps path ∧
    (∀ p, p ≠ path → p ≠ path +:+ ".tmp." +:+ suffix → fs_files f' !! p = fs_files f !! p) ∧
    if pwres_offloaded r then
      pwres_succeeded r = true ∧ pwrite_content request ≠ "" ∧
      payload_uri (pwres_payload r) = "file://" +:+ path ∧ fs_files f' !! path = Some (pwrite_content request)
    else pwres_replacementContent r = pwrite_content request.
Proof.
  intros Hwrite. assert (∃ path, payload_path ps path) as [path0 Hpath0] by (by eexists _, "x").
  unfold WritePayload in Hwrite. destruct (_ || _) eqn:Ee; [injection Hwrite as <- _ <-; by exists path0, ""|].
  destruct (_ <? _)%Z; [injection Hwrite as <- _ <-; by exists path0, ""|].
  destruct (negb (ps_store ps)); [injection Hwrite as <- _ <-; by exists path0, ""|].
  destruct (BuildPayloadRef_safe request f) as (ref & f1 & E1 & Hsafe & Hne & Hf1).
  rewrite (bind_run _ _ _ _ _ (on_fs_run s _ _ _ _ E1)) in Hwrite. cbv zeta in Hwrite.
  set (path := path_append (PayloadDirectory (ps_dataPath ps)) (ref +:+ ".txt")) in *.
  assert (payload_path ps path) as Hpath by (by exists ref).
  destruct (WritePayloadFileAtomically_confined path (pwrite_content request) f1) as (error & f2 & E2 & Heff).
  rewrite (bind_run _ _ _ _ _ (on_fs_run s _ _ _ _ E2)) in Hwrite. rewrite Hf1 in Heff.
  destruct Heff as (suffix & Hother & Hcontent). exists path, suffix. split; [done|].
  destruct error as [e|]; [by injection Hwrite as <- _ <-|].
  match type of Hwrite with context [on_store (st_SavePayload ?p)] =>
    destruct (st_SavePayload p s) as [[op|w] s2] eqn:E3 end.
  2: { by rewrite (bind_throw _ _ _ _ _ (on_store_run f2 _ _ _ _ E3)) in Hwrite. }
  rewrite (bind_run _ _ _ _ _ (on_store_run f2 _ _ _ _ E3)) in Hwrite. destruct (op_succeeded op); simpl in Hwrite.
  - injection Hwrite as <- _ <-. cbn. split_and!; try done. intros Hc. by rewrite Hc, orb_true_r in Ee.
  - unfold on_fs, zoom, bind, remove, fs_call in Hwrite. simpl in Hwrite.
    destruct (fs_fault (fs_tick f2) FsRemove); simpl in Hwrite; injection Hwrite as <- _ <-; cbn; [done|].
    split; [|done]. intros p Hp Ht. rewrite lookup_delete_ne by auto. by apply Hother.
Qed.

(** ** Lemmas: names of payload files *)

Lemma safe_ref_no (q : ascii → bool) ref :
  (∀ c, safe_ref_char c = true → q c = true) → str_forall safe_ref_char ref = true → str_forall q ref = true.
Proof.
  intros Hq. induction ref as [|c ref IH]; [done|]. simpl. intros [Hc Hr]%andb_prop. by rewrite Hq, IH.
Qed.

Lemma payload_name_no_slash ref :
  str_forall safe_ref_char ref = true →
  str_forall (λ c, negb (bool_decide (c = slash))) (ref +:+ ".txt") = true.
Proof.
  intros Hr. rewrite str_forall_app. rewrite (safe_ref_no _ ref); [done| |done].
  intros c [Hc _]%safe_ref_char_not_special. by rewrite bool_decide_false.
Qed.

Lemma PayloadDirectory_shape dp : PayloadDirectory dp ≠ "" ∧ ends_with_slash (PayloadDirectory dp) = false.
Proof.
  unfold PayloadDirectory. assert (∀ d, ∃ p, path_append d "payloads" = (p +:+ "payloads")) as Hp.
  { intros d. unfold path_append. simpl. destruct (str_back d) as [c|]; [case_bool_decide|].
    - by exists d.
    - exists (d +:+ "/"). by rewrite str_app_assoc.
    - by exists "". }
  destruct (Hp (path_append dp "memory_runtime")) as [p ->]. split.
  - destruct p; [done|by rewrite str_app_cons].
  - unfold ends_with_slash. by rewrite str_back_app.
Qed.

Lemma payload_path_elements ps path :
  payload_path ps path →
  ∃ ref, path_elements path = path_elements (PayloadDirectory (ps_dataPath ps)) ++ [ref +:+ ".txt"] ∧
    str_forall safe_ref_char ref = true.
Proof.
  intros (ref & -> & Hr & Hne). exists ref. split; [|done].
  destruct (PayloadDirectory_shape (ps_dataPath ps)) as [Hd Hs].
  apply path_elements_join; [done|done| |by apply payload_name_no_slash].
  destruct ref; [done|by rewrite str_app_cons].
Qed.

Lemma contains_after_safe ref : str_forall safe_ref_char ref = true → str_contains ".txt.tmp." (ref +:+ ".txt") = false.
Proof.
  induction ref as [|c ref IH]; [by vm_compute|]. cbn [str_forall]. intros [Hc Hr]%andb_prop. rewrite str_app_cons.
  destruct (safe_ref_char_not_special c Hc) as [_ Hdot]. specialize (IH Hr).
  change (String.prefix ".txt.tmp." (String c (ref +:+ ".txt")) || str_contains ".txt.tmp." (ref +:+ ".txt") = false).
  rewrite IH, orb_false_r. cbn [String.prefix]. destruct (ascii_dec "." c); [by subst|done].
Qed.

(** ** Properties *)

(** C10: writing a payload loses nothing, whatever calls fail. Under any failure only the payload's own
    file (a name of letters, digits, "_" and "-" right in the payload directory) and a temporary file
    next to it can change; if the content was offloaded, that file holds it, otherwise the replacement
    is the content itself. If moreover the queries whether a file exists are answered, no existing file
    is touched: an offloaded content is in a file that did not exist and nothing else changed; otherwise
    every file is as it was, and none is left behind if files can be removed. *)
Theorem write_payload_safe `{FsEnv} {S : Type} `{MemoryPayloadStore S} (ps : PayloadService)
    (request : MemoryPayloadWriteRequest) (s s' : S) (f f' : FileSystem) (r : MemoryPayloadWriteResult)
    (Hwrite : WritePayload ps request (s, f) = (Ret r, (s', f'))) :
  (∃ path suffix, payload_path ps path ∧
     (∀ p, p ≠ path → p ≠ path +:+ ".tmp." +:+ suffix → fs_files f' !! p = fs_files f !! p) ∧
     if pwres_offloaded r then
       pwres_succeeded r = true ∧ payload_uri (pwres_payload r) = "file://" +:+ path ∧
       fs_files f' !! path = Some (pwrite_content request)
     else pwres_replacementContent r = pwrite_content request) ∧
  ((∀ n, fs_fault n FsExists = None) →
   if pwres_offloaded r then
     ∃ path, payload_uri (pwres_payload r) = "file://" +:+ path ∧ payload_path ps path ∧
       fs_files f !! path = None ∧ fs_files f' = <[path := pwrite_content request]> (fs_files f)
   else
     (∀ p v, fs_files f !! p = Some v → fs_files f' !! p = Some v) ∧
     ((∀ n, fs_fault n FsRemove = None) → fs_files f' = fs_files f)).
Proof.
  split.
  - destruct (WritePayload_confined ps request s s' f f' r Hwrite) as (path & suffix & Hpath & Hother & Hr).
    exists path, suffix. split_and!; [done|done|]. destruct (pwres_offloaded r); [|done]. by destruct Hr as (? & _ & ?).
  - intros Hexists. pose proof (WritePayload_effect ps request s s' f f' r Hexists Hwrite) as Heff.
    destruct (pwres_offloaded r); [by destruct Heff as (_ & _ & ?)|by destruct Heff as (_ & ?)].
Qed.

Lemma sample_random_range n : (0 ≤ Z.of_nat n mod 2 ^ 64 < 2 ^ 64)%Z.
Proof. apply Z.mod_pos_bound. lia. Qed.

(** A file system that resolves every path to itself, where nothing or every rename fails; a store
    that keeps the references, or refuses them. *)
Definition plain_fs (rename_fails : bool) : FsEnv := {|
  fs_fault := λ _ call, match call with
    | FsRename => if rename_fails then Some "rename failed" else None
    | _ => None
    end;
  fs_partial := λ _, 0;
  fs_random := λ n, (Z.of_nat n mod 2 ^ 64)%Z;
  fs_random_range := sample_random_range;
  weakly_canonical := λ _ p, Some p
|}.

Definition list_payload_store (accepts : bool) : MemoryPayloadStore (list MemoryPayloadRef) := {|
  st_SavePayload := λ p l,
    if accepts then (Ret MemorySuccess, p :: l)
    else (Ret (MemoryFailure "sqlite_error" "refused" "" true), l);
  st_LoadRecentPayloads := λ agent session limit l, (Ret (mkPayloadRefsResult true l no_error), l)
|}.

Definition sample_service : PayloadService :=
  mkPayloadService (mkConfig "" 4096 3 true default_ModelConfig) "/data" "/data/memory_runtime/payloads" true.

Definition write_request (content : string) : MemoryPayloadWriteRequest :=
  mkPayloadWriteRequest "agent" "s/1" content "text/plain" "call" "grep" json_object.

Definition one_file : FileSystem := mkFs {[ "/data/x" := "old" ]} 0 0.

Lemma write_payload_safe_witness :
  let _ := plain_fs true in let _ := list_payload_store true in
  ∃ r s' f', WritePayload sample_service (write_request "content") ([], one_file) = (Ret r, (s', f')) ∧
    pwres_replacementContent r = "content" ∧ fs_files f' = fs_files one_file.
Proof.
  intros Hf Hst.
  assert (match (WritePayload sample_service (write_request "content") ([], one_file)).1 with
          | Ret r => pwres_offloaded r = false /\ pwres_succeeded r = false | Throw _ => False end) as Ho
    by (split; vm_compute; reflexivity).
  destruct (WritePayload sample_service (write_request "content") ([], one_file)) as [[r|w] [s' f']] eqn:E;
    [|by destruct Ho]. destruct Ho as [Ho _].
  pose proof (write_payload_safe sample_service (write_request "content") [] s' one_file f' r) as Hsafe.
  rewrite Ho in Hsafe. destruct Hsafe as [(path & suffix & _ & _ & Hc) Hkeep]; [exact E|].
  destruct Hkeep as [_ Hrem]; [done|].
  exists r, s', f'. split; [reflexivity|]. split; [exact Hc|]. apply Hrem. done.
Defined.

(** Without an answer the existing file is replaced: every query fails, the name is taken, and the write
    reports success. *)
Definition blind_fs : FsEnv := {|
  fs_fault := λ _ call, match call with FsExists => Some "input/output error" | _ => None end;
  fs_partial := λ _, 0;
  fs_random := λ n, 0%Z;
  fs_random_range := λ n, conj (Z.le_refl 0) eq_refl;
  weakly_canonical := λ _ p, Some p
|}.

Lemma existing_payload_replaced :
  let _ := blind_fs in let _ := list_payload_store true in
  let taken := "/data/memory_runtime/payloads/s_1_call_00.txt" in
  ∃ r w, WritePayload sample_service (write_request "new") ([], mkFs {[ taken := "old" ]} 0 0) = (Ret r, w) ∧
    pwres_succeeded r = true ∧ fs_files w.2 !! taken = Some "new".
Proof. intros Hf Hst taken. do 2 eexists. split; [vm_compute; reflexivity|]. split; vm_compute; reflexivity. Qed.

(** What a successful read delivers. *)
Definition contained `{FsEnv} (ps : PayloadService) (ref : string) (f : FileSystem) (content : string) : Prop :=
  ∃ path canonical, ref = "file://" +:+ path ∧ weakly_canonical f path = Some canonical ∧
    strictly_inside f path (ps_canonicalPayloadDirectory ps) ∧
    fs_files f !! canonical = Some content ∧ content ≠ "".

Lemma ReadPayload_returns `{FsEnv} (ps : PayloadService) (ref : string) (f : FileSystem) :
  ∃ r f', ReadPayload ps ref f = (Ret r, f') ∧ fs_files f' = fs_files f ∧
    (pread_succeeded r = true → contained ps ref f (pread_content r)).
Proof.
  unfold ReadPayload. destruct (String.prefix "file://" ref) eqn:Ep; cbn [negb]; [|by eexists _, f].
  cbv zeta. set (path := substring 7 (String.length ref - 7) ref).
  destruct (is_empty (ps_canonicalPayloadDirectory ps)); [by eexists _, f|].
  destruct (IsPathInsideDirectory_spec f path (ps_canonicalPayloadDirectory ps)) as (b & E1 & Hin).
  rewrite (bind_run _ _ _ _ _ E1). destruct b; [|by eexists _, f].
  destruct Hin as [Hin _]. specialize (Hin eq_refl). pose proof Hin as (p & d & rest & Hp & _).
  unfold bind, CanonicalPath, LoadTextFile. simpl. rewrite Hp. simpl.
  destruct (fs_fault (fs_tick f) FsRead); [by eexists _, _|].
  destruct (fs_files f !! p) as [content|] eqn:Ec; [|by eexists _, _].
  destruct (is_empty content) eqn:Ee; [by eexists _, _|]. eexists _, _. split; [done|]. split; [done|].
  intros _. exists path, p. simpl. split_and!; [|done|done|done|by intros ->].
  by apply (prefix_substring "file://").
Qed.

(** C11: ReadPayload serves only what lies strictly inside the payload directory: whatever the
    reference (with "..", links, or a sibling directory with the same prefix) it returns without
    changing a file, and a successful read is the non-empty content of a file whose resolved path is
    the resolved payload directory and at least one name more; so a file whose path does not begin
    with the directory's names is never served. *)
Theorem read_payload_contained `{FsEnv} (ps : PayloadService) (ref : string) (f : FileSystem) :
  ∃ r f', ReadPayload ps ref f = (Ret r, f') ∧ fs_files f' = fs_files f ∧
    (pread_succeeded r = true →
     contained ps ref f (pread_content r) ∧
     ∀ secret, (∀ canonical, fs_files f !! canonical = Some secret →
                  ∀ d, weakly_canonical f (ps_canonicalPayloadDirectory ps) = Some d →
                  ¬ path_elements d `prefix_of` path_elements canonical) →
               pread_content r ≠ secret).
Proof.
  destruct (ReadPayload_returns ps ref f) as (r & f' & Hr & Hf & Hc). exists r, f'. split_and!; [done|done|].
  intros Hok. destruct (Hc Hok) as (path & canonical & Href & Hcan & Hin & Hfile & Hne).
  split; [by exists path, canonical|]. intros secret Hsecret <-.
  destruct Hin as (p & d & rest & Hp & Hd & _ & Hel). simplify_eq.
  apply (Hsecret _ Hfile d Hd). rewrite Hel. by eexists.
Qed.

Lemma read_payload_contained_witness :
  let _ := plain_fs false in
  let f := mkFs {[ "/data/memory_runtime/payloads/a.txt" := "text" ]} 0 0 in
  ∃ r f', ReadPayload sample_service "file:///data/memory_runtime/payloads/a.txt" f = (Ret r, f') ∧
    pread_succeeded r = true ∧ contained sample_service "file:///data/memory_runtime/payloads/a.txt" f "text".
Proof.
  intros Hf f.
  assert (match (ReadPayload sample_service "file:///data/memory_runtime/payloads/a.txt" f).1 with
          | Ret r => pread_succeeded r = true /\ pread_content r = "text" | Throw _ => False end) as Hok
    by (split; vm_compute; reflexivity).
  destruct (read_payload_contained sample_service "file:///data/memory_runtime/payloads/a.txt" f)
    as (r & f' & E & _ & Hc). rewrite E in Hok. destruct Hok as [Hok Ht].
  exists r, f'. split; [exact E|]. split; [exact Hok|]. rewrite <- Ht. apply Hc. exact Hok.
Defined.

(** C19: what was offloaded can be read back, under any failure of the calls of the write: once
    WritePayload has offloaded a content, ReadPayload of the reference it returned delivers it, if the
    read itself does not fail, the payload directory still resolves to the directory [D] the service
    resolved at its start (an absolute path, whatever the configured one is), the reference's path
    resolves to the same name in [D], and that file is the one that was written, unchanged. *)
Theorem payload_roundtrip `{FsEnv} {S : Type} `{MemoryPayloadStore S} (ps : PayloadService)
    (request : MemoryPayloadWriteRequest) (s s' : S) (f f' g : FileSystem) (r : MemoryPayloadWriteResult) (D : string)
    (Hdir : ps_canonicalPayloadDirectory ps = D) (Hshape : D ≠ "" ∧ ends_with_slash D = false)
    (Hread : fs_fault (fs_tick g) FsRead = None) (Hcanonical : weakly_canonical g D = Some D)
    (Hwrite : WritePayload ps request (s, f) = (Ret r, (s', f'))) (Hoff : pwres_offloaded r = true)
    (Hfile : ∀ name, let path := path_append (PayloadDirectory (ps_dataPath ps)) name in
       payload_uri (pwres_payload r) = "file://" +:+ path →
       weakly_canonical g path = Some (path_append D name) ∧
       fs_files g !! path_append D name = fs_files f' !! path) :
  ∃ g', ReadPayload ps (payload_uri (pwres_payload r)) g
    = (Ret (mkPayloadReadResult true (pwrite_content request) no_error), g').
Proof.
  destruct (WritePayload_confined ps request s s' f f' r Hwrite) as (path & suffix & Hpath & _ & Hr).
  rewrite Hoff in Hr. destruct Hr as (_ & Hne & Huri & Hf').
  destruct Hpath as (ref & Hpath & Hsafe & Href). destruct (Hfile (ref +:+ ".txt")) as [Hc Hg]; [by rewrite <- Hpath|].
  rewrite <- Hpath in Hc, Hg. rewrite Hf' in Hg.
  rewrite Huri. unfold ReadPayload. cbv zeta.
  change (String.prefix "file://" ("file://" +:+ path)) with (String.prefix "" path).
  assert (String.prefix "" path = true) as -> by (by destruct path). cbn [negb].
  assert (substring 7 (String.length ("file://" +:+ path) - 7) ("file://" +:+ path) = path) as ->.
  { change (substring 7 (String.length ("file://" +:+ path) - 7) ("file://" +:+ path))
      with (substring 0 (String.length path - 0) path). rewrite Nat.sub_0_r. apply substring_all. }
  rewrite Hdir. destruct Hshape as [HD Hslash]. destruct (is_empty D) eqn:Ee; [by destruct D|].
  destruct (IsPathInsideDirectory_spec g path D) as (b & E1 & Hin).
  rewrite (bind_run _ _ _ _ _ E1). assert (b = true) as ->.
  { apply Hin. exists (path_append D (ref +:+ ".txt")), D, [ref +:+ ".txt"]. split_and!; [done|done|done|].
    apply path_elements_join; [done|done| |by apply payload_name_no_slash].
    destruct ref; [done|by rewrite str_app_cons]. }
  unfold bind, CanonicalPath, LoadTextFile. simpl. rewrite Hc, Hread. simpl. rewrite Hg.
  destruct (pwrite_content request) as [|c content] eqn:Ec; [done|]. simpl. by eexists.
Qed.

(** The SDK's default data directory "./data" of a process in /srv: files are written under the relative
    path and read under the absolute one. *)
Definition relative_fs : FsEnv := {|
  fs_fault := λ _ _, None;
  fs_partial := λ _, 0;
  fs_random := λ n, 0%Z;
  fs_random_range := λ n, conj (Z.le_refl 0) eq_refl;
  weakly_canonical := λ _ p, Some (if String.prefix "./" p then "/srv/" +:+ substring 2 (String.length p - 2) p else p)
|}.

Definition relative_service : PayloadService :=
  mkPayloadService (mkConfig "" 4096 3 true default_ModelConfig) "./data" "/srv/data/memory_runtime/payloads" true.

Definition resolved_files : FileSystem :=
  mkFs {[ "/srv/data/memory_runtime/payloads/s_1_call_00.txt" := "content" ]} 0 0.

Lemma payload_roundtrip_witness :
  let _ := relative_fs in let _ := list_payload_store true in
  ∃ r s' f' g', WritePayload relative_service (write_request "content") ([], one_file) = (Ret r, (s', f')) ∧
    ReadPayload relative_service (payload_uri (pwres_payload r)) resolved_files
    = (Ret (mkPayloadReadResult true "content" no_error), g').
Proof.
  intros Hf Hst.
  assert (match (WritePayload relative_service (write_request "content") ([], one_file)) with
          | (Ret r, (_, f')) => pwres_offloaded r = true ∧
              payload_uri (pwres_payload r) = "file://./data/memory_runtime/payloads/s_1_call_00.txt" ∧
              fs_files f' !! "./data/memory_runtime/payloads/s_1_call_00.txt" = Some "content"
          | (Throw _, _) => False end) as Ho by (vm_compute; by split_and!).
  destruct (WritePayload relative_service (write_request "content") ([], one_file)) as [[r|w] [s' f']] eqn:E;
    [|by destruct Ho]. destruct Ho as (Ho & Hu & Hc).
  destruct (payload_roundtrip relative_service (write_request "content") [] s' one_file f' resolved_files r
    "/srv/data/memory_runtime/payloads") as [g' Hg'].
  - reflexivity.
  - by split.
  - reflexivity.
  - reflexivity.
  - exact E.
  - exact Ho.
  - intros name path Hp. rewrite Hu in Hp.
    assert ("./data/memory_runtime/payloads/s_1_call_00.txt" = path) as Hpath by exact (str_app_inj_l "file://" _ _ Hp).
    assert (name = "s_1_call_00.txt") as ->.
    { symmetry. subst path. unfold path_append in Hpath at 1.
      destruct (starts_with_slash name) eqn:En; [by rewrite <- Hpath in En|].
      exact (str_app_inj_l "./data/memory_runtime/payloads/" _ _ Hpath). }
    split; [reflexivity|]. rewrite <- Hpath, Hc. reflexivity.
  - exists r, s', f', g'. split; [reflexivity|exact Hg'].
Defined.

(** The cleanup of temporary files never takes a payload: whatever entries it regards as expired,
    every payload file and every file outside the payload directory stays as it is, and what it
    removes are names with ".txt.tmp." right in that directory. *)
Theorem cleanup_keeps_payloads `{FsEnv} (ps : PayloadService) (written : string → option Z) (now : Z)
    (removable : string → bool) (files : gmap string string) (path : string) :
  let after := cleanup_temp_files (PayloadDirectory (ps_dataPath ps)) written now removable files in
  (payload_path ps path → after !! path = files !! path) ∧
  (after !! path = files !! path ∨
   after !! path = None ∧ IsExpired (written path) now kTempFileCleanupTtl = true ∧
   ∃ name, path_elements path = path_elements (PayloadDirectory (ps_dataPath ps)) ++ [name] ∧
     str_contains ".txt.tmp." name = true).
Proof.
  intros after. set (P := λ path, bool_decide (removelast (path_elements path)
      = path_elements (PayloadDirectory (ps_dataPath ps))) &&
      str_contains ".txt.tmp." (List.last (path_elements path) "") &&
      IsExpired (written path) now kTempFileCleanupTtl && removable path).
  assert (after !! path = if P path then None else files !! path) as Hafter.
  { unfold after, cleanup_temp_files. destruct (files !! path) as [v|] eqn:Ev.
    - destruct (P path) eqn:EP.
      + apply map_lookup_filter_None. right. intros w _. unfold P in EP. by rewrite EP.
      + apply map_lookup_filter_Some. split; [done|]. unfold P in EP. by rewrite EP.
    - rewrite (proj2 (map_lookup_filter_None _ _ _)) by (by left). by destruct (P path). }
  split.
  - intros Hpath. rewrite Hafter. destruct (payload_path_elements ps path Hpath) as (ref & Hel & Hr).
    assert (P path = false) as ->; [|done]. unfold P. rewrite Hel, removelast_last, List.last_last.
    rewrite (contains_after_safe ref) by done. by rewrite andb_false_r.
  - rewrite Hafter. destruct (P path) eqn:EP; [right|by left]. unfold P in EP.
    rewrite !andb_true_iff, bool_decide_eq_true in EP. destruct EP as [[[Hd Hc] He] _].
    split_and!; [done|done|]. exists (List.last (path_elements path) ""). split; [|done].
    rewrite <- Hd. apply app_removelast_last. intros Hnil. by rewrite Hnil in Hc.
Qed.

Lemma cleanup_keeps_payloads_witness :
  let _ := plain_fs false in
  let files := <["/data/memory_runtime/payloads/a.txt" := "text"]>
                 {[ "/data/memory_runtime/payloads/b.txt.tmp.1f" := "part" ]} in
  cleanup_temp_files (PayloadDirectory "/data") (λ _, Some 0%Z) (hours 25) (λ _, true) files
    !! "/data/memory_runtime/payloads/a.txt" = Some "text" ∧
  cleanup_temp_files (PayloadDirectory "/data") (λ _, Some 0%Z) (hours 25) (λ _, true) files
    !! "/data/memory_runtime/payloads/b.txt.tmp.1f" = None.
Proof.
  intros Hf files. split.
  - destruct (cleanup_keeps_payloads sample_service (λ _, Some 0%Z) (hours 25) (λ _, true) files
      "/data/memory_runtime/payloads/a.txt") as [Hkeep _].
    change "/data" with (ps_dataPath sample_service). rewrite Hkeep; [vm_compute; reflexivity|].
    exists "a". split_and!; [vm_compute; reflexivity|vm_compute; reflexivity|done].
  - vm_compute. reflexivity.
Defined.
