(* ===== verification/PayloadConcurrency.v ===== *)
(** * Payload writes and the cleanup thread

    Every [WritePayload] that offloads starts a detached thread that removes temporary files older than
    a day ([ScheduleTempFileCleanup]), and the threads of other writes may still run: a removal can
    happen between any two calls on the file system. *)

From Stdlib Require Import ZArith Lia Ascii String.
From stdpp Require Import base list strings gmap.
From S2P Require Import Prelude CppString Floats Json Types StoreInterface PayloadService PayloadTheorems.

Open Scope am_scope.

(** ** WritePayload with other threads in between *)

Section Interleaved.
Context `{FsEnv} (others : nat → FileSystem → FileSystem).

(** What the other threads do before the call number [i] on the file system. *)
Definition turn (i : nat) : M FileSystem unit := λ f, (Ret tt, others i f).

(** [WritePayloadFileAtomically], from the second call on. *)
Definition WritePayloadFileInterleaved (payloadPath content : string) : M FileSystem (option MemoryError) :=
  let* _ := turn 0 in
  let* error := create_directories in
  match error with
  | Some message => ret (write_failed "failed to create payload directory" message)
  | None =>
      let* _ := turn 1 in
      let* taken := exists_ payloadPath in
      if (taken : bool) then ret (write_failed "payload file already exists" "")
      else
        let* suffix := RandomHexSuffix in
        let tempPath := payloadPath +:+ ".tmp." +:+ suffix in
        let* _ := turn 2 in
        let* taken := exists_ tempPath in
        if (taken : bool) then ret (write_failed "payload temp file already exists" "")
        else
          let* _ := turn 3 in
          let* opened := open_trunc tempPath in
          if negb opened then ret (write_failed "failed to open payload temp file for write" "")
          else
            let* _ := turn 4 in
            let* written := write_close tempPath content in
            if negb written then
              let* _ := turn 5 in
              let* _ := remove tempPath in
              ret (write_failed "failed to write payload temp file" "")
            else
              let* _ := turn 6 in
              let* error := rename tempPath payloadPath in
              match error with
              | Some message =>
                  let* _ := turn 7 in
                  let* _ := remove tempPath in
                  ret (write_failed "failed to finalize payload file" message)
              | None => ret None
              end
  end.

Context {S : Type} `{MemoryPayloadStore S}.

(** [WritePayload] from the start of the cleanup thread on: past the checks that need no file. *)
Definition WritePayloadInterleaved (ps : PayloadService) (request : MemoryPayloadWriteRequest)
    : M (S * FileSystem) MemoryPayloadWriteResult :=
  let content := pwrite_content request in
  if negb (config_enablePayloadOffload (ps_config ps)) || is_empty content then ret (inline_result request)
  else if (wrap32 (str_size content) <? config_offloadThresholdChars (ps_config ps))%Z
  then ret (inline_result request)
  else if negb (ps_store ps) then
    ret (mkPayloadWriteResult false false default_PayloadRef content
           (mkError "payload_store_unavailable"
              "payload offload requires a persistent store for metadata" "" false))
  else
    let* ref := on_fs (BuildPayloadRef request) in
    let payloadPath := path_append (PayloadDirectory (ps_dataPath ps)) (ref +:+ ".txt") in
    let* failed := on_fs (WritePayloadFileInterleaved payloadPath content) in
    match failed with
    | Some error => ret (mkPayloadWriteResult false false default_PayloadRef content error)
    | None =>
        let payload := mkPayloadRef (pwrite_agentId request) (pwrite_sessionId request)
                         ("file://" +:+ payloadPath) (pwrite_contentType request)
                         (BuildPayloadSummary request) (pwrite_toolName request)
                         (wrap32 (str_size content)) json_object "" in
        let* saveResult := on_store (st_SavePayload payload) in
        if negb (op_succeeded saveResult) then
          let* _ := on_fs (turn 8) in
          let* removeError := on_fs (remove payloadPath) in
          let error := if HasError (op_error saveResult) then op_error saveResult
                       else mkError "payload_write_failed" "failed to persist payload metadata" "" false in
          let error :=
            match removeError with
            | None => error
            | Some message =>
                mkError (error_code error) (error_message error)
                  ((if negb (is_empty (error_details error)) then error_details error +:+ "; " else "")
                   +:+ "orphan payload file remaining: " +:+ payloadPath +:+ ", remove error: " +:+ message)
                  (error_retryable error)
            end in
          ret (mkPayloadWriteResult false false payload content error)
        else
          ret (mkPayloadWriteResult true true payload
                 ("[memory-ref: " +:+ payload_uri payload +:+ "]" +:+ String "010"%char EmptyString
                  +:+ payload_summary payload) no_error)
    end.
End Interleaved.

(** A run of the cleanup on the file system. *)
Definition cleanup_run (directory : string) (written : string → option Z) (now : Z)
    (removable : string → bool) (f : FileSystem) : FileSystem :=
  mkFs (cleanup_temp_files directory written now removable (fs_files f)) (fs_tick f) (fs_draws f).

(** ** Simulation *)

Section Simulation.
Context `{FsEnv} (gone : string → Prop).

(** The second file system lacks some files that may be gone. *)
Definition related (f g : FileSystem) : Prop :=
  fs_tick g = fs_tick f ∧ fs_draws g = fs_draws f ∧
  ∀ p, fs_files g !! p = fs_files f !! p ∨ (fs_files g !! p = None ∧ gone p).

Lemma related_refl f : related f f.
Proof. split_and!; [done|done|]. by left. Qed.

Lemma related_present f g p : related f g → ¬ gone p → fs_files g !! p = fs_files f !! p.
Proof. intros (_ & _ & Hf) Hp. destruct (Hf p) as [?|[_ ?]]; done. Qed.

Lemma related_next f g files files' :
  related f g → (∀ p, files' !! p = files !! p ∨ (files' !! p = None ∧ gone p)) →
  related (fs_next files f) (fs_next files' g).
Proof. intros (Ht & Hd & _) Hf. split_and!; [cbn; congruence|done|done]. Qed.

Lemma related_insert f g p v : related f g → ∀ q,
  <[p := v]> (fs_files g) !! q = <[p := v]> (fs_files f) !! q ∨ (<[p := v]> (fs_files g) !! q = None ∧ gone q).
Proof.
  intros (_ & _ & Hf) q. destruct (decide (p = q)) as [->|Hne]; [left; by rewrite !lookup_insert_eq|].
  rewrite !lookup_insert_ne by done. apply Hf.
Qed.

Lemma related_delete f g p : related f g → ∀ q,
  delete p (fs_files g) !! q = delete p (fs_files f) !! q ∨ (delete p (fs_files g) !! q = None ∧ gone q).
Proof.
  intros (_ & _ & Hf) q. destruct (decide (p = q)) as [->|Hne]; [left; by rewrite !lookup_delete_eq|].
  rewrite !lookup_delete_ne by done. apply Hf.
Qed.

Definition sim {A} (m m' : M FileSystem A) : Prop :=
  ∀ f g, related f g → (m' g).1 = (m f).1 ∧ related (m f).2 (m' g).2.

Lemma sim_ret {A} (a : A) : sim (ret a) (ret a).
Proof. by intros f g Hr. Qed.

Lemma sim_bind {A B} (m m' : M FileSystem A) (k k' : A → M FileSystem B) :
  sim m m' → (∀ a, sim (k a) (k' a)) → sim (bind m k) (bind m' k').
Proof.
  intros Hm Hk f g Hr. unfold bind. destruct (Hm f g Hr) as [Ho Hr'].
  destruct (m f) as [[a|w] f'], (m' g) as [o g']; cbn in *; subst o; [by apply Hk|done].
Qed.

(** The other threads may run before a call. *)
Lemma sim_turn {A} others i (m m' : M FileSystem A) :
  (∀ f g, related f g → related f (others i g)) → sim m m' → sim m (let* _ := turn others i in m').
Proof. intros Ho Hm f g Hr. unfold bind, turn. by apply Hm, Ho. Qed.

Lemma sim_fs_call call (u u' : gmap string string → gmap string string) :
  (∀ f g, related f g → ∀ q, u' (fs_files g) !! q = u (fs_files f) !! q ∨ (u' (fs_files g) !! q = None ∧ gone q)) →
  sim (fs_call call u) (fs_call call u').
Proof.
  intros Hu f g Hr. pose proof Hr as (Ht & _ & Hf). unfold fs_call. rewrite Ht.
  destruct (fs_fault _ _); cbn; (split; [done|]); (eapply related_next; [done|]); [apply Hf|by apply Hu].
Qed.

Lemma sim_create_directories : sim create_directories create_directories.
Proof. apply sim_fs_call. intros f g (_ & _ & Hf). apply Hf. Qed.

Lemma sim_exists path : ¬ gone path → sim (exists_ path) (exists_ path).
Proof.
  intros Hp f g Hr. pose proof Hr as (Ht & _ & Hf). unfold exists_. rewrite Ht, (related_present _ _ _ Hr Hp).
  destruct (fs_fault _ _); cbn; (split; [done|]); by eapply related_next.
Qed.

Lemma sim_open path : sim (open_trunc path) (open_trunc path).
Proof. apply sim_bind; [|intros; apply sim_ret]. apply sim_fs_call. intros f g Hr. by apply related_insert. Qed.

Lemma sim_write path content : sim (write_close path content) (write_close path content).
Proof.
  intros f g Hr. pose proof Hr as (Ht & _ & Hf). unfold write_close. rewrite Ht.
  destruct (fs_fault _ _); cbn; (split; [done|]); (eapply related_next; [done|]); by apply related_insert.
Qed.

Lemma sim_remove path : sim (remove path) (remove path).
Proof. apply sim_fs_call. intros f g Hr. by apply related_delete. Qed.

Lemma sim_rename from to : ¬ gone from → sim (rename from to) (rename from to).
Proof.
  intros Hp f g Hr. pose proof Hr as (Ht & Hd & Hf). unfold rename. rewrite Ht, (related_present _ _ _ Hr Hp).
  destruct (fs_fault _ _); [by split; [|eapply related_next]|].
  destruct (fs_files f !! from) as [content|]; cbn; (split; [done|]); (eapply related_next; [done|]); [|apply Hf].
  intros q.
  pose proof (related_insert (mkFs (delete from (fs_files f)) 0 0) (mkFs (delete from (fs_files g)) 0 0) to content) as Hi.
  apply Hi. split_and!; [done|done|]. by apply related_delete.
Qed.

Lemma sim_draw : sim draw draw.
Proof. intros f g (Ht & Hd & Hf). unfold draw. cbn. rewrite Hd. split; [done|]. split_and!; cbn; [done|congruence|done]. Qed.

Lemma sim_suffix : sim RandomHexSuffix RandomHexSuffix.
Proof. apply sim_bind; [apply sim_draw|]. intros a. apply sim_bind; [apply sim_draw|intros; apply sim_ret]. Qed.

Lemma sim_write_file others path content :
  (∀ i f g, related f g → related f (others i g)) → ¬ gone path → (∀ suffix, ¬ gone (path +:+ ".tmp." +:+ suffix)) →
  sim (WritePayloadFileAtomically path content) (WritePayloadFileInterleaved others path content).
Proof.
  intros Ho Hp Ht. apply sim_turn; [apply Ho|].
  apply sim_bind; [apply sim_create_directories|]. intros [message|]; [apply sim_ret|].
  apply sim_turn; [apply Ho|]. apply sim_bind; [by apply sim_exists|]. intros []; [apply sim_ret|].
  apply sim_bind; [apply sim_suffix|]. intros suffix. apply sim_turn; [apply Ho|].
  apply sim_bind; [by apply sim_exists|]. intros []; [apply sim_ret|].
  apply sim_turn; [apply Ho|]. apply sim_bind; [apply sim_open|]. intros []; cbn [negb]; [|apply sim_ret].
  apply sim_turn; [apply Ho|]. apply sim_bind; [apply sim_write|]. intros []; cbn [negb].
  - apply sim_turn; [apply Ho|]. apply sim_bind; [by apply sim_rename|]. intros [message|]; [|apply sim_ret].
    apply sim_turn; [apply Ho|]. apply sim_bind; [apply sim_remove|intros; apply sim_ret].
  - apply sim_turn; [apply Ho|]. apply sim_bind; [apply sim_remove|intros; apply sim_ret].
Qed.

(** The same on a store and a file system. *)
Context {S : Type}.

Definition sim_with_store {A} (m m' : M (S * FileSystem) A) : Prop :=
  ∀ s f g, related f g →
    (m' (s, g)).1 = (m (s, f)).1 ∧ (m' (s, g)).2.1 = (m (s, f)).2.1 ∧ related (m (s, f)).2.2 (m' (s, g)).2.2.

Lemma sim_with_store_ret {A} (a : A) : sim_with_store (ret a) (ret a).
Proof. by intros s f g Hr. Qed.

Lemma sim_with_store_bind {A B} (m m' : M (S * FileSystem) A) (k k' : A → M (S * FileSystem) B) :
  sim_with_store m m' → (∀ a, sim_with_store (k a) (k' a)) → sim_with_store (bind m k) (bind m' k').
Proof.
  intros Hm Hk s f g Hr. unfold bind. destruct (Hm s f g Hr) as (Ho & Hs & Hr').
  destruct (m (s, f)) as [[a|w] [s1 f1]], (m' (s, g)) as [o [s2 g1]]; cbn in *; subst o s2; [by apply Hk|done].
Qed.

Lemma sim_turn_with_store {A} others i (m m' : M (S * FileSystem) A) :
  (∀ f g, related f g → related f (others i g)) → sim_with_store m m' →
  sim_with_store m (let* _ := on_fs (turn others i) in m').
Proof. intros Ho Hm s f g Hr. unfold bind, on_fs, zoom, turn. cbn. by apply Hm, Ho. Qed.

Lemma sim_on_fs {A} (m m' : M FileSystem A) : sim m m' → sim_with_store (on_fs m) (on_fs m').
Proof.
  intros Hm s f g Hr. unfold on_fs, zoom. cbn. destruct (Hm f g Hr) as [Ho Hr'].
  destruct (m f) as [o f1], (m' g) as [o' g1]. by cbn in *.
Qed.

Lemma sim_on_store {A} (m : M S A) : sim_with_store (on_store m) (on_store m).
Proof. intros s f g Hr. unfold on_store, zoom. cbn. by destruct (m s) as [o s1]. Qed.
End Simulation.

(** ** The property *)

Lemma IsExpired_spec written now ttl :
  IsExpired written now ttl = true ↔ ∃ time, written = Some time ∧ (ttl < now - time)%Z.
Proof. destruct written as [time|]; cbn; [|naive_solver]. rewrite Z.ltb_lt. naive_solver. Qed.

(** What a run of the cleanup does to related file systems. *)
Lemma related_cleanup `{FsEnv} (gone : string → Prop) directory written now removable f g :
  (∀ path name, path_elements path = path_elements directory ++ [name] → str_contains ".txt.tmp." name = true →
     IsExpired (written path) now kTempFileCleanupTtl = true → gone path) →
  related gone f g → related gone f (cleanup_run directory written now removable g).
Proof.
  intros Hgone (Ht & Hd & Hf). split_and!; [done|done|]. intros p. cbn [cleanup_run fs_files].
  unfold cleanup_temp_files. destruct (filter _ (fs_files g) !! p) as [v|] eqn:Ep.
  - apply map_lookup_filter_Some in Ep as [Ep _]. rewrite <- Ep. apply Hf.
  - apply map_lookup_filter_None in Ep as [Ep|Ep].
    + destruct (Hf p) as [Hp|[_ Hp]]; [left; congruence|by right].
    + destruct (fs_files g !! p) as [v|] eqn:Eg.
      * specialize (Ep v eq_refl). apply not_true_iff_false, negb_false_iff in Ep.
        rewrite !andb_true_iff, bool_decide_eq_true in Ep. destruct Ep as [[[Hdir Hname] Hexp] _].
        right. split; [done|]. eapply Hgone; [|exact Hname|exact Hexp]. rewrite <- Hdir.
        apply app_removelast_last. intros Hnil. by rewrite Hnil in Hname.
      * destruct (Hf p) as [Hp|[_ Hp]]; [left; congruence|by right].
Qed.

(** A temporary file of the write that starts in [f]. *)
Definition own_temp `{FsEnv} (ps : PayloadService) (request : MemoryPayloadWriteRequest) (f : FileSystem)
    (path : string) : Prop :=
  ∃ ref f1 suffix, BuildPayloadRef request f = (Ret ref, f1) ∧
    path = path_append (PayloadDirectory (ps_dataPath ps)) (ref +:+ ".txt") +:+ ".tmp." +:+ suffix.

(** Both versions of a write from the same state. *)
Lemma write_sim `{FsEnv} {S : Type} `{MemoryPayloadStore S} (gone : string → Prop) others (ps : PayloadService)
    (request : MemoryPayloadWriteRequest) (s : S) (f : FileSystem) :
  (∀ i f g, related gone f g → related gone f (others i g)) →
  (∀ path, payload_path ps path → ¬ gone path) → (∀ path, own_temp ps request f path → ¬ gone path) →
  let alone := WritePayload ps request (s, f) in
  let raced := WritePayloadInterleaved others ps request (s, f) in
  raced.1 = alone.1 ∧ raced.2.1 = alone.2.1 ∧ related gone alone.2.2 raced.2.2.
Proof.
  intros Ho Hpath Htemp. cbv zeta. unfold WritePayload, WritePayloadInterleaved.
  destruct (_ || _); [split_and!; [done|done|apply related_refl]|].
  destruct (_ <? _)%Z; [split_and!; [done|done|apply related_refl]|].
  destruct (negb (ps_store ps)); [split_and!; [done|done|apply related_refl]|].
  destruct (BuildPayloadRef_safe request f) as (ref & f1 & E1 & Hsafe & Hne & _).
  rewrite !(bind_run _ _ _ _ _ (on_fs_run s _ _ _ _ E1)). cbv zeta.
  set (path := path_append (PayloadDirectory (ps_dataPath ps)) (ref +:+ ".txt")).
  assert (¬ gone path) as Hp by (apply Hpath; by exists ref).
  assert (∀ suffix, ¬ gone (path +:+ ".tmp." +:+ suffix)) as Ht by (intros suffix; apply Htemp; by exists ref, f1, suffix).
  match goal with |- (?raced _).1 = (?alone _).1 ∧ _ => enough (sim_with_store gone alone raced) as Hsim end.
  { apply Hsim, related_refl. }
  apply sim_with_store_bind; [by apply sim_on_fs, sim_write_file|].
  intros [error|]; [apply sim_with_store_ret|].
  apply sim_with_store_bind; [apply sim_on_store|]. intros saved. destruct (negb _); [|apply sim_with_store_ret].
  apply sim_turn_with_store; [apply Ho|]. apply sim_with_store_bind; [apply sim_on_fs, sim_remove|].
  intros removeError. apply sim_with_store_ret.
Qed.

(** C22: cleanup threads do not disturb a write: whatever runs of the cleanup come between its calls on
    the file system, as long as none of them comes more than a day after the write's own temporary file
    was written, the write gives the same result, stores the same reference and leaves the same files, less
    temporary files in the payload directory that were older than a day; without such runs it is
    WritePayload. *)
Theorem cleanup_never_disturbs_write `{FsEnv} {S : Type} `{MemoryPayloadStore S} (ps : PayloadService)
    (request : MemoryPayloadWriteRequest) (s : S) (f : FileSystem)
    (written : nat → string → option Z) (now : nat → Z) (removable : nat → string → bool)
    (Hyoung : ∀ i path time, own_temp ps request f path → written i path = Some time →
       (now i - time ≤ hours 24)%Z) :
  let others i := cleanup_run (PayloadDirectory (ps_dataPath ps)) (written i) (now i) (removable i) in
  let alone := WritePayload ps request (s, f) in
  let raced := WritePayloadInterleaved others ps request (s, f) in
  raced.1 = alone.1 ∧ raced.2.1 = alone.2.1 ∧
  (∀ path, fs_files raced.2.2 !! path = fs_files alone.2.2 !! path ∨
     fs_files raced.2.2 !! path = None ∧ ¬ payload_path ps path ∧ ∃ i name time, written i path = Some time ∧
       (hours 24 < now i - time)%Z ∧
       path_elements path = path_elements (PayloadDirectory (ps_dataPath ps)) ++ [name] ∧
       str_contains ".txt.tmp." name = true) ∧
  WritePayloadInterleaved (λ _ f, f) ps request (s, f) = alone.
Proof.
  cbv zeta.
  set (gone := λ path, ∃ i name time, written i path = Some time ∧
    (hours 24 < now i - time)%Z ∧
    path_elements path = path_elements (PayloadDirectory (ps_dataPath ps)) ++ [name] ∧
    str_contains ".txt.tmp." name = true).
  assert (∀ path, payload_path ps path → ¬ gone path) as Hpath.
  { intros path Hp (i & name & time & _ & _ & Hel & Hname). destruct (payload_path_elements ps path Hp) as (ref & Hel' & Hr).
    rewrite Hel' in Hel. apply app_inj_tail in Hel as [_ <-]. by rewrite contains_after_safe in Hname. }
  destruct (write_sim gone (λ i, cleanup_run (PayloadDirectory (ps_dataPath ps)) (written i) (now i) (removable i))
    ps request s f) as (Ho & Hs & Hf).
  { intros i f1 g1. apply related_cleanup. intros path name Hel Hn He.
    apply IsExpired_spec in He as (time & ? & ?). by exists i, name, time. }
  { done. }
  { intros path Hown (i & name & time & He & Hlt & _). specialize (Hyoung i path time Hown He). lia. }
  split_and!; [done|done| |].
  - intros path. destruct Hf as (_ & _ & Hf). destruct (Hf path) as [Hp|[Hp Hg]]; [by left|]. right.
    split_and!; [done| |done]. intros Hpp. by apply (Hpath path).
  - destruct (write_sim (λ _, False) (λ _ f, f) ps request s f) as (Ho' & Hs' & Ht & Hd & Hf'); [done|tauto|tauto|].
    destruct (WritePayload ps request (s, f)) as [o [s1 [files1 t1 d1]]],
      (WritePayloadInterleaved (λ _ f, f) ps request (s, f)) as [o' [s2 [files2 t2 d2]]].
    cbn in *. subst. do 3 f_equal. apply map_eq. intros p. by destruct (Hf' p) as [?|[_ []]].
Qed.

(** A stale temporary file is removed while the payload is written. *)
Definition stale_temp : string := "/data/memory_runtime/payloads/b.txt.tmp.1f".
Definition stale_files : FileSystem := mkFs {[ stale_temp := "part" ]} 0 0.

(** Written at the start of the clock, every other file at its 29th hour. *)
Definition stale_times (path : string) : option Z :=
  if bool_decide (path = stale_temp) then Some 0%Z else Some (hours 29).

Lemma cleanup_never_disturbs_write_witness :
  let _ := plain_fs false in let _ := list_payload_store true in
  let others (_ : nat) := cleanup_run (PayloadDirectory "/data") stale_times (hours 30) (λ _, true) in
  let raced := WritePayloadInterleaved others sample_service (write_request "content") ([], stale_files) in
  raced.1 = (WritePayload sample_service (write_request "content") ([], stale_files)).1 ∧
  fs_files raced.2.2 !! stale_temp = None.
Proof.
  intros Hf Hst others raced. split.
  - apply (cleanup_never_disturbs_write sample_service (write_request "content") [] stale_files
      (λ _, stale_times) (λ _, hours 30) (λ _ _, true)).
    intros i path time (ref & f1 & suffix & Href & ->). unfold stale_times. case_bool_decide as Heq.
    + vm_compute in Href. injection Href as <- _. vm_compute in Heq. discriminate.
    + intros [= <-]. vm_compute. discriminate.
  - vm_compute. reflexivity.
Defined.
