(* ===== verification/Runtime.v ===== *)
(** * The runtime: src/src/core/builtin_memory_runtime.cpp and runtime_services.cpp

    [BuiltinMemoryRuntime] over any store, with the services it is built from. Its state is that of
    the store and the file system; the store may be missing ([rs_store] false) when it could not be
    opened. The mutex of the services makes each getter atomic; the consolidation mutex makes a whole
    consolidation one step with respect to the others. *)

From Stdlib Require Import ZArith Lia Ascii String.
From stdpp Require Import base list strings gmap.
From S2P Require Import Prelude CppString Floats Json Types StoreInterface Consolidation.
From S2P Require Import ContextBuilder PayloadService.

Open Scope am_scope.

(** ** runtime.h *)

(** [class MemoryRuntime], as the server transports use it. *)
Class MemoryRuntime (R : Type) : Type := {
  rt_AppendEvent (event : MemoryEvent) : M R MemoryOperationResult;
  rt_BuildContext (request : MemoryContextRequest) : M R MemoryContextResult;
  rt_WritePayload (request : MemoryPayloadWriteRequest) : M R MemoryPayloadWriteResult;
  rt_ReadPayload (uri : string) : M R MemoryPayloadReadResult;
  rt_Consolidate (request : MemoryConsolidationRequest) : M R MemoryConsolidationResult;
  rt_SearchMemory (request : MemorySearchRequest) : M R MemorySearchResult;
  rt_GetStats : M R MemoryStatsResult
}.

(** ** runtime_paths.cpp *)

Definition ResolveRuntimeDataPath (config : MemoryConfig) : string :=
  if negb (is_empty (config_dataPath config)) then config_dataPath config else "./data".

Definition RuntimeDatabasePath (config : MemoryConfig) : string :=
  path_append (path_append (ResolveRuntimeDataPath config) "memory_runtime") "memory.db".

(** ** runtime_store_initializer.cpp *)

(** The created store, or the error. *)
Record RuntimeStoreCreateResult (S : Type) := mkStoreCreate {
  create_store : option S;
  create_error : string
}.

Arguments mkStoreCreate {S}.
Arguments create_store {S}.
Arguments create_error {S}.

Section Create.
Context `{FsEnv} {S : Type}.

(** [new_store] is the constructor of the store for a path, [Initialize] its method, which opens the
    database and so makes files. *)
Definition CreateRuntimeStore (new_store : string → S) (Initialize : M (S * FileSystem) MemoryOperationResult)
    (config : MemoryConfig) : M FileSystem (RuntimeStoreCreateResult S) :=
  let dbPath := RuntimeDatabasePath config in
  let parent := path_append (ResolveRuntimeDataPath config) "memory_runtime" in
  let* error := create_directories in
  match error with
  | Some message =>
      ret (mkStoreCreate None ("failed to create runtime data directory: " +:+ parent +:+ ": " +:+ message))
  | None =>
      let* initialized := (λ f, match Initialize (new_store dbPath, f) with
                                | (Ret initializeResult, (store, f')) => (Ret (initializeResult, store), f')
                                | (Throw what, (_, f')) => (Throw what, f')
                                end) in
      let '(initializeResult, store) := initialized in
      if negb (op_succeeded initializeResult) then
        ret (mkStoreCreate None
          ("failed to initialize sqlite memory store: " +:+ dbPath +:+
           (if negb (is_empty (error_details (op_error initializeResult)))
            then ": " +:+ error_details (op_error initializeResult) else "")))
      else ret (mkStoreCreate (Some store) "")
  end.
End Create.

(** ** runtime_services.cpp *)

Record RuntimeServices := mkServices {
  rs_store : bool;
  rs_storeError : string;
  rs_payloadService : PayloadService;
  rs_contextBuilder : Builder;
  rs_longTermProcessor : LongTermMemoryProcessor;
  rs_consolidationService : bool;
  rs_modelClient : option MemoryModelClient;
  rs_modelClientError : string
}.

(** [store] is what CreateRuntimeStore returned, [model] what LoadModelClientFromConfig did. *)
Definition CreateRuntimeServices `{FsEnv} {S} (config : MemoryConfig) (store : RuntimeStoreCreateResult S)
    (model : option MemoryModelClient * string) : M FileSystem RuntimeServices :=
  let dataPath := ResolveRuntimeDataPath config in
  let present := match create_store store with Some _ => true | None => false end in
  let* payloadService := new_PayloadService config dataPath present in
  ret (mkServices present (create_error store) payloadService
         (mkBuilder config present present present present)
         RuleBased.RuleBasedLongTermMemoryProcessor present model.1 model.2).

(** ** builtin_memory_runtime.cpp *)

Record BuiltinMemoryRuntime := mkRuntime {
  config_ : MemoryConfig;
  services : RuntimeServices
}.

Section Builtin.
Context {S X : Type} `{MemoryEventStore S} `{MemoryPayloadStore S} `{MemoryLongTermStore S X}
  `{MemorySearchStore S} `{MemoryStatsStore S} `{JsonText} `{FsEnv}.
Context (rt : BuiltinMemoryRuntime).

Definition StoreUnavailableMessage : string :=
  if is_empty (rs_storeError (services rt)) then "memory store unavailable" else rs_storeError (services rt).

Definition consolidation_failed (error : MemoryError) : MemoryConsolidationResult :=
  mkConsolidationResult false false 0 0 0 0 "" "" error.

(** [error.HasError() ? error : MemoryError{code, message, "", false}] *)
Definition or_error (error : MemoryError) (code message : string) : MemoryError :=
  if HasError error then error else mkError code message "" false.

Definition ConsolidateWithModel (request : MemoryConsolidationRequest) (model : option MemoryModelClient)
    : M S MemoryConsolidationResult :=
  if negb (rs_store (services rt)) then
    ret (consolidation_failed (mkError "store_unavailable" StoreUnavailableMessage "" false))
  else if negb (rs_consolidationService (services rt)) then
    ret (consolidation_failed
           (mkError "consolidation_unavailable" "consolidation service unavailable" "" false))
  else
    let* start := if negb (creq_forceReprocess request)
                  then st_LoadConsolidationCursor (creq_agentId request) (creq_sessionId request)
                  else ret (mkCursorResult true "" no_error) in
    if negb (cursor_succeeded start) then
      ret (consolidation_failed
             (or_error (cursor_error start) "cursor_load_failed" "failed to load consolidation cursor"))
    else
      let* eventsResult := st_LoadEventsAfterCursor (creq_agentId request) (creq_sessionId request)
                             (cursor_cursor start) (creq_excludedSessionIds request) in
      if negb (events_succeeded eventsResult) then
        ret (consolidation_failed
               (or_error (events_error eventsResult) "events_load_failed"
                  "failed to load events for consolidation"))
      else
        Service.Consolidate (Some (rs_longTermProcessor (services rt))) request
          (events_events eventsResult) model.

Definition AppendEvent (event : MemoryEvent) : M (S * FileSystem) MemoryOperationResult :=
  if negb (rs_store (services rt)) then
    ret (MemoryFailure "store_unavailable" StoreUnavailableMessage "" false)
  else
    let* result := on_store (st_SaveEvent event) in
    if negb (op_succeeded result) then
      ret (if HasError (op_error result) then result
           else MemoryFailure "event_persist_failed" "failed to persist memory event" "" false)
    else ret MemorySuccess.

Definition BuildContext (request : MemoryContextRequest) : M (S * FileSystem) MemoryContextResult :=
  on_store (ContextBuilder.BuildContext (rs_contextBuilder (services rt)) request).

Definition WritePayload (request : MemoryPayloadWriteRequest) : M (S * FileSystem) MemoryPayloadWriteResult :=
  PayloadService.WritePayload (rs_payloadService (services rt)) request.

Definition ReadPayload (uri : string) : M (S * FileSystem) MemoryPayloadReadResult :=
  on_fs (PayloadService.ReadPayload (rs_payloadService (services rt)) uri).

Definition Consolidate (request : MemoryConsolidationRequest) : M (S * FileSystem) MemoryConsolidationResult :=
  on_store (ConsolidateWithModel request (rs_modelClient (services rt))).

(** The overload with an explicit model. *)
Definition Consolidate_with (request : MemoryConsolidationRequest) (model : option MemoryModelClient)
    : M (S * FileSystem) MemoryConsolidationResult :=
  on_store (ConsolidateWithModel request model).

Definition GetModelStatus : MemoryModelStatus :=
  mkModelStatus (model_enabled (config_model (config_ rt)))
    (match rs_modelClient (services rt) with Some _ => true | None => false end)
    (model_formatType (config_model (config_ rt))) (model_modelName (config_model (config_ rt)))
    (rs_modelClientError (services rt)).

Definition SearchMemory (request : MemorySearchRequest) : M (S * FileSystem) MemorySearchResult :=
  if negb (rs_store (services rt)) then
    ret (mkSearchResult false [] (mkError "search_unavailable" StoreUnavailableMessage "" false))
  else
    let* result := on_store (st_SearchLongTermMemory request) in
    ret (mkSearchResult (ssres_succeeded result) (ssres_results result) (ssres_error result)).

Definition GetStats : M (S * FileSystem) MemoryStatsResult :=
  if negb (rs_store (services rt)) then
    ret (mkStatsResult false default_Stats (mkError "stats_unavailable" StoreUnavailableMessage "" false))
  else on_store st_GetStoreStats.

Definition BuiltinRuntime : MemoryRuntime (S * FileSystem) := {|
  rt_AppendEvent := AppendEvent;
  rt_BuildContext := BuildContext;
  rt_WritePayload := WritePayload;
  rt_ReadPayload := ReadPayload;
  rt_Consolidate := Consolidate;
  rt_SearchMemory := SearchMemory;
  rt_GetStats := GetStats
|}.
End Builtin.
