(* ===== verification/Mcp.v ===== *)
(** * The MCP protocol: src/src/transport/mcp/memory_mcp_protocol.cpp

    JSON-RPC requests over any [MemoryRuntime]: the handler tables of [InitToolHandlers], the tool
    list, and the dispatch with its error codes. Every call is a computation over the runtime's
    state; a C++ exception is a [Throw] and each catch block of the source a [try_catch]. What
    [ErrorMessage] writes to the standard error stream is left out. *)

From Stdlib Require Import ZArith Lia Ascii String.
From stdpp Require Import base list strings gmap.
From S2P Require Import Prelude CppString Floats Json Types Codec Utf8 Runtime.

Open Scope am_scope.

Module Mcp.

(** CMake's PROJECT_VERSION *)
Definition AGENT_MEMORY_VERSION : string := "0.1.0".

Definition kSupportedVersion : string := "2024-11-05".

(** ** Results *)

Definition Error (id : json) (code : Z) (message : string) : json :=
  mk_object [("jsonrpc", JString "2.0"); ("id", id);
             ("error", mk_object [("code", JInteger code); ("message", JString message)])].

Definition MakeError (id : json) (code : Z) (message : string) : json := Error id code message.

Definition Success (id result : json) : json :=
  mk_object [("jsonrpc", JString "2.0"); ("id", id); ("result", result)].

Definition text_content (text : string) : json :=
  mk_object [("content", JArray [mk_object [("type", JString "text"); ("text", JString text)]])].

Definition MakeTextResult `{JsonText} (value : json) : Outcome json :=
  let? text := json_dump value in Ret (text_content text).

(** ** The tools *)

Definition typed (type : string) : json := mk_object [("type", JString type)].

Definition string_array : json := mk_object [("type", JString "array"); ("items", typed "string")].

Definition ToolSchema (name description : string) (properties : json) (required : list string) : json :=
  mk_object [("name", JString name); ("description", JString description);
             ("inputSchema", mk_object [("type", JString "object"); ("properties", properties);
                                        ("required", strings_to_json required)])].

Definition BuildToolsList : json :=
  mk_object [("tools", JArray [
    ToolSchema "memory_append_event" "Append a memory event."
      (mk_object [("type", typed "integer"); ("agentId", typed "string"); ("sessionId", typed "string");
                  ("role", typed "string"); ("content", typed "string"); ("toolCallId", typed "string");
                  ("toolName", typed "string"); ("payloadRef", typed "string");
                  ("metadata", typed "object"); ("timestamp", typed "string")])
      ["type"; "agentId"; "sessionId"];
    ToolSchema "memory_build_context" "Build memory context."
      (mk_object [("agentId", typed "string"); ("sessionId", typed "string"); ("query", typed "string");
                  ("tokenBudget", typed "integer"); ("includeSections", string_array);
                  ("metadata", typed "object")])
      ["agentId"; "sessionId"];
    ToolSchema "memory_write_payload" "Write or offload a payload."
      (mk_object [("agentId", typed "string"); ("sessionId", typed "string"); ("content", typed "string");
                  ("contentType", typed "string"); ("toolCallId", typed "string");
                  ("toolName", typed "string"); ("metadata", typed "object")])
      ["content"];
    ToolSchema "memory_read_payload" "Read an offloaded payload."
      (mk_object [("uri", typed "string")]) ["uri"];
    ToolSchema "memory_consolidate" "Trigger memory consolidation."
      (mk_object [("agentId", typed "string"); ("sessionId", typed "string");
                  ("maxEvents", typed "integer"); ("forceReprocess", typed "boolean");
                  ("metadata", typed "object")])
      ["agentId"];
    ToolSchema "memory_search" "Search memory."
      (mk_object [("agentId", typed "string"); ("sessionId", typed "string"); ("query", typed "string");
                  ("limit", typed "integer"); ("includeSections", string_array);
                  ("metadata", typed "object")])
      ["query"];
    ToolSchema "memory_stats" "Return memory stats." json_object []])].

(** ** The protocol object *)

Record MemoryMcpProtocol := mkMcp { debugErrors_ : bool; cachedTools_ : json }.

(** The constructor *)
Definition new_MemoryMcpProtocol (debugErrors : bool) : MemoryMcpProtocol :=
  mkMcp debugErrors BuildToolsList.

Section Protocol.
Context {R : Type} `{MemoryRuntime R} `{JsonText}.
Context (mcp : MemoryMcpProtocol).

Definition ErrorMessage (what fallback : string) : string :=
  if debugErrors_ mcp then what else fallback.

Definition text_result (envelope : json) : M R json := lift_outcome (MakeTextResult envelope).

Definition toolHandlers_ : gmap string (json → M R json) := list_to_map [
  ("memory_append_event", λ args,
     let* result := rt_AppendEvent (EventFromJson args) in
     text_result (if op_succeeded result then SuccessEnvelope (mk_object [("succeeded", JBool true)])
                  else ErrorEnvelope (op_error result)));
  ("memory_build_context", λ args,
     let* result := rt_BuildContext (ContextRequestFromJson args) in
     text_result (if ctxres_succeeded result
                  then SuccessEnvelope (mk_object [("context", ContextPackageToJson (ctxres_context result))])
                  else ErrorEnvelope (ctxres_error result)));
  ("memory_write_payload", λ args,
     let* result := rt_WritePayload (PayloadWriteRequestFromJson args) in
     text_result (if pwres_succeeded result then SuccessEnvelope (PayloadWriteResultToJson result)
                  else ErrorEnvelope (pwres_error result)));
  ("memory_read_payload", λ args,
     let* uri := lift_outcome (json_value_string args "uri" "") in
     let* result := rt_ReadPayload uri in
     text_result (if pread_succeeded result
                  then SuccessEnvelope (mk_object [("uri", JString uri);
                                                   ("content", JString (pread_content result))])
                  else ErrorEnvelope (pread_error result)));
  ("memory_consolidate", λ args,
     let* result := rt_Consolidate (ConsolidationRequestFromJson args) in
     text_result (if cres_succeeded result then SuccessEnvelope (ConsolidationResultToJson result)
                  else ErrorEnvelope (cres_error result)));
  ("memory_search", λ args,
     let* result := rt_SearchMemory (SearchRequestFromJson args) in
     text_result (if sres_succeeded result
                  then SuccessEnvelope (SearchResponseToJson (sres_hits result) true)
                  else ErrorEnvelope (sres_error result)));
  ("memory_stats", λ _,
     let* result := rt_GetStats in
     text_result (if statsres_succeeded result
                  then SuccessEnvelope (mk_object [("stats", StatsToJson (statsres_stats result))])
                  else ErrorEnvelope (statsres_error result)))].

Definition CallTool (name : string) (args : json) : M R json :=
  try_catch
    (match toolHandlers_ !! name with
     | Some handler => handler args
     | None => text_result (mk_object [("ok", JBool false); ("error", JString ("unknown tool: " +:+ name))])
     end)
    (λ what, text_result (mk_object [("ok", JBool false);
                                     ("error", JString (ErrorMessage what "tool call failed"))])).

Definition handle_initialize (req id : json) : json :=
  if negb (json_contains req "params") then
    Error id (-32602) "missing params object in initialize request"
  else
    let params := json_at req "params" in
    if negb (json_contains params "protocolVersion") || negb (is_string (json_at params "protocolVersion"))
    then Error id (-32602) "missing required string field 'protocolVersion' in initialize params"
    else
      let clientVersion := JsonString params "protocolVersion" "" in
      if bool_decide (clientVersion ≠ kSupportedVersion) then
        Error id (-32602) ("unsupported protocol version: client sent " +:+ clientVersion
                           +:+ ", server only supports " +:+ kSupportedVersion)
      else
        Success id (mk_object [
          ("protocolVersion", JString kSupportedVersion);
          ("serverInfo", mk_object [("name", JString "memory-server");
                                    ("version", JString AGENT_MEMORY_VERSION)]);
          ("capabilities", mk_object [("tools", json_object)])]).

Definition methodHandlers_ : gmap string (json → json → M R json) := list_to_map [
  ("initialize", λ req id, ret (handle_initialize req id));
  ("tools/list", λ _ id, ret (Success id (cachedTools_ mcp)));
  ("tools/call", λ req id,
     let* params := lift_outcome (json_value_json req "params" json_object) in
     let* name := lift_outcome (json_value_string params "name" "") in
     let* arguments := lift_outcome (json_value_json params "arguments" json_object) in
     let* result := CallTool name arguments in
     ret (Success id result))].

(** The method is read before the try block. *)
Definition HandleRequest (req : json) : M R json :=
  let id := if json_contains req "id" then json_at req "id" else JNull in
  let* method := lift_outcome (json_value_string req "method" "") in
  match methodHandlers_ !! method with
  | Some handler =>
      try_catch (handler req id) (λ what, ret (Error id (-32603) (ErrorMessage what "internal error")))
  | None => ret (Error id (-32601) ("method not found: " +:+ method))
  end.

Definition HandleJsonRpc (request : json) : M R json :=
  let isNotification := negb (json_contains request "id") in
  if isNotification then ret JNull else HandleRequest request.

Definition HandleJsonRpcText (body : string) : M R string :=
  try_catch
    (let* req := lift_outcome (json_parse body) in
     let* result := HandleJsonRpc req in
     if json_empty result then ret "" else lift_outcome (json_dump result))
    (λ what, lift_outcome (json_dump (Error JNull (-32700) (ErrorMessage what "parse error")))).
End Protocol.
End Mcp.
