(* ===== verification/Http.v ===== *)
(** * The HTTP server: src/src/transport/http/memory_http_server.{h,cpp}

    The handlers that [RegisterRoutes] registers, each a computation over the state of any
    [MemoryRuntime], and the part of cpp-httplib's [Server] that runs them: the pre-routing handler,
    the body limit, the first route that matches, the status a reply gets, and the parts of its body a
    request with a Range header gets. Reading requests from sockets and matching patterns
    ([std::regex_match]) are the library's; the latter is the interface [PathMatch]. *)

From Stdlib Require Import ZArith Lia Ascii String.
From stdpp Require Import base list strings gmap.
From S2P Require Import Prelude CppString Floats Json Types Codec Utf8 Runtime Mcp.

Open Scope am_scope.

Module Http.

(** ** Requests and responses *)

(** [req_body] is the body as the library delivers it, [req_header] is [get_header_value], [req_ranges]
    are the byte ranges of a Range header, first and last position, -1 where one is left out (a header
    that is no list of ranges is answered 416 before the part modelled here). *)
Record Request := mkRequest {
  req_method : string;
  req_path : string;
  req_body : string;
  req_header : string → string;
  req_ranges : list (Z * Z)
}.

(** [res_status] is [None] until a handler sets it (the library's -1), [res_content] what
    [set_content] was given. *)
Record Response := mkResponse { res_status : option Z; res_content : option string }.

Definition no_response : Response := mkResponse None None.

(** ** Path patterns *)

(** A pattern without regular-expression operators. *)
Definition plain_char (c : ascii) : bool :=
  isalnum c || bool_decide (c = "/"%char) || bool_decide (c = "_"%char) || bool_decide (c = "-"%char).

Definition plain (pattern : string) : bool := str_forall plain_char pattern.

(** What [.] matches: everything but a line terminator. *)
Definition no_newline (s : string) : bool :=
  str_forall (λ c, negb (bool_decide (c = "010"%char)) && negb (bool_decide (c = "013"%char))) s.

(** [regex_match] of a path with a pattern: the first capture, empty if there is none. *)
Class PathMatch : Type := {
  path_match : string → string → option string;
  path_match_plain pattern path : plain pattern = true →
    path_match pattern path = if decide (path = pattern) then Some "" else None;
  path_match_rest pattern path rest : plain pattern = true →
    path_match (pattern +:+ "(.*)") path = Some rest ↔ path = pattern +:+ rest ∧ no_newline rest = true
}.

(** ** cpp-httplib: byte ranges *)

(** [make_multipart_data_boundary], which is random. *)
Class MultipartBoundary : Type := { multipart_boundary : string }.

Definition RANGE_MAX_COUNT : Z := 1024.

(** The positions a range means in a content of [n] bytes. *)
Definition normalize_range (n : Z) (r : Z * Z) : Z * Z :=
  let '(first_pos, last_pos) := r in
  let '(first_pos, last_pos) :=
    if ((first_pos =? -1) && (last_pos =? -1))%Z then (0%Z, n) else (first_pos, last_pos) in
  let '(first_pos, last_pos) :=
    if (first_pos =? -1)%Z then (n - last_pos, n - 1)%Z else (first_pos, last_pos) in
  (first_pos, if ((last_pos =? -1) || (n <=? last_pos))%Z then (n - 1)%Z else last_pos).

Definition valid_range (n : Z) (r : Z * Z) : bool := ((0 <=? r.1) && (r.1 <=? r.2) && (r.2 <=? n - 1))%Z.

Definition overlap (r processed : Z * Z) : bool := negb ((r.2 <? processed.1) || (processed.2 <? r.1))%Z.

(** The loop of [range_error] over the ranges: those already looked at, and how many of them overlap. *)
Fixpoint ranges_refused (n : Z) (processed : list (Z * Z)) (overwrapping_count : Z) (ranges : list (Z * Z)) : bool :=
  match ranges with
  | [] => false
  | r :: ranges' =>
      let r := normalize_range n r in
      if negb (valid_range n r) then true
      else
        let overwrapping_count :=
          if existsb (overlap r) processed then (overwrapping_count + 1)%Z else overwrapping_count in
        if (2 <? overwrapping_count)%Z then true
        else ranges_refused n (processed ++ [r]) overwrapping_count ranges'
  end.

(** The ranges of a request concern its reply. *)
Definition ranges_apply (req : Request) (status : Z) : bool :=
  negb (bool_decide (req_ranges req = [])) && (200 <=? status)%Z && (status <? 300)%Z.

Definition range_error (req : Request) (status content_len : Z) : bool :=
  ranges_apply req status &&
  ((RANGE_MAX_COUNT <? Z.of_nat (length (req_ranges req)))%Z ||
   ranges_refused content_len [] 0 (req_ranges req)).

(** One round of the loop of [coalesce_ranges]; the last range so far is the head. *)
Definition coalesce_step (n : Z) (coalesced : list (Z * Z)) (r : Z * Z) : list (Z * Z) :=
  let '(first_pos, last_pos) := normalize_range n r in
  if negb (valid_range n (first_pos, last_pos)) then coalesced
  else
    match coalesced with
    | prev :: rest =>
        if (first_pos <=? prev.2 + 1)%Z && negb ((first_pos =? prev.1) && (last_pos =? prev.2))%Z
        then (prev.1, Z.max prev.2 last_pos) :: rest
        else (first_pos, last_pos) :: coalesced
    | [] => [(first_pos, last_pos)]
    end.

(** [std::sort] by the first position; ranges that start together are taken in their order. *)
Definition coalesce_ranges (ranges : list (Z * Z)) (n : Z) : list (Z * Z) :=
  match ranges with
  | [] | [_] => ranges
  | _ => rev (foldl (coalesce_step n) [] (sort_by (λ a b, (a.1 <=? b.1)%Z) ranges))
  end.

(** What [range_error] leaves of the ranges when it finds no error. *)
Definition sent_ranges (req : Request) (status content_len : Z) : list (Z * Z) :=
  if ranges_apply req status
  then coalesce_ranges (normalize_range content_len <$> req_ranges req) content_len
  else req_ranges req.

Definition crlf : string := String "013" (String "010" EmptyString).

Definition range_content (content : string) (r : Z * Z) : string :=
  substring (Z.to_nat r.1) (Z.to_nat (r.2 - r.1 + 1)) content.

(** [make_multipart_ranges_data]: a part for every range. *)
Definition range_part `{MultipartBoundary} (content : string) (r : Z * Z) : string :=
  "--" +:+ multipart_boundary +:+ crlf +:+ "Content-Type: application/json" +:+ crlf +:+
  "Content-Range: bytes " +:+ to_string r.1 +:+ "-" +:+ to_string r.2 +:+ "/" +:+ to_string (str_size content) +:+
  crlf +:+ crlf +:+ range_content content r +:+ crlf.

Definition apply_ranges `{MultipartBoundary} (ranges : list (Z * Z)) (status : Z) (content : option string)
    : option string :=
  match content with
  | None => None
  | Some EmptyString => content
  | Some body =>
      if bool_decide (ranges = []) || negb (status =? 206)%Z then content
      else match ranges with
           | [r] => Some (range_content body r)
           | _ => Some (foldr (λ part rest, part +:+ rest) "" (range_part body <$> ranges) +:+ "--" +:+ multipart_boundary +:+ "--")
           end
  end.

(** [res.body.size()] *)
Definition content_length (res : Response) : Z := str_size (default EmptyString (res_content res)).

(** ** The server object *)

Record MemoryHttpServer := mkHttpServer {
  apiToken_ : string;
  debugErrors_ : bool;
  maxPayloadBytes_ : Z;
  mcpPath_ : string;
  maxMcpMessageBytes_ : Z;
  mcpProtocol_ : Mcp.MemoryMcpProtocol
}.

(** The constructor *)
Definition new_MemoryHttpServer (apiToken : string) (debugErrors : bool) (maxPayloadBytes : Z)
    (mcpPath : string) (maxMcpMessageBytes : Z) : MemoryHttpServer :=
  mkHttpServer apiToken debugErrors maxPayloadBytes mcpPath maxMcpMessageBytes
    (Mcp.new_MemoryMcpProtocol debugErrors).

(** ** ConstantTimeEquals *)

Definition byte_at (s : string) (i : nat) : Z :=
  match String.get i s with Some c => byte_code c | None => 0 end.

(** Every byte of the longer string is looked at, whatever the difference so far. *)
Definition ConstantTimeEquals (lhs rhs : string) : bool :=
  let diff := Z.lxor (str_size lhs) (str_size rhs) in
  let maxSize := Nat.max (String.length lhs) (String.length rhs) in
  (foldl (λ diff i, Z.lor diff (Z.lxor (byte_at lhs i) (byte_at rhs i))) diff (seq 0 maxSize) =? 0)%Z.

Section Server.
Context {R : Type} `{MemoryRuntime R} `{JsonText}.

(** A route: its pattern and its handler, which gets the first capture. *)
Notation Handler := (string → Request → M R Response).

(** The state [RegisterRoutes] builds up in [httplib::Server]. *)
Record Server := mkServer {
  payload_max_length : Z;
  pre_routing_handler : option (Request → M R (option Response));
  get_handlers : list (string * Handler);
  post_handlers : list (string * Handler)
}.

Section Handlers.
Context (srv : MemoryHttpServer).

Definition ErrorMessage (what fallback : string) : string :=
  if debugErrors_ srv then what else fallback.

(** [res.status = status; res.set_content(value.dump(), "application/json")] *)
Definition set_json (status : option Z) (value : json) : M R Response :=
  let* text := lift_outcome (json_dump value) in
  ret (mkResponse status (Some text)).

Definition plain_error (message : string) : json :=
  mk_object [("ok", JBool false); ("error", JString message)].

Definition HandleJsonPost (handler : json → M R json) (req : Request) : M R Response :=
  if (0 <? maxPayloadBytes_ srv)%Z && (maxPayloadBytes_ srv <? str_size (req_body req))%Z then
    set_json (Some 413%Z) (plain_error "payload too large")
  else
    match json_parse (req_body req) with
    | Throw what => set_json (Some 400%Z) (plain_error (ErrorMessage what "invalid JSON"))
    | Ret j =>
        try_catch (let* value := handler j in set_json None value)
          (λ what, set_json (Some 500%Z) (plain_error (ErrorMessage what "internal server error")))
    end.

Definition HandleJsonGet (handler : M R json) : M R Response :=
  try_catch (let* value := handler in set_json None value)
    (λ what, set_json (Some 500%Z) (plain_error (ErrorMessage what "internal server error"))).

Definition post_events (j : json) : M R json :=
  let* result := rt_AppendEvent (EventFromJson j) in
  ret (if op_succeeded result then SuccessEnvelope (mk_object [("succeeded", JBool true)])
       else ErrorEnvelope (op_error result)).

Definition post_context (j : json) : M R json :=
  let* result := rt_BuildContext (ContextRequestFromJson j) in
  ret (if ctxres_succeeded result
       then SuccessEnvelope (mk_object [("context", ContextPackageToJson (ctxres_context result))])
       else ErrorEnvelope (ctxres_error result)).

Definition post_payloads (j : json) : M R json :=
  let* result := rt_WritePayload (PayloadWriteRequestFromJson j) in
  ret (if pwres_succeeded result then SuccessEnvelope (PayloadWriteResultToJson result)
       else ErrorEnvelope (pwres_error result)).

Definition post_consolidate (j : json) : M R json :=
  let* result := rt_Consolidate (ConsolidationRequestFromJson j) in
  ret (if cres_succeeded result then SuccessEnvelope (ConsolidationResultToJson result)
       else ErrorEnvelope (cres_error result)).

Definition post_search (j : json) : M R json :=
  let* result := rt_SearchMemory (SearchRequestFromJson j) in
  ret (if sres_succeeded result then SuccessEnvelope (SearchResponseToJson (sres_hits result) true)
       else ErrorEnvelope (sres_error result)).

Definition get_stats : M R json :=
  let* result := rt_GetStats in
  ret (if statsres_succeeded result
       then SuccessEnvelope (mk_object [("stats", StatsToJson (statsres_stats result))])
       else ErrorEnvelope (statsres_error result)).

Definition invalid_path (message : string) : json :=
  ErrorEnvelope (mkError "invalid_payload_path" message "" false).

Definition control_char (c : ascii) : bool := (byte_code c <? 32)%Z.

Definition get_payload (mtch : string) : M R Response :=
  if is_empty mtch then set_json (Some 400%Z) (invalid_path "empty payload path")
  else if str_contains ".." mtch then
    set_json (Some 400%Z) (invalid_path "path contains forbidden traversal sequence")
  else if negb (str_forall (λ c, negb (control_char c)) mtch) then
    set_json (Some 400%Z) (invalid_path "path contains control character")
  else
    HandleJsonGet
      (let uri := "file://" +:+ mtch in
       let* result := rt_ReadPayload uri in
       ret (if pread_succeeded result
            then SuccessEnvelope (mk_object [("uri", JString uri);
                                             ("content", JString (pread_content result))])
            else ErrorEnvelope (pread_error result))).

Definition health : M R Response := set_json None (mk_object [("status", JString "ok")]).

(** RegisterMcpRoutes *)
Definition post_mcp (req : Request) : M R Response :=
  if (maxMcpMessageBytes_ srv <? str_size (req_body req))%Z then
    set_json (Some 413%Z) (Mcp.MakeError JNull (-32600) "message too large")
  else
    let* response := Mcp.HandleJsonRpcText (mcpProtocol_ srv) (req_body req) in
    if is_empty response then ret (mkResponse (Some 202%Z) None)
    else ret (mkResponse None (Some response)).

(** RegisterAuth: [None] is Unhandled, a response is Handled. *)
Definition authorize (req : Request) : M R (option Response) :=
  if bool_decide (req_path req = "/health") then ret None
  else
    let expected := "Bearer " +:+ apiToken_ srv in
    if ConstantTimeEquals (req_header req "Authorization") expected then ret None
    else
      let* res := set_json (Some 401%Z) (plain_error "unauthorized") in
      ret (Some res).

Definition RegisterRoutes : Server := {|
  payload_max_length := Z.max (maxPayloadBytes_ srv) (maxMcpMessageBytes_ srv);
  pre_routing_handler := if is_empty (apiToken_ srv) then None else Some authorize;
  get_handlers := [
    ("/v1/payloads/(.*)", λ mtch _, get_payload mtch);
    ("/v1/stats", λ _ _, HandleJsonGet get_stats);
    ("/health", λ _ _, health)];
  post_handlers := [
    (mcpPath_ srv, λ _ req, post_mcp req);
    ("/v1/events", λ _ req, HandleJsonPost post_events req);
    ("/v1/context", λ _ req, HandleJsonPost post_context req);
    ("/v1/payloads", λ _ req, HandleJsonPost post_payloads req);
    ("/v1/consolidate", λ _ req, HandleJsonPost post_consolidate req);
    ("/v1/search", λ _ req, HandleJsonPost post_search req)]
|}.
End Handlers.

(** ** cpp-httplib: [routing] and the end of [process_request] *)

Section Library.
Context `{PathMatch} `{MultipartBoundary}.

(** The first handler whose pattern matches; [None] if there is none. *)
Fixpoint dispatch_request (handlers : list (string * Handler)) (req : Request) : M R (option Response) :=
  match handlers with
  | [] => ret None
  | (pattern, handler) :: handlers' =>
      match path_match pattern (req_path req) with
      | Some mtch => let* res := handler mtch req in ret (Some res)
      | None => dispatch_request handlers' req
      end
  end.

Definition expect_content (req : Request) : bool :=
  bool_decide (req_method req ∈ ["POST"; "PUT"; "PATCH"; "DELETE"]) || negb (is_empty (req_body req)).

(** Whether the request was routed, and the response so far. *)
Definition routing (server : Server) (req : Request) : M R (bool * Response) :=
  let routed (o : option Response) : bool * Response :=
    match o with Some res => (true, res) | None => (false, no_response) end in
  let* handled := match pre_routing_handler server with Some h => h req | None => ret None end in
  match handled with
  | Some res => ret (true, res)
  | None =>
      if expect_content req && (payload_max_length server <? str_size (req_body req))%Z then
        ret (false, mkResponse (Some 413%Z) None)
      else if bool_decide (req_method req ∈ ["GET"; "HEAD"]) then
        let* o := dispatch_request (get_handlers server) req in ret (routed o)
      else if bool_decide (req_method req = "POST") then
        let* o := dispatch_request (post_handlers server) req in ret (routed o)
      else if bool_decide (req_method req ∈ ["PUT"; "DELETE"; "OPTIONS"; "PATCH"]) then
        ret (false, no_response)
      else ret (false, mkResponse (Some 400%Z) None)
  end.

(** The status and the content that are sent (for HEAD only its length is); an exception of a handler is
    a bare 500. *)
Definition process_request (server : Server) (req : Request) (s : R) : (Z * option string) * R :=
  match routing server req s with
  | (Ret (true, res), s') =>
      let status := default (match req_ranges req with [] => 200 | _ => 206 end)%Z (res_status res) in
      if range_error req status (content_length res) then ((416%Z, None), s')
      else ((status, apply_ranges (sent_ranges req status (content_length res)) status (res_content res)), s')
  | (Ret (false, res), s') => ((default 404%Z (res_status res), res_content res), s')
  | (Throw _, s') => ((500%Z, None), s')
  end.
End Library.
End Server.
End Http.
