(* ===== verification/TransportSamples.v ===== *)
(** * Concrete parameters for the transports

    A runtime whose state counts its calls and which fails in each of the ways a runtime can, and a
    matcher for the patterns the server registers. *)

From Stdlib Require Import ZArith Lia Ascii String.
From stdpp Require Import base list strings gmap.
From S2P Require Import Prelude CppString Floats Json Types Codec Utf8 Runtime Mcp Http.

Open Scope am_scope.

(** One call: the state counts it. *)
Definition counted {A} (o : Outcome A) : M nat A := λ n, (o, S n).

(** Appending succeeds, searching finds nothing, statistics throw, everything else reports an error. *)
Definition counting_runtime : MemoryRuntime nat := {|
  rt_AppendEvent := λ _, counted (Ret MemorySuccess);
  rt_BuildContext := λ _, counted (Ret (mkContextResult false default_ContextPackage
                                         (mkError "store_unavailable" "no store" "" false)));
  rt_WritePayload := λ request, counted (Ret (mkPayloadWriteResult true false default_PayloadRef
                                               (pwrite_content request) no_error));
  rt_ReadPayload := λ _, counted (Ret (mkPayloadReadResult false ""
                                        (mkError "payload_read_failed" "no file" "" false)));
  rt_Consolidate := λ _, counted (Throw "bad_alloc");
  rt_SearchMemory := λ _, counted (Ret (mkSearchResult true [] no_error));
  rt_GetStats := counted (Throw "bad_alloc")
|}.

(** A pattern of literal characters, possibly with a capture of the rest at its end. *)
Fixpoint sample_path_match (pattern path : string) : option string :=
  if decide (pattern = "(.*)") then (if Http.no_newline path then Some path else None)
  else
    match pattern, path with
    | EmptyString, EmptyString => Some ""
    | String c pattern', String d path' => if decide (c = d) then sample_path_match pattern' path' else None
    | _, _ => None
    end.

Lemma plain_not_rest pattern : Http.plain pattern = true → pattern ≠ "(.*)".
Proof. by intros H ->. Qed.

Lemma sample_path_match_plain pattern path :
  Http.plain pattern = true →
  sample_path_match pattern path = if decide (path = pattern) then Some "" else None.
Proof.
  revert path. induction pattern as [|c pattern IH]; intros path Hp; cbn [sample_path_match];
    rewrite decide_False by (by apply plain_not_rest).
  - destruct path; [by rewrite decide_True|by rewrite decide_False].
  - destruct path as [|d path]; [by rewrite decide_False|]. apply andb_prop in Hp as [_ Hp].
    destruct (decide (c = d)) as [->|Hne]; [|rewrite decide_False; congruence].
    rewrite IH by done. destruct (decide (path = pattern)) as [->|Hne]; [by rewrite decide_True|].
    rewrite decide_False; congruence.
Qed.

Lemma sample_path_match_rest pattern path rest :
  Http.plain pattern = true →
  sample_path_match (pattern +:+ "(.*)") path = Some rest ↔
  path = pattern +:+ rest ∧ Http.no_newline rest = true.
Proof.
  revert path. induction pattern as [|c pattern IH]; intros path Hp.
  - change ("" +:+ "(.*)") with "(.*)". cbn [sample_path_match]. rewrite decide_True by done.
    change ("" +:+ rest) with rest. destruct (Http.no_newline path) eqn:E; split.
    + by intros [= <-].
    + by intros [-> _].
    + done.
    + intros [<- E']. congruence.
  - rewrite !str_app_cons. cbn [sample_path_match]. rewrite decide_False.
    2: { intros [= -> _]. done. }
    apply andb_prop in Hp as [_ Hp]. destruct path as [|d path]; [by split; [|intros [? _]]|].
    destruct (decide (c = d)) as [->|Hne].
    + rewrite IH by done. split; intros [H1 H2]; (split; [congruence|done]).
    + split; [done|]. intros [[= ? _] _]. congruence.
Qed.

Definition sample_paths : Http.PathMatch := {|
  Http.path_match := sample_path_match;
  Http.path_match_plain := sample_path_match_plain;
  Http.path_match_rest := sample_path_match_rest
|}.

Definition sample_boundary : Http.MultipartBoundary := {| Http.multipart_boundary := "boundary" |}.

(** ** Requests *)

Definition rpc (method : string) (params : json) : json :=
  mk_object [("jsonrpc", JString "2.0"); ("id", JInteger 7); ("method", JString method); ("params", params)].

Definition stats_call : json :=
  rpc "tools/call" (mk_object [("name", JString "memory_stats"); ("arguments", json_object)]).

Definition search_body : json := mk_object [("agentId", JString "a"); ("query", JString "tea")].

Definition event_body : json := mk_object [("type", JInteger 2); ("agentId", JString "a")].

Definition sample_documents : list json := [stats_call; search_body; event_body].

Definition sample_docs : JsonText := document_json sample_documents.

Definition sample_docs_laws : @JsonTextLaws sample_docs := document_json_laws sample_documents.

Definition header (name value : string) : string → string :=
  λ key, if decide (key = name) then value else "".
