(* ===== verification/McpTheorems.v ===== *)
(** * Theorems on the MCP protocol

    Every message is answered as JSON-RPC asks, whatever the runtime does; the tools of the list are
    the tools that can be called; a tool call runs the runtime's operation on the decoded arguments
    and nothing else. *)

From Stdlib Require Import ZArith Lia Ascii String.
From stdpp Require Import base list strings gmap.
From S2P Require Import Prelude CppString Floats Json Types Codec Utf8 Runtime Mcp Http TransportSamples.

Open Scope am_scope.
Import Mcp.

(** ** Answers *)

(** A result whose only entry is a text that can be written as JSON. *)
Definition is_text_result (j : json) : Prop := ∃ text, j = text_content text ∧ utf8 text = true.

Lemma Error_not_utf8 id code message : utf8 message = false → json_utf8 (Error id code message) = false.
Proof.
  intros Hm.
  assert (Error id code message
          = JObject [("error", JObject [("code", JInteger code); ("message", JString message)]);
                     ("id", id); ("jsonrpc", JString "2.0")]) as -> by done.
  cbn [json_utf8 forallb]. by rewrite Hm, !andb_false_r.
Qed.

(** A JSON-RPC response to [id]. *)
Inductive is_response (id : json) : json → Prop :=
| response_result result : json_utf8 result = true → is_response id (Success id result)
| response_error code message : utf8 message = true → is_response id (Error id code message).

Section Answers.
Context {R : Type} `{MemoryRuntime R} `{JsonTextLaws}.

Lemma Error_utf8 id code message :
  json_utf8 id = true → utf8 message = true → json_utf8 (Error id code message) = true.
Proof.
  intros Hid Hm. apply mk_object_utf8. repeat constructor; [done|].
  apply mk_object_utf8. by repeat constructor.
Qed.

Lemma Success_utf8 id result :
  json_utf8 id = true → json_utf8 result = true → json_utf8 (Success id result) = true.
Proof. intros Hid Hr. apply mk_object_utf8. by repeat constructor. Qed.

Lemma text_content_utf8 text : utf8 text = true → json_utf8 (text_content text) = true.
Proof.
  intros Ht. apply mk_object_utf8. constructor; [|constructor]. split; [done|].
  change (json_utf8 (mk_object [("type", JString "text"); ("text", JString text)]) && true = true).
  rewrite mk_object_utf8; [done|]. by repeat constructor.
Qed.

Lemma response_utf8 id j : json_utf8 id = true → is_response id j → json_utf8 j = true.
Proof. intros Hid []; [by apply Success_utf8|by apply Error_utf8]. Qed.

Lemma response_not_empty id j : is_response id j → json_empty j = false.
Proof. by intros []. Qed.

(** A computation whose results are text results. *)
Definition answers (m : M R json) : Prop :=
  ∀ s, match (m s).1 with Ret j => is_text_result j | Throw _ => True end.

Lemma answers_bind {A} (m : M R A) (k : A → M R json) : (∀ a, answers (k a)) → answers (bind m k).
Proof. intros Hk s. unfold bind. destruct (m s) as [[a|w] s']; [apply Hk|done]. Qed.

Lemma answers_text_result envelope : answers (text_result envelope).
Proof.
  intros s. unfold text_result, lift_outcome, MakeTextResult, obind. simpl.
  destruct (json_dump envelope) as [text|] eqn:E; [|done]. exists text. split; [done|by eapply dump_utf8].
Qed.

Lemma answers_tool name handler args :
  toolHandlers_ !! name = Some handler → answers (handler args).
Proof.
  intros Hin%elem_of_list_to_map_2. revert Hin. rewrite !elem_of_cons, elem_of_nil.
  intros Hin. destruct_or! Hin; try done; injection Hin as -> ->;
    repeat (apply answers_bind; intros ?); apply answers_text_result.
Qed.

Lemma text_result_total envelope s :
  json_utf8 envelope = true → ∃ j, text_result (R:=R) envelope s = (Ret j, s) ∧ is_text_result j.
Proof.
  intros Hu. unfold text_result, lift_outcome, MakeTextResult, obind.
  destruct (dump_total _ Hu) as [text E]. rewrite E. eexists. split; [done|].
  exists text. split; [done|by eapply dump_utf8].
Qed.

(** In release mode a tool call cannot throw, and answers with a text. *)
Lemma CallTool_total mcp name args s :
  debugErrors_ mcp = false → utf8 name = true →
  ∃ j s', CallTool mcp name args s = (Ret j, s') ∧ is_text_result j.
Proof.
  intros Hd Hn. unfold CallTool, try_catch.
  destruct (toolHandlers_ !! name) as [handler|] eqn:E.
  - pose proof (answers_tool name handler args E s) as Ha.
    destruct (handler args s) as [[j|w] s']; [by eauto|].
    destruct (text_result_total (mk_object [("ok", JBool false);
      ("error", JString (ErrorMessage mcp w "tool call failed"))]) s') as (j & -> & Hj); [|by eauto].
    unfold ErrorMessage. by rewrite Hd.
  - destruct (text_result_total (mk_object [("ok", JBool false);
      ("error", JString ("unknown tool: " +:+ name))]) s) as (j & -> & Hj); [|by eauto].
    apply mk_object_utf8. repeat constructor. by apply utf8_app.
Qed.

Lemma handle_initialize_response req id :
  json_utf8 req = true → is_response id (handle_initialize req id).
Proof.
  intros Hu. unfold handle_initialize.
  destruct (negb (json_contains req "params")); [by constructor|]. cbv zeta.
  destruct (negb _ || negb (is_string _)) eqn:E; [by constructor|].
  case_bool_decide; [|by constructor].
  constructor. apply utf8_app; [done|]. apply utf8_app; [|done].
  apply JsonString_utf8; [by apply json_at_utf8|done].
Qed.

(** In release mode a method handler that returns gives a response, and one that throws is answered
    with an internal error. *)
Lemma method_total mcp method handler req id s :
  debugErrors_ mcp = false → json_utf8 (cachedTools_ mcp) = true → json_utf8 req = true →
  methodHandlers_ mcp !! method = Some handler →
  ∃ j s', try_catch (handler req id) (λ what, ret (Error id (-32603) (ErrorMessage mcp what "internal error"))) s
          = (Ret j, s') ∧ is_response id j.
Proof.
  intros Hd Hc Hu Hin%elem_of_list_to_map_2. revert Hin. rewrite !elem_of_cons, elem_of_nil.
  intros Hin. destruct_or! Hin; try done; injection Hin as -> ->; unfold try_catch.
  - eexists _, s. split; [done|]. by apply handle_initialize_response.
  - eexists _, s. split; [done|]. by constructor.
  - unfold ErrorMessage. rewrite Hd. unfold bind, lift_outcome, ret.
    destruct (json_value_json req "params" json_object) as [params|] eqn:Ep; [|by repeat econstructor].
    assert (json_utf8 params = true) as Hp by (eapply json_value_json_utf8; [exact Hu| |exact Ep]; done).
    destruct (json_value_string params "name" "") as [name|] eqn:En; [|by repeat econstructor].
    destruct (json_value_json params "arguments" json_object) as [arguments|]; [|by repeat econstructor].
    destruct (CallTool_total mcp name arguments s Hd) as (j & s' & -> & text & -> & Ht).
    { eapply json_value_string_utf8; [exact Hp| |exact En]; done. }
    eexists _, s'. split; [done|]. constructor. by apply text_content_utf8.
Qed.

Lemma HandleRequest_total mcp req method s :
  debugErrors_ mcp = false → json_utf8 (cachedTools_ mcp) = true → json_utf8 req = true →
  json_contains req "id" = true → json_value_string req "method" "" = Ret method →
  ∃ j s', HandleRequest mcp req s = (Ret j, s') ∧ is_response (json_at req "id") j.
Proof.
  intros Hd Hc Hu Hid Hm. unfold HandleRequest. rewrite Hid. unfold bind, lift_outcome. rewrite Hm.
  destruct (methodHandlers_ mcp !! method) as [handler|] eqn:Eh; [by eapply method_total|].
  eexists _, s. split; [done|]. constructor. apply utf8_app; [done|].
  eapply json_value_string_utf8; [exact Hu| |exact Hm]; done.
Qed.
End Answers.

(** ** The contract of [HandleJsonRpcText] *)

(** What the message [body], received in runtime state [s], is answered with: the runtime is left
    alone unless the message is a request with a method that is a string. *)
Definition answered `{JsonText} {R} (body : string) (s : R) (text : string) (s' : R) : Prop :=
  match json_parse body with
  | Throw _ => s' = s ∧ json_dump (Error JNull (-32700) "parse error") = Ret text
  | Ret req =>
      if negb (json_contains req "id") then s' = s ∧ text = ""
      else
        match json_value_string req "method" "" with
        | Throw _ => s' = s ∧ json_dump (Error JNull (-32700) "parse error") = Ret text
        | Ret _ => ∃ answer, json_dump answer = Ret text ∧ is_response (json_at req "id") answer
        end
  end.

(** In release mode HandleJsonRpcText returns, whatever the body and the runtime. *)
Lemma HandleJsonRpcText_answered {R : Type} `{MemoryRuntime R} `{JsonTextLaws} (body : string) (s : R) :
  ∃ text s', HandleJsonRpcText (new_MemoryMcpProtocol false) body s = (Ret text, s') ∧
             answered body s text s'.
Proof.
  assert (debugErrors_ (new_MemoryMcpProtocol false) = false ∧
          json_utf8 (cachedTools_ (new_MemoryMcpProtocol false)) = true) as [Hd Hc] by done.
  set (mcp := new_MemoryMcpProtocol false) in *.
  assert (∀ w, ∃ text, json_dump (Error JNull (-32700) (ErrorMessage mcp w "parse error")) = Ret text ∧
            json_dump (Error JNull (-32700) "parse error") = Ret text) as Hparse.
  { intros w. destruct (dump_total (Error JNull (-32700) "parse error")) as [text E]; [done|].
    exists text. unfold ErrorMessage. by rewrite Hd. }
  unfold HandleJsonRpcText, answered, try_catch, bind, lift_outcome, ret.
  destruct (json_parse body) as [req|w] eqn:Eb.
  2: { destruct (Hparse w) as (text & Ht & ?). exists text, s. split; [exact (f_equal (λ o, (o, s)) Ht)|done]. }
  pose proof (parse_utf8 _ _ Eb) as Hu. unfold HandleJsonRpc, ret.
  destruct (json_contains req "id") eqn:Ei; cbn [negb]; [|by eexists _, s].
  destruct (json_value_string req "method" "") as [method|w] eqn:Em.
  2: { destruct (Hparse w) as (text & Ht & ?). exists text, s.
       unfold HandleRequest, bind, lift_outcome. rewrite Em.
       split; [exact (f_equal (λ o, (o, s)) Ht)|done]. }
  destruct (HandleRequest_total mcp req method s Hd Hc Hu Ei Em) as (j & s' & -> & Hj).
  cbn beta iota. rewrite (response_not_empty _ _ Hj).
  destruct (dump_total j) as [text Et]; [eapply response_utf8; [by apply json_at_utf8|exact Hj]|].
  exists text, s'. rewrite Et. split; [done|]. by exists j.
Qed.

Lemma answered_utf8 `{JsonTextLaws} {R} body (s : R) text s' : answered body s text s' → utf8 text = true.
Proof.
  unfold answered. destruct (json_parse body); [|by intros [_ ?%dump_utf8]].
  destruct (negb _); [by intros [_ ->]|]. destruct (json_value_string _ _ _); [|by intros [_ ?%dump_utf8]].
  by intros (answer & ?%dump_utf8 & _).
Qed.

(** The messages [bodies] one after the other. *)
Fixpoint serve {R} `{MemoryRuntime R} `{JsonText} (mcp : MemoryMcpProtocol) (bodies : list string)
    : M R (list string) :=
  match bodies with
  | [] => ret []
  | body :: bodies' =>
      let* text := HandleJsonRpcText mcp body in
      let* texts := serve mcp bodies' in
      ret (text :: texts)
  end.

Fixpoint answered_all `{JsonText} {R} (bodies : list string) (s : R) (texts : list string) (s' : R) : Prop :=
  match bodies, texts with
  | [], [] => s' = s
  | body :: bodies', text :: texts' => ∃ s1, answered body s text s1 ∧ answered_all bodies' s1 texts' s'
  | _, _ => False
  end.

(** C24: in release mode a session cannot be broken: whatever the bytes of the messages and whatever
    the runtime returns or throws, every message is answered in turn. Text that is not JSON gets the
    parse error -32700, a notification gets no answer and does not reach the runtime, and a request
    gets exactly one JSON-RPC response that carries its id. *)
Theorem rpc_always_answered {R : Type} `{MemoryRuntime R} `{JsonTextLaws} (bodies : list string) (s : R) :
  ∃ texts s', serve (new_MemoryMcpProtocol false) bodies s = (Ret texts, s') ∧
              answered_all bodies s texts s'.
Proof.
  revert s. induction bodies as [|body bodies IH]; intros s; [by exists [], s|].
  cbn [serve]. unfold bind, ret.
  destruct (HandleJsonRpcText_answered body s) as (text & s1 & -> & Ha).
  destruct (IH s1) as (texts & s' & -> & Has). exists (text :: texts), s'. split; [done|]. by exists s1.
Qed.

(** With debugErrors a message can escape unanswered: when the parser's complaint, which quotes
    the message, is not UTF-8 itself, writing the -32700 answer throws out of HandleJsonRpcText. *)
Theorem debug_parse_error_escapes {R : Type} `{MemoryRuntime R} `{JsonTextLaws} (body what : string)
    (s : R) (Hparse : json_parse body = Throw what) (Hwhat : utf8 what = false) :
  ∃ w, HandleJsonRpcText (new_MemoryMcpProtocol true) body s = (Throw w, s).
Proof.
  unfold HandleJsonRpcText, try_catch, bind, lift_outcome. rewrite Hparse. cbn [ErrorMessage debugErrors_ new_MemoryMcpProtocol].
  destruct (dump_strict (Error JNull (-32700) what)) as [w E]; [by apply Error_not_utf8|].
  exists w. exact (f_equal (λ o, (o, s)) E).
Qed.

(** The names in a tool list. *)
Definition tool_names (listing : json) : list string :=
  match json_at listing "tools" with
  | JArray tools => (λ tool, JsonString tool "name" "") <$> tools
  | _ => []
  end.

(** The tool list tells the truth: tools/list advertises exactly the tools that tools/call can
    run, each of them once. *)
Theorem tools_listed_are_callable {R : Type} `{MemoryRuntime R} `{JsonText} (debug : bool) :
  NoDup (tool_names (cachedTools_ (new_MemoryMcpProtocol debug))) ∧
  ∀ name, name ∈ tool_names (cachedTools_ (new_MemoryMcpProtocol debug)) ↔
          is_Some (toolHandlers_ (R:=R) !! name).
Proof.
  assert (tool_names (cachedTools_ (new_MemoryMcpProtocol debug))
          = ["memory_append_event"; "memory_build_context"; "memory_write_payload"; "memory_read_payload";
             "memory_consolidate"; "memory_search"; "memory_stats"]) as -> by (by vm_compute).
  split; [by apply (bool_decide_unpack _); vm_compute|].
  intros name. rewrite <- not_eq_None_Some. unfold toolHandlers_.
  rewrite <- not_elem_of_list_to_map. cbn [fmap list_fmap fst].
  split; [by intros Hin Hnot|]. apply dec_stable.
Qed.

(** A handshake succeeds for the supported protocol version and for no other, and the error says
    so; it never reaches the runtime. *)
Theorem initialize_requires_supported_version {R : Type} `{MemoryRuntime R} `{JsonText}
    (mcp : MemoryMcpProtocol) (req : json) (s : R) (Hid : json_contains req "id" = true)
    (Hmethod : json_value_string req "method" "" = Ret "initialize") :
  ∃ answer, HandleJsonRpc mcp req s = (Ret answer, s) ∧
    let version := json_at (json_at req "params") "protocolVersion" in
    (version = JString kSupportedVersion →
     ∃ result, answer = Success (json_at req "id") result ∧
               json_at result "protocolVersion" = JString kSupportedVersion) ∧
    (version ≠ JString kSupportedVersion →
     ∃ message, answer = Error (json_at req "id") (-32602) message).
Proof.
  unfold HandleJsonRpc, HandleRequest. rewrite Hid. cbn [negb]. unfold bind, lift_outcome. rewrite Hmethod.
  assert (methodHandlers_ mcp !! "initialize" = Some (λ req id, ret (handle_initialize req id))) as -> by done.
  exists (handle_initialize req (json_at req "id")). split; [done|]. unfold handle_initialize.
  destruct (json_contains req "params") eqn:Ep; cbn [negb].
  2: { rewrite (json_at_absent _ _ Ep). split; [done|]. by eexists. }
  cbv zeta. set (params := json_at req "params").
  destruct (json_contains params "protocolVersion") eqn:Ev; cbn [negb orb].
  2: { rewrite (json_at_absent _ _ Ev). split; [done|]. by eexists. }
  assert (∀ v, json_at params "protocolVersion" = JString v → JsonString params "protocolVersion" "" = v) as Hv.
  { intros v E. unfold JsonString. rewrite Ev, E. by destruct params. }
  destruct (json_at params "protocolVersion") as [| | | | |v| |] eqn:Ev'; try (split; [done|by eexists]).
  cbn [is_string negb]. rewrite (Hv v) by done. split.
  - intros [= ->]. rewrite bool_decide_eq_false_2 by auto. by eexists.
  - intros Hne. rewrite bool_decide_eq_true_2 by congruence. by eexists.
Qed.

(** What is not offered is refused without touching the runtime: an unknown method with the
    error -32601, and an unknown tool with a result that names it. *)
Theorem unknown_names_rejected {R : Type} `{MemoryRuntime R} `{JsonText} (mcp : MemoryMcpProtocol)
    (req : json) (method name : string) (args : json) (s : R)
    (Hid : json_contains req "id" = true) (Hmethod : json_value_string req "method" "" = Ret method)
    (Hunknown : method ∉ ["initialize"; "tools/list"; "tools/call"])
    (Htool : name ∉ tool_names (cachedTools_ (new_MemoryMcpProtocol (debugErrors_ mcp)))) (text : string)
    (Htext : json_dump (mk_object [("ok", JBool false); ("error", JString ("unknown tool: " +:+ name))])
             = Ret text) :
  HandleJsonRpc mcp req s
  = (Ret (Error (json_at req "id") (-32601) ("method not found: " +:+ method)), s) ∧
  CallTool mcp name args s = (Ret (text_content text), s).
Proof.
  unfold HandleJsonRpc, HandleRequest. rewrite Hid. cbn [negb]. unfold bind, lift_outcome. rewrite Hmethod.
  split.
  - assert (methodHandlers_ mcp !! method = None) as -> by (by apply not_elem_of_list_to_map).
    done.
  - assert (toolHandlers_ (R:=R) !! name = None) as Hnone.
    { apply not_elem_of_list_to_map. intros Hin. apply Htool. exact Hin. }
    unfold CallTool, try_catch. rewrite Hnone. unfold text_result, lift_outcome, MakeTextResult. by rewrite Htext.
Qed.

(** ** Witnesses *)

Section Witnesses.
Local Existing Instance counting_runtime.
Local Existing Instance sample_docs.

Lemma rpc_always_answered_witness :
  ∃ texts s', serve (R := nat) (new_MemoryMcpProtocol false) [write_json stats_call; "{"; "null"] 0%nat
              = (Ret texts, s') ∧
              answered_all [write_json stats_call; "{"; "null"] 0%nat texts s'.
Proof.
  exact (rpc_always_answered (H1 := sample_docs_laws) [write_json stats_call; "{"; "null"] 0%nat).
Defined.

(** A body of one byte that is not UTF-8. *)
Definition bad_byte : string := String "255"%char EmptyString.

Lemma debug_parse_error_escapes_witness :
  ∃ w, HandleJsonRpcText (R := nat) (new_MemoryMcpProtocol true) bad_byte 0%nat = (Throw w, 0%nat).
Proof.
  exact (debug_parse_error_escapes (H1 := sample_docs_laws) bad_byte
    ("[json.exception.parse_error.101] syntax error; last read: '" +:+ bad_byte +:+ "'") 0%nat
    ltac:(vm_compute; reflexivity) ltac:(vm_compute; reflexivity)).
Defined.

Lemma initialize_requires_supported_version_witness :
  let req := rpc "initialize" (mk_object [("protocolVersion", JString "2025-01-01")]) in
  ∃ message, HandleJsonRpc (new_MemoryMcpProtocol false) req 0%nat
             = (Ret (Error (JInteger 7) (-32602) message), 0%nat).
Proof.
  intros req.
  destruct (initialize_requires_supported_version (new_MemoryMcpProtocol false) req 0%nat
    ltac:(vm_compute; reflexivity) ltac:(vm_compute; reflexivity)) as (answer & Hrun & _ & Hother).
  destruct Hother as [message Hanswer]; [vm_compute; discriminate|].
  exists message. rewrite Hrun, Hanswer. reflexivity.
Defined.

Lemma unknown_names_rejected_witness :
  HandleJsonRpc (new_MemoryMcpProtocol false) (rpc "ping" json_object) 0%nat
  = (Ret (Error (JInteger 7) (-32601) "method not found: ping"), 0%nat).
Proof.
  apply (unknown_names_rejected (new_MemoryMcpProtocol false) (rpc "ping" json_object) "ping" "rm" JNull 0%nat
    ltac:(vm_compute; reflexivity) ltac:(vm_compute; reflexivity)
    ltac:(apply (bool_decide_unpack _); vm_compute; exact I)
    ltac:(apply (bool_decide_unpack _); vm_compute; exact I)
    (write_json (mk_object [("ok", JBool false); ("error", JString "unknown tool: rm")]))
    ltac:(vm_compute; reflexivity)).
Defined.
End Witnesses.
