(* ===== verification/HttpTheorems.v ===== *)
(** * Theorems on the HTTP server

    The token comparison, the authorization gate in front of every route, the guard of the payload
    route, the answer that every request gets, and the agreement of each REST route with the MCP tool
    of the same operation. *)

From Stdlib Require Import ZArith Lia Ascii String.
From stdpp Require Import base list strings gmap.
From S2P Require Import Prelude CppString Floats Json Types Codec Utf8 StoreInterface PayloadService.
From S2P Require Import Consolidation ContextBuilder Sqlite Store StoreSearch Samples PayloadTheorems Runtime.
From S2P Require Import Mcp Http TransportSamples McpTheorems.

Open Scope am_scope.
Import Http.

(** ** ConstantTimeEquals *)

Lemma foldl_lor_zero {A} (f : A → Z) (l : list A) (d : Z) :
  foldl (λ diff i, Z.lor diff (f i)) d l = 0%Z ↔ d = 0%Z ∧ Forall (λ i, f i = 0%Z) l.
Proof.
  revert d. induction l as [|i l IH]; intros d; simpl.
  - split; [by intros ->|by intros [-> _]].
  - rewrite IH, Z.lor_eq_0_iff, Forall_cons. tauto.
Qed.

Lemma byte_at_inj s1 s2 :
  String.length s1 = String.length s2 →
  (∀ i, (i < String.length s1)%nat → byte_at s1 i = byte_at s2 i) → s1 = s2.
Proof.
  revert s2. induction s1 as [|c1 s1 IH]; intros [|c2 s2] Hl Hb; simpl in *; try done.
  f_equal; [|apply IH; [lia|]].
  - specialize (Hb 0%nat ltac:(lia)). by apply byte_code_inj.
  - intros i Hi. exact (Hb (S i) ltac:(lia)).
Qed.

(** It reads every byte of both strings and decides their equality: no shorter or padded token passes
    for the expected one. *)
Lemma ConstantTimeEquals_eq (lhs rhs : string) : ConstantTimeEquals lhs rhs = bool_decide (lhs = rhs).
Proof.
  unfold ConstantTimeEquals. apply eq_bool_prop_intro. rewrite bool_decide_spec.
  rewrite Is_true_true, Z.eqb_eq, foldl_lor_zero, Z.lxor_eq_0_iff. unfold str_size. split.
  - intros [Hl Hb]. apply byte_at_inj; [lia|]. intros i Hi. rewrite Forall_forall in Hb.
    apply Z.lxor_eq_0_iff, Hb. apply elem_of_seq. lia.
  - intros ->. split; [done|]. apply Forall_forall. intros i _. apply Z.lxor_nilpotent.
Qed.

(** ** The handlers *)

(** A response of a handler: one of the statuses of the source, and a JSON text unless it says that
    there is nothing to answer. *)
Definition good_response (res : Response) : Prop :=
  match res_status res with
  | None => True
  | Some status => status ∈ [202; 400; 401; 413; 500]%Z
  end ∧
  match res_content res with
  | Some text => utf8 text = true
  | None => res_status res = Some 202%Z
  end.

(** A status is one of a list of numbers. *)
Ltac status_ok := apply (bool_decide_unpack _); vm_compute; exact I.

Section Handlers.
Context {R : Type} `{MemoryRuntime R} `{JsonText}.
Implicit Types (s : R).

Lemma set_json_run status value text s :
  json_dump value = Ret text → set_json status value s = (Ret (mkResponse status (Some text)), s).
Proof. intros E. unfold set_json, bind, lift_outcome. by rewrite E. Qed.

Lemma set_json_status status value s res s' :
  set_json status value s = (Ret res, s') → res_status res = status.
Proof. unfold set_json, bind, lift_outcome, ret. destruct (json_dump value); by intros [= <- _]. Qed.

(** A handler that returns a value is answered with its text, or with 500 if it has none. *)
Lemma HandleJsonGet_run srv (handler : M R json) value s s' :
  handler s = (Ret value, s') →
  HandleJsonGet srv handler s
  = match json_dump value with
    | Ret text => (Ret (mkResponse None (Some text)), s')
    | Throw w => set_json (Some 500%Z) (plain_error (ErrorMessage srv w "internal server error")) s'
    end.
Proof.
  intros E. unfold HandleJsonGet, try_catch. unfold bind at 1. rewrite E.
  unfold set_json at 1, bind at 1, lift_outcome at 1. by destruct (json_dump value).
Qed.

Lemma plain_error_utf8 message : utf8 message = true → json_utf8 (plain_error message) = true.
Proof. intros Hm. apply mk_object_utf8. by repeat constructor. Qed.

Lemma ErrorEnvelope_utf8 code message :
  utf8 code = true → utf8 message = true → is_empty code = false →
  json_utf8 (ErrorEnvelope (mkError code message "" false)) = true.
Proof.
  intros Hc Hm He. unfold ErrorEnvelope, WithEnvelope, WithSchema.
  assert (json_utf8 (ErrorToJson (mkError code message "" false)) = true) as Hj.
  { unfold ErrorToJson, Empty. cbn [error_code]. rewrite He. apply mk_object_utf8. by repeat constructor. }
  destruct (is_object _); repeat (apply json_set_utf8; [done| |]); done.
Qed.
End Handlers.

Section Answers.
Context {R : Type} `{MemoryRuntime R} `{JsonTextLaws} `{PathMatch}.
Context (srv : MemoryHttpServer).
Hypothesis Hrelease : debugErrors_ srv = false.
Hypothesis Hmcp : mcpProtocol_ srv = Mcp.new_MemoryMcpProtocol false.
Implicit Types (s : R).

(** A handler that returns a response, whatever the state. *)
Definition answers_http (m : M R Response) : Prop :=
  ∀ s, ∃ res s', m s = (Ret res, s') ∧ good_response res.

Lemma set_json_good status value s :
  match status with None => True | Some status => status ∈ [202; 400; 401; 413; 500]%Z end →
  json_utf8 value = true → ∃ res, set_json status value s = (Ret res, s) ∧ good_response res.
Proof.
  intros Hs Hv. destruct (dump_total value Hv) as [text E]. rewrite (set_json_run _ _ text) by done.
  eexists. split; [done|]. split; [done|]. by eapply dump_utf8.
Qed.

Lemma answers_set_json status value :
  match status with None => True | Some status => status ∈ [202; 400; 401; 413; 500]%Z end →
  json_utf8 value = true → answers_http (set_json status value).
Proof. intros Hs Hv s. destruct (set_json_good status value s Hs Hv) as (res & -> & Hr). eauto. Qed.

(** Whatever the handler does, an exception ends in the answer 500. *)
Lemma answers_try (handler : M R json) : answers_http (HandleJsonGet srv handler).
Proof.
  intros s. unfold HandleJsonGet, try_catch, bind.
  assert (∀ w s0, ∃ res s', set_json (Some 500%Z) (plain_error (ErrorMessage srv w "internal server error")) s0
            = (Ret res, s') ∧ good_response res) as Hcatch.
  { intros w s0. unfold ErrorMessage. rewrite Hrelease. apply answers_set_json; [|done].
    status_ok. }
  destruct (handler s) as [[value|w] s1]; [|apply Hcatch].
  unfold set_json at 1, bind, lift_outcome, ret. destruct (json_dump value) as [text|w] eqn:E; [|apply Hcatch].
  eexists _, s1. split; [done|]. split; [done|]. by eapply dump_utf8.
Qed.

Lemma answers_HandleJsonPost handler req : answers_http (HandleJsonPost srv handler req).
Proof.
  unfold HandleJsonPost. destruct (_ && _); [apply answers_set_json; [status_ok|done]|].
  destruct (json_parse (req_body req)) as [j|w]; [apply (answers_try (handler j))|].
  unfold ErrorMessage. rewrite Hrelease. apply answers_set_json; [status_ok|done].
Qed.

Lemma answers_get_payload mtch : answers_http (get_payload srv mtch).
Proof.
  unfold get_payload.
  destruct (is_empty mtch); [apply answers_set_json; [status_ok|by apply ErrorEnvelope_utf8]|].
  destruct (str_contains _ _); [apply answers_set_json; [status_ok|by apply ErrorEnvelope_utf8]|].
  destruct (negb _); [apply answers_set_json; [status_ok|by apply ErrorEnvelope_utf8]|].
  apply answers_try.
Qed.

Lemma answers_post_mcp req : answers_http (post_mcp srv req).
Proof.
  unfold post_mcp. destruct (_ <? _)%Z; [apply answers_set_json; [status_ok|done]|].
  intros s. unfold bind. rewrite Hmcp.
  destruct (HandleJsonRpcText_answered (req_body req) s) as (text & s' & -> & Ha).
  destruct (is_empty text); eexists _, s'; (split; [done|]).
  - split; [status_ok|done].
  - split; [done|]. by eapply answered_utf8.
Qed.

(** The routes, and what the library makes of them. *)
Definition answering (handlers : list (string * (string → Request → M R Response))) : Prop :=
  Forall (λ '(_, handler), ∀ mtch req, answers_http (handler mtch req)) handlers.

Lemma answering_get : answering (get_handlers (RegisterRoutes srv)).
Proof.
  repeat constructor; intros mtch req; [apply answers_get_payload|apply answers_try|].
  by apply answers_set_json.
Qed.

Lemma answering_post : answering (post_handlers (RegisterRoutes srv)).
Proof.
  repeat constructor; intros mtch req; [apply answers_post_mcp|..]; apply answers_HandleJsonPost.
Qed.

Lemma dispatch_answers handlers req s :
  answering handlers →
  ∃ o s', dispatch_request handlers req s = (Ret o, s') ∧
    match o with
    | Some res => good_response res ∧ Exists (λ h, is_Some (path_match h.1 (req_path req))) handlers
    | None => s' = s ∧ Forall (λ h, path_match h.1 (req_path req) = None) handlers
    end.
Proof.
  induction 1 as [|[pattern handler] handlers Hh Hhs IH]; [exists None, s; by repeat split|]. cbn [dispatch_request].
  destruct (path_match pattern (req_path req)) as [mtch|] eqn:E.
  - unfold bind. destruct (Hh mtch req s) as (res & s' & -> & Hr). exists (Some res), s'. split; [done|].
    split; [done|]. left. by eexists.
  - destruct IH as (o & s' & Hd & Ho). exists o, s'. split; [exact Hd|]. destruct o.
    + destruct Ho. split; [done|by right].
    + destruct Ho. split; [done|by constructor].
Qed.

Lemma answers_authorize req s :
  ∃ o, authorize srv req s = (Ret o, s) ∧ match o with Some res => good_response res | None => True end.
Proof.
  unfold authorize, bind. case_bool_decide; [by exists None|]. destruct (ConstantTimeEquals _ _); [by exists None|].
  destruct (set_json_good (Some 401%Z) (plain_error "unauthorized") s) as (res & -> & Hr); [status_ok|done|].
  by exists (Some res).
Qed.
End Answers.

(** ** Ranges *)

(** Ranges concern only a reply with a status from 200 to 299, and none without a Range header. *)
Lemma ranges_apply_status req status : ¬ (200 ≤ status < 300)%Z → ranges_apply req status = false.
Proof.
  intros Hs. unfold ranges_apply. destruct (200 <=? status)%Z eqn:E1, (status <? 300)%Z eqn:E2;
    rewrite ?andb_false_r; try done. exfalso. apply Hs. lia.
Qed.

Lemma ranges_apply_none req status : req_ranges req = [] → ranges_apply req status = false.
Proof. intros Hr. unfold ranges_apply. by rewrite Hr. Qed.

(** Every range that is sent lies in the content, as [get_range_offset_and_length] asserts. *)
Lemma coalesced_valid n ranges : Forall (λ r, valid_range n r = true) (foldl (coalesce_step n) [] ranges).
Proof.
  assert (Forall (λ r, valid_range n r = true) []) as H0 by constructor. revert H0.
  generalize (@nil (Z * Z)). induction ranges as [|r ranges IH]; intros l Hl; [done|]. simpl. apply IH.
  unfold coalesce_step. destruct (normalize_range n r) as [first last].
  destruct (valid_range n (first, last)) eqn:Hv; simpl; [|done].
  destruct Hl as [|prev l Hp Hl]; [by repeat constructor|].
  destruct (_ && _); [|by repeat constructor]. constructor; [|done].
  unfold valid_range in *. simpl in *. lia.
Qed.

Lemma refused_valid n ranges processed count :
  ranges_refused n processed count ranges = false → Forall (λ r, valid_range n (normalize_range n r) = true) ranges.
Proof.
  revert processed count. induction ranges as [|r ranges IH]; intros processed count; [constructor|]. simpl.
  destruct (valid_range n (normalize_range n r)) eqn:Hv; simpl; [|done].
  destruct (2 <? _)%Z; [done|]. intros Hr. constructor; [done|by eapply IH].
Qed.

Lemma sent_ranges_valid req status n :
  ranges_apply req status = true → range_error req status n = false →
  Forall (λ r, valid_range n r = true) (sent_ranges req status n).
Proof.
  unfold range_error, sent_ranges. intros ->. rewrite andb_true_l. intros [_ Hr]%orb_false_elim.
  apply refused_valid in Hr. unfold coalesce_ranges. destruct (req_ranges req) as [|r1 [|r2 rs]]; simpl fmap.
  - constructor.
  - inversion Hr; subst. by repeat constructor.
  - apply Forall_rev, coalesced_valid.
Qed.

(** A range in the middle, one to the end, the last bytes; two that touch are one; none beyond the end. *)
Example ranges_of_ten :
  coalesce_ranges (normalize_range 10 <$> [(2, 4)%Z; (7, -1)%Z; (-1, 3)%Z]) 10 = [(2, 4)%Z; (7, 9)%Z; (7, 9)%Z] ∧
  coalesce_ranges (normalize_range 10 <$> [(5, 7)%Z; (0, 4)%Z]) 10 = [(0, 7)%Z] ∧
  ranges_refused 10 [] 0 [(10, 12)%Z] = true ∧ ranges_refused 10 [] 0 [(0, 1)%Z; (0, 2)%Z; (0, 3)%Z; (0, 4)%Z] = true ∧
  range_content "0123456789" (2, 4)%Z = "234".
Proof. by vm_compute. Qed.

(** C25: without the token nothing gets in: if a token is configured, a request for anything but
    /health without exactly "Bearer <token>" is answered 401 and leaves the runtime untouched; any
    other request is treated as by a server without a token. *)
Theorem authorization_gate {R : Type} `{MemoryRuntime R} `{JsonText} `{PathMatch} `{MultipartBoundary}
    (srv : MemoryHttpServer) (req : Request) (s : R) (Htoken : apiToken_ srv ≠ "") (text : string)
    (Htext : json_dump (plain_error "unauthorized") = Ret text) :
  let open_srv := mkHttpServer "" (debugErrors_ srv) (maxPayloadBytes_ srv) (mcpPath_ srv)
                    (maxMcpMessageBytes_ srv) (mcpProtocol_ srv) in
  process_request (RegisterRoutes srv) req s =
  if bool_decide (req_path req ≠ "/health") &&
     bool_decide (req_header req "Authorization" ≠ "Bearer " +:+ apiToken_ srv)
  then ((401%Z, Some text), s)
  else process_request (RegisterRoutes open_srv) req s.
Proof.
  intros open_srv.
  assert (∀ res, authorize srv req s = (Ret res, s) →
            match res with Some res => res_status res = Some 401%Z | None => True end →
            process_request (RegisterRoutes srv) req s =
            match res with
            | Some res => ((401%Z, res_content res), s)
            | None => process_request (RegisterRoutes open_srv) req s
            end) as Hgate.
  { intros res Hres Hst. unfold process_request, routing, bind. cbn [RegisterRoutes pre_routing_handler].
    destruct (is_empty (apiToken_ srv)) eqn:Ee; [by destruct (apiToken_ srv)|]. rewrite Hres.
    destruct res as [res|]; [|done]. cbn. rewrite Hst. cbn [default].
    unfold range_error, apply_ranges. rewrite ranges_apply_status by (cbn; lia). cbn [andb].
    by destruct (res_content res) as [[]|]; rewrite ?orb_true_r. }
  unfold authorize in Hgate. destruct (decide (req_path req = "/health")) as [Hp|Hp].
  - rewrite (bool_decide_eq_false_2 (req_path req ≠ "/health")) by auto.
    apply (Hgate None); [|done]. by rewrite bool_decide_eq_true_2 by done.
  - rewrite (bool_decide_eq_true_2 (req_path req ≠ "/health")) by done.
    rewrite bool_decide_eq_false_2 in Hgate by done. rewrite ConstantTimeEquals_eq in Hgate.
    case_bool_decide as Hh.
    + rewrite bool_decide_eq_false_2 by auto. by apply (Hgate None).
    + rewrite bool_decide_eq_true_2 by done.
      apply (Hgate (Some (mkResponse (Some 401%Z) (Some text)))); [|done]. unfold bind.
      by rewrite (set_json_run _ _ text) by done.
Qed.

(** The patterns registered for the method of a request. *)
Definition patterns_for (srv : MemoryHttpServer) (method : string) : list string :=
  if bool_decide (method ∈ ["GET"; "HEAD"]) then ["/v1/payloads/(.*)"; "/v1/stats"; "/health"]
  else if bool_decide (method = "POST") then
    [mcpPath_ srv; "/v1/events"; "/v1/context"; "/v1/payloads"; "/v1/consolidate"; "/v1/search"]
  else [].

(** C27: in release mode every request is answered by the server's own handlers: whatever the request
    and whatever the runtime returns or throws, no exception reaches the library. A request that a
    route takes gets a UTF-8 JSON text, or the empty 202 of a notification, under one of the statuses
    200, 202, 400, 401, 413 and 500; one that no route takes leaves the runtime untouched. *)
Theorem http_always_answers {R : Type} `{MemoryRuntime R} `{JsonTextLaws} `{PathMatch}
    (apiToken mcpPath : string) (maxPayloadBytes maxMcpMessageBytes : Z) (req : Request) (s : R) :
  let srv := new_MemoryHttpServer apiToken false maxPayloadBytes mcpPath maxMcpMessageBytes in
  ∃ routed res s', routing (RegisterRoutes srv) req s = (Ret (routed, res), s') ∧
    if routed : bool then good_response res
    else s' = s ∧ res_content res = None ∧
         (Forall (λ pattern, path_match pattern (req_path req) = None) (patterns_for srv (req_method req)) ∨
          res_status res = Some 413%Z).
Proof.
  intros srv. assert (debugErrors_ srv = false) as Hr by done.
  assert (mcpProtocol_ srv = Mcp.new_MemoryMcpProtocol false) as Hm by done.
  unfold routing, bind at 1.
  assert (∃ o, match pre_routing_handler (RegisterRoutes srv) with
               | Some h => h req | None => ret None end s = (Ret o, s) ∧
          match o with Some res => good_response res | None => True end) as (o & E & Ho).
  { cbn [RegisterRoutes pre_routing_handler]. destruct (is_empty _); [by exists None|].
    by apply answers_authorize. }
  rewrite E. destruct o as [res|]; [by exists true, res, s|].
  destruct (_ && _); [exists false, (mkResponse (Some 413%Z) None), s; by repeat split; auto|].
  unfold patterns_for. case_bool_decide as Hget.
  { unfold bind. destruct (dispatch_answers (get_handlers (RegisterRoutes srv)) req s) as (o & s' & -> & Hd).
    { by apply answering_get. }
    destruct o as [res|]; [by exists true, res, s'; destruct Hd|].
    destruct Hd as [-> Hd]. exists false, no_response, s. repeat split. left.
    cbn [get_handlers post_handlers RegisterRoutes] in Hd. decompose_Forall_hyps. by repeat constructor. }
  case_bool_decide as Hpost.
  { unfold bind. destruct (dispatch_answers (post_handlers (RegisterRoutes srv)) req s) as (o & s' & -> & Hd).
    { by apply answering_post. }
    destruct o as [res|]; [by exists true, res, s'; destruct Hd|].
    destruct Hd as [-> Hd]. exists false, no_response, s. repeat split. left.
    cbn [get_handlers post_handlers RegisterRoutes] in Hd. decompose_Forall_hyps. by repeat constructor. }
  case_bool_decide; eexists false, _, s; repeat split; by left.
Qed.

(** ** The payload route *)

Section PayloadRoute.
Context {R : Type} `{MemoryRuntime R} `{JsonText} `{PathMatch} `{MultipartBoundary}.
Implicit Types (s : R).

(** A reply 200 to a GET below /v1/payloads/ is the reply of [get_payload] to the rest of the path. *)
Lemma payload_route (srv : MemoryHttpServer) req m s text s' :
  req_method req = "GET" → req_path req = "/v1/payloads/" +:+ m →
  process_request (RegisterRoutes srv) req s = ((200%Z, text), s') →
  ∃ res, get_payload srv m s = (Ret res, s') ∧ default 200%Z (res_status res) = 200%Z ∧ res_content res = text.
Proof.
  intros Hget Hpath. unfold process_request, routing, bind at 1.
  assert (∀ o s1, match pre_routing_handler (RegisterRoutes srv) with
               | Some h => h req | None => ret None end s = (Ret o, s1) → s1 = s ∧
          match o with Some res => res_status res = Some 401%Z | None => True end) as Hauth.
  { intros o s1. cbn [RegisterRoutes pre_routing_handler]. destruct (is_empty _); [by intros [= <- <-]|].
    unfold authorize. case_bool_decide; [by intros [= <- <-]|]. destruct (ConstantTimeEquals _ _); [by intros [= <- <-]|].
    unfold set_json, bind, lift_outcome, ret. destruct (json_dump _); [|done]. by intros [= <- <-]. }
  destruct (match pre_routing_handler (RegisterRoutes srv) with
            | Some h => h req | None => ret None end s) as [[o|w] s1]; [|by intros [=]].
  destruct (Hauth o s1 eq_refl) as [-> Ho].
  destruct o as [res|]; [cbn; rewrite Ho; cbn [default]; destruct (range_error _ _ _); by intros [=]|].
  destruct (_ && _); [by intros [=]|]. rewrite bool_decide_eq_true_2 by (rewrite Hget; left).
  cbn [get_handlers RegisterRoutes dispatch_request].
  destruct (path_match "/v1/payloads/(.*)" (req_path req)) as [mtch|] eqn:Em.
  - apply (path_match_rest "/v1/payloads/") in Em as [Em _]; [|done].
    rewrite Hpath in Em. apply str_app_inj_l in Em as <-.
    unfold bind, ret. destruct (get_payload srv m s) as [[res|w] s2]; [|by intros [=]].
    destruct (range_error _ _ _); [by intros [=]|]. intros [= Hst Hc ->]. exists res. split; [done|].
    assert (res_status res = None ∨ res_status res = Some 200%Z) as Hok.
    { destruct (res_status res) as [z|]; [right; cbn in Hst; by rewrite Hst|by left]. }
    rewrite Hst in Hc. unfold apply_ranges in Hc. cbn [Z.eqb negb] in Hc. rewrite orb_true_r in Hc.
    split; [by destruct Hok as [->| ->]|]. by destruct (res_content res) as [[]|].
  - rewrite !path_match_plain by done. rewrite Hpath.
    rewrite !decide_False by done. by intros [=].
Qed.
End PayloadRoute.

(** C26: the HTTP server gives away nothing but payloads: whatever the path after /v1/payloads/ and
    whatever the token, a reply 200 changed neither the store nor a file, the path has no "..", and
    the reply is an error envelope or the envelope of a content that lies, after resolving the path,
    in a file strictly inside the payload directory. *)
Theorem http_serves_only_payloads {S X : Type} `{MemoryEventStore S} `{MemoryPayloadStore S}
    `{MemoryLongTermStore S X} `{MemorySearchStore S} `{MemoryStatsStore S} `{JsonText} `{FsEnv}
    `{PathMatch} `{MultipartBoundary} (rt : BuiltinMemoryRuntime) (srv : MemoryHttpServer) (req : Request) (m text : string)
    (s s' : S) (f f' : FileSystem) (Hget : req_method req = "GET")
    (Hpath : req_path req = "/v1/payloads/" +:+ m)
    (Hreply : let _ := BuiltinRuntime rt in
              process_request (RegisterRoutes srv) req (s, f) = ((200%Z, Some text), (s', f'))) :
  s' = s ∧ fs_files f' = fs_files f ∧ str_contains ".." m = false ∧
  ((∃ e, json_dump (ErrorEnvelope e) = Ret text) ∨
   ∃ content, contained (rs_payloadService (services rt)) ("file://" +:+ m) f content ∧
     json_dump (SuccessEnvelope (mk_object [("uri", JString ("file://" +:+ m)); ("content", JString content)]))
     = Ret text).
Proof.
  cbv zeta in Hreply. apply payload_route with (m := m) in Hreply as (res & Hrun & Hst & Hc); [|done|done].
  unfold get_payload in Hrun.
  destruct (is_empty m); [apply set_json_status in Hrun; by rewrite Hrun in Hst|].
  destruct (str_contains ".." m); [apply set_json_status in Hrun; by rewrite Hrun in Hst|].
  destruct (negb (str_forall _ m)); [apply set_json_status in Hrun; by rewrite Hrun in Hst|].
  destruct (ReadPayload_returns (rs_payloadService (services rt)) ("file://" +:+ m) f) as (r & f1 & Hr & Hf1 & Hin).
  rewrite (HandleJsonGet_run srv _ (if pread_succeeded r
      then SuccessEnvelope (mk_object [("uri", JString ("file://" +:+ m)); ("content", JString (pread_content r))])
      else ErrorEnvelope (pread_error r)) (s, f) (s, f1)) in Hrun.
  2: { cbv zeta. unfold bind at 1. cbn [rt_ReadPayload BuiltinRuntime]. unfold ReadPayload, on_fs, zoom.
       cbn [fst snd]. by rewrite Hr. }
  destruct (json_dump _) as [t|w] eqn:Et; [|apply set_json_status in Hrun; by rewrite Hrun in Hst].
  injection Hrun as <- <- <-. injection Hc as ->. split_and!; [done|done|done|].
  destruct (pread_succeeded r); [right|left; by eexists]. exists (pread_content r). split; [by apply Hin|done].
Qed.

(** ** REST and MCP *)

(** The REST routes and the MCP tools of the same operation. *)
Definition rest_tools {R} `{MemoryRuntime R} `{JsonText} : list (string * string * (json → M R json)) :=
  [("/v1/events", "memory_append_event", post_events); ("/v1/context", "memory_build_context", post_context);
   ("/v1/payloads", "memory_write_payload", post_payloads);
   ("/v1/consolidate", "memory_consolidate", post_consolidate); ("/v1/search", "memory_search", post_search)].

Section Agreement.
Context {R : Type} `{MemoryRuntime R} `{JsonText} `{PathMatch} `{MultipartBoundary}.
Implicit Types (s : R).

(** The text of the envelope an operation is answered with. *)
Definition envelope_text (post : json → M R json) (j : json) : M R string :=
  let* value := post j in lift_outcome (json_dump value).

Lemma text_after {A} (m : M R A) (f : A → json) s :
  (let* r := m in Mcp.text_result (f r)) s
  = (let* text := (let* value := (let* r := m in ret (f r)) in lift_outcome (json_dump value)) in
     ret (Mcp.text_content text)) s.
Proof.
  unfold Mcp.text_result, Mcp.MakeTextResult, obind, bind, lift_outcome, ret.
  destruct (m s) as [[a|w] s']; [|done]. by destruct (json_dump (f a)).
Qed.

Lemma tool_handler path tool post j s :
  (path, tool, post) ∈ rest_tools →
  ∃ handler : json → M R json, Mcp.toolHandlers_ !! tool = Some handler ∧
    handler j s = (let* text := envelope_text post j in ret (Mcp.text_content text)) s.
Proof.
  unfold rest_tools. rewrite !elem_of_cons, elem_of_nil. intros Hin. destruct_or! Hin; try done;
    injection Hin as -> -> ->; (eexists; split; [reflexivity|]);
    exact (text_after _ _ s).
Qed.

Lemma post_route srv path tool post req s :
  (path, tool, post) ∈ rest_tools → apiToken_ srv = "" → req_method req = "POST" → req_path req = path →
  (str_size (req_body req) ≤ maxPayloadBytes_ srv)%Z → path_match (mcpPath_ srv) path = None →
  req_ranges req = [] →
  process_request (RegisterRoutes srv) req s
  = match HandleJsonPost srv post req s with
    | (Ret res, s') => ((default 200%Z (res_status res), res_content res), s')
    | (Throw _, s') => ((500%Z, None), s')
    end.
Proof.
  intros Hin Htoken Hpost Hpath Hsize Hmcp Hranges. unfold process_request, routing, bind at 1.
  cbn [RegisterRoutes pre_routing_handler]. rewrite Htoken. cbn [is_empty ret].
  assert ((payload_max_length (RegisterRoutes srv) <? str_size (req_body req))%Z = false) as Hmax.
  { apply Z.ltb_ge. cbn [RegisterRoutes payload_max_length]. lia. }
  rewrite Hmax, andb_false_r.
  rewrite Hpost, bool_decide_eq_false_2, bool_decide_eq_true_2 by (try done; set_solver).
  cbn [RegisterRoutes post_handlers dispatch_request]. rewrite Hpath, Hmcp.
  unfold rest_tools in Hin. rewrite !elem_of_cons, elem_of_nil in Hin.
  destruct_or! Hin; try done; injection Hin as -> -> ->;
    rewrite !path_match_plain by done; cbn [decide]; repeat case_decide; try done;
    unfold bind, ret; destruct (HandleJsonPost srv _ req s) as [[res|w] s']; try done;
    unfold range_error, sent_ranges, apply_ranges; rewrite ranges_apply_none, Hranges by done; cbn [andb];
    by destruct (res_content res) as [[]|].
Qed.
End Agreement.

(** C28: a REST route and the MCP tool of the same operation are one operation: on the same JSON they
    run the runtime identically, and when the envelope can be written both deliver its very text, one
    as the body of a 200, the other as the text content; when an exception is thrown instead, both
    report the same exception, as a 500 and as a failed tool call. (The request has no Range header, which
    asks for a part of the body.) *)
Theorem rest_and_mcp_agree {R : Type} `{MemoryRuntime R} `{JsonText} `{PathMatch} `{MultipartBoundary} (srv : MemoryHttpServer)
    (req : Request) (path tool : string) (post : json → M R json) (j : json) (s : R)
    (Hroute : (path, tool, post) ∈ rest_tools) (Htoken : apiToken_ srv = "")
    (Hpost : req_method req = "POST") (Hpath : req_path req = path)
    (Hsize : (str_size (req_body req) ≤ maxPayloadBytes_ srv)%Z)
    (Hmcp : path_match (mcpPath_ srv) path = None) (Hbody : json_parse (req_body req) = Ret j)
    (Hranges : req_ranges req = []) :
  ∃ outcome s',
    match outcome with
    | Ret text =>
        process_request (RegisterRoutes srv) req s = ((200%Z, Some text), s') ∧
        Mcp.CallTool (mcpProtocol_ srv) tool j s = (Ret (Mcp.text_content text), s')
    | Throw what =>
        (∀ text, json_dump (plain_error (ErrorMessage srv what "internal server error")) = Ret text →
           process_request (RegisterRoutes srv) req s = ((500%Z, Some text), s')) ∧
        (∀ text, json_dump (plain_error (Mcp.ErrorMessage (mcpProtocol_ srv) what "tool call failed")) = Ret text →
           Mcp.CallTool (mcpProtocol_ srv) tool j s = (Ret (Mcp.text_content text), s'))
    end.
Proof.
  destruct (tool_handler path tool post j s Hroute) as (handler & Hh & Hrun).
  pose proof (post_route srv path tool post req s Hroute Htoken Hpost Hpath Hsize Hmcp Hranges) as Hrest.
  unfold HandleJsonPost, try_catch in Hrest. rewrite Hbody in Hrest.
  assert ((maxPayloadBytes_ srv <? str_size (req_body req))%Z = false) as Hlt by (by apply Z.ltb_ge).
  rewrite Hlt, andb_false_r in Hrest.
  assert ((let* value := post j in set_json None value) s
          = (let* text := envelope_text post j in ret (mkResponse None (Some text))) s) as Heq.
  { unfold envelope_text, set_json, bind, lift_outcome, ret. destruct (post j s) as [[v|w] s1]; [|done].
    by destruct (json_dump v). }
  rewrite Heq in Hrest. unfold bind in Hrest, Hrun.
  destruct (envelope_text post j s) as [[text|what] s'].
  - exists (Ret text), s'. rewrite Hrest. unfold Mcp.CallTool, try_catch. by rewrite Hh, Hrun.
  - exists (Throw what), s'. rewrite Hrest. split; intros text Ht.
    + by rewrite (set_json_run _ _ text) by done.
    + unfold Mcp.CallTool, try_catch. rewrite Hh, Hrun. exact (f_equal (λ o, (obind o (λ t, Ret (Mcp.text_content t)), s')) Ht).
Qed.

(** ** Witnesses *)

Definition sample_server (token : string) : MemoryHttpServer :=
  new_MemoryHttpServer token false 1048576 "/mcp" 1048576.

Definition post (path : string) (body : json) (authorization : string) : Request :=
  mkRequest "POST" path (write_json body) (header "Authorization" authorization) [].

Section Witnesses.
Local Existing Instance counting_runtime.
Local Existing Instance sample_docs.
Local Existing Instance sample_paths.
Local Existing Instance sample_boundary.

(** A token that is right up to its last byte, padded with NUL: 401, and no call. *)
Lemma authorization_gate_witness :
  ∃ text, process_request (RegisterRoutes (sample_server "secret"))
            (post "/v1/search" search_body ("Bearer secret" +:+ String "000"%char "")) 0%nat
          = ((401%Z, Some text), 0%nat).
Proof.
  eexists. rewrite (authorization_gate (sample_server "secret") _ 0%nat ltac:(discriminate)
    (write_json (plain_error "unauthorized")) ltac:(vm_compute; reflexivity)).
  vm_compute. reflexivity.
Defined.

Lemma http_always_answers_witness :
  ∃ routed res s', routing (RegisterRoutes (sample_server "")) (post "/v1/consolidate" search_body "") 0%nat
                   = (Ret (routed, res), s') ∧ routed = true ∧ good_response res.
Proof.
  destruct (http_always_answers (H1 := sample_docs_laws) "" "/mcp" 1048576 1048576
    (post "/v1/consolidate" search_body "") 0%nat) as (routed & res & s' & E & H).
  exists routed, res, s'. split; [exact E|].
  assert (match (routing (RegisterRoutes (sample_server "")) (post "/v1/consolidate" search_body "") 0%nat).1 with
          | Ret (routed, _) => routed = true | Throw _ => False end) as Hr by (vm_compute; reflexivity).
  change (sample_server "") with (new_MemoryHttpServer "" false 1048576 "/mcp" 1048576) in Hr.
  rewrite E in Hr. simpl in Hr. subst routed. split; [reflexivity|exact H].
Defined.

Lemma rest_and_mcp_agree_witness :
  ∃ text s', process_request (RegisterRoutes (sample_server "")) (post "/v1/search" search_body "") 0%nat
             = ((200%Z, Some text), s') ∧
    Mcp.CallTool (Mcp.new_MemoryMcpProtocol false) "memory_search" search_body 0%nat
    = (Ret (Mcp.text_content text), s').
Proof.
  destruct (rest_and_mcp_agree (sample_server "") (post "/v1/search" search_body "") "/v1/search" "memory_search"
    post_search search_body 0%nat) as ([text|what] & s' & H).
  - unfold rest_tools. right. right. right. right. left.
  - reflexivity.
  - reflexivity.
  - reflexivity.
  - vm_compute. discriminate.
  - vm_compute. reflexivity.
  - vm_compute. reflexivity.
  - reflexivity.
  - exists text, s'. exact H.
  - destruct H as [H _]. specialize (H _ ltac:(vm_compute; reflexivity)).
    assert ((process_request (RegisterRoutes (sample_server "")) (post "/v1/search" search_body "") 0%nat).1.1
            = 200%Z) as Hst by (vm_compute; reflexivity).
    rewrite H in Hst. discriminate.
Defined.
End Witnesses.

(** A runtime over an empty database, and a payload it offloaded. *)
Definition payload_runtime : BuiltinMemoryRuntime :=
  mkRuntime default_Config
    (mkServices true "" sample_service (mkBuilder default_Config true true true true)
       RuleBased.RuleBasedLongTermMemoryProcessor true None "").

Definition payload_files : FileSystem := mkFs {[ "/data/memory_runtime/payloads/a.txt" := "text" ]} 0 0.

Definition get_request (path : string) : Request := mkRequest "GET" path "" (λ _, "") [].

Lemma http_serves_only_payloads_witness :
  let _ := sample_docs in let _ := reliable_env in let _ := sample_plan in let _ := sample_fts in
  let _ := plain_fs false in let _ := sample_paths in let _ := sample_boundary in
  contained sample_service "file:///data/memory_runtime/payloads/a.txt" payload_files "text".
Proof.
  intros Hj He Hp Hf Hfs Hpaths Hbound.
  set (req := get_request "/v1/payloads//data/memory_runtime/payloads/a.txt").
  assert (match process_request (R := MemorySqliteStore * FileSystem)
            (RegisterRoutes (H := BuiltinRuntime payload_runtime) (sample_server "")) req
            (opened empty_tables, payload_files) with
          | ((status, Some text), _) => status = 200%Z /\ text = write_json (SuccessEnvelope (mk_object
              [("uri", JString "file:///data/memory_runtime/payloads/a.txt"); ("content", JString "text")]))
          | _ => False end) as Hok by (split; vm_compute; reflexivity).
  destruct (process_request (RegisterRoutes (sample_server "")) req (opened empty_tables, payload_files))
    as [[status [text|]] [s' f']] eqn:E; [|by destruct Hok]. destruct Hok as [-> ->].
  destruct (http_serves_only_payloads payload_runtime (sample_server "") req
    "/data/memory_runtime/payloads/a.txt" _ _ s' payload_files f' eq_refl eq_refl E)
    as (_ & _ & _ & [[e He']|(content & Hc & Hd)]).
  - exfalso. unfold Hj, sample_docs, document_json in He'. cbn [json_dump] in He'.
    destruct (json_utf8 (ErrorEnvelope e)); [|discriminate]. injection He' as He'.
    vm_compute in He'. discriminate.
  - destruct Hc as (path & canonical & Hpath & Hcan & Hin & Hfile & Hne).
    assert (content = "text") as ->; [|exists path, canonical; split_and!; assumption].
    injection Hcan as ->. apply str_app_inj_l in Hpath. subst canonical.
    vm_compute in Hfile. injection Hfile as ->. reflexivity.
Defined.
