(* ===== verification/ServerSetup.v ===== *)
(** * Starting the server: src/src/server/server_common.cpp, server_main.cpp

    The data directory, the model configuration with its strict mode, the runtime and its first
    statistics, and [Run] and [main]. Listening is a parameter: what [server.listen] returned and what
    serving did to the files; [ServerLifecycle] has the threads and signals of that part. Opening the
    database ([Initialize]) is one too, with the files it makes. The messages on the standard streams are left out. *)

From Stdlib Require Import ZArith Lia Ascii String.
From stdpp Require Import base list strings gmap.
From S2P Require Import Prelude CppString Floats Json Types StoreInterface Consolidation.
From S2P Require Import ContextBuilder PayloadService Runtime Curl ModelClients ServerOptions Mcp Http.

Open Scope am_scope.

(** ** httplib::Server settings *)

(** The settings that are made, [None] where the library's default stays. *)
Record LibrarySettings := mkSettings {
  set_read_timeout : option Z;
  set_write_timeout : option Z;
  new_task_queue : option Z
}.

Definition ApplyHttpOptions (options : HttpServerOptions) : LibrarySettings :=
  mkSettings
    (if (0 <? http_readTimeoutSeconds options)%Z then Some (http_readTimeoutSeconds options) else None)
    (if (0 <? http_writeTimeoutSeconds options)%Z then Some (http_writeTimeoutSeconds options) else None)
    (if (0 <? http_threadCount options)%Z then Some (http_threadCount options) else None).

(** ** PrepareDataPath *)

(** What the operating system says besides the results of the calls: the text of this thread's id, the
    value of the static counter, and the text of the error of a path that cannot be resolved. *)
Record ProcessInfo := mkProcess {
  thread_id : string;
  probe_counter : Z;
  resolve_error : string
}.

Section Setup.
Context `{FsEnv} `{JsonText}.
Context (process : ProcessInfo).

Definition BuildWriteProbePath (directory : string) : string :=
  path_append directory
    (".agent_memory_write_test_" +:+ thread_id process +:+ "_" +:+ to_string (probe_counter process)).

Definition PrepareDataPath (dataPath : string) : M FileSystem string :=
  let* ec := create_directories in
  match ec with
  | Some message => throw ("failed to create dataPath: " +:+ dataPath +:+ ": " +:+ message)
  | None =>
      let* resolved := (λ f, (Ret (weakly_canonical f dataPath), f)) in
      match resolved with
      | None => throw ("failed to resolve dataPath: " +:+ dataPath +:+ ": " +:+ resolve_error process)
      | Some canonical =>
          let probe := BuildWriteProbePath canonical in
          let* is_open := open_trunc probe in
          if negb is_open then throw ("dataPath is not writable: " +:+ canonical)
          else
            let* ec := remove probe in
            match ec with
            | Some message => throw ("failed to clean dataPath write test: " +:+ canonical +:+ ": " +:+ message)
            | None => ret canonical
            end
      end
  end.

(** ** CreateServerSetup *)

(** The statements between the configuration and the runtime: [config.model]. *)
Definition setup_model (options : ServerOptions) (httpClient : JsonPostTransport) : Outcome MemoryModelConfig :=
  if json_empty (so_modelConfig options) then Ret default_ModelConfig
  else
    let '(config, error) := LoadMemoryModelConfigFromJson (so_modelConfig options) in
    if negb (is_empty error) then
      if so_strictModelConfig options then Throw error else Ret default_ModelConfig
    else
      match LoadModelClientFromConfig config httpClient with
      | (Some _, _) => Ret config
      | (None, error) =>
          if so_strictModelConfig options then Throw error
          else Ret (mkModelConfig false (model_formatType config) (model_baseUrl config) (model_apiKey config)
                      (model_modelName config) (model_organization config) (model_anthropicVersion config)
                      (model_timeoutSeconds config) (model_temperature config) (model_maxTokens config)
                      (model_headers config) (model_extraParams config))
      end.

Section Runtime.
Context {S X : Type} `{MemoryEventStore S} `{MemoryPayloadStore S} `{MemoryLongTermStore S X}
  `{MemorySearchStore S} `{MemoryStatsStore S}.
(** The constructor of the store and its [Initialize]. *)
Context (new_store : string → S) (Initialize : M (S * FileSystem) MemoryOperationResult).
Context (httpClient : JsonPostTransport).
(** What [httplib::Server::Post] throws for a pattern that is no regular expression. *)
Context (route_error : string → option string).

(** [BuiltinMemoryRuntime(config)]; the runtime's store, or one that is never used if it has none. *)
Definition new_BuiltinMemoryRuntime (config : MemoryConfig) : M FileSystem (BuiltinMemoryRuntime * S) :=
  let* store := CreateRuntimeStore new_store Initialize config in
  let* services := CreateRuntimeServices config store (LoadModelClientFromConfig (config_model config) httpClient) in
  ret (mkRuntime config services, default (new_store (RuntimeDatabasePath config)) (create_store store)).

Record ServerSetup := mkSetup {
  setup_config : MemoryConfig;
  setup_runtime : BuiltinMemoryRuntime;
  setup_store : S
}.

(** [runtime->GetStats()] on the store of the new runtime. *)
Definition first_stats (rt : BuiltinMemoryRuntime) (store : S) : M FileSystem (MemoryStatsResult * S) := λ f,
  match GetStats rt (store, f) with
  | (Ret stats, (store', f')) => (Ret (stats, store'), f')
  | (Throw what, (_, f')) => (Throw what, f')
  end.

Definition CreateServerSetup (options : ServerOptions) : M FileSystem ServerSetup :=
  let* dataPath := PrepareDataPath (so_dataPath options) in
  let* model := lift_outcome (setup_model options httpClient) in
  let config := mkConfig dataPath (so_tokenBudget options) (so_offloadThreshold options)
                  (so_enablePayloadOffload options) model in
  let* made := new_BuiltinMemoryRuntime config in
  let* stats := first_stats made.1 made.2 in
  if negb (statsres_succeeded stats.1) then throw (error_message (statsres_error stats.1))
  else ret (mkSetup config made.1 stats.2).

(** ** Run and main *)

(** What the library was given to listen with. *)
Record Served := mkServed {
  served_options : ServerOptions;
  served_setup : ServerSetup;
  served_server : Http.MemoryHttpServer;
  served_settings : LibrarySettings
}.

(** How the program ends: by returning from [main], or by std::terminate. *)
Inductive ProgramEnd := Exits (code : Z) | Terminates.

(** How it ends, and the server if one was put to listen. The thread that waits for signals runs from
    after the setup on: an exception of the registration of the routes destroys it unjoined. *)
Definition Run (read : string → option string) (listen : Served → FileSystem → bool * FileSystem) (argv : list string)
    : M FileSystem (ProgramEnd * option Served) :=
  let* line := lift_outcome (parse_command_line read argv) in
  match line with
  | ExitWith code => ret (Exits code, None)
  | StartWith options =>
      let* setup := CreateServerSetup options in
      match route_error (mcp_path (so_mcp options)) with
      | Some _ => ret (Terminates, None)
      | None =>
          let server := Http.new_MemoryHttpServer (so_apiToken options) (so_debugErrors options)
                          (http_maxPayloadBytes (so_http options)) (mcp_path (so_mcp options))
                          (mcp_maxMessageBytes (so_mcp options)) in
          let served := mkServed options setup server (ApplyHttpOptions (so_http options)) in
          let* listened := (λ f, let '(listened, f') := listen served f in (Ret listened, f')) in
          ret (Exits (if negb listened then 1%Z else 0%Z), Some served)
      end
  end.

Definition main (read : string → option string) (listen : Served → FileSystem → bool * FileSystem) (argv : list string)
    : M FileSystem (ProgramEnd * option Served) :=
  try_catch (Run read listen argv) (λ _, ret (Exits 1, None)).
End Runtime.
End Setup.
