(* ===== verification/ServerSetupTheorems.v ===== *)
(** * Theorems on starting the server

    What the model configuration decides with and without strict mode, and what holds of every server
    that [main] puts to listen. *)

From Stdlib Require Import ZArith Lia Ascii String.
From stdpp Require Import base list strings gmap.
From S2P Require Import Prelude CppString Floats Json Types Utf8 StoreInterface Consolidation.
From S2P Require Import ContextBuilder PayloadService Runtime Curl ModelClients ServerOptions Mcp Http ServerSetup.
From S2P Require Import Sqlite Store StoreSearch Samples PayloadTheorems.

Open Scope am_scope.

(** ** The model of a setup *)

Section Model.
Context `{JsonText} (http : JsonPostTransport).

Lemma client_of_disabled config : model_enabled config = false → LoadModelClientFromConfig config http = (None, "").
Proof. intros He. unfold LoadModelClientFromConfig. by rewrite He. Qed.

Lemma client_enabled config : is_Some (LoadModelClientFromConfig config http).1 → model_enabled config = true.
Proof.
  destruct (model_enabled config) eqn:E; [done|]. rewrite client_of_disabled by done. by intros [].
Qed.

(** The client that a configuration asks for, and the error. *)
Definition requested (options : ServerOptions) : option MemoryModelClient * string :=
  if json_empty (so_modelConfig options) then (None, "")
  else LoadModelClientFromJson (so_modelConfig options) http.

Lemma setup_model_spec options :
  match setup_model options http with
  | Ret model =>
      (LoadModelClientFromConfig model http).1 = (requested options).1 ∧
      (model_enabled model = true ↔ is_Some (requested options).1) ∧
      (so_strictModelConfig options = true → json_empty (so_modelConfig options) = false →
       is_Some (requested options).1)
  | Throw what =>
      so_strictModelConfig options = true ∧ json_empty (so_modelConfig options) = false ∧
      requested options = (None, what)
  end.
Proof.
  assert (∀ config : MemoryModelConfig, model_enabled config = false →
    (LoadModelClientFromConfig config http).1 = None ∧ (model_enabled config = true ↔ is_Some (@None MemoryModelClient)))
    as Hoff.
  { intros config He. rewrite client_of_disabled, He by done. split; [done|]. split; [done|by intros []]. }
  unfold setup_model, requested, LoadModelClientFromJson.
  destruct (json_empty _); [by destruct (Hoff default_ModelConfig)|].
  destruct (LoadMemoryModelConfigFromJson _) as [config error]. destruct (negb (is_empty error)).
  { destruct (so_strictModelConfig options); [done|]. by destruct (Hoff default_ModelConfig). }
  destruct (LoadModelClientFromConfig config http) as [[client|] error'] eqn:El.
  - rewrite El. split_and!; [done| |by eexists]. split; [by eexists|]. intros _. apply client_enabled. by rewrite El.
  - destruct (so_strictModelConfig options); [done|].
    split_and!; [by rewrite client_of_disabled| |done]. cbn. split; [done|by intros []].
Qed.
End Model.

(** ** The start of the runtime *)

Section Start.
Context `{FsEnv} `{JsonText} (process : ProcessInfo).
Context {S X : Type} `{MemoryEventStore S} `{MemoryPayloadStore S} `{MemoryLongTermStore S X}
  `{MemorySearchStore S} `{MemoryStatsStore S}.
Context (new_store : string → S) (Initialize : M (S * FileSystem) MemoryOperationResult) (http : JsonPostTransport)
  (route_error : string → option string).

(** [m] changes no file outside [paths]. *)
Definition only_files {A} (paths : string → Prop) (m : M FileSystem A) : Prop :=
  ∀ f path, ¬ paths path → fs_files (m f).2 !! path = fs_files f !! path.

Lemma only_bind {A B} paths (m : M FileSystem A) (k : A → M FileSystem B) :
  only_files paths m → (∀ a, only_files paths (k a)) → only_files paths (bind m k).
Proof.
  intros Hm Hk f path Hp. unfold bind. specialize (Hm f path Hp).
  destruct (m f) as [[a|w] f1]; cbn in *; [|done]. by rewrite (Hk a f1 path Hp).
Qed.

Lemma only_ret {A} paths (a : A) : only_files paths (ret a).
Proof. done. Qed.

Lemma only_throw {A} paths what : only_files paths (throw what : M FileSystem A).
Proof. done. Qed.

Lemma only_create_directories paths : only_files paths create_directories.
Proof. intros f path _. unfold create_directories, fs_call. by destruct (fs_fault _ _). Qed.

Lemma only_same {A} paths (m : M FileSystem A) : (∀ f, (m f).2 = f) → only_files paths m.
Proof. intros Hm f path _. by rewrite Hm. Qed.

Lemma only_open paths path : paths path → only_files paths (open_trunc path).
Proof.
  intros Hp. apply only_bind; [|intros; apply only_ret]. intros f path' Hn. unfold fs_call.
  destruct (fs_fault _ _); [done|]. cbn. rewrite lookup_insert_ne; [done|congruence].
Qed.

Lemma only_remove paths path : paths path → only_files paths (remove path).
Proof.
  intros Hp f path' Hn. unfold remove, fs_call. destruct (fs_fault _ _); [done|]. cbn.
  rewrite lookup_delete_ne; [done|congruence].
Qed.

(** The probe files of the process. *)
Definition probe (path : string) : Prop := ∃ directory, path = BuildWriteProbePath process directory.

#[local] Hint Resolve only_ret only_throw only_create_directories : only_files.

Lemma only_weaken {A} (paths paths' : string → Prop) (m : M FileSystem A) :
  (∀ path, paths path → paths' path) → only_files paths m → only_files paths' m.
Proof. intros Hp Hm f path Hn. apply Hm. auto. Qed.

(** Opening the database changes no files but [owned]. *)
Definition opens_only (owned : string → Prop) : Prop :=
  ∀ s f path, ¬ owned path → fs_files (Initialize (s, f)).2.2 !! path = fs_files f !! path.

(** Nor does serving. *)
Definition serves_only (owned : string → Prop) (listen : Served (S := S) → FileSystem → bool * FileSystem) : Prop :=
  ∀ served f path, ¬ owned path → fs_files (listen served f).2 !! path = fs_files f !! path.

Lemma PrepareDataPath_only dataPath : only_files probe (PrepareDataPath process dataPath).
Proof.
  apply only_bind; [auto with only_files|]. intros [message|]; [auto with only_files|].
  apply only_bind; [by apply only_same|]. intros [canonical|]; [|auto with only_files].
  apply only_bind; [apply only_open; by eexists|]. intros []; cbn [negb]; [|auto with only_files].
  apply only_bind; [apply only_remove; by eexists|]. intros [message|]; auto with only_files.
Qed.

Lemma new_runtime_only owned config :
  opens_only owned → only_files owned (new_BuiltinMemoryRuntime new_store Initialize http config).
Proof.
  intros Hopen. apply only_bind.
  - apply only_bind; [auto with only_files|]. intros [message|]; [auto with only_files|].
    apply only_bind; [|intros [r s]; destruct (negb _); auto with only_files].
    intros f path Hn. pose proof (Hopen (new_store (RuntimeDatabasePath config)) f path Hn) as Hf.
    by destruct (Initialize _) as [[r|w] [s f']].
  - intros store. apply only_bind; [|auto with only_files]. apply only_bind; [by apply only_same|auto with only_files].
Qed.

Lemma first_stats_only owned rt store : only_files owned (first_stats rt store).
Proof.
  apply only_same. intros f. unfold first_stats, GetStats. destruct (negb _); [done|].
  unfold on_store, zoom. cbn. by destruct (st_GetStoreStats store) as [[r|w] s].
Qed.

Lemma CreateServerSetup_only owned options :
  opens_only owned →
  only_files (λ path, owned path ∨ probe path) (CreateServerSetup process new_store Initialize http options).
Proof.
  intros Hopen.
  apply only_bind; [eapply only_weaken; [|apply PrepareDataPath_only]; auto|]. intros dataPath.
  apply only_bind; [by apply only_same|]. intros model.
  apply only_bind; [eapply only_weaken; [|by apply new_runtime_only]; auto|]. intros made.
  apply only_bind; [apply first_stats_only|]. intros stats. destruct (negb _); auto with only_files.
Qed.

(** A runtime is made with the client of its configuration, and only its store decides on the first
    statistics. *)
Lemma new_runtime_client config f rt s f' :
  new_BuiltinMemoryRuntime new_store Initialize http config f = (Ret (rt, s), f') →
  rs_modelClient (services rt) = (LoadModelClientFromConfig (config_model config) http).1.
Proof.
  unfold new_BuiltinMemoryRuntime. intros Hrun.
  apply bind_Ret_inv in Hrun as (store & f1 & _ & Hrun). apply bind_Ret_inv in Hrun as (sv & f2 & Hs & Hrun).
  injection Hrun as <- _ _. unfold CreateRuntimeServices in Hs.
  apply bind_Ret_inv in Hs as (ps & f3 & _ & Hs). by injection Hs as <- _.
Qed.

Lemma first_stats_store rt store f stats f' :
  first_stats rt store f = (Ret stats, f') → statsres_succeeded stats.1 = true → rs_store (services rt) = true.
Proof.
  unfold first_stats, GetStats. destruct (rs_store (services rt)); [done|]. cbn. by intros [= <- _].
Qed.

(** Two runs with the same result but for the runtime's model. *)
Definition same_start (run1 run2 : Outcome (ServerSetup (S := S)) * FileSystem) : Prop :=
  run1.2 = run2.2 ∧
  match run1.1, run2.1 with
  | Ret setup1, Ret setup2 => setup_store setup1 = setup_store setup2
  | Throw what1, Throw what2 => what1 = what2
  | _, _ => False
  end.

(** The setup once the data path and the model are known. *)
Definition setup_tail (options : ServerOptions) (dataPath : string) (model : MemoryModelConfig)
    : M FileSystem ServerSetup :=
  let config := mkConfig dataPath (so_tokenBudget options) (so_offloadThreshold options)
                  (so_enablePayloadOffload options) model in
  let* made := new_BuiltinMemoryRuntime new_store Initialize http config in
  let* stats := first_stats made.1 made.2 in
  if negb (statsres_succeeded stats.1) then throw (error_message (statsres_error stats.1))
  else ret (mkSetup config made.1 stats.2).

Lemma CreateServerSetup_run options f :
  CreateServerSetup process new_store Initialize http options f =
  match PrepareDataPath process (so_dataPath options) f with
  | (Ret dataPath, f1) =>
      match setup_model options http with
      | Ret model => setup_tail options dataPath model f1
      | Throw what => (Throw what, f1)
      end
  | (Throw what, f1) => (Throw what, f1)
  end.
Proof.
  unfold CreateServerSetup, bind at 1. destruct (PrepareDataPath _ _ f) as [[dataPath|w] f1]; [|done].
  unfold bind at 1, lift_outcome. by destruct (setup_model options http).
Qed.

Lemma setup_tail_same options1 options2 dataPath model1 model2 f :
  same_start (setup_tail options1 dataPath model1 f) (setup_tail options2 dataPath model2 f).
Proof.
  unfold setup_tail, same_start, new_BuiltinMemoryRuntime, CreateRuntimeStore, RuntimeDatabasePath, ResolveRuntimeDataPath.
  cbn [config_dataPath]. unfold bind, create_directories, fs_call. destruct (fs_fault _ _) as [message|]; cbn.
  { done. }
  destruct (Initialize _) as [[r|w] [s f']]; cbn; [|done]. destruct (op_succeeded r); cbn; [|done].
  unfold first_stats, GetStats, on_store, zoom, bind. cbn. destruct (st_GetStoreStats s) as [[st|w] s']; cbn; [|done].
  by destruct (statsres_succeeded st).
Qed.

Lemma CreateServerSetup_ready options f setup f' :
  CreateServerSetup process new_store Initialize http options f = (Ret setup, f') →
  rs_store (services (setup_runtime setup)) = true ∧
  rs_modelClient (services (setup_runtime setup)) = (requested http options).1 ∧
  (model_enabled (config_model (setup_config setup)) = true ↔ is_Some (requested http options).1).
Proof.
  rewrite CreateServerSetup_run. pose proof (setup_model_spec http options) as Hm. intros Hrun.
  destruct (PrepareDataPath process _ f) as [[dataPath|w] f1]; [|done].
  destruct (setup_model options http) as [model|what]; [|done]. destruct Hm as (Hclient & Hen & _).
  apply bind_Ret_inv in Hrun as ([rt s] & f3 & Hmade & Hrun). apply bind_Ret_inv in Hrun as (stats & f4 & Hst & Hrun).
  destruct (statsres_succeeded stats.1) eqn:Es; [|done]. injection Hrun as <- _. cbn.
  rewrite (new_runtime_client _ _ _ _ _ Hmade). split_and!; [by eapply first_stats_store|done|done].
Qed.

(** C33: a server with a model configuration starts as one without, except that in strict mode a
    configuration that gives no client ends the start with its error right after the data directory
    was prepared; without strict mode the model configuration decides neither whether the server
    starts nor what it does to files and store. A server that starts has a store, the client its
    configuration gives, and reports the model enabled exactly when it has a client. *)
Theorem server_setup_model (options : ServerOptions) (f : FileSystem) :
  let create o := CreateServerSetup process new_store Initialize http o f in
  (so_strictModelConfig options = true → json_empty (so_modelConfig options) = false →
   (requested http options).1 = None → ∀ dataPath f1,
   PrepareDataPath process (so_dataPath options) f = (Ret dataPath, f1) →
   create options = (Throw (requested http options).2, f1)) ∧
  ((so_strictModelConfig options = false ∨ json_empty (so_modelConfig options) = true ∨
    is_Some (requested http options).1) →
   same_start (create options) (create (set_model json_object false options))) ∧
  (∀ setup f', create options = (Ret setup, f') →
   let client := rs_modelClient (services (setup_runtime setup)) in
   rs_store (services (setup_runtime setup)) = true ∧ client = (requested http options).1 ∧
   (model_enabled (config_model (setup_config setup)) = true ↔ is_Some client)).
Proof.
  cbv zeta. pose proof (setup_model_spec http options) as Hm. split_and!.
  - intros Hs He Hr dataPath f1 Hp. rewrite CreateServerSetup_run, Hp.
    destruct (setup_model options http) as [model|what].
    + destruct Hm as (_ & _ & Hc). destruct (Hc Hs He) as [c Hc']. by rewrite Hr in Hc'.
    + by destruct Hm as (_ & _ & ->).
  - intros Hcase. rewrite !CreateServerSetup_run. cbn [set_model so_dataPath].
    destruct (PrepareDataPath process (so_dataPath options) f) as [[dataPath|w] f1]; [|done].
    change (setup_model (set_model json_object false options) http) with (Ret default_ModelConfig).
    destruct (setup_model options http) as [model|what]; [apply setup_tail_same|].
    destruct Hm as (Hs & He & Hr). destruct Hcase as [Hc|[Hc|Hc]]; [congruence..|].
    rewrite Hr in Hc. by destruct Hc.
  - intros setup f' Hrun. destruct (CreateServerSetup_ready _ _ _ _ Hrun) as (Hs & -> & He). by split_and!.
Qed.

(** ** main *)

(** What [ValidateServerOptions] asks of the options of an HTTP server. *)
Record valid_options (o : ServerOptions) : Prop := mkValid {
  valid_dataPath : so_dataPath o ≠ "";
  valid_offloadThreshold : (0 ≤ so_offloadThreshold o)%Z;
  valid_tokenBudget : (0 < so_tokenBudget o)%Z;
  valid_mode : mcp_mode (so_mcp o) = "http";
  valid_mcpPath : String.get 0 (mcp_path (so_mcp o)) = Some "/"%char;
  valid_maxMessageBytes : mcp_maxMessageBytes (so_mcp o) ≠ 0%Z;
  valid_host : http_host (so_http o) ≠ "";
  valid_port : (1 ≤ http_port (so_http o) ≤ 65535)%Z;
  valid_maxPayloadBytes : http_maxPayloadBytes (so_http o) ≠ 0%Z;
  valid_timeouts : (0 ≤ http_readTimeoutSeconds (so_http o))%Z ∧ (0 ≤ http_writeTimeoutSeconds (so_http o))%Z ∧
                   (0 ≤ http_threadCount (so_http o))%Z
}.

Lemma ValidateServerOptions_valid o : ValidateServerOptions o true = Ret tt → valid_options o.
Proof.
  unfold ValidateServerOptions. intros Hv.
  repeat match type of Hv with (if ?b then _ else _) = _ => destruct b eqn:?; [discriminate Hv|] end.
  repeat match goal with
  | H : (_ || _) = false |- _ => apply orb_false_elim in H as [? ?]
  | H : (_ <? _)%Z = false |- _ => apply Z.ltb_ge in H
  | H : (_ <=? _)%Z = false |- _ => apply Z.leb_gt in H
  | H : (_ =? _)%Z = false |- _ => apply Z.eqb_neq in H
  | H : bool_decide (_ ≠ _) = false |- _ => apply bool_decide_eq_false, dec_stable in H
  | H : negb _ = false |- _ => apply negb_false_iff, bool_decide_eq_true in H
  end.
  split; try done; try lia; intros Hs; by rewrite Hs in *.
Qed.

Lemma parse_command_line_start read argv options :
  parse_command_line read argv = Ret (StartWith options) → valid_options options.
Proof.
  unfold parse_command_line. destruct (HasHelpOption argv); [done|].
  destruct (FindConfigPath argv "") as [path|]; [|done].
  destruct (if negb (is_empty path) then _ else _) as [o|]; [|done]. cbn [obind].
  destruct (apply_args _ _ _ o) as [o'|]; [|done].
  destruct (ValidateServerOptions o' true) as [[]|] eqn:Ev; [|done]. cbn. intros [= <-].
  by apply ValidateServerOptions_valid.
Qed.

Lemma parse_command_line_exit read argv code :
  parse_command_line read argv = Ret (ExitWith code) →
  (code = 0%Z ∧ HasHelpOption argv = true) ∨ code = 1%Z.
Proof.
  unfold parse_command_line. destruct (HasHelpOption argv); [intros [= <-]; by left|].
  destruct (FindConfigPath argv "") as [path|]; [|intros [= <-]; by right].
  destruct (if negb (is_empty path) then _ else _) as [o|]; [|done]. cbn [obind].
  destruct (apply_args _ _ _ o) as [o'|]; [|intros [= <-]; by right].
  by destruct (ValidateServerOptions o' true) as [[]|].
Qed.

(** A positive setting is made, zero leaves the library's default. *)
Definition setting (value : Z) : option Z := if decide (value = 0%Z) then None else Some value.

Lemma setting_spec value : (0 ≤ value)%Z → (if (0 <? value)%Z then Some value else None) = setting value.
Proof. intros Hv. unfold setting. case_decide; destruct (Z.ltb_spec 0 value); try done; lia. Qed.

End Start.

(** A configuration with an unknown provider: a strict start ends with its error, another one goes on
    without a model. *)
Definition sample_process : ProcessInfo := mkProcess "140" 0 "".
Definition unknown_provider (strict : bool) : ServerOptions :=
  set_model (mk_object [("formatType", JString "none"); ("baseUrl", JString "u"); ("modelName", JString "m")]) strict
    default_ServerOptions.
(** Opening makes the database file. *)
Definition database_file : string := "/data/memory_runtime/memory.db".
Definition open_database : M (MemorySqliteStore * FileSystem) MemoryOperationResult :=
  λ '(s, f), (Ret MemorySuccess, (s, mkFs (<[database_file := ""]> (fs_files f)) (fs_tick f) (fs_draws f))).
Definition no_http : JsonPostTransport := λ _, Throw "no network".

Lemma sample_prepared strict :
  ∃ f1, @PrepareDataPath (plain_fs false) sample_process (so_dataPath (unknown_provider strict)) (mkFs ∅ 0 0)
        = (Ret "./data", f1).
Proof.
  exists (@PrepareDataPath (plain_fs false) sample_process "./data" (mkFs ∅ 0 0)).2. reflexivity.
Qed.

Lemma server_setup_model_witness :
  let _ := document_json [] in let _ := reliable_env in let _ := sample_plan in let _ := sample_fts in
  let _ := plain_fs false in
  let create o := CreateServerSetup sample_process (λ _, opened empty_tables) open_database no_http o (mkFs ∅ 0 0) in
  (create (unknown_provider true)).1 = Throw "unsupported model formatType: none" ∧
  ∃ setup f, create (unknown_provider false) = (Ret setup, f) ∧ rs_modelClient (services (setup_runtime setup)) = None.
Proof.
  intros Hj He Hp Hf Hfs create.
  split.
  - destruct (sample_prepared true) as (f1 & Hd). unfold create.
    rewrite (proj1 (server_setup_model sample_process (λ _, opened empty_tables) open_database no_http
      (unknown_provider true) (mkFs ∅ 0 0)) eq_refl eq_refl eq_refl _ f1 Hd). reflexivity.
  - assert (match (create (unknown_provider false)).1 with Ret _ => true | Throw _ => false end = true) as Hret
      by (vm_compute; reflexivity).
    destruct (create (unknown_provider false)) as [[setup|w] f] eqn:Ec; [|done].
    exists setup, f. split; [done|].
    apply (proj2 (server_setup_model sample_process (λ _, opened empty_tables) open_database no_http
      (unknown_provider false) (mkFs ∅ 0 0))) in Ec as (_ & -> & _). reflexivity.
Defined.

(** A server that writes one payload and stops: the database and the payload are new, nothing else. *)
Definition payload_file : string := "/data/memory_runtime/payloads/a.txt".
Definition listen_once : Served (S := MemorySqliteStore) → FileSystem → bool * FileSystem :=
  λ _ f, (true, mkFs (<[payload_file := "text"]> (fs_files f)) (fs_tick f) (fs_draws f)).

Lemma probe_ends directory :
  ends_with ".agent_memory_write_test_140_0" (BuildWriteProbePath sample_process directory) = true.
Proof.
  unfold BuildWriteProbePath. change (".agent_memory_write_test_" +:+ _) with ".agent_memory_write_test_140_0".
  apply ends_with_spec. unfold path_append. change (starts_with_slash _) with false. cbn iota.
  destruct (str_back directory); [|by exists ""]. case_bool_decide; [by exists directory|].
  exists (directory +:+ "/"). by rewrite str_app_assoc.
Qed.

