(* ===== verification/ServerLifecycle.v ===== *)
(** * The life of the server process: src/src/server/server_main.cpp, [Run] after the setup

    Two threads and a signal handler share [gStopRequested] and the library's server. The main thread
    starts the stop thread, registers the routes and listens; the stop thread waits for the flag and
    calls [server.stop()]; the handler of SIGINT and SIGTERM sets the flag. Of the library is used what
    listen and stop do to its flag [is_running_] and its socket: stop closes the socket of a running
    server and does nothing else. *)

From Stdlib Require Import ZArith Lia.
From stdpp Require Import base list relations.
From S2P Require Import Prelude ServerSetup.

Open Scope am_scope.

(** ** States *)

(** The next statement of the main thread; [listened] is the result of [server.listen]. *)
Inductive MainPoint :=
  | AtReset
  | AtSignals
  | AtThread
  | AtRoutes
  | AtBind
  | AtListen
  | Serving
  | AtStopRequest (listened : bool)
  | AtJoin (listened : bool)
  | Ended (ends : ProgramEnd).

Inductive StopThread := NotStarted | Waiting | AtStop | Finished.

Record Lifecycle := mkLifecycle {
  gStopRequested : bool;
  handlers_set : bool;
  main_at : MainPoint;
  stopThread : StopThread;
  is_running_ : bool;
  svr_sock_ : bool
}.

(** The flag is statically initialised. *)
Definition after_setup : Lifecycle := mkLifecycle false false AtReset NotStarted false false.

Definition at_point (p : MainPoint) (s : Lifecycle) : Lifecycle :=
  mkLifecycle (gStopRequested s) (handlers_set s) p (stopThread s) (is_running_ s) (svr_sock_ s).

Definition RequestStop (s : Lifecycle) : Lifecycle :=
  mkLifecycle true (handlers_set s) (main_at s) (stopThread s) (is_running_ s) (svr_sock_ s).

(** [server.stop()] *)
Definition server_stop (s : Lifecycle) : Lifecycle :=
  mkLifecycle (gStopRequested s) (handlers_set s) (main_at s) (stopThread s) (is_running_ s)
    (if is_running_ s then false else svr_sock_ s).

Definition with_stop_thread (t : StopThread) (s : Lifecycle) : Lifecycle :=
  mkLifecycle (gStopRequested s) (handlers_set s) (main_at s) t (is_running_ s) (svr_sock_ s).

(** ** Steps *)

(** Who moves: a thread, a signal, or the network by failing [accept]. *)
Inductive Label := Main | Stopper | Signal | AcceptFails.

Section Steps.
(** Whether the library takes the MCP path as a pattern, and whether it can bind the port. *)
Context (route_ok can_bind : bool).

(** The main thread; it waits where it cannot move. *)
Definition main_step (s : Lifecycle) : option Lifecycle :=
  match main_at s with
  | AtReset => Some (mkLifecycle false (handlers_set s) AtSignals (stopThread s) (is_running_ s) (svr_sock_ s))
  | AtSignals => Some (mkLifecycle (gStopRequested s) true AtThread (stopThread s) (is_running_ s) (svr_sock_ s))
  | AtThread => Some (at_point AtRoutes (with_stop_thread Waiting s))
  | AtRoutes => Some (at_point (if route_ok then AtBind else Ended Terminates) s)
  | AtBind =>
      Some (if can_bind
            then mkLifecycle (gStopRequested s) (handlers_set s) AtListen (stopThread s) (is_running_ s) true
            else at_point (AtStopRequest false) s)
  | AtListen => Some (mkLifecycle (gStopRequested s) (handlers_set s) Serving (stopThread s) true (svr_sock_ s))
  | Serving =>
      if svr_sock_ s then None
      else Some (mkLifecycle (gStopRequested s) (handlers_set s) (AtStopRequest true) (stopThread s) false false)
  | AtStopRequest listened => Some (at_point (AtJoin listened) (RequestStop s))
  | AtJoin listened =>
      match stopThread s with
      | Finished => Some (at_point (Ended (Exits (if negb listened then 1 else 0)%Z)) s)
      | _ => None
      end
  | Ended _ => None
  end.

(** The stop thread. *)
Definition stop_step (s : Lifecycle) : option Lifecycle :=
  match main_at s, stopThread s with
  | Ended _, _ => None
  | _, Waiting => if gStopRequested s then Some (with_stop_thread AtStop s) else None
  | _, AtStop => Some (with_stop_thread Finished (server_stop s))
  | _, _ => None
  end.

Definition signal_step (s : Lifecycle) : option Lifecycle :=
  match main_at s with
  | Ended _ => None
  | _ => if handlers_set s then Some (RequestStop s) else None
  end.

(** [accept] fails for good: the library closes the socket and returns false. *)
Definition accept_fails (s : Lifecycle) : option Lifecycle :=
  match main_at s with
  | Serving =>
      if svr_sock_ s
      then Some (mkLifecycle (gStopRequested s) (handlers_set s) (AtStopRequest false) (stopThread s) false false)
      else None
  | _ => None
  end.

Definition move (l : Label) : Lifecycle → option Lifecycle :=
  match l with
  | Main => main_step
  | Stopper => stop_step
  | Signal => signal_step
  | AcceptFails => accept_fails
  end.

Inductive step (l : Label) (s s' : Lifecycle) : Prop := step_move : move l s = Some s' → step l s s'.

(** ** The invariant *)

Definition before_listen (p : MainPoint) : bool :=
  match p with AtReset | AtSignals | AtThread | AtRoutes | AtBind | AtListen => true | _ => false end.

Definition thread_started (p : MainPoint) : bool :=
  match p with AtReset | AtSignals | AtThread => false | _ => true end.

Definition serving (p : MainPoint) : bool := match p with Serving => true | _ => false end.
Definition not_started (t : StopThread) : bool := match t with NotStarted => true | _ => false end.
Definition stopping (t : StopThread) : bool := match t with AtStop | Finished => true | _ => false end.
Definition finished (t : StopThread) : bool := match t with Finished => true | _ => false end.

(** [sig]: whether a signal was delivered. The server runs exactly while the main thread serves; the
    stop thread exists from its creation on and moves on only by the flag, which up to the end of
    listening only a signal sets; a closed socket is the work of the stop thread. *)
Definition lifecycle_ok (sig : bool) (s : Lifecycle) : bool :=
  eqb (is_running_ s) (serving (main_at s)) &&
  eqb (not_started (stopThread s)) (negb (thread_started (main_at s))) &&
  implb (stopping (stopThread s)) (gStopRequested s) &&
  implb (gStopRequested s && (before_listen (main_at s) || serving (main_at s))) sig &&
  implb (serving (main_at s) && negb (svr_sock_ s)) (finished (stopThread s)) &&
  match main_at s with
  | AtListen => svr_sock_ s
  | AtStopRequest listened => implb listened sig
  | AtJoin listened => gStopRequested s && implb listened sig
  | Ended (Exits code) => finished (stopThread s) && ((code =? 1)%Z || ((code =? 0)%Z && sig))
  | Ended Terminates => negb route_ok
  | _ => true
  end.

Definition is_signal (l : Label) : bool := match l with Signal => true | _ => false end.

Lemma lifecycle_ok_step sig l s s' :
  lifecycle_ok sig s = true → move l s = Some s' → lifecycle_ok (sig || is_signal l) s' = true.
Proof.
  destruct s as [flag handlers p t run sock]. unfold lifecycle_ok. cbn [main_at stopThread is_running_ gStopRequested svr_sock_].
  destruct p as [| | | | | | |b|b|[code|]]; cbn [serving thread_started before_listen negb].
  all: destruct run; try discriminate; destruct t; try discriminate.
  all: destruct l; cbn; try discriminate; destruct flag, sig; cbn; try discriminate.
  all: destruct sock; cbn; try discriminate; destruct handlers; cbn; try discriminate.
  all: try destruct b; cbn; try discriminate; destruct route_ok, can_bind; cbn; try discriminate.
  all: intros Hok [= <-]; first [reflexivity | discriminate Hok | exact Hok].
Qed.

(** ** Runs *)

(** What moved, the last first. *)
Inductive runs (s : Lifecycle) : list Label → Lifecycle → Prop :=
  | runs_nothing : runs s [] s
  | runs_step ls l s1 s2 : runs s ls s1 → step l s1 s2 → runs s (l :: ls) s2.

Definition reaches : list Label → Lifecycle → Prop := runs after_setup.

Lemma lifecycle_invariant ls s : reaches ls s → lifecycle_ok (existsb is_signal ls) s = true.
Proof.
  unfold reaches. induction 1 as [|ls l s1 s2 _ IH [Hm]]; [reflexivity|].
  cbn. rewrite orb_comm. by eapply lifecycle_ok_step.
Qed.

(** A boolean property that the moves allowed by [ok] preserve holds along a run of such moves. *)
Lemma runs_preserve (ok : Label → bool) (P : Lifecycle → bool) s ls s' :
  (∀ l s1 s2, ok l = true → P s1 = true → move l s1 = Some s2 → P s2 = true) →
  runs s ls s' → forallb ok ls = true → P s = true → P s' = true.
Proof.
  intros Hstep. induction 1 as [|ls l s1 s2 _ IH [Hm]]; [done|]. cbn. intros [Hl Hls]%andb_prop Hs. eauto.
Qed.

(** ** A stop that will come to its end *)

(** The flag is set, the stop thread exists, and a server that still has its socket still has a stop
    thread that is to close it. *)
Definition stop_under_way (s : Lifecycle) : bool :=
  gStopRequested s && negb (not_started (stopThread s)) && eqb (is_running_ s) (serving (main_at s)) &&
  match main_at s with
  | Serving => xorb (svr_sock_ s) (finished (stopThread s))
  | AtStopRequest _ | AtJoin _ | Ended (Exits _) => true
  | _ => false
  end.

(** The moves of the two threads that remain. *)
Definition moves_left (s : Lifecycle) : nat :=
  match stopThread s with NotStarted => 3 | Waiting => 2 | AtStop => 1 | Finished => 0 end +
  match main_at s with Serving => 3 | AtStopRequest _ => 2 | AtJoin _ => 1 | _ => 0 end.

(** Listening was not cut short by the network. *)
Definition graceful (s : Lifecycle) : bool :=
  match main_at s with
  | Serving => true
  | AtStopRequest listened | AtJoin listened => listened
  | Ended (Exits code) => (code =? 0)%Z
  | _ => false
  end.

Lemma stop_under_way_step l s s' :
  stop_under_way s = true → move l s = Some s' →
  stop_under_way s' = true ∧ (if is_signal l then s' = s else moves_left s' < moves_left s).
Proof.
  destruct s as [flag handlers p t run sock]. unfold stop_under_way.
  cbn [main_at stopThread is_running_ gStopRequested svr_sock_].
  destruct flag; [|done]. destruct p as [| | | | | | |b|b|[code|]]; destruct t, run, sock; try done.
  all: destruct l; cbn; try done; intros _; try destruct handlers; try done.
  all: intros [= <-]; unfold moves_left; cbn; split; first [reflexivity | lia].
Qed.

Lemma stop_under_way_progress s :
  stop_under_way s = true →
  (∃ code, main_at s = Ended (Exits code)) ∨ ∃ l s', (l = Main ∨ l = Stopper) ∧ step l s s'.
Proof.
  destruct s as [flag handlers p t run sock]. unfold stop_under_way.
  cbn [main_at stopThread is_running_ gStopRequested svr_sock_].
  destruct flag; [|done]. intros Hs.
  destruct p as [| | | | | | |b|b|[code|]]; try (by rewrite andb_false_r in Hs); [| | |left; by eexists]; right.
  all: destruct t, run, sock; try done.
  all: first [eexists Main, _; split; [by left|]; by constructor | eexists Stopper, _; split; [by right|]; by constructor].
Qed.

Lemma graceful_step l s s' :
  negb (match l with AcceptFails => true | _ => false end) = true →
  graceful s = true → move l s = Some s' → graceful s' = true.
Proof.
  destruct s as [flag handlers p t run sock]. unfold graceful. cbn [main_at].
  destruct l; [| | |done]; intros _; destruct p as [| | | | | | |b|b|[code|]]; cbn; try done.
  all: destruct t, sock, flag, handlers; cbn; try done; intros Hg [= <-]; try done; by rewrite Hg.
Qed.

(** The moves of the threads and the network in a run. *)
Definition own_moves (ls : list Label) : nat := length (filter (λ l, is_signal l = false) ls).

Lemma stop_under_way_runs s ls s' :
  runs s ls s' → stop_under_way s = true →
  stop_under_way s' = true ∧ own_moves ls + moves_left s' ≤ moves_left s.
Proof.
  induction 1 as [|ls l s1 s2 _ IH [Hm]]; intros Hs; [split; [done|]; cbn; lia|].
  destruct (IH Hs) as [Hs1 Hle]. destruct (stop_under_way_step _ _ _ Hs1 Hm) as [Hs2 Hmove].
  split; [done|]. unfold own_moves in *. destruct l; cbn [is_signal] in Hmove; try subst s2;
    first [rewrite filter_cons_True by done | rewrite filter_cons_False by done]; cbn [length]; lia.
Qed.

(** A server with its socket, or on its way to one, that no stop thread is left to stop. *)
Definition deaf (s : Lifecycle) : bool :=
  finished (stopThread s) && gStopRequested s && eqb (is_running_ s) (serving (main_at s)) &&
  match main_at s with
  | AtRoutes | AtBind => true
  | AtListen | Serving => svr_sock_ s
  | _ => false
  end.

(** It stays so; and once it serves, nothing moves but signals, without an effect. *)
Lemma deaf_step l s s' :
  route_ok = true → can_bind = true → l ≠ AcceptFails → deaf s = true → move l s = Some s' →
  deaf s' = true ∧ (main_at s = Serving → l = Signal ∧ s' = s).
Proof.
  intros Hr Hb Hl. destruct s as [flag handlers p t run sock]. unfold deaf.
  cbn [main_at stopThread is_running_ gStopRequested svr_sock_].
  destruct t; try done. destruct flag; try done. destruct p as [| | | | | | |b|b|e], run, sock; try done.
  all: destruct l; cbn; rewrite ?Hr, ?Hb; cbn; try done; intros _; try destruct handlers; try done;
    intros [= <-]; (split; [reflexivity|]); intros Hm; try done; by split.
Qed.
End Steps.

(** ** What becomes of a signal *)

(** A run of given moves, computed from its start. *)
Ltac run_moves :=
  lazymatch goal with
  | |- reaches _ _ _ _ => unfold reaches; run_moves
  | |- runs _ _ _ [] _ => apply runs_nothing
  | |- runs _ _ _ (_ :: _) _ => eapply runs_step; [run_moves | constructor; reflexivity]
  end.


(** C32: a signal that arrives before the server runs is lost: it is possible that the stop thread has
    called stop and finished before listening began; from then on, whatever signals arrive, the process
    does not end unless the network fails, and once it serves no signal has an effect. *)
Theorem early_signal_lost :
  (∃ ls s, reaches true true ls s ∧ Signal ∈ ls ∧ before_listen (main_at s) = true ∧ deaf s = true) ∧
  (∀ s ls s', deaf s = true → runs true true s ls s' → AcceptFails ∉ ls →
     (∀ ends, main_at s' ≠ Ended ends) ∧
     (main_at s' = Serving → ∀ l s'', l ≠ AcceptFails → step true true l s' s'' → l = Signal ∧ s'' = s')).
Proof.
  split.
  - eexists [Stopper; Stopper; Signal; Main; Main; Main], _.
    split_and!; [run_moves|set_solver|reflexivity|reflexivity].
  - intros s ls s' Hs Hruns Hn.
    assert (deaf s' = true) as Hs'.
    { eapply (runs_preserve _ _ (λ l, negb (match l with AcceptFails => true | _ => false end))); [|done| |done].
      - intros l s1 s2 Hl Hd Hm. by eapply (deaf_step true true l); [| |by destruct l| |].
      - apply forallb_forall. intros l Hl. destruct l; try done. by apply list_elem_of_In in Hl. }
    split.
    + intros ends He. unfold deaf in Hs'. rewrite He, andb_false_r in Hs'. done.
    + intros Hm l s'' Hl [Hstep]. by apply (deaf_step true true l s' s'').
Qed.

