(* ===== verification/ConsolidationTheorems.v ===== *)
(** * What consolidation guarantees

    The batch builder selects exactly the next eligible events and the cursor that continues after
    them; the writer reports what it saved; on the SQLite store a consolidation is all or nothing
    under any faults, and repeating it processes every event exactly once. *)

From Stdlib Require Import ZArith Lia Ascii String.
From stdpp Require Import base list strings gmap sorting.
From S2P Require Import Prelude CppString Floats Json Types Sqlite StoreInterface Store.
From S2P Require Import StoreInvariant StoreTransactions StoreSearch StoreReads Samples.
From S2P Require Import StoreTheorems EventLog Consolidation ContextBuilder PayloadService.
From S2P Require Import Runtime.
Import BatchBuilder.

Open Scope am_scope.

(** ** The batch *)

(** The cursors of a list of events that starts at index [i]. *)
Fixpoint cursors_from (i : nat) (events : list MemoryEvent) : list string :=
  match events with
  | [] => []
  | e :: rest => event_cursor i e :: cursors_from (S i) rest
  end.

Lemma last_default_cons {A} (d x : A) l : default d (last (x :: l)) = default x (last l).
Proof. rewrite last_cons. by destruct (last l). Qed.

Lemma build_loop_spec request limit i count summary batch cursor events :
  (0 < limit)%Z → (0 ≤ count < limit)%Z →
  ∃ scanned rest batch' summary' cursor',
    build_loop request limit i count summary batch cursor events = (batch', summary', cursor') ∧
    events = scanned ++ rest ∧
    batch_events batch' = batch_events batch ++ filter (λ e, enters_batch request e = true) scanned ∧
    cursor' = default cursor (last (cursors_from i scanned)) ∧
    (events ≠ [] → scanned ≠ []) ∧
    (count + Z.of_nat (length (filter (λ e, enters_batch request e = true) scanned)) ≤ limit)%Z ∧
    (rest ≠ [] →
      (count + Z.of_nat (length (filter (λ e, enters_batch request e = true) scanned)) = limit)%Z).
Proof.
  intros Hlim. revert i count summary batch cursor.
  induction events as [|e events IH]; intros i count summary batch cursor Hc.
  { exists [], [], batch, summary, cursor. simpl. rewrite app_nil_r. split_and!; try done. lia. }
  simpl. destruct (enters_batch request e) eqn:Ee; simpl.
  - destruct ((0 <? limit)%Z && (limit <=? count + 1)%Z) eqn:Estop.
    + eexists [e], events, _, _, _. split; [done|]. rewrite filter_cons_True by done. simpl.
      apply andb_prop in Estop as [_ Estop%Z.leb_le]. split_and!; try done; lia.
    + rewrite andb_false_iff, Z.ltb_ge, Z.leb_gt in Estop.
      destruct (IH (S i) (count + 1)%Z
        (summary +:+ event_role e +:+ ": " +:+ event_content e +:+ BatchBuilder.newline)
        (mkBatch (batch_events batch ++ [e])
           (batch_sourceRefs batch ++ [source_ref (creq_sessionId request) (event_cursor i e)]))
        (event_cursor i e)) as (sc & rest & b & su & cu & -> & -> & Hb & Hcu & Hne & Hle & Heq); [lia|].
      exists (e :: sc), rest, b, su, cu. split; [done|]. rewrite filter_cons_True by done.
      cbn [length cursors_from batch_events app] in *. split_and!; [done| | |done|lia|intros Hr; specialize (Heq Hr); lia].
      * rewrite Hb, <- app_assoc. done.
      * by rewrite Hcu, last_default_cons.
  - destruct (IH (S i) count summary batch (event_cursor i e) Hc)
      as (sc & rest & b & su & cu & -> & -> & Hb & Hcu & Hne & Hle & Heq).
    exists (e :: sc), rest, b, su, cu. split; [done|]. rewrite filter_cons_False by (by rewrite Ee).
    cbn [cursors_from]. split_and!; try done. by rewrite Hcu, last_default_cons.
Qed.

(** C15: a batch is exactly the next [maxEvents] eligible events: the events up to the cursor are a
    prefix of those loaded, the batch holds the eligible ones among them in order, at most
    [maxEvents]; the cursor is that of the last event looked at, and events are left over only when
    the batch is full. So continuing after the cursor neither skips nor repeats an event. *)
Theorem build_batch_spec (request : MemoryConsolidationRequest) (events : list MemoryEvent)
    (Hmax : (0 < creq_maxEvents request)%Z) :
  ∃ scanned rest, events = scanned ++ rest ∧
    batch_events (build_batch (Build request events)) = filter (λ e, enters_batch request e = true) scanned ∧
    build_nextCursor (Build request events) = default "" (last (cursors_from 0 scanned)) ∧
    (events ≠ [] → scanned ≠ []) ∧
    (Z.of_nat (length (batch_events (build_batch (Build request events)))) ≤ creq_maxEvents request)%Z ∧
    (rest ≠ [] →
      Z.of_nat (length (batch_events (build_batch (Build request events)))) = creq_maxEvents request).
Proof.
  unfold Build. replace (creq_maxEvents request <=? 0)%Z with false by lia. rewrite !andb_false_r.
  destruct (build_loop_spec request (creq_maxEvents request) 0 0 "" (mkBatch [] []) "" events)
    as (sc & rest & b & su & cu & -> & -> & Hb & Hcu & Hne & Hle & Heq); [done|lia|].
  exists sc, rest. simpl in *. rewrite Hb. split_and!; try done.
Qed.

Definition user_message (session content cursor : string) : MemoryEvent :=
  mkEvent MESSAGE_APPENDED "agent" session "user" content "" "" "" cursor json_object "".

Lemma build_batch_spec_witness :
  let request := mkConsolidationRequest "agent" "" 1 false ["skip"] json_object in
  let events := [user_message "skip" "a" "4"; user_message "s" "b" "5"; user_message "s" "c" "6"] in
  batch_events (build_batch (Build request events)) = [user_message "s" "b" "5"] ∧
  build_nextCursor (Build request events) = "5" ∧
  ∃ scanned rest, events = scanned ++ rest.
Proof.
  intros request events. split; [reflexivity|]. split; [reflexivity|].
  destruct (build_batch_spec request events) as (sc & rest & Hev & _); [reflexivity|].
  exists sc, rest. exact Hev.
Defined.

(** A forced run takes every eligible event, whatever maxEvents says. *)
Lemma forced_takes_all (request : MemoryConsolidationRequest) (events : list MemoryEvent) :
  creq_forceReprocess request = true → (creq_maxEvents request ≤ 0)%Z → (Z.of_nat (length events) ≤ int_max)%Z →
  batch_events (build_batch (Build request events)) = filter (λ e, enters_batch request e = true) events.
Proof.
  intros Hforce Hmax Hlen. unfold Build. rewrite Hforce. simpl.
  replace (creq_maxEvents request <=? 0)%Z with true by lia.
  rewrite wrap32_id by (unfold in_int, int_min, int_max in *; lia).
  destruct events as [|e events]; [done|].
  match goal with |- context [build_loop ?r ?l] =>
    destruct (build_loop_spec r l 0 0 "" (mkBatch [] []) "" (e :: events))
      as (sc & rest & b & su & cu & E & Hev & Hb & _ & _ & Hle & Heq); [simpl; lia|simpl; lia|] end.
  rewrite E. simpl. rewrite Hb. simpl.
  assert (rest = []) as ->.
  { destruct rest as [|x rest]; [done|]. exfalso. specialize (Heq ltac:(done)).
    pose proof (length_filter (λ e0, enters_batch request e0 = true) sc) as Hf.
    apply (f_equal length) in Hev. rewrite length_app in Hev. simpl in *. lia. }
  rewrite app_nil_r in Hev. by rewrite Hev.
Qed.

(** ** The writer on the SQLite transaction *)

Import Writer Service.

(** A call on the transaction: what it has done when it succeeds, and that it succeeds without
    faults. *)
Definition call_ok `{SqlEnv} (n : Z) (m : M (Conn Tables) MemoryOperationResult) : Prop :=
  tx_does op_succeeded (λ _, saved n) m.

Section WriterDoes.
Context `{JsonText} `{SqlEnv}.

Definition all_saved {A B} (r : A + B) : bool := match r with inl _ => true | inr _ => false end.

(** A loop of the writer over calls that each add [k] summaries: the number it reports is the length
    of the list. *)
Lemma save_each_does {A} (k : Z) (save : A → M (Conn Tables) MemoryOperationResult) items :
  (∀ x, call_ok k (save x)) →
  tx_does all_saved
    (λ r t t', ∃ n, r = inl n ∧ n = Z.of_nat (length items) ∧ saved (k * n) t t') (save_each save items).
Proof.
  intros Hsave. induction items as [|x items IH]; simpl.
  { apply tx_does_ret. intros _ t. exists 0%Z. rewrite Z.mul_0_r. auto with am. }
  eapply (tx_does_bind op_succeeded all_saved (λ _, saved k)
    (λ _ r t t', ∃ n, r = inl (n + 1)%Z ∧ n = Z.of_nat (length items) ∧ saved (k * n) t t'));
    [apply Hsave|..].
  - intros op Hop. rewrite Hop. simpl.
    eapply (tx_does_bind all_saved all_saved _ (λ a r t t', t' = t ∧ r = match a with inl n => inl (n + 1)%Z | inr f => inr f end));
      [exact IH|..].
    + intros [n|f] Ha; [|done]. apply tx_does_ret. by intros.
    + intros [n|f] c Ha; [done|]. split; [done|]. by intros b [= <-].
    + intros a b t1 t2 t3 (n & -> & -> & Hs) [-> ->]. by eexists.
  - intros op c Hop. rewrite Hop. simpl. split; [done|]. by intros b [= <-].
  - intros op b t1 t2 t3 S1 (n & -> & -> & S2). eexists. split; [done|]. split; [lia|].
    replace (k * (Z.of_nat (length items) + 1))%Z with (k + k * Z.of_nat (length items))%Z by lia.
    by eapply saved_trans.
Qed.

Lemma save_entity_does agent e : call_ok 0 (save_entity agent e).
Proof.
  unfold save_entity. eapply (tx_does_bind op_succeeded op_succeeded (λ _, saved 0) (λ _ _, saved 0));
    [apply SaveEntity_saved|..].
  - intros op Hop. rewrite Hop. simpl. case_match; [apply MarkEntityObsolete_saved|].
    apply tx_does_ret. intros _ t. apply saved_refl.
  - intros op c Hop. rewrite Hop. simpl. split; [done|]. by intros b [= <-].
  - intros ? ? ? ? ? ? ?. by eapply saved_trans_0.
Qed.

Lemma save_relation_does agent r : call_ok 0 (save_relation agent r).
Proof. apply SaveRelation_saved. Qed.

(** Continue after a loop that saved everything, fail otherwise. *)
Lemma after_each {A B} (h : B → bool) k (items : list A) (R : Z → B → Tables → Tables → Prop)
    (Rall : B → Tables → Tables → Prop) m (cont : Z → M (Conn Tables) B) (fail : MemoryOperationResult → B) :
  tx_does all_saved (λ r t t', ∃ n, r = inl n ∧ n = Z.of_nat (length items) ∧ saved (k * n) t t') m →
  (∀ n, tx_does h (R n) (cont n)) → (∀ f, h (fail f) = false) →
  (∀ b t1 t2 t3, saved (k * Z.of_nat (length items)) t1 t2 → R (Z.of_nat (length items)) b t2 t3 → Rall b t1 t3) →
  tx_does h Rall (let* r := m in match r with inr f => ret (fail f) | inl n => cont n end).
Proof.
  intros Hm Hcont Hfail HR.
  eapply (tx_does_bind all_saved h _ (λ a b t t', ∃ n, a = inl n ∧ R n b t t')); [exact Hm|..].
  - intros [n|f] Ha; [|done]. eapply tx_does_weaken; [|apply Hcont]. intros b t t' Hr. by exists n.
  - intros [n|f] c Ha; [done|]. split; [done|]. intros b [= <-]. apply Hfail.
  - intros a b t1 t2 t3 (n & -> & -> & S1) (n' & [= <-] & HR'). by eapply HR.
Qed.

Lemma SaveUpdate_does agent session update refs :
  tx_does write_succeeded
    (λ r t t', write_savedEntities r = Z.of_nat (length (update_entities update)) ∧
       write_savedRelations r = Z.of_nat (length (update_relations update)) ∧
       write_savedSummaries r = Z.of_nat (length (update_topicSummaries update)
                                          + length (update_profileSummaries update)) ∧
       saved (write_savedSummaries r) t t') (SaveUpdate agent session update refs).
Proof.
  unfold SaveUpdate.
  eapply (after_each write_succeeded 1 (update_topicSummaries update) (λ n1 r t t',
    write_savedEntities r = Z.of_nat (length (update_entities update)) ∧
    write_savedRelations r = Z.of_nat (length (update_relations update)) ∧
    write_savedSummaries r = (n1 + Z.of_nat (length (update_profileSummaries update)))%Z ∧
    saved (Z.of_nat (length (update_profileSummaries update))) t t'));
    [apply save_each_does; intros; apply SaveSummary_saved| |done|].
  2: { intros r t1 t2 t3 S1 (He & Hr & Hs & S2). split_and!; [done|done|lia|]. rewrite Hs.
       rewrite Z.mul_1_l in S1. by eapply saved_trans. }
  intros n1.
  eapply (after_each write_succeeded 1 (update_profileSummaries update) (λ n2 r t t',
    write_savedEntities r = Z.of_nat (length (update_entities update)) ∧
    write_savedRelations r = Z.of_nat (length (update_relations update)) ∧
    write_savedSummaries r = (n1 + n2)%Z ∧ saved 0 t t'));
    [apply save_each_does; intros; apply SaveSummary_saved| |done|].
  2: { intros r t1 t2 t3 S1 (He & Hr & Hs & S2). split_and!; [done|done|done|].
       rewrite Z.mul_1_l in S1. rewrite <- (Z.add_0_r (Z.of_nat _)). by eapply saved_trans. }
  intros n2.
  eapply (after_each write_succeeded 0 (update_entities update) (λ n3 r t t',
    write_savedEntities r = n3 ∧
    write_savedRelations r = Z.of_nat (length (update_relations update)) ∧
    write_savedSummaries r = (n1 + n2)%Z ∧ saved 0 t t'));
    [apply save_each_does; intros; apply save_entity_does| |done|].
  2: { intros r t1 t2 t3 S1 (He & Hr & Hs & S2). split_and!; [done|done|done|].
       by eapply saved_trans_0. }
  intros n3.
  eapply (after_each write_succeeded 0 (update_relations update) (λ n4 r t t',
    t' = t ∧ write_savedEntities r = n3 ∧ write_savedRelations r = n4 ∧
    write_savedSummaries r = (n1 + n2)%Z));
    [apply save_each_does; intros; apply save_relation_does| |done|].
  2: { intros r t1 t2 t3 S1 (-> & He & Hr & Hs). done. }
  intros n4. apply tx_does_ret. by intros.
Qed.

(** What a committed consolidation has done. *)
Definition cursor_saved (request : MemoryConsolidationRequest) (nextCursor : string)
    (cursors : gmap (string * string) Z) : gmap (string * string) Z :=
  if is_empty nextCursor then cursors
  else <[(bind_text (creq_agentId request), bind_text (creq_sessionId request)) := CursorToInt nextCursor]> cursors.

Definition consolidated (request : MemoryConsolidationRequest) (nextCursor : string) (n : Z)
    (t t' : Tables) : Prop :=
  t_events t' = t_events t ∧ t_payloads t' = t_payloads t ∧
  t_cursors t' = cursor_saved request nextCursor (t_cursors t) ∧
  Z.of_nat (length (t_summaries t')) = (Z.of_nat (length (t_summaries t)) + n)%Z.

Lemma consolidated_after request nextCursor n t1 t2 t3 :
  saved n t1 t2 → consolidated request nextCursor 0 t2 t3 → consolidated request nextCursor n t1 t3.
Proof.
  intros (E1&P1&C1&S1) (E2&P2&C2&S2). unfold consolidated. rewrite E2, P2, C2, C1. split_and!; try done. lia.
Qed.

Lemma save_cursor_does request nextCursor :
  tx_does op_succeeded (λ _ t t',
    t' = upsert_cursor (bind_text (creq_agentId request)) (bind_text (creq_sessionId request))
           (CursorToInt nextCursor) t) (save_cursor request nextCursor).
Proof.
  unfold save_cursor.
  eapply (tx_does_bind op_succeeded op_succeeded _ (λ _ _ t t', t' = t));
    [apply SaveConsolidationCursor_does|..].
  - intros op Hop. rewrite Hop. by apply tx_does_ret.
  - intros op c Hop. rewrite Hop. simpl. split; [done|]. intros b [= <-]. by case_match.
  - by intros a b t1 t2 t3 -> ->.
Qed.

Lemma upsert_cursor_consolidated request nextCursor t :
  is_empty nextCursor = false →
  consolidated request nextCursor 0 t
    (upsert_cursor (bind_text (creq_agentId request)) (bind_text (creq_sessionId request))
       (CursorToInt nextCursor) t).
Proof. intros He. unfold consolidated, cursor_saved. rewrite He. simpl. split_and!; try done. lia. Qed.

Lemma cursor_work_does request nextCursor : is_empty nextCursor = false →
  tx_does work_succeeded (λ _, consolidated request nextCursor 0) (cursor_work request nextCursor).
Proof.
  intros He. unfold cursor_work.
  eapply (tx_does_bind op_succeeded work_succeeded _ (λ _ _ t t', t' = t)); [apply save_cursor_does|..].
  - intros op Hop. by apply tx_does_ret.
  - intros op c Hop. split; [done|]. by intros b [= <-].
  - intros a b t1 t2 t3 -> ->. by apply upsert_cursor_consolidated.
Qed.

Lemma update_work_does request build update :
  tx_does work_succeeded
    (λ r, consolidated request (build_nextCursor build)
            (write_savedSummaries r.2.1 + write_savedSummaries r.2.2))
    (update_work request build update).
Proof.
  unfold update_work, SaveSessionSummary.
  (* the session summary *)
  eapply (tx_does_bind write_succeeded work_succeeded
    (λ r t t', r = mkWriteResult true 1 0 0 no_error ∧ saved 1 t t')
    (λ a r t t', r.2.1 = a ∧ consolidated request (build_nextCursor build) (write_savedSummaries r.2.2) t t')).
  { eapply (tx_does_bind op_succeeded write_succeeded _
      (λ _ r t t', t' = t ∧ r = mkWriteResult true 1 0 0 no_error)); [apply SaveSummary_saved|..].
    - intros op Hop. rewrite Hop. by apply tx_does_ret.
    - intros op c Hop. rewrite Hop. simpl. split; [done|]. by intros b [= <-].
    - by intros a b t1 t2 t3 S1 [-> ->]. }
  2: { intros w c Hw. rewrite Hw. simpl. split; [done|]. by intros b [= <-]. }
  2: { intros a b t1 t2 t3 [-> S1] [Hb Hc]. rewrite Hb. simpl. destruct Hc as (E2&P2&C2&S2).
       destruct S1 as (E1&P1&C1&S1). unfold consolidated. rewrite E2, P2, C2, C1. split_and!; try done. lia. }
  intros w Hw. rewrite Hw. simpl.
  (* the update *)
  eapply (tx_does_bind write_succeeded work_succeeded
    (λ r, saved (write_savedSummaries r))
    (λ a r t t', r.2 = (w, a) ∧ consolidated request (build_nextCursor build) 0 t t')).
  { case_match.
    - eapply tx_does_weaken; [|apply SaveUpdate_does]. by intros r t t' (_&_&_&?).
    - apply tx_does_ret. intros _ t. apply saved_refl. }
  2: { intros u c Hu. rewrite Hu. simpl. split; [done|]. by intros b [= <-]. }
  2: { intros a b t1 t2 t3 S1 [Hb Hc]. rewrite Hb. simpl. split; [done|]. by eapply consolidated_after. }
  intros u Hu. rewrite Hu. simpl.
  (* the cursor *)
  eapply (tx_does_bind op_succeeded work_succeeded
    (λ _, consolidated request (build_nextCursor build) 0) (λ _ r t t', r.2 = (w, u) ∧ t' = t)).
  - case_match eqn:E.
    + eapply tx_does_weaken; [|apply save_cursor_does]. intros r t t' ->.
      apply upsert_cursor_consolidated. by apply negb_true_iff in E.
    + apply tx_does_ret. intros _ t. unfold consolidated, cursor_saved.
      apply negb_false_iff in E. rewrite E. split_and!; try done. lia.
  - intros op Hop. by apply tx_does_ret.
  - intros op c Hop. split; [done|]. by intros b [= <-].
  - by intros a b t1 t2 t3 S1 [Hb ->].
Qed.
End WriterDoes.

(** ** A consolidation on the SQLite store *)

Section OnSqlite.
Context `{JsonText} `{SqlEnv} `{SqlPlan} `{FtsEngine}.

(** What a run leaves: the state of an opened store after [r]. *)
Definition run_outcome (request : MemoryConsolidationRequest) (c : Conn Tables)
    (r : Outcome MemoryConsolidationResult) (s' : MemorySqliteStore) : Prop :=
  ∃ c', db_ s' = Some c' ∧
    match r with
    | Ret res =>
        conn_txn c' = None ∧
        if cres_succeeded res then
          consolidated request (cres_nextCursor res) (cres_savedSummaries res) (conn_main c) (conn_main c')
        else HasError (cres_error res) = true ∧ conn_main c' = conn_main c
    | Throw _ => conn_main c' = conn_main c
    end.

Lemma consolidated_refl request t : consolidated request "" 0 t t.
Proof. unfold consolidated, cursor_saved. simpl. split_and!; try done. lia. Qed.

Lemma Consolidate_outcome fallback request events model s c :
  db_ s = Some c → conn_txn c = None →
  run_outcome request c (Service.Consolidate fallback request events model s).1
    (Service.Consolidate fallback request events model s).2.
Proof.
  intros Hs Hc. unfold Service.Consolidate. set (build := Build request events).
  destruct (batch_events (build_batch build)) as [|e l] eqn:Eb.
  - destruct (is_empty (build_nextCursor build)) eqn:En.
    { exists c. simpl. split_and!; [done|done|]. destruct (build_nextCursor build); [|done].
      apply consolidated_refl. }
    unfold bind.
    destruct (RunInTransaction_outcome tt (cursor_work request (build_nextCursor build)) s c
      _ Hs Hc (cursor_work_does _ _ En)) as (c' & Hc' & Hres).
    change (@st_RunInTransaction _ _ _ _ unit) with (@RunInTransaction _ unit) in *.
    destruct (RunInTransaction tt _ s) as [[[op []]|w] s'] eqn:E; simpl in *.
    2: { by exists c'. }
    exists c'. split; [done|]. destruct Hres as [Hn Hres]. split; [done|].
    destruct (op_succeeded op) eqn:Eo; simpl.
    + destruct Hres as (r & _ & _ & HR). exact HR.
    + destruct Hres as [He Hm]. by rewrite He.
  - unfold bind, lift_outcome.
    destruct (make_update fallback model (build_batch build)) as [[update used]|w]; [|by exists c].
    destruct (RunInTransaction_outcome (default_WriteResult, default_WriteResult)
      (update_work request build update) s c _ Hs Hc (update_work_does _ _ _)) as (c' & Hc' & Hres).
    change (@st_RunInTransaction _ _ _ _ (MemoryUpdateWriteResult * MemoryUpdateWriteResult))
      with (@RunInTransaction _ (MemoryUpdateWriteResult * MemoryUpdateWriteResult)) in *.
    destruct (RunInTransaction _ _ s) as [[[op [w1 w2]]|w] s'] eqn:E; simpl in *.
    2: { by exists c'. }
    exists c'. split; [done|]. destruct Hres as [Hn Hres].
    destruct (op_succeeded op) eqn:Eo; simpl; (split; [done|]).
    + destruct Hres as (r & _ & Hr & HR). rewrite Hr in HR. exact HR.
    + destruct Hres as [He Hm]. by rewrite He.
Qed.

(** The reads of a run change nothing. It goes on to the service with the events it loaded, unless a
    part of the runtime is missing or a call failed. *)
Lemma ConsolidateWithModel_loads rt request model s c :
  db_ s = Some c → conn_txn c = None →
  ∃ s2 c2, db_ s2 = Some c2 ∧ conn_txn c2 = None ∧ conn_main c2 = conn_main c ∧
    ((∃ e, ConsolidateWithModel rt request model s = (Ret (consolidation_failed e), s2) ∧ HasError e = true ∧
        (rs_store (services rt) = true → rs_consolidationService (services rt) = true →
         ∃ n k f, sql_fault n k = Some f)) ∨
     ∃ events, ConsolidateWithModel rt request model s
       = Service.Consolidate (Some (rs_longTermProcessor (services rt))) request events model s2).
Proof.
  intros Hs Hc. unfold ConsolidateWithModel.
  destruct (rs_store (services rt)); simpl; [|exists s, c; split_and!; [done..|left; by eexists]].
  destruct (rs_consolidationService (services rt)); simpl; [|exists s, c; split_and!; [done..|left; by eexists]].
  match goal with |- context [bind ?m ?k s] =>
    assert (∃ r s1 c1, m s = (Ret r, s1) ∧ db_ s1 = Some c1 ∧
      conn_txn c1 = None ∧ conn_main c1 = conn_main c ∧
      (cursor_succeeded r = false → ∃ n kind f, sql_fault n kind = Some f))
      as (r & s1 & c1 & E1 & Hs1 & Hc1 & Hm1 & Hf1) end.
  { destruct (creq_forceReprocess request); simpl; [by do 3 eexists|].
    unfold LoadConsolidationCursor, on_db. rewrite Hs. unfold bind, prepare, step_first.
    destruct (sql_fault (conn_tick c) KPrepare) as [f|] eqn:Ef; simpl.
    { do 3 eexists. split_and!; try done; [|by do 3 eexists]. simpl. rewrite Hc. by destruct (fault_rollback f). }
    destruct (sql_fault _ KStep) as [f|] eqn:Ef2; simpl.
    { do 3 eexists. split_and!; try done; [|by do 3 eexists]. simpl. rewrite Hc. by destruct (fault_rollback f). }
    destruct (t_cursors _ !! _); by do 3 eexists. }
  rewrite !(bind_run _ _ _ _ _ E1). destruct (cursor_succeeded r) eqn:Er; simpl.
  2: { exists s1, c1. split_and!; try done. left. eexists. split; [done|]. split; [|auto]. unfold or_error.
       by destruct (HasError (cursor_error r)) eqn:Eh. }
  match goal with |- context [bind ?m ?k s1] =>
    assert (∃ r2 s2 c2, m s1 = (Ret r2, s2) ∧ db_ s2 = Some c2 ∧
      conn_txn c2 = None ∧ conn_main c2 = conn_main c1 ∧
      (events_succeeded r2 = false → ∃ n kind f, sql_fault n kind = Some f))
      as (ev & s2 & c2 & E2 & Hs2 & Hc2 & Hm2 & Hf2) end.
  { unfold LoadEventsAfterCursor, on_db. rewrite Hs1. unfold bind.
    match goal with |- context [select ?a ?b ?q c1] =>
      destruct (select_returns a b q c1) as (res & c2 & E); destruct (reads_select a b q c1 Hc1) as [Hm2 Hc2];
      pose proof (select_blames a b q c1) as Hb; rewrite E in *; simpl in * end.
    do 3 eexists. split; [done|]. split_and!; [done|done|done|]. simpl. intros Hne. apply (Hb _ _ eq_refl).
    by destruct (res.2). }
  rewrite !(bind_run _ _ _ _ _ E2). exists s2, c2. split_and!; [done|done|congruence|].
  destruct (events_succeeded ev); simpl; [right; by eexists|].
  left. eexists. split; [done|]. split; [|auto]. unfold or_error. by destruct (HasError (events_error ev)) eqn:Eh.
Qed.

Lemma ConsolidateWithModel_outcome rt request model s c :
  db_ s = Some c → conn_txn c = None →
  run_outcome request c (ConsolidateWithModel rt request model s).1
    (ConsolidateWithModel rt request model s).2.
Proof.
  intros Hs Hc. destruct (ConsolidateWithModel_loads rt request model s c Hs Hc)
    as (s2 & c2 & Hs2 & Hc2 & Hm2 & [(e & -> & He & _)|(events & ->)]).
  { exists c2. by split_and!. }
  destruct (Consolidate_outcome (Some (rs_longTermProcessor (services rt))) request events model
    s2 c2) as (c3 & Hc3 & Hres); [done|done|].
  exists c3. split; [exact Hc3|]. rewrite Hm2 in Hres. exact Hres.
Qed.
End OnSqlite.

(** C2: a consolidation is all or nothing, whatever database calls fail and whatever the model or a
    value without text form throws: if it reports success, exactly its summaries were added, the
    saved cursor is the result's nextCursor, and the event log is untouched; if it reports a failure
    (always with an error) or throws, the committed content is unchanged. *)
Theorem consolidation_all_or_nothing `{JsonText} `{SqlEnv} `{SqlPlan} `{FtsEngine}
    (rt : BuiltinMemoryRuntime) (request : MemoryConsolidationRequest) (model : option MemoryModelClient)
    (s : MemorySqliteStore) (c : Conn Tables) (Hs : db_ s = Some c) (Hc : conn_txn c = None) :
  ∃ c', db_ (ConsolidateWithModel rt request model s).2 = Some c' ∧
    match (ConsolidateWithModel rt request model s).1 with
    | Ret res =>
        conn_txn c' = None ∧
        if cres_succeeded res then
          t_events (conn_main c') = t_events (conn_main c) ∧
          t_cursors (conn_main c')
          = (if is_empty (cres_nextCursor res) then t_cursors (conn_main c)
             else <[(bind_text (creq_agentId request), bind_text (creq_sessionId request))
                    := CursorToInt (cres_nextCursor res)]> (t_cursors (conn_main c))) ∧
          Z.of_nat (length (t_summaries (conn_main c')))
          = (Z.of_nat (length (t_summaries (conn_main c))) + cres_savedSummaries res)%Z
        else HasError (cres_error res) = true ∧ conn_main c' = conn_main c
    | Throw _ => conn_main c' = conn_main c
    end.
Proof.
  destruct (ConsolidateWithModel_outcome rt request model s c Hs Hc) as (c' & Hc' & Hres).
  exists c'. split; [done|].
  destruct ((ConsolidateWithModel rt request model s).1) as [res|w]; [|done].
  destruct Hres as [Hn Hres]. split; [done|]. destruct (cres_succeeded res); [|done].
  destruct Hres as (E & _ & C & S). done.
Qed.

(** A runtime on an opened store, with the rule-based processor. *)
Definition sample_runtime : BuiltinMemoryRuntime :=
  mkRuntime default_Config
    (mkServices true "" (mkPayloadService default_Config "./data" "" true)
       (mkBuilder default_Config true true true true) RuleBased.RuleBasedLongTermMemoryProcessor true None "").

Definition sample_request : MemoryConsolidationRequest :=
  mkConsolidationRequest "agent" "" 10 false ["skip"] json_object.

Definition pending_events : Tables :=
  insert_event "agent" "s" 2 "user" "I like tests" "" "" "" "{}" sample_now
    (insert_event "agent" "skip" 2 "user" "never" "" "" "" "{}" sample_now three_events).

(** The database fails while the second entity is saved, after the summaries and the first entity
    were written: nothing of them is left. *)
Lemma consolidation_all_or_nothing_witness :
  let _ := sample_json in let _ := failing_env 14 (mkFault 0 "database or disk is full" false) in
  let _ := sample_plan in let _ := sample_fts in
  ∃ c', db_ (ConsolidateWithModel sample_runtime sample_request None (opened pending_events)).2 = Some c' ∧
    conn_main c' = pending_events.
Proof.
  intros Hj He Hp Hf.
  destruct (consolidation_all_or_nothing sample_runtime sample_request None (opened pending_events)
    (mkConn pending_events None 0 no_error_msg)) as (c' & Hc' & Hres); [reflexivity|reflexivity|].
  exists c'. split; [exact Hc'|].
  assert (match (ConsolidateWithModel sample_runtime sample_request None (opened pending_events)).1 with
          | Ret res => cres_succeeded res = false | Throw _ => False end) as Hfail by (vm_compute; reflexivity).
  destruct (ConsolidateWithModel sample_runtime sample_request None (opened pending_events)).1 as [res|w];
    [|by destruct Hfail].
  rewrite Hfail in Hres. destruct Hres as (_ & _ & Hm). exact Hm.
Defined.

(** C23: a run that is not forced and allows at most zero events processes nothing, whatever is pending
    and whatever database calls fail: it returns, without asking the model, a result with no processed
    events, nothing saved and no cursor, and leaves the whole committed content, the saved cursor with
    it, as it was; without faults it even reports success. A forced run takes every eligible event
    instead. *)
Theorem non_positive_max_events_processes_nothing `{JsonText} `{SqlEnv} `{SqlPlan} `{FtsEngine}
    (rt : BuiltinMemoryRuntime) (request : MemoryConsolidationRequest) (model : option MemoryModelClient)
    (s : MemorySqliteStore) (c : Conn Tables) (Hs : db_ s = Some c) (Hc : conn_txn c = None)
    (Hmax : (creq_maxEvents request ≤ 0)%Z) :
  if creq_forceReprocess request then
    ∀ events, (Z.of_nat (length events) ≤ int_max)%Z →
      batch_events (build_batch (Build request events)) = filter (λ e, enters_batch request e = true) events
  else
    ∃ res s' c', ConsolidateWithModel rt request model s = (Ret res, s') ∧
      db_ s' = Some c' ∧ conn_txn c' = None ∧ conn_main c' = conn_main c ∧
      cres_processedEvents res = 0%Z ∧ cres_savedSummaries res = 0%Z ∧ cres_savedEntities res = 0%Z ∧
      cres_savedRelations res = 0%Z ∧ cres_nextCursor res = "" ∧
      (cres_succeeded res = false → HasError (cres_error res) = true) ∧
      ((∀ n k, sql_fault n k = None) → rs_store (services rt) = true →
       rs_consolidationService (services rt) = true → cres_succeeded res = true).
Proof.
  destruct (creq_forceReprocess request) eqn:Hforce; [intros events; by apply forced_takes_all|].
  destruct (ConsolidateWithModel_loads rt request model s c Hs Hc)
    as (s2 & c2 & Hs2 & Hc2 & Hm2 & [(e & -> & He & Hwhy)|(events & ->)]).
  - eexists _, s2, c2. split_and!; try done. intros Hrel H1' H2'. destruct (Hwhy H1' H2') as (n & k & f & Hf).
    by rewrite Hrel in Hf.
  - unfold Service.Consolidate, Build. rewrite Hforce. simpl.
    replace (creq_maxEvents request <=? 0)%Z with true by lia. simpl.
    by eexists _, s2, c2.
Qed.

Lemma non_positive_max_events_witness :
  let _ := sample_json in let _ := reliable_env in
  let _ := sample_plan in let _ := sample_fts in
  let request := mkConsolidationRequest "agent" "" (-1) false [] json_object in
  ∃ res s' c', ConsolidateWithModel sample_runtime request None (opened pending_events) = (Ret res, s') ∧
    cres_succeeded res = true ∧ cres_processedEvents res = 0%Z ∧ db_ s' = Some c' ∧ conn_main c' = pending_events.
Proof.
  intros Hj He Hp Hf request.
  destruct (non_positive_max_events_processes_nothing sample_runtime request None (opened pending_events)
    (mkConn pending_events None 0 no_error_msg)) as (res & s' & c' & E & Hs' & _ & Hm & Hn & _ & _ & _ & _ & _ & Hok).
  - reflexivity.
  - reflexivity.
  - vm_compute. discriminate.
  - exists res, s', c'. split; [exact E|]. split; [by apply Hok|]. split; [exact Hn|]. split; [exact Hs'|exact Hm].
Defined.
