(* ===== verification/ConsolidationProgress.v ===== *)
(** * Consolidation makes progress

    Without database faults every consolidation succeeds, takes the next part of the pending events
    and moves the cursor behind it: repeating it processes every pending event exactly once. *)

From Stdlib Require Import ZArith Lia Ascii String.
From stdpp Require Import base list strings gmap sorting.
From S2P Require Import Prelude CppString Floats Json Types Sqlite StoreInterface Store.
From S2P Require Import StoreInvariant StoreTransactions StoreSearch Samples StoreTheorems Utf8.
From S2P Require Import EventLog LongTermTheorems Refinement Knowledge LongTermRefinement Consolidation ContextBuilder PayloadService Runtime.
From S2P Require Import ConsolidationTheorems.
Import BatchBuilder Writer Service.

Open Scope am_scope.

(** ** The updates of a batch *)

(** An entity without an agent gets the request's; what it supersedes is retired once more. *)
Definition entity_updates (agentId : string) (entity : MemoryEntity) : list Update :=
  let e := with_entity_agent agentId entity in
  PutEntity e ::
  (if is_empty (entity_supersededEntityId e) then [] else [Retire (entity_supersededEntityId e) (entity_id e)]).

Definition update_updates (agentId sessionId : string) (u : LongTermMemoryUpdate) (refs : list string)
    : list Update :=
  ((λ s, PutSummary agentId sessionId "topic" "auto" s (f32_lit 5 10) refs) <$> update_topicSummaries u) ++
  ((λ s, PutSummary agentId sessionId "profile" "user" s (f32_lit 6 10) refs) <$> update_profileSummaries u) ++
  (update_entities u ≫= entity_updates agentId) ++
  ((λ r, PutRelation (with_relation_agent agentId r)) <$> update_relations u).

Definition consolidation_updates (request : MemoryConsolidationRequest) (build : ConsolidationBatchBuildResult)
    (u : LongTermMemoryUpdate) : list Update :=
  match batch_events (build_batch build) with
  | [] => []
  | _ =>
      PutSummary (creq_agentId request) (build_sessionId build) "session" "conversation"
        (build_sessionSummary build) (f32_lit 5 10) (build_sessionSourceRefs build) ::
      (if has_update u
       then update_updates (creq_agentId request) (build_sessionId build) u (batch_sourceRefs (build_batch build))
       else [])
  end.

(** ** The writer returns *)

Lemma bind_singleton {A B} (f : A → B) l : (l ≫= λ x, [f x]) = f <$> l.
Proof. induction l as [|x l IH]; [done|]. cbn. by f_equal. Qed.

Section Writes.
Context `{JsonText} `{SqlEnv} (Hreliable : ∀ n k, sql_fault n k = None).

Lemma update_returns u : update_writable u → returns op_succeeded (UpdateTransaction u).
Proof.
  destruct u as [ag se le to su co refs|e|r|id by_]; cbn.
  - by apply SaveSummary_returns.
  - intros []. by apply SaveEntity_returns.
  - intros []. by apply SaveRelation_returns.
  - intros _. by apply MarkEntityObsolete_returns.
Qed.

Lemma save_each_returns {A} (save : A → M (Conn Tables) MemoryOperationResult) (f : A → list Update) items :
  Forall update_writable (items ≫= f) → (∀ x, Forall update_writable (f x) → returns op_succeeded (save x)) →
  returns all_saved (save_each save items).
Proof.
  intros Hw Hsave. induction items as [|x items IH]; simpl; [by apply returns_ret|].
  cbn in Hw. apply Forall_app in Hw as [Hx Hw].
  eapply returns_bind; [by apply Hsave|]. intros op ->. simpl. eapply returns_bind; [by apply IH|].
  intros [n|w] Hn; [|done]. by apply returns_ret.
Qed.

Lemma after_each_returns {B} (h : B → bool) m (cont : Z → M (Conn Tables) B) (fail : MemoryOperationResult → B) :
  returns all_saved m → (∀ n, returns h (cont n)) →
  returns h (let* r := m in match r with inr f => ret (fail f) | inl n => cont n end).
Proof. intros Hm Hc. eapply returns_bind; [exact Hm|]. by intros [n|f]. Qed.

Lemma save_entity_returns agent e :
  Forall update_writable (entity_updates agent e) → returns op_succeeded (save_entity agent e).
Proof.
  unfold save_entity, entity_updates. intros [He _]%Forall_cons.
  eapply returns_bind; [by apply (update_returns (PutEntity _))|]. intros op Hop.
  rewrite Hop. simpl.
  case_match; [by apply (update_returns (Retire _ _))|by apply returns_ret].
Qed.

Lemma SaveUpdate_returns agent session update refs :
  Forall update_writable (update_updates agent session update refs) →
  returns write_succeeded (SaveUpdate agent session update refs).
Proof.
  unfold SaveUpdate, update_updates. rewrite !Forall_app, <- !bind_singleton. intros (Ht & Hp & He & Hr).
  apply (after_each_returns write_succeeded).
  { eapply save_each_returns; [exact Ht|]. intros x [Hx _]%Forall_cons. by apply (update_returns (PutSummary _ _ _ _ _ _ _)). }
  intros n1. apply (after_each_returns write_succeeded).
  { eapply save_each_returns; [exact Hp|]. intros x [Hx _]%Forall_cons. by apply (update_returns (PutSummary _ _ _ _ _ _ _)). }
  intros n2. apply (after_each_returns write_succeeded).
  { eapply save_each_returns; [exact He|]. intros x. apply save_entity_returns. }
  intros n3. apply (after_each_returns write_succeeded).
  { eapply save_each_returns; [exact Hr|]. intros x [Hx _]%Forall_cons. by apply (update_returns (PutRelation _)). }
  intros n4. by apply returns_ret.
Qed.

Lemma save_cursor_returns request nextCursor : returns op_succeeded (save_cursor request nextCursor).
Proof.
  eapply returns_bind; [by apply SaveConsolidationCursor_returns|]. intros op ->. by apply returns_ret.
Qed.

Lemma cursor_work_returns request nextCursor : returns work_succeeded (cursor_work request nextCursor).
Proof. eapply returns_bind; [apply save_cursor_returns|]. intros op Hop. by apply returns_ret. Qed.

Lemma update_work_returns request build update e l :
  batch_events (build_batch build) = e :: l → Forall update_writable (consolidation_updates request build update) →
  returns work_succeeded (update_work request build update).
Proof.
  intros Hb. unfold consolidation_updates. rewrite Hb. intros [Hs Hu]%Forall_cons. unfold update_work, SaveSessionSummary.
  apply (returns_bind write_succeeded).
  { eapply returns_bind; [by apply (update_returns (PutSummary _ _ _ _ _ _ _))|]. intros op ->. by apply returns_ret. }
  intros w ->. simpl. apply (returns_bind write_succeeded).
  { destruct (has_update update); [by apply SaveUpdate_returns|by apply returns_ret]. }
  intros u ->. simpl. apply (returns_bind op_succeeded).
  { destruct (negb _); [apply save_cursor_returns|by apply returns_ret]. }
  intros op Hop. by apply returns_ret.
Qed.

Lemma RunInTransaction_returns {W} (captured : W) work s c :
  db_ s = Some c → conn_txn c = None → returns work_succeeded work → tx_safe work_succeeded work →
  ∃ res s', RunInTransaction captured work s = (Ret res, s') ∧ op_succeeded res.1 = true.
Proof.
  intros Hs Hc Hret Hsafe. unfold RunInTransaction, on_db, run_in_transaction, bind, exec_begin.
  rewrite Hs, (Hreliable _ KExec), Hc. simpl.
  match goal with |- context [work ?b] =>
    destruct (Hsafe b) as [_ Hopen]; [by eexists|]; destruct (Hret b) as (r & c1 & E & Hr) end.
  rewrite E in *. simpl in *. destruct (Hopen r eq_refl Hr) as [t Ht]. unfold work_succeeded in Hr.
  rewrite Hr. unfold exec_commit. rewrite (Hreliable _ KExec), Ht. simpl. by do 2 eexists.
Qed.
End Writes.

(** ** One run *)

(** Where the saved cursor of the request's scope stands, and the events behind it. *)
Definition saved_position (request : MemoryConsolidationRequest) (t : Tables) : Z :=
  default 0%Z (t_cursors t !! (bind_text (creq_agentId request), bind_text (creq_sessionId request))).

Definition pending (request : MemoryConsolidationRequest) (t : Tables) : list EventRow :=
  filter (λ r, (saved_position request t < ev_id r)%Z ∧
    in_scope (creq_agentId request) (creq_sessionId request) (creq_excludedSessionIds request) r = true)
    (t_events t).

Definition eligible `{JsonText} (request : MemoryConsolidationRequest) (r : EventRow) : bool :=
  enters_batch request (ReadEventRow r).

(** The content of an opened store whose event ids and cursor are as the store makes them. *)
Definition log_ok (request : MemoryConsolidationRequest) (t : Tables) : Prop :=
  ids_ok (ev_id <$> t_events t) ∧ Forall (λ r, in_int64 (ev_id r)) (t_events t) ∧
  in_int64 (saved_position request t).

Section Pending.
Context `{JsonText} `{SqlEnv} `{SqlPlan} (request : MemoryConsolidationRequest).

(** Whatever it returns, a run reports the cursor and the size of its batch. *)
Lemma Consolidate_reports processor request' events model' s res s' :
  Service.Consolidate processor request' events model' s = (Ret res, s') →
  cres_nextCursor res = build_nextCursor (Build request' events) ∧
  cres_processedEvents res = wrap32 (Z.of_nat (length (batch_events (build_batch (Build request' events))))).
Proof.
  unfold Service.Consolidate. intros E.
  destruct (batch_events (build_batch (Build request' events))) as [|e l] eqn:Eb.
  - destruct (is_empty (build_nextCursor (Build request' events))); [by injection E as <- _|].
    apply bind_Ret_inv in E as (op & s1 & _ & E). by injection E as <- _.
  - apply bind_Ret_inv in E as ([u used] & s1 & _ & E). apply bind_Ret_inv in E as ([op [w1 w2]] & s2 & _ & E).
    injection E as <- _. by destruct (op_succeeded op).
Qed.

(** The cursors of loaded rows are their ids. *)
Lemma last_cursors_from i (rows : list EventRow) :
  last (cursors_from i (ReadEventRow <$> rows)) = (λ r, to_string (ev_id r)) <$> last rows.
Proof.
  revert i. induction rows as [|r rows IH]; intros i; [done|].
  rewrite fmap_cons. cbn [cursors_from]. rewrite !last_cons, IH.
  destruct (last rows); [done|]. simpl. unfold event_cursor. simpl.
  pose proof (to_string_not_empty (ev_id r)) as He. by destruct (to_string (ev_id r)).
Qed.

Context (Hforce : creq_forceReprocess request = false)
  (Hmax : (0 < creq_maxEvents request)%Z) (Hint : in_int (creq_maxEvents request)).

(** What is pending after the cursor was moved behind [scanned]. *)
Lemma pending_moved t t' scanned rest :
  log_ok request t → t_events t' = t_events t → pending request t = scanned ++ rest →
  t_cursors t' = (match last scanned with
                  | None => t_cursors t
                  | Some r => <[(bind_text (creq_agentId request), bind_text (creq_sessionId request)) := ev_id r]>
                                (t_cursors t)
                  end) →
  log_ok request t' ∧ pending request t' = rest.
Proof.
  intros (Hids & H64 & Hpos) Hev Hp Hcur. unfold log_ok, pending, saved_position in *. rewrite Hev, Hcur.
  destruct (last scanned) as [r|] eqn:El.
  - apply last_Some in El as [l ->]. rewrite lookup_insert_eq. simpl.
    rewrite <- app_assoc in Hp. simpl in Hp. split_and!; [done|done| |].
    + rewrite Forall_forall in H64. apply H64.
      assert (r ∈ l ++ r :: rest) as Hin by set_solver. rewrite <- Hp in Hin.
      by apply list_elem_of_filter in Hin as [_ ?].
    + by apply (filter_after_resumes _ _ _ _ _ _ Hids Hp).
  - apply last_None in El as ->. done.
Qed.

(** The service on events that were loaded as the first of the pending ones, when it succeeds. *)
Lemma consolidated_loaded processor model' s s' c res loaded fresh :
  db_ s = Some c → conn_txn c = None → log_ok request (conn_main c) →
  pending request (conn_main c) = loaded ++ fresh →
  Service.Consolidate processor request (ReadEventRow <$> loaded) model' s = (Ret res, s') → cres_succeeded res = true →
  ∃ c', db_ s' = Some c' ∧ conn_txn c' = None ∧
    t_events (conn_main c') = t_events (conn_main c) ∧ log_ok request (conn_main c') ∧
    ∃ scanned rest, loaded = scanned ++ rest ∧ pending request (conn_main c') = rest ++ fresh ∧
      (loaded ≠ [] → scanned ≠ []) ∧
      cres_processedEvents res = Z.of_nat (length (filter (λ r, eligible request r = true) scanned)) ∧
      (rest ≠ [] → cres_processedEvents res = creq_maxEvents request).
Proof.
  intros Hs Hc Hlog Hpend E3 Hok. pose proof Hlog as (Hids & H64 & Hpos).
  set (events := ReadEventRow <$> loaded) in *.
  destruct (Consolidate_reports _ _ _ _ _ _ _ E3) as [Hnext Hproc].
  pose proof (Consolidate_outcome processor request events model' s c Hs Hc) as (c3 & Hs3 & Hres).
  rewrite E3 in Hres, Hs3. simpl in Hres, Hs3. rewrite Hok in Hres.
  destruct Hres as (Hc3 & Hev & _ & Hcur & _). exists c3.
  destruct (build_loop_spec request (creq_maxEvents request) 0 0 "" (mkBatch [] []) "" events)
    as (sc & rest & b & su & cu & E & Hsplit & Hb & Hcu & Hne & Hle & Heq); [done|lia|].
  assert (Build request events = mkBuild b (creq_sessionId request) su ["session://" +:+ creq_sessionId request] cu)
    as HB.
  { unfold Build. rewrite Hforce. replace (creq_maxEvents request <=? 0)%Z with false by lia. simpl. by rewrite E. }
  rewrite HB in Hnext, Hproc. cbn [build_nextCursor build_batch] in Hnext, Hproc. cbn [batch_events app] in Hb.
  unfold events in Hsplit. apply fmap_app_inv in Hsplit as (rows & rrest & -> & -> & Hp).
  rewrite filter_fmap in Hb, Hle, Heq. rewrite length_fmap in Hle, Heq.
  fold (eligible request) in Hb, Hle, Heq. rewrite Hp, <- app_assoc in Hpend.
  destruct (pending_moved (conn_main c) (conn_main c3) rows (rrest ++ fresh) Hlog Hev Hpend) as [Hlog' Hp'].
  { rewrite Hcur, Hnext, Hcu, last_cursors_from. unfold cursor_saved.
    destruct (last rows) as [r|] eqn:El; [|done]. simpl.
    pose proof (to_string_not_empty (ev_id r)) as He. rewrite CursorToInt_to_string.
    - by destruct (to_string (ev_id r)).
    - rewrite Forall_forall in H64. apply H64. apply last_Some in El as [l ->].
      assert (r ∈ (l ++ [r]) ++ rrest ++ fresh) as Hin by set_solver. rewrite <- Hpend in Hin.
      by apply list_elem_of_filter in Hin as [_ ?]. }
  assert (cres_processedEvents res = Z.of_nat (length (filter (λ r, eligible request r = true) rows))) as Hcount.
  { rewrite Hproc, Hb, length_fmap. rewrite wrap32_id; [done|].
    unfold in_int, int_min, int_max in *. lia. }
  split_and!; try done. exists rows, rrest. split_and!; [done|done| |done|].
  - intros Hn ->. apply Hne; [|done]. unfold events. by destruct loaded.
  - intros Hr. rewrite Hcount. rewrite <- Heq; [done|]. intros Hn. apply fmap_nil_inv in Hn. done.
Qed.

End Pending.

(** A run on these events gets its update from the model or the processor, and the values it writes
    have texts. *)
Definition consolidates `{JsonText} (fallback : LongTermMemoryProcessor) (model : option MemoryModelClient)
    (request : MemoryConsolidationRequest) (events : list MemoryEvent) : Prop :=
  ∃ u used, make_update (Some fallback) model (build_batch (Build request events)) = Ret (u, used) ∧
    Forall update_writable (consolidation_updates request (Build request events) u).

(** What the documented library asks for: the values that are written are UTF-8. *)
Definition update_utf8 (u : Update) : bool :=
  match u with
  | PutSummary _ _ _ _ _ _ refs => json_utf8 (strings_to_json refs)
  | PutEntity e => json_utf8 (strings_to_json (entity_sourceRefs e)) && json_utf8 (JsonObject (entity_metadata e))
  | PutRelation r => json_utf8 (strings_to_json (relation_sourceRefs r)) && json_utf8 (relation_metadata_kept r)
  | Retire _ _ => true
  end.

Lemma update_utf8_writable `{JsonTextLaws} u : update_utf8 u = true → update_writable u.
Proof.
  destruct u; unfold update_utf8, update_writable, has_text; [apply dump_total| | |done];
    intros [? ?]%andb_prop; split; by apply dump_total.
Qed.

Lemma consolidates_utf8 `{JsonTextLaws} fallback model request events u used :
  make_update (Some fallback) model (build_batch (Build request events)) = Ret (u, used) →
  forallb update_utf8 (consolidation_updates request (Build request events) u) = true →
  consolidates fallback model request events.
Proof.
  intros Hu Hall. exists u, used. split; [done|]. rewrite forallb_forall in Hall.
  apply Forall_forall. intros x Hx. apply update_utf8_writable, Hall. by apply list_elem_of_In.
Qed.

Section Step.
Context `{JsonText} `{SqlEnv} `{SqlPlan} `{FtsEngine} (Hreliable : ∀ n k, sql_fault n k = None).
Context (request : MemoryConsolidationRequest) (model : option MemoryModelClient)
  (fallback : LongTermMemoryProcessor).

Lemma Consolidate_returns events s c :
  db_ s = Some c → conn_txn c = None → consolidates fallback model request events →
  ∃ res s', Service.Consolidate (Some fallback) request events model s = (Ret res, s') ∧ cres_succeeded res = true.
Proof.
  intros Hs Hc (u & used & Hu & Hw). unfold Service.Consolidate.
  destruct (batch_events (build_batch (Build request events))) as [|e l] eqn:Eb.
  - destruct (is_empty _) eqn:En; [by do 2 eexists|].
    destruct (RunInTransaction_returns Hreliable tt (cursor_work request (build_nextCursor (Build request events)))
      s c Hs Hc) as (res & s' & E & Hop).
    { by apply cursor_work_returns. }
    { eapply tx_does_safe. by apply cursor_work_does. }
    unfold bind. change (@st_RunInTransaction _ _ _ _ unit) with (@RunInTransaction _ unit).
    rewrite E. rewrite Hop. by do 2 eexists.
  - unfold bind, lift_outcome. rewrite Hu.
    destruct (RunInTransaction_returns Hreliable (default_WriteResult, default_WriteResult)
      (update_work request (Build request events) u) s c Hs Hc) as ([op [w1 w2]] & s' & E & Hop).
    { by eapply update_work_returns. }
    { eapply tx_does_safe. apply update_work_does. }
    change (@st_RunInTransaction _ _ _ _ (MemoryUpdateWriteResult * MemoryUpdateWriteResult))
      with (@RunInTransaction _ (MemoryUpdateWriteResult * MemoryUpdateWriteResult)).
    rewrite E. simpl in Hop. rewrite Hop. by do 2 eexists.
Qed.

Lemma LoadConsolidationCursor_returns s c :
  db_ s = Some c → conn_txn c = None →
  ∃ start s' c', LoadConsolidationCursor (creq_agentId request) (creq_sessionId request) s
      = (Ret (mkCursorResult true start no_error), s') ∧ db_ s' = Some c' ∧ conn_txn c' = None ∧
    conn_main c' = conn_main c ∧
    (in_int64 (saved_position request (conn_main c)) → CursorToInt start = saved_position request (conn_main c)).
Proof.
  intros Hs Hc. unfold LoadConsolidationCursor, on_db. rewrite Hs. unfold bind, prepare, step_first.
  rewrite (Hreliable _ KPrepare). simpl. rewrite (Hreliable _ KStep). unfold conn_view, saved_position. simpl.
  rewrite Hc. destruct (t_cursors _ !! _) as [z|]; simpl; do 3 eexists; (split_and!; [reflexivity|done|done|done|]).
  - apply CursorToInt_to_string.
  - done.
Qed.

Lemma LoadEvents_returns cursor s c :
  db_ s = Some c → conn_txn c = None →
  ∃ s' c', LoadEventsAfterCursor (creq_agentId request) (creq_sessionId request) cursor
      (creq_excludedSessionIds request) s
      = (Ret (mkEventsResult true (ReadEventRow <$> events_after_cursor (creq_agentId request)
          (creq_sessionId request) (CursorToInt cursor) (creq_excludedSessionIds request) (conn_main c)) no_error), s') ∧
    db_ s' = Some c' ∧ conn_txn c' = None ∧ conn_main c' = conn_main c.
Proof.
  intros Hs Hc. unfold LoadEventsAfterCursor, on_db. rewrite Hs. unfold bind.
  destruct (select_reliable Hreliable "LoadEventsAfterCursor::prepare" "LoadEventsAfterCursor::step"
    (events_after_cursor (creq_agentId request) (creq_sessionId request) (CursorToInt cursor)
       (creq_excludedSessionIds request)) c) as (c' & -> & Hm & Htx).
  unfold conn_view. rewrite Hc in *. simpl. by do 2 eexists.
Qed.

Context (Hforce : creq_forceReprocess request = false)
  (Hmax : (0 < creq_maxEvents request)%Z) (Hint : in_int (creq_maxEvents request)).

(** Without faults it does. *)
Lemma consolidate_loaded s c loaded fresh :
  db_ s = Some c → conn_txn c = None → log_ok request (conn_main c) →
  pending request (conn_main c) = loaded ++ fresh → consolidates fallback model request (ReadEventRow <$> loaded) →
  ∃ res s' c', Service.Consolidate (Some fallback) request (ReadEventRow <$> loaded) model s = (Ret res, s') ∧
    db_ s' = Some c' ∧ cres_succeeded res = true ∧ conn_txn c' = None ∧
    t_events (conn_main c') = t_events (conn_main c) ∧ log_ok request (conn_main c') ∧
    ∃ scanned rest, loaded = scanned ++ rest ∧ pending request (conn_main c') = rest ++ fresh ∧
      (loaded ≠ [] → scanned ≠ []) ∧
      cres_processedEvents res = Z.of_nat (length (filter (λ r, eligible request r = true) scanned)) ∧
      (rest ≠ [] → cres_processedEvents res = creq_maxEvents request).
Proof.
  intros Hs Hc Hlog Hpend Hcan.
  destruct (Consolidate_returns (ReadEventRow <$> loaded) s c Hs Hc Hcan) as (res & s3 & E3 & Hok).
  destruct (consolidated_loaded request Hforce Hmax Hint _ _ s s3 c res loaded fresh Hs Hc Hlog Hpend E3 Hok) as (c3 & Hs3 & Hrest).
  by exists res, s3, c3.
Qed.

Context (rt : BuiltinMemoryRuntime) (Hstore : rs_store (services rt) = true)
  (Hservice : rs_consolidationService (services rt) = true)
  (Hprocessor : rs_longTermProcessor (services rt) = fallback).

Definition advances (c : Conn Tables) (res : MemoryConsolidationResult) (c' : Conn Tables) : Prop :=
  cres_succeeded res = true ∧ conn_txn c' = None ∧ t_events (conn_main c') = t_events (conn_main c) ∧
  log_ok request (conn_main c') ∧
  ∃ scanned, pending request (conn_main c) = scanned ++ pending request (conn_main c') ∧
    (pending request (conn_main c) ≠ [] → scanned ≠ []) ∧
    cres_processedEvents res = Z.of_nat (length (filter (λ r, eligible request r = true) scanned)) ∧
    (pending request (conn_main c') ≠ [] → cres_processedEvents res = creq_maxEvents request).

Lemma consolidate_advances s c :
  db_ s = Some c → conn_txn c = None → log_ok request (conn_main c) →
  consolidates fallback model request (ReadEventRow <$> pending request (conn_main c)) →
  ∃ res s' c', ConsolidateWithModel rt request model s = (Ret res, s') ∧ db_ s' = Some c' ∧ advances c res c'.
Proof.
  intros Hs Hc Hlog Hcan. pose proof Hlog as (Hids & H64 & Hpos). unfold ConsolidateWithModel.
  rewrite Hstore, Hservice, Hforce, Hprocessor. simpl.
  destruct (LoadConsolidationCursor_returns s c Hs Hc) as (start & s1 & c1 & E1 & Hs1 & Hc1 & Hm1 & Hstart).
  rewrite (bind_run _ _ _ _ _ E1). simpl. specialize (Hstart Hpos).
  destruct (LoadEvents_returns start s1 c1 Hs1 Hc1) as (s2 & c2 & E2 & Hs2 & Hc2 & Hm2).
  rewrite (bind_run _ _ _ _ _ E2). simpl. rewrite Hm1 in *.
  rewrite events_after_cursor_filter_ids, Hstart by done. fold (pending request (conn_main c)).
  rewrite <- Hm2 in Hlog, Hcan |- *.
  destruct (consolidate_loaded s2 c2 (pending request (conn_main c2)) [] Hs2 Hc2 Hlog) as
    (res & s3 & c3 & E3 & Hs3 & Hok & Hc3 & Hev & Hlog' & sc & rest & Hp & Hp' & Hne & Hcount & Hfull);
    [by rewrite app_nil_r|exact Hcan|].
  rewrite app_nil_r in Hp'. subst rest. exists res, s3, c3. split_and!; [done|done|].
  unfold advances. split_and!; [done|done|congruence|done|]. rewrite <- Hm2. by exists sc.
Qed.
End Step.

(** ** Many runs *)

Section Times.
Context `{JsonText} `{SqlEnv} `{SqlPlan} `{FtsEngine}.

(** A caller that consolidates [n] times. *)
Fixpoint consolidate_times (rt : BuiltinMemoryRuntime) (request : MemoryConsolidationRequest)
    (model : option MemoryModelClient) (n : nat) : M MemorySqliteStore (list MemoryConsolidationResult) :=
  match n with
  | O => ret []
  | S n =>
      let* result := ConsolidateWithModel rt request model in
      let* results := consolidate_times rt request model n in
      ret (result :: results)
  end.

Definition processed (results : list MemoryConsolidationResult) : Z :=
  foldr Z.add 0%Z (cres_processedEvents <$> results).

(** Every run on what may be left of the pending events has what it needs. *)
Definition all_consolidate (rt : BuiltinMemoryRuntime) (request : MemoryConsolidationRequest)
    (model : option MemoryModelClient) (rows : list EventRow) : Prop :=
  ∀ taken rest, rows = taken ++ rest →
    consolidates (rs_longTermProcessor (services rt)) model request (ReadEventRow <$> rest).

Lemma all_consolidate_rest rt request model taken rest :
  all_consolidate rt request model (taken ++ rest) → all_consolidate rt request model rest.
Proof. intros Hall t r ->. by apply (Hall (taken ++ t)); rewrite app_assoc. Qed.

Lemma all_consolidate_cons rt request model r rows :
  consolidates (rs_longTermProcessor (services rt)) model request (ReadEventRow <$> r :: rows) →
  all_consolidate rt request model rows → all_consolidate rt request model (r :: rows).
Proof.
  intros Hr Hrows [|x taken] rest E; simpl in E; [by subst rest|]. injection E as _ ->. by apply (Hrows taken).
Qed.

Lemma consolidate_times_advances rt request model (n : nat) s c
    (Hreliable : ∀ n k, sql_fault n k = None)
    (Hstore : rs_store (services rt) = true) (Hservice : rs_consolidationService (services rt) = true)
    (Hforce : creq_forceReprocess request = false)
    (Hmax : (0 < creq_maxEvents request)%Z) (Hint : in_int (creq_maxEvents request)) :
  db_ s = Some c → conn_txn c = None → log_ok request (conn_main c) →
  all_consolidate rt request model (pending request (conn_main c)) →
  ∃ results s' c' taken, consolidate_times rt request model n s = (Ret results, s') ∧
    db_ s' = Some c' ∧ conn_txn c' = None ∧ t_events (conn_main c') = t_events (conn_main c) ∧
    log_ok request (conn_main c') ∧
    Forall (λ r, cres_succeeded r = true) results ∧
    pending request (conn_main c) = taken ++ pending request (conn_main c') ∧
    (length (pending request (conn_main c')) ≤ length (pending request (conn_main c)) - n)%nat ∧
    processed results = Z.of_nat (length (filter (λ r, eligible request r = true) taken)).
Proof.
  revert s c. induction n as [|n IH]; intros s c Hs Hc Hlog Hall0.
  { exists [], s, c, []. simpl. split_and!; try done. lia. }
  destruct (consolidate_advances Hreliable request model _ Hforce Hmax Hint rt
    Hstore Hservice eq_refl s c Hs Hc Hlog (Hall0 [] _ eq_refl))
    as (res & s1 & c1 & E1 & Hs1 & Hok & Hc1 & Hev & Hlog1 & sc & Hp & Hne & Hn & _).
  destruct (IH s1 c1 Hs1 Hc1 Hlog1)
    as (results & s2 & c2 & taken & E2 & Hs2 & Hc2 & Hev2 & Hlog2 & Hall & Hp2 & Hle & Hn2).
  { rewrite Hp in Hall0. by apply all_consolidate_rest in Hall0. }
  exists (res :: results), s2, c2, (sc ++ taken). split_and!.
  - simpl. rewrite (bind_run _ _ _ _ _ E1), (bind_run _ _ _ _ _ E2). done.
  - done.
  - done.
  - by rewrite Hev2.
  - done.
  - by constructor.
  - by rewrite Hp, Hp2, app_assoc.
  - pose proof (f_equal length Hp) as Hlen. rewrite length_app in Hlen.
    destruct sc as [|x sc]; [|simpl in Hlen; lia].
    destruct (pending request (conn_main c)) as [|y l]; [simpl in *; lia|].
    exfalso. by apply Hne.
  - change (processed (res :: results)) with (cres_processedEvents res + processed results)%Z.
    rewrite Hn, Hn2, filter_app, length_app. lia.
Qed.
End Times.

(** C5: repeating the consolidation drains the log: without faults, for a request that is not forced and
    allows at least one event, when the model and the processor return on what is left of the pending
    events and the values written for it have texts, [n] runs for at least [n] pending
    events all succeed, process together exactly as many events as are pending and eligible, and
    leave nothing pending; a further run finds nothing and processes nothing. *)
Theorem consolidation_drains `{JsonText} `{SqlEnv} `{SqlPlan} `{FtsEngine} (rt : BuiltinMemoryRuntime)
    (request : MemoryConsolidationRequest) (model : option MemoryModelClient) (n : nat)
    (s : MemorySqliteStore) (c : Conn Tables)
    (Hreliable : ∀ n k, sql_fault n k = None)
    (Hstore : rs_store (services rt) = true) (Hservice : rs_consolidationService (services rt) = true)
    (Hforce : creq_forceReprocess request = false)
    (Hmax : (0 < creq_maxEvents request)%Z) (Hint : in_int (creq_maxEvents request))
    (Hs : db_ s = Some c) (Hc : conn_txn c = None) (Hlog : log_ok request (conn_main c))
    (Hall : all_consolidate rt request model (pending request (conn_main c)))
    (Hn : (length (pending request (conn_main c)) ≤ n)%nat) :
  ∃ results last s' s'' c'', consolidate_times rt request model n s = (Ret results, s') ∧
    Forall (λ r, cres_succeeded r = true) results ∧
    processed results
    = Z.of_nat (length (filter (λ r, eligible request r = true) (pending request (conn_main c)))) ∧
    ConsolidateWithModel rt request model s' = (Ret last, s'') ∧
    cres_succeeded last = true ∧ cres_processedEvents last = 0%Z ∧
    db_ s'' = Some c'' ∧ t_events (conn_main c'') = t_events (conn_main c) ∧ pending request (conn_main c'') = [].
Proof.
  destruct (consolidate_times_advances rt request model n s c Hreliable Hstore
    Hservice Hforce Hmax Hint Hs Hc Hlog Hall)
    as (results & s1 & c1 & taken & E1 & Hs1 & Hc1 & Hev & Hlog1 & Hok1 & Hp & Hle & Hsum).
  assert (pending request (conn_main c1) = []) as Hnil.
  { apply nil_length_inv. lia. }
  rewrite Hp in Hall. apply all_consolidate_rest in Hall.
  destruct (consolidate_advances Hreliable request model _ Hforce Hmax Hint rt
    Hstore Hservice eq_refl s1 c1 Hs1 Hc1 Hlog1 (Hall [] _ eq_refl))
    as (res & s2 & c2 & E2 & Hs2 & Hok & _ & Hev2 & _ & sc & Hp2 & _ & Hn2 & _).
  rewrite Hnil in *. symmetry in Hp2. apply app_eq_nil in Hp2 as [-> Hp2].
  rewrite app_nil_r in Hp. subst taken.
  exists results, res, s1, s2, c2. split_and!; try done. by rewrite Hev2.
Qed.

(** The texts of the library: a value whose strings are UTF-8 has one. *)
Lemma consolidation_drains_witness :
  let _ := document_json [] in let _ := reliable_env in
  let _ := sample_plan in let _ := sample_fts in
  ∃ results s', consolidate_times sample_runtime
      (mkConsolidationRequest "agent" "" 2 false ["skip"] json_object) None 3 (opened pending_events)
      = (Ret results, s') ∧ processed results = 3%Z.
Proof.
  intros Hj He Hp Hf.
  edestruct (consolidation_drains sample_runtime
    (mkConsolidationRequest "agent" "" 2 false ["skip"] json_object) None 3 (opened pending_events)
    (mkConn pending_events None 0 no_error_msg)) as (results & last & s' & _ & _ & E & _ & Hsum & _).
  - done.
  - reflexivity.
  - reflexivity.
  - reflexivity.
  - reflexivity.
  - by vm_compute.
  - reflexivity.
  - reflexivity.
  - split_and!; [|repeat constructor; by vm_compute|by vm_compute].
    split; repeat constructor; by vm_compute.
  - cbn [conn_main].
    match goal with |- all_consolidate _ _ _ ?rows => set (l := rows); vm_compute in l; subst l end.
    repeat (apply all_consolidate_cons; [eapply consolidates_utf8; vm_compute; reflexivity|]).
    intros taken rest Hnil. symmetry in Hnil. apply app_eq_nil in Hnil as [_ ->].
    eexists _, _. split; [vm_compute; reflexivity|apply Forall_nil_2].
  - apply Nat.leb_le. vm_compute. reflexivity.
  - exists results, s'. split; [exact E|]. rewrite Hsum. vm_compute. reflexivity.
Defined.
