(* ===== verification/ConsolidationKnowledge.v ===== *)
(** * What a consolidation learns

    The memory after a consolidation is that before it with the cursor moved and the updates of the
    batch made in turn: the session summary, then what the model or the rules made of the batch. *)

From Stdlib Require Import ZArith Lia Ascii String.
From stdpp Require Import base list strings gmap sorting.
From S2P Require Import Prelude CppString Floats Json Types Sqlite StoreInterface Store.
From S2P Require Import StoreInvariant StoreTransactions StoreSearch Samples StoreTheorems EventLog.
From S2P Require Import LongTermTheorems Refinement Knowledge LongTermRefinement MemoryRefinement.
From S2P Require Import Consolidation ContextBuilder PayloadService Runtime.
From S2P Require Import ConsolidationTheorems ConsolidationProgress.
Import BatchBuilder Writer Service.

Open Scope am_scope.

(** ** Lemmas *)

Section Learns.
Context `{JsonText} `{SqlEnv}.

(** The work makes the updates when its result is good. *)
Definition learns {A} (good : A → bool) (us : list Update) (m : M (Conn Tables) A) : Prop :=
  tx_does good (λ _, learned (us ≫= steps)) m.

Lemma learns_ret {A} (good : A → bool) a : learns good [] (ret a).
Proof. apply tx_does_ret. intros _ t. apply learned_nil. Qed.

Lemma learns_bind {A B} (g : A → bool) (h : B → bool) us1 us2 (m : M (Conn Tables) A) k :
  learns g us1 m → (∀ a, g a = true → learns h us2 (k a)) →
  (∀ a, g a = false → ∃ b, h b = false ∧ ∀ c, k a c = (Ret b, c)) →
  learns h (us1 ++ us2) (bind m k).
Proof.
  intros Hm Hk Hstop. unfold learns.
  eapply (tx_does_bind g h (λ _, learned (us1 ≫= steps)) (λ _ _, learned (us2 ≫= steps))); [exact Hm|exact Hk|..].
  - intros a c Ha. destruct (Hstop a Ha) as (b & Hb & ->). split; [done|]. by intros b' [= <-].
  - intros a b t1 t2 t3 H1 H2. rewrite bind_app. by eapply learned_app.
Qed.

Lemma learns_update u : update_storable u → learns op_succeeded [u] (UpdateTransaction u).
Proof.
  intros Hu. unfold learns. cbn. rewrite app_nil_r. destruct (UpdateTransaction_unlocked u) as [context ->].
  by apply update_learned.
Qed.

Lemma learns_each {A} (save : A → M (Conn Tables) MemoryOperationResult) (f : A → list Update) items :
  Forall (λ x, Forall update_storable (f x)) items →
  (∀ x, Forall update_storable (f x) → learns op_succeeded (f x) (save x)) →
  learns all_saved (items ≫= f) (save_each save items).
Proof.
  intros Hst Hsave. induction Hst as [|x items Hx _ IH]; [apply learns_ret|]. cbn.
  eapply (learns_bind op_succeeded); [by apply Hsave| |].
  - intros op Hop. rewrite Hop. cbn. rewrite <- (app_nil_r (items ≫= f)).
    eapply (learns_bind all_saved); [exact IH| |].
    + intros [n|w] Hn; [apply learns_ret|done].
    + intros [n|w] Hn; [done|]. by exists (inr w).
  - intros op Hop. rewrite Hop. cbn. by exists (inr op).
Qed.

Lemma learns_entity agent e :
  Forall update_storable (entity_updates agent e) → learns op_succeeded (entity_updates agent e) (save_entity agent e).
Proof.
  unfold entity_updates, save_entity. intros [He Hr]%Forall_cons. apply (learns_bind op_succeeded _ [_]).
  - by apply (learns_update (PutEntity (with_entity_agent agent e))).
  - intros op Hop. rewrite Hop. cbn. destruct (is_empty _) eqn:E; cbn; [apply learns_ret|].
    apply (learns_update (Retire _ _) I).
  - intros op Hop. rewrite Hop. by exists op.
Qed.

(** Continue after a loop of the writer. *)
Lemma learns_after {B} (h : B → bool) us1 us2 m (cont : Z → M (Conn Tables) B) (fail : MemoryOperationResult → B) :
  learns all_saved us1 m → (∀ n, learns h us2 (cont n)) → (∀ w, h (fail w) = false) →
  learns h (us1 ++ us2) (let* r := m in match r with inr w => ret (fail w) | inl n => cont n end).
Proof.
  intros Hm Hc Hf. eapply (learns_bind all_saved); [exact Hm| |].
  - intros [n|w] Hn; [apply Hc|done].
  - intros [n|w] Hn; [done|]. exists (fail w). split; [apply Hf|done].
Qed.

Lemma learns_SaveUpdate agent session u refs :
  Forall update_storable (update_updates agent session u refs) →
  learns write_succeeded (update_updates agent session u refs) (SaveUpdate agent session u refs).
Proof.
  unfold update_updates. rewrite !Forall_app. intros (Ht & Hp & He & Hr).
  rewrite <- !bind_singleton in *. unfold SaveUpdate.
  assert (∀ A (f : A → list Update) items, Forall update_storable (items ≫= f) →
    Forall (λ x, Forall update_storable (f x)) items) as Heach.
  { intros A f items. induction items as [|x items IH]; [constructor|]. cbn. rewrite Forall_app. intros [? ?].
    constructor; auto. }
  apply (learns_after write_succeeded); [| |done].
  { apply learns_each; [by apply Heach|]. intros x [Hx _]%Forall_cons. by apply (learns_update (PutSummary _ _ _ _ _ _ _)). }
  intros n1. apply (learns_after write_succeeded); [| |done].
  { apply learns_each; [by apply Heach|]. intros x [Hx _]%Forall_cons. by apply (learns_update (PutSummary _ _ _ _ _ _ _)). }
  intros n2. apply (learns_after write_succeeded); [| |done].
  { apply learns_each; [by apply Heach|]. intros x. apply learns_entity. }
  intros n3. rewrite <- (app_nil_r (_ ≫= _)). apply (learns_after write_succeeded); [| |done].
  { apply learns_each; [by apply Heach|]. intros x [Hx _]%Forall_cons. by apply (learns_update (PutRelation _)). }
  intros n4. apply learns_ret.
Qed.

Lemma learns_cursor request nextCursor : learns op_succeeded [] (save_cursor request nextCursor).
Proof.
  eapply tx_does_weaken; [|apply save_cursor_does]. intros _ t t' -> Ht. split; [done|]. by exists [].
Qed.

Lemma learns_cursor_work request nextCursor : learns work_succeeded [] (cursor_work request nextCursor).
Proof.
  apply (learns_bind op_succeeded _ [] []); [apply learns_cursor|intros; apply learns_ret|].
  intros op Hop. exists (op, tt). by split; [exact Hop|].
Qed.

Lemma learns_update_work request build u e l :
  batch_events (build_batch build) = e :: l → Forall update_storable (consolidation_updates request build u) →
  learns work_succeeded (consolidation_updates request build u) (update_work request build u).
Proof.
  intros Hb. unfold consolidation_updates. rewrite Hb. intros [Hs Hu]%Forall_cons. unfold update_work.
  apply (learns_bind write_succeeded _ [_]).
  - unfold SaveSessionSummary. rewrite <- (app_nil_r [_]).
    apply (learns_bind op_succeeded); [by apply (learns_update (PutSummary _ _ _ _ _ _ _))| |].
    + intros op Hop. rewrite Hop. apply learns_ret.
    + intros op Hop. rewrite Hop. by exists (FailedWrite op).
  - intros w Hw. rewrite Hw. cbn. rewrite <- (app_nil_r (if has_update u then _ else _)).
    apply (learns_bind write_succeeded).
    + destruct (has_update u); [by apply learns_SaveUpdate|apply learns_ret].
    + intros v Hv. rewrite Hv. cbn. apply (learns_bind op_succeeded _ [] []).
      * destruct (negb _); [apply learns_cursor|apply learns_ret].
      * intros op Hop. apply learns_ret.
      * intros op Hop. exists (op, (w, v)). by split; [exact Hop|].
    + intros v Hv. rewrite Hv. eexists. by split; [|reflexivity].
  - intros w Hw. rewrite Hw. eexists. by split; [|reflexivity].
Qed.
End Learns.

(** ** The property *)

Section OnSqlite.
Context `{JsonText} `{SqlEnv} `{SqlPlan}.

(** A transaction over work that makes updates and returns without faults. *)
Lemma transaction_learns {W} (captured : W) work us s c :
  db_ s = Some c → conn_txn c = None → tables_ok (conn_main c) → learns work_succeeded us work →
  ∃ c', db_ (RunInTransaction captured work s).2 = Some c' ∧
    match (RunInTransaction captured work s).1 with
    | Ret res =>
        conn_txn c' = None ∧
        if op_succeeded res.1 then
          ∃ times, length times = length (us ≫= steps) ∧
            knowledge_of (conn_main c') = run_steps (us ≫= steps) times (knowledge_of (conn_main c))
        else conn_main c' = conn_main c
    | Throw _ => conn_main c' = conn_main c
    end.
Proof.
  intros Hs Hc Hok Hl. destruct (RunInTransaction_outcome captured work s c _ Hs Hc Hl) as (c' & Hc' & Hres).
  exists c'. split; [done|]. destruct ((RunInTransaction captured work s).1) as [res|w]; [|done].
  destruct Hres as [Hn Hres]. split; [done|]. destruct (op_succeeded res.1); [|by destruct Hres].
  destruct Hres as (r & _ & _ & Hlr). by destruct (Hlr (tables_unique _ Hok)).
Qed.

(** One run of the service on given events. *)
Lemma service_learns (fallback : option LongTermMemoryProcessor)
    (request : MemoryConsolidationRequest) (events : list MemoryEvent) (model : option MemoryModelClient)
    (s : MemorySqliteStore) (c : Conn Tables) (u : LongTermMemoryUpdate) (used : bool)
    (Hs : db_ s = Some c) (Hc : conn_txn c = None) (Hok : tables_ok (conn_main c))
    (Hmade : make_update fallback model (build_batch (Build request events)) = Ret (u, used))
    (Hstorable : Forall update_storable (consolidation_updates request (Build request events) u)) :
  (∃ c', db_ (Service.Consolidate fallback request events model s).2 = Some c' ∧
    match (Service.Consolidate fallback request events model s).1 with
    | Ret res =>
        conn_txn c' = None ∧
        if cres_succeeded res then
          let changes := consolidation_updates request (Build request events) u ≫= steps in
          ∃ times, length times = length changes ∧
            knowledge_of (conn_main c') = run_steps changes times (knowledge_of (conn_main c))
        else conn_main c' = conn_main c
    | Throw _ => conn_main c' = conn_main c
    end) ∧
  ((∀ n k, sql_fault n k = None) → Forall update_writable (consolidation_updates request (Build request events) u) →
   ∃ res, (Service.Consolidate fallback request events model s).1 = Ret res ∧ cres_succeeded res = true).
Proof.
  revert Hmade Hstorable. unfold Service.Consolidate. set (build := Build request events).
  destruct (batch_events (build_batch build)) as [|e l] eqn:Eb.
  - assert (consolidation_updates request build u = []) as -> by (unfold consolidation_updates; by rewrite Eb).
    intros _ _. destruct (is_empty (build_nextCursor build)) eqn:En.
    { split; [|intros _ _; eexists; by split]. exists c. cbn. split_and!; [done|done|]. by exists []. }
    unfold bind. change (@st_RunInTransaction _ _ _ _ unit) with (@RunInTransaction _ unit).
    destruct (transaction_learns tt (cursor_work request (build_nextCursor build)) [] s c Hs Hc Hok
      (learns_cursor_work _ _)) as (c' & Hc' & Hres).
    split.
    + destruct (RunInTransaction tt _ s) as [[[op []]|w] s']; cbn in *; by exists c'.
    + intros Hrel Hd. destruct (RunInTransaction_returns Hrel tt (cursor_work request (build_nextCursor build)) s c Hs Hc
        (cursor_work_returns Hrel _ _) (tx_does_safe _ _ _ (cursor_work_does request _ En))) as (r & s' & -> & Hr).
      eexists. split; [reflexivity|]. exact Hr.
  - intros Hmade Hst. unfold bind, lift_outcome. rewrite Hmade.
    change (@st_RunInTransaction _ _ _ _ (MemoryUpdateWriteResult * MemoryUpdateWriteResult))
      with (@RunInTransaction _ (MemoryUpdateWriteResult * MemoryUpdateWriteResult)).
    destruct (transaction_learns (default_WriteResult, default_WriteResult) (update_work request build u) _ s c Hs Hc Hok
      (learns_update_work _ _ _ _ _ Eb Hst)) as (c' & Hc' & Hres).
    split.
    + destruct (RunInTransaction _ _ s) as [[[op [w1 w2]]|w] s']; cbn in *; exists c'; [|done].
      split; [done|]. destruct Hres as [Hn Hres]. by destruct (op_succeeded op).
    + intros Hrel Hd. destruct (RunInTransaction_returns Hrel (default_WriteResult, default_WriteResult)
        (update_work request build u) s c Hs Hc (update_work_returns Hrel _ _ _ _ _ Eb Hd)
        (tx_does_safe _ _ _ (update_work_does _ _ _))) as ([op [w1 w2]] & s' & -> & Hr).
      cbn in Hr. eexists. split; [reflexivity|]. by rewrite Hr.
Qed.

(** ** Lemmas: the reads of a run, and the invariant *)

Lemma cursor_asked m agent session :
  asks m (λ r, if cursor_succeeded r
               then cursor_cursor r = match log_cursors (mem_log m) !! (c_str agent, c_str session) with
                                      | Some k => to_string k
                                      | None => ""
                                      end
               else HasError (cursor_error r) = true ∧ faulty)
    (LoadConsolidationCursor agent session).
Proof.
  eapply (log_asked m (LoadCursor agent session) _ Cursor);
    [done|done|intros; apply wrapped_call|by intros r [= ->]|by intros r Hf [-> ?]].
Qed.

Lemma events_asked m agent session cursor excluded :
  asks m (λ r, if events_succeeded r
               then events_events r = seen agent session excluded (drop (Z.to_nat (CursorToInt cursor)) (log_events (mem_log m)))
               else HasError (events_error r) = true ∧ faulty)
    (LoadEventsAfterCursor agent session cursor excluded).
Proof.
  eapply (log_asked m (ReadAfter agent session cursor excluded) _ Events);
    [done|done|intros; apply wrapped_call|by intros r [= ->]|by intros r Hf [-> ?]].
Qed.

(** The work of both transactions keeps the invariant of the tables. *)
Lemma save_each_ok {A} (save : A → M (Conn Tables) MemoryOperationResult) items :
  (∀ x, preserves tables_ok (save x)) → preserves tables_ok (save_each save items).
Proof.
  intros Hsave. induction items as [|x items IH]; cbn; [auto with am|]. apply preserves_bind; [apply Hsave|].
  intros op. destruct (op_succeeded op); cbn; [|auto with am]. apply preserves_bind; [exact IH|]. auto with am.
Qed.

Lemma update_transaction_ok u : preserves tables_ok (UpdateTransaction u).
Proof. destruct (UpdateTransaction_unlocked u) as [context ->]. apply preserves_op_result, UpdateUnlocked_ok. Qed.

Lemma after_each_ok {B} m (cont : Z → M (Conn Tables) B) (fail : MemoryOperationResult → B) :
  preserves tables_ok m → (∀ n, preserves tables_ok (cont n)) →
  preserves tables_ok (let* r := m in match r with inr w => ret (fail w) | inl n => cont n end).
Proof. intros Hm Hc. apply preserves_bind; [exact Hm|]. intros [n|w]; auto with am. Qed.

Lemma SaveUpdate_ok agent session u refs : preserves tables_ok (SaveUpdate agent session u refs).
Proof.
  unfold SaveUpdate. repeat (apply after_each_ok; [apply save_each_ok|intros]); [..|auto with am].
  1,2: intros x; apply (update_transaction_ok (PutSummary _ _ _ _ _ _ _)).
  - intros e. unfold save_entity. apply preserves_bind; [apply (update_transaction_ok (PutEntity _))|].
    intros op. destruct (op_succeeded op); cbn; [|auto with am].
    destruct (is_empty _); cbn; [auto with am|]. apply (update_transaction_ok (Retire _ _)).
  - intros r. apply (update_transaction_ok (PutRelation _)).
Qed.

Lemma save_cursor_ok request nextCursor : preserves tables_ok (save_cursor request nextCursor).
Proof.
  apply preserves_bind; [apply preserves_op_result; auto with am|]. intros op. case_match; auto with am.
Qed.

Lemma update_work_ok request build u : preserves tables_ok (update_work request build u).
Proof.
  unfold update_work, SaveSessionSummary. apply preserves_bind.
  { apply preserves_bind; [apply (update_transaction_ok (PutSummary _ _ _ _ _ _ _))|].
    intros op. case_match; auto with am. }
  intros w. case_match; [auto with am|]. apply preserves_bind.
  { case_match; [apply SaveUpdate_ok|auto with am]. }
  intros v. case_match; [auto with am|]. apply preserves_bind; [|auto with am].
  case_match; [apply save_cursor_ok|auto with am].
Qed.

Lemma Consolidate_ok fallback request events model s :
  store_ok s → store_ok (Service.Consolidate fallback request events model s).2.
Proof.
  intros Hs.
  assert (∀ W B (captured : W) work (k : MemoryOperationResult * W → M MemorySqliteStore B),
    preserves tables_ok work → (∀ r s, (k r s).2 = s) → store_ok (bind (RunInTransaction captured work) k s).2) as Htx.
  { intros W B captured work k Hw Hk.
    assert (store_ok (RunInTransaction captured work s).2) as Hok by (by apply on_db_ok; [apply run_in_transaction_ok|]).
    unfold bind. destruct (RunInTransaction captured work s) as [[r|w] s']; [by rewrite Hk|done]. }
  unfold Service.Consolidate. destruct (batch_events _) as [|e l].
  - destruct (is_empty _); [done|]. apply Htx; [|done].
    unfold cursor_work. apply preserves_bind; [apply save_cursor_ok|auto with am].
  - unfold bind at 1, lift_outcome. destruct (make_update _ _ _) as [[u used]|w]; [|done].
    apply Htx; [apply update_work_ok|]. by intros [op [w1 w2]].
Qed.

(** ** The specification *)

Definition start_cursor (request : MemoryConsolidationRequest) (m : Memory) : string :=
  if creq_forceReprocess request then ""
  else match log_cursors (mem_log m) !! (c_str (creq_agentId request), c_str (creq_sessionId request)) with
       | Some k => to_string k
       | None => ""
       end.

(** The events behind the cursor in the scope of the request. *)
Definition events_to_consolidate (request : MemoryConsolidationRequest) (m : Memory) : list MemoryEvent :=
  seen (creq_agentId request) (creq_sessionId request) (creq_excludedSessionIds request)
    (drop (Z.to_nat (CursorToInt (start_cursor request m))) (log_events (mem_log m))).

(** The cursor moves, and the updates are made, each step at its time. *)
Definition consolidated_memory (request : MemoryConsolidationRequest) (build : ConsolidationBatchBuildResult)
    (u : LongTermMemoryUpdate) (times : list string) (m : Memory) : Memory :=
  mkMemory
    (mkLog (log_events (mem_log m)) (cursor_saved request (build_nextCursor build) (log_cursors (mem_log m))))
    (mem_payloads m)
    (run_steps (consolidation_updates request build u ≫= steps) times (mem_knowledge m)).

(** Another store with the same content remembers the same. *)
Lemma remembers_same s s' c c' m :
  db_ s = Some c → db_ s' = Some c' → conn_txn c' = None → conn_main c' = conn_main c → remembers s m → remembers s' m.
Proof.
  intros Hs Hs' Ht Hm [Hh (c0 & Hs0 & Hrest)]. rewrite Hs in Hs0. injection Hs0 as <-. split.
  - eapply holds_kept; [exact Hs|exact Hs'|done| |done]. by rewrite Hm.
  - exists c'. by rewrite Hm.
Qed.

Lemma remembers_consolidated request build u times s s' c c' m :
  db_ s = Some c → db_ s' = Some c' → conn_txn c' = None → tables_ok (conn_main c') →
  t_events (conn_main c') = t_events (conn_main c) → t_payloads (conn_main c') = t_payloads (conn_main c) →
  t_cursors (conn_main c') = cursor_saved request (build_nextCursor build) (t_cursors (conn_main c)) →
  knowledge_of (conn_main c')
  = run_steps (consolidation_updates request build u ≫= steps) times (knowledge_of (conn_main c)) →
  remembers s m → remembers s' (consolidated_memory request build u times m).
Proof.
  intros Hs Hs' Ht Hok He Hp Hcur Hkn [(c1 & Hs1 & _ & Hids & Hev & Hcu) (c2 & Hs2 & _ & Hps & Hk)].
  rewrite Hs in Hs1, Hs2. injection Hs1 as <-. injection Hs2 as <-. split.
  - exists c'. cbn. rewrite He, Hcur, Hcu. by split_and!.
  - exists c'. cbn. rewrite Hp, Hkn, Hk. by split_and!.
Qed.

(** One run of the service over a memory. *)
Lemma service_remembers fallback request events model s m u used :
  remembers s m → make_update fallback model (build_batch (Build request events)) = Ret (u, used) →
  Forall update_storable (consolidation_updates request (Build request events) u) →
  let run := Service.Consolidate fallback request events model s in
  match run.1 with
  | Ret res =>
      if cres_succeeded res then
        ∃ times, length times = length (consolidation_updates request (Build request events) u ≫= steps) ∧
          remembers run.2 (consolidated_memory request (Build request events) u times m)
      else HasError (cres_error res) = true ∧ remembers run.2 m
  | Throw _ => ∃ c', db_ run.2 = Some c' ∧ memory_of (conn_main c') = m
  end ∧
  (¬ faulty → Forall update_writable (consolidation_updates request (Build request events) u) →
   ∃ res, run.1 = Ret res ∧ cres_succeeded res = true).
Proof.
  intros Hr Hmade Hst run. pose proof Hr as [(c & Hs & Hc & _) (c0 & Hs0 & Hok & _)].
  rewrite Hs in Hs0. injection Hs0 as <-.
  destruct (service_learns fallback request events model s c u used Hs Hc Hok Hmade Hst) as [(c' & Hc' & Hl) Hsucc].
  destruct (Consolidate_outcome fallback request events model s c Hs Hc) as (c1 & Hc1 & Ho).
  rewrite Hc' in Hc1. injection Hc1 as <-.
  assert (store_ok run.2) as Hsok.
  { apply Consolidate_ok. unfold store_ok. rewrite Hs. split; [done|]. by rewrite Hc. }
  unfold store_ok in Hsok. fold run in Hc', Hl, Ho. rewrite Hc' in Hsok. destruct Hsok as [Hok' _]. split.
  - destruct run as [[res|w] s'] eqn:E; cbn in *.
    + destruct Hl as [Ht Hl]. destruct Ho as [_ Ho]. destruct (cres_succeeded res).
      * destruct Hl as (times & Hlen & Hkn). exists times. split; [done|].
        destruct (Consolidate_reports _ _ _ _ _ _ _ E) as [Hnext _]. destruct Ho as (He & Hp & Hcur & _).
        rewrite Hnext in Hcur. by apply (remembers_consolidated _ _ _ _ s s' c c').
      * split; [apply Ho|]. by apply (remembers_same s s' c c'); try apply Ho.
    + exists c'. split; [done|]. rewrite Hl. symmetry. by eapply remembers_unique.
  - intros Hf Hd. apply Hsucc; [|done]. intros n k. destruct (sql_fault n k) as [fl|] eqn:Ef; [|done].
    destruct Hf. by exists n, k, fl.
Qed.

Lemma or_error_is_error e code message : is_empty code = false → HasError (or_error e code message) = true.
Proof. intros Hc. unfold or_error. destruct (HasError e) eqn:E; [done|]. unfold HasError. cbn. by rewrite Hc. Qed.

Lemma start_asked request m :
  asks m (λ r, if cursor_succeeded r then cursor_cursor r = start_cursor request m
               else HasError (cursor_error r) = true ∧ faulty)
    (if negb (creq_forceReprocess request)
     then LoadConsolidationCursor (creq_agentId request) (creq_sessionId request)
     else ret (mkCursorResult true "" no_error)).
Proof.
  unfold start_cursor. destruct (creq_forceReprocess request); cbn [negb]; [by apply asks_ret|apply cursor_asked].
Qed.

(** C4: refinement of a client: over a store that remembers a memory, a consolidation takes the events
    behind the cursor of its scope. If it succeeds, the store remembers the memory with the cursor moved
    behind the batch and exactly the updates of the batch made, in turn: the session summary noted,
    then the topic and profile summaries, then every entity (believed in place of its duplicates,
    superseding what it names), then every relation; events and payload references are untouched. If it
    reports an error, the memory is as it was; if it throws, so is the committed content. Without faults,
    when the values its updates write have texts, it succeeds. *)
Theorem consolidation_learns (rt : BuiltinMemoryRuntime) (request : MemoryConsolidationRequest)
    (model : option MemoryModelClient) (s : MemorySqliteStore) (m : Memory) (u : LongTermMemoryUpdate) (used : bool)
    (Hstore : rs_store (services rt) = true) (Hservice : rs_consolidationService (services rt) = true)
    (Hremembers : remembers s m) :
  let build := Build request (events_to_consolidate request m) in
  let run := ConsolidateWithModel rt request model s in
  make_update (Some (rs_longTermProcessor (services rt))) model (build_batch build) = Ret (u, used) →
  Forall update_storable (consolidation_updates request build u) →
  match run.1 with
  | Ret res =>
      if cres_succeeded res then
        ∃ times, length times = length (consolidation_updates request build u ≫= steps) ∧
          remembers run.2 (consolidated_memory request build u times m)
      else HasError (cres_error res) = true ∧ remembers run.2 m
  | Throw _ => ∃ c', db_ run.2 = Some c' ∧ memory_of (conn_main c') = m
  end ∧
  (¬ faulty → Forall update_writable (consolidation_updates request build u) →
   ∃ res, run.1 = Ret res ∧ cres_succeeded res = true).
Proof.
  cbv zeta. set (events := events_to_consolidate request m). intros Hmade Hst.
  unfold ConsolidateWithModel. rewrite Hstore, Hservice. cbn [negb].
  destruct (start_asked request m s Hremembers) as (r & s1 & E1 & Hr1 & Hr).
  rewrite !(bind_run _ _ _ _ _ E1). destruct (cursor_succeeded r); cbn [negb].
  2: { destruct Hr as [_ Hf]. cbn. split; [|by intros ?]. split; [by apply or_error_is_error|done]. }
  destruct (events_asked m (creq_agentId request) (creq_sessionId request) (cursor_cursor r)
    (creq_excludedSessionIds request) s1 Hr1) as (ev & s2 & E2 & Hr2 & Hev).
  rewrite !(bind_run _ _ _ _ _ E2). destruct (events_succeeded ev); cbn [negb].
  2: { destruct Hev as [_ Hf]. cbn. split; [|by intros ?]. split; [by apply or_error_is_error|done]. }
  rewrite Hr in Hev. fold (events_to_consolidate request m) in Hev. fold events in Hev. rewrite Hev.
  by apply service_remembers with used.
Qed.
End OnSqlite.

(** The rules make two entities of one message; they are believed afterwards. *)
Definition liked_tests : MemoryEvent :=
  mkEvent MESSAGE_APPENDED "agent" "s" "user" "I like tests" "" "" "" "" json_object "".

Lemma consolidation_learns_witness :
  let _ := sample_json in let _ := reliable_env in let _ := sample_plan in
  let s := (memory_calls [OnLog (Append liked_tests)] (opened empty_tables)).2 in
  let run := ConsolidateWithModel sample_runtime sample_request None s in
  ∃ m u times, remembers s m ∧
    remembers run.2 (consolidated_memory sample_request (Build sample_request (events_to_consolidate sample_request m))
                       u times m) ∧
    match db_ run.2 with
    | Some c' => (map_to_list (kn_entities (knowledge_of (conn_main c')))).*1 | None => [] end
    = ["entity:topic.testing"; "entity:preference.user"].
Proof.
  intros Hj He Hp s run.
  destruct (memory_calls_refine [OnLog (Append liked_tests)] (opened empty_tables) empty_memory) as (m & _ & Hr).
  - split; [eexists; by split_and!|]. eexists. split_and!; [reflexivity|apply empty_tables_ok|reflexivity..].
  - apply Forall_cons_2; [|apply Forall_nil_2]. intros text Ht. vm_compute in Ht. injection Ht as <-. reflexivity.
  - assert (∃ c, db_ s = Some c ∧ events_to_consolidate sample_request (memory_of (conn_main c))
              = [user_message "s" "I like tests" "1"]) as (c & Hc & Hevents).
    { eexists. split; [vm_compute; reflexivity|]. vm_compute. reflexivity. }
    rewrite <- (remembers_unique s m c Hr Hc) in Hevents.
    destruct (make_update (Some (rs_longTermProcessor (services sample_runtime))) None
      (build_batch (Build sample_request [user_message "s" "I like tests" "1"]))) as [[u used]|w] eqn:Hmade;
      [|vm_compute in Hmade; discriminate Hmade].
    rewrite <- Hevents in Hmade.
    destruct (consolidation_learns sample_runtime sample_request None s m u used) as [Hres _].
    + reflexivity.
    + reflexivity.
    + exact Hr.
    + exact Hmade.
    + rewrite Hevents in *. pose proof Hmade as Hu. vm_compute in Hu. injection Hu as Hu Hused. rewrite <- Hu.
      repeat first [apply Forall_nil_2 | apply Forall_cons_2 | apply conj]; try exact I;
        first [reflexivity | intros text Ht; vm_compute in Ht; injection Ht as <-; first [by split | reflexivity]].
    + assert (match run.1 with Ret res => cres_succeeded res | Throw _ => false end = true) as Hs
        by (vm_compute; reflexivity).
      fold run in Hres. destruct run.1 as [res|w] eqn:Er; [|discriminate Hs]. rewrite Hs in Hres.
      destruct Hres as (times & _ & Hrem). exists m, u, times.
      split_and!; [exact Hr|exact Hrem|vm_compute; reflexivity].
Defined.
