(* ===== verification/ConsolidationConcurrency.v ===== *)
(** * Events appended during a consolidation

    [ConsolidateWithModel] holds the consolidation mutex, but makes three calls on the store that lock
    it one by one: it loads the cursor, loads the events, and writes in a transaction, after the model
    was asked. Other threads append events in between. *)

From Stdlib Require Import ZArith Lia Ascii String.
From stdpp Require Import base list strings gmap sorting.
From S2P Require Import Prelude CppString Floats Json Types Sqlite StoreInterface Store.
From S2P Require Import StoreInvariant StoreTransactions StoreSearch Samples StoreTheorems Utf8.
From S2P Require Import EventLog Refinement Consolidation ContextBuilder PayloadService Runtime.
From S2P Require Import ConsolidationTheorems ConsolidationProgress.

Open Scope am_scope.

Section Interleaving.
Context `{JsonText} `{SqlEnv} `{SqlPlan} `{FtsEngine}.

(** What a call of this or another thread came to, an exception included. *)
Definition attempt {S A} (m : M S A) : M S (Outcome A) := λ s, let '(o, s') := m s in (Ret o, s').

(** [ConsolidateWithModel] with the calls of other threads after each of its first two calls, if it
    gets there: what they came to, and what it came to itself. *)
Definition ConsolidateInterleaved {A B} (others1 : M MemorySqliteStore A) (others2 : M MemorySqliteStore B)
    (rt : BuiltinMemoryRuntime) (request : MemoryConsolidationRequest) (model : option MemoryModelClient)
    : M MemorySqliteStore (option A * option B * Outcome MemoryConsolidationResult) :=
  if negb (rs_store (services rt)) then
    ret (None, None, Ret (consolidation_failed (mkError "store_unavailable" (StoreUnavailableMessage rt) "" false)))
  else if negb (rs_consolidationService (services rt)) then
    ret (None, None, Ret (consolidation_failed
           (mkError "consolidation_unavailable" "consolidation service unavailable" "" false)))
  else
    let* start := if negb (creq_forceReprocess request)
                  then LoadConsolidationCursor (creq_agentId request) (creq_sessionId request)
                  else ret (mkCursorResult true "" no_error) in
    let* a := others1 in
    if negb (cursor_succeeded start) then
      ret (Some a, None, Ret (consolidation_failed
             (or_error (cursor_error start) "cursor_load_failed" "failed to load consolidation cursor")))
    else
      let* eventsResult := LoadEventsAfterCursor (creq_agentId request) (creq_sessionId request)
                             (cursor_cursor start) (creq_excludedSessionIds request) in
      let* b := others2 in
      if negb (events_succeeded eventsResult) then
        ret (Some a, Some b, Ret (consolidation_failed
               (or_error (events_error eventsResult) "events_load_failed"
                  "failed to load events for consolidation")))
      else
        let* o := attempt (Service.Consolidate (Some (rs_longTermProcessor (services rt))) request
                             (events_events eventsResult) model) in
        ret (Some a, Some b, o).

(** The calls of a thread that appends events, and which of them were accepted. *)
Fixpoint save_all (events : list MemoryEvent) : M MemorySqliteStore (list bool) :=
  match events with
  | [] => ret []
  | event :: events' =>
      let* o := attempt (SaveEvent event) in
      let* accepted := save_all events' in
      ret ((match o with Ret r => op_succeeded r | Throw _ => false end) :: accepted)
  end.

Definition accepted (events : list MemoryEvent) (answers : option (list bool)) : list MemoryEvent :=
  (filter (λ x, x.2 = true) (zip events (default [] answers))).*1.

(** Alone it is the method of the runtime. *)
Lemma interleaved_alone rt request model s :
  match ConsolidateInterleaved (ret tt) (ret tt) rt request model s with
  | (Ret (_, _, o), s') => (o, s') = ConsolidateWithModel rt request model s
  | (Throw w, s') => (Throw w, s') = ConsolidateWithModel rt request model s
  end.
Proof.
  unfold ConsolidateInterleaved, ConsolidateWithModel.
  destruct (negb (rs_store _)); [done|]. destruct (negb (rs_consolidationService _)); [done|].
  set (load := if negb (creq_forceReprocess request) then _ else _).
  change (if negb (creq_forceReprocess request) then st_LoadConsolidationCursor _ _ else _) with load.
  destruct (load s) as [[start|w] s1] eqn:E; [rewrite !(bind_run _ _ _ _ _ E)|by rewrite !(bind_throw _ _ _ _ _ E)].
  cbn. destruct (negb (cursor_succeeded start)); [done|]. unfold bind.
  destruct (LoadEventsAfterCursor _ _ _ _ s1) as [[ev|w] s2]; [|done]. cbn.
  destruct (negb (events_succeeded ev)); [done|]. unfold attempt.
  by destruct (Service.Consolidate _ _ _ _ s2).
Qed.

(** ** Lemmas: appending *)

(** The row of an event. *)
Definition stored_as (e : MemoryEvent) (r : EventRow) : Prop :=
  ev_agent_id r = bind_text (event_agentId e) ∧ ev_session_id r = bind_text (event_sessionId e) ∧
  ev_event_type r = event_type_to_int (event_type e) ∧ ev_role r = bind_text (event_role e) ∧
  ev_content r = bind_text (event_content e).

Lemma foldr_max_snoc ids x : (0 ≤ x)%Z → foldr Z.max 0%Z (ids ++ [x]) = Z.max (foldr Z.max 0%Z ids) x.
Proof. intros Hx. induction ids as [|i ids IH]; cbn; [lia|]. rewrite IH. lia. Qed.

Lemma next_id_snoc ids : next_id (ids ++ [next_id ids]) = (next_id ids + 1)%Z.
Proof.
  unfold next_id at 1. rewrite foldr_max_snoc by (pose proof (next_id_pos ids); lia).
  unfold next_id at 1 2. lia.
Qed.

(** One append, whatever fails: the event's row, or no change. *)
Lemma SaveEvent_cases e s c :
  db_ s = Some c → conn_txn c = None →
  ∃ o s' c', SaveEvent e s = (o, s') ∧ db_ s' = Some c' ∧ conn_txn c' = None ∧
    t_cursors (conn_main c') = t_cursors (conn_main c) ∧
    if match o with Ret r => op_succeeded r | Throw _ => false end then
      ∃ row, t_events (conn_main c') = t_events (conn_main c) ++ [row] ∧
        ev_id row = next_id (ev_id <$> t_events (conn_main c)) ∧ stored_as e row
    else t_events (conn_main c') = t_events (conn_main c) ∧
      (faulty ∨ ∃ what, json_dump (JsonObject (event_metadata e)) = Throw what).
Proof.
  intros Hs Hc. unfold SaveEvent.
  assert (∃ o c', op_result "SaveEvent" (SaveEventUnlocked e) c = (o, c') ∧ conn_txn c' = None ∧
    t_cursors (conn_main c') = t_cursors (conn_main c) ∧
    if match o with Ret r => op_succeeded r | Throw _ => false end then
      ∃ row, t_events (conn_main c') = t_events (conn_main c) ++ [row] ∧
        ev_id row = next_id (ev_id <$> t_events (conn_main c)) ∧ stored_as e row
    else t_events (conn_main c') = t_events (conn_main c) ∧
      (faulty ∨ ∃ what, json_dump (JsonObject (event_metadata e)) = Throw what))
    as (o & c' & Hop & Hc' & Hcur & Ho).
  { unfold op_result, SaveEventUnlocked, bind.
    destruct (prepare_cases c Hc) as ([] & c1 & -> & [Ht Hm] & Hf); cbn -[SqliteFailure step_write].
    2: { destruct (SqliteFailure_run "SaveEvent" c1) as (r & -> & Hr & _). do 2 eexists. split; [done|].
         rewrite Hm, Hr. split_and!; try done. left. by apply Hf. }
    unfold lift_outcome. destruct (json_dump (JsonObject (event_metadata e))) as [text|what] eqn:Ed.
    2: { do 2 eexists. split; [done|]. rewrite Hm. split_and!; try done. right. by exists what. }
    match goal with |- context [step_write ?f c1] =>
      destruct (step_write_cases f c1 Ht) as (c2 & Ht2 & [(now & -> & Hw)|(-> & Hw & Hf')]) end; cbn -[SqliteFailure].
    - do 2 eexists. split; [done|]. rewrite Hw, Hm. split_and!; try done. cbn. eexists. by split_and!.
    - destruct (SqliteFailure_run "SaveEvent" c2) as (r & -> & Hr & _). do 2 eexists. split; [done|].
      rewrite Hw, Hm, Hr. split_and!; try done. by left. }
  exists o, (mkSqliteStore (dbPath_ s) (Some c')), c'. split; [by eapply on_db_run|]. by split_and!.
Qed.

Definition event_writable (e : MemoryEvent) : Prop := has_text (JsonObject (event_metadata e)).

Lemma accepted_cons e events ok oks :
  accepted (e :: events) (Some (ok :: oks)) = (if ok then [e] else []) ++ accepted events (Some oks).
Proof. unfold accepted. by destruct ok. Qed.

Lemma accepted_all events oks :
  length oks = length events → Forall (λ ok, ok = true) oks → accepted events (Some oks) = events.
Proof.
  revert oks. induction events as [|e events IH]; intros [|ok oks] Hl Ha; try done.
  apply Forall_cons in Ha as [-> Ha]. rewrite accepted_cons. cbn. f_equal. apply IH; [by injection Hl|done].
Qed.

(** What appends of [events], accepted as [oks] says, have added to a content. *)
Definition appended (events : list MemoryEvent) (oks : option (list bool)) (rows : list EventRow) (t t' : Tables) : Prop :=
  t_events t' = t_events t ++ rows ∧ t_cursors t' = t_cursors t ∧
  (ev_id <$> rows) = seqZ (next_id (ev_id <$> t_events t)) (Z.of_nat (length rows)) ∧
  Forall2 stored_as (accepted events oks) rows ∧ (length rows ≤ length events)%nat.

Lemma appended_nothing events t : appended events None [] t t.
Proof.
  unfold appended, accepted. cbn. replace (zip events []) with (@nil (MemoryEvent * bool)) by by destruct events.
  rewrite app_nil_r. split_and!; try done. cbn. lia.
Qed.

Lemma save_all_cases events s c :
  db_ s = Some c → conn_txn c = None →
  ∃ oks s' c' rows, save_all events s = (Ret oks, s') ∧ db_ s' = Some c' ∧ conn_txn c' = None ∧
    length oks = length events ∧ appended events (Some oks) rows (conn_main c) (conn_main c') ∧
    (¬ faulty → Forall event_writable events → Forall (λ ok, ok = true) oks).
Proof.
  revert s c. induction events as [|e events IH]; intros s c Hs Hc.
  { exists [], s, c, []. split_and!; try done. unfold appended. cbn. by rewrite app_nil_r. }
  destruct (SaveEvent_cases e s c Hs Hc) as (o & s1 & c1 & E1 & Hs1 & Hc1 & Hcur1 & Ho).
  destruct (IH s1 c1 Hs1 Hc1) as (oks & s2 & c2 & rows & E2 & Hs2 & Hc2 & Hlen & (Hev2 & Hcur2 & Hids2 & Hrows & Hle) & Hok).
  set (ok := match o with Ret r => op_succeeded r | Throw _ => false end) in *.
  exists (ok :: oks), s2, c2. destruct ok eqn:Eok; [destruct Ho as (row & Hev1 & Hid1 & Hrow)|destruct Ho as [Hev1 Hwhy]].
  - exists (row :: rows). split_and!; [|done|done|cbn; lia| |by intros ? [_ ?]%Forall_cons; constructor; auto].
    { cbn [save_all]. unfold bind at 1, attempt. rewrite E1. fold ok. by rewrite (bind_run _ _ _ _ _ E2), Eok. }
    unfold appended. rewrite accepted_cons.
    split_and!; [by rewrite Hev2, Hev1, <- app_assoc|congruence| |by constructor|cbn; lia].
    rewrite fmap_cons, Hids2, Hid1, Hev1, fmap_app. cbn. rewrite Hid1, next_id_snoc.
    change (Z.pos (Pos.of_succ_nat (length rows))) with (Z.of_nat (S (length rows))).
    rewrite (seqZ_cons _ (Z.of_nat (S (length rows)))) by lia. do 2 f_equal; lia.
  - exists rows. split_and!; [|done|done|cbn; lia| |].
    { cbn [save_all]. unfold bind at 1, attempt. rewrite E1. fold ok. by rewrite (bind_run _ _ _ _ _ E2), Eok. }
    { unfold appended. rewrite accepted_cons.
      rewrite Hev1, Hcur1 in *. split_and!; try done. cbn. lia. }
    intros Hf [[text Ht] _]%Forall_cons. destruct Hwhy as [?|[what Hw]]; [done|congruence].
Qed.
End Interleaving.

(** ** Lemmas: what appended rows change *)

Lemma ids_ok_appended n ids :
  ids_ok ids → ids_ok (ids ++ seqZ (next_id ids) (Z.of_nat n)) ∧
  next_id (ids ++ seqZ (next_id ids) (Z.of_nat n)) = (next_id ids + Z.of_nat n)%Z.
Proof.
  revert ids. induction n as [|n IH]; intros ids Hids.
  { change (seqZ _ (Z.of_nat 0)) with (@nil Z). rewrite app_nil_r. split; [done|lia]. }
  rewrite seqZ_cons by lia. replace (Z.pred (Z.of_nat (S n))) with (Z.of_nat n) by lia.
  rewrite cons_middle, app_assoc. replace (Z.succ (next_id ids)) with (next_id (ids ++ [next_id ids]))
    by (rewrite next_id_snoc; lia).
  destruct (IH (ids ++ [next_id ids]) (ids_ok_next _ Hids)) as [H1 H2]. split; [done|].
  rewrite H2, next_id_snoc. lia.
Qed.

Section Appended.
Context (request : MemoryConsolidationRequest).

Definition in_request_scope (r : EventRow) : bool :=
  in_scope (creq_agentId request) (creq_sessionId request) (creq_excludedSessionIds request) r.

(** The events of a request's scope, in the order of the log. *)
Definition scope_rows : list EventRow → list EventRow := filter (λ r, in_request_scope r = true).

(** A log whose saved cursor is not ahead of it and that can number [n] more events. *)
Definition log_room (n : nat) (t : Tables) : Prop :=
  log_ok request t ∧ (saved_position request t < next_id (ev_id <$> t_events t))%Z ∧
  (next_id (ev_id <$> t_events t) + Z.of_nat n - 1 ≤ int64_max)%Z.

Lemma appended_pending `{JsonText} n t t' events oks rows :
  log_room (length events + n) t → appended events oks rows t t' →
  log_room n t' ∧ pending request t' = pending request t ++ scope_rows rows.
Proof.
  intros ((Hids & H64 & Hpos) & Hbehind & Hroom) (Hev & Hcur & Hnew & _ & Hle).
  pose proof (next_id_pos (ev_id <$> t_events t)) as Hnext.
  destruct (ids_ok_appended (length rows) _ Hids) as [Hids' Hnext'].
  assert (∀ r, r ∈ rows → (next_id (ev_id <$> t_events t) ≤ ev_id r ≤ int64_max)%Z) as Hrows.
  { intros r Hr. apply (list_elem_of_fmap_2 ev_id) in Hr. rewrite Hnew in Hr. apply elem_of_seqZ in Hr. lia. }
  assert (saved_position request t' = saved_position request t) as Hsp by (unfold saved_position; by rewrite Hcur).
  split; [split_and!|].
  - unfold log_ok. rewrite Hev, fmap_app, Hnew, Hsp. split_and!; [done| |done].
    apply Forall_app_2; [done|]. apply Forall_forall. intros r Hr. specialize (Hrows r Hr).
    unfold in_int64, int64_min. lia.
  - rewrite Hsp, Hev, fmap_app, Hnew, Hnext'. lia.
  - rewrite Hev, fmap_app, Hnew, Hnext'. lia.
  - unfold pending. rewrite Hsp, Hev, filter_app. f_equal. unfold scope_rows.
    apply filter_ext_elem. intros r Hr. specialize (Hrows r Hr). unfold in_request_scope. split; [tauto|].
    intros Hs. split; [lia|done].
Qed.
End Appended.

(** ** Lemmas: the two loads under faults *)

Section Loads.
Context `{JsonText} `{SqlEnv} (request : MemoryConsolidationRequest).

Lemma load_cursor_cases s c :
  db_ s = Some c → conn_txn c = None →
  ∃ start s' c', LoadConsolidationCursor (creq_agentId request) (creq_sessionId request) s = (Ret start, s') ∧
    db_ s' = Some c' ∧ conn_txn c' = None ∧ conn_main c' = conn_main c ∧
    if cursor_succeeded start
    then in_int64 (saved_position request (conn_main c)) →
         CursorToInt (cursor_cursor start) = saved_position request (conn_main c)
    else faulty.
Proof.
  intros Hs Hc. unfold LoadConsolidationCursor.
  match goal with |- context [on_db ?u ?m] =>
    assert (∃ r c', m c = (Ret r, c') ∧ untouched c c' ∧
      if cursor_succeeded r
      then in_int64 (saved_position request (conn_main c)) →
           CursorToInt (cursor_cursor r) = saved_position request (conn_main c)
      else faulty) as (r & c' & Hm & [Ht Hmain] & Hr)
  end.
  { unfold bind. destruct (prepare_cases c Hc) as ([] & c1 & -> & [Ht Hm] & Hf); cbn -[SqliteFailure].
    - unfold step_first. destruct (sql_fault _ _) as [f|] eqn:Ef; cbn -[SqliteFailure].
      + edestruct @SqliteFailure_run as (r & -> & Hr). do 2 eexists. split; [reflexivity|].
        destruct (failed_untouched f c1 Ht) as [? ?]. split; [split; congruence|]. by do 3 eexists.
      + unfold conn_view, saved_position. rewrite Ht, Hm. cbn. destruct (t_cursors (conn_main c) !! _) as [z|]; cbn;
          do 2 eexists; (split; [reflexivity|]); (split; [by split|]); cbn [cursor_succeeded cursor_cursor]; [apply CursorToInt_to_string|done].
    - edestruct @SqliteFailure_run as (r & -> & Hr). do 2 eexists. split; [reflexivity|]. split; [by split|].
      by apply Hf. }
  exists r, (mkSqliteStore (dbPath_ s) (Some c')), c'. split; [by eapply on_db_run|]. by split_and!.
Qed.

Lemma load_events_cases cursor s c :
  db_ s = Some c → conn_txn c = None →
  ∃ ev s' c', LoadEventsAfterCursor (creq_agentId request) (creq_sessionId request) cursor
      (creq_excludedSessionIds request) s = (Ret ev, s') ∧
    db_ s' = Some c' ∧ conn_txn c' = None ∧ conn_main c' = conn_main c ∧
    if events_succeeded ev
    then events_events ev = ReadEventRow <$> events_after_cursor (creq_agentId request) (creq_sessionId request)
           (CursorToInt cursor) (creq_excludedSessionIds request) (conn_main c)
    else faulty.
Proof.
  intros Hs Hc. unfold LoadEventsAfterCursor.
  destruct (select_cases "LoadEventsAfterCursor::prepare" "LoadEventsAfterCursor::step"
    (events_after_cursor (creq_agentId request) (creq_sessionId request) (CursorToInt cursor)
       (creq_excludedSessionIds request)) c Hc) as ([rows e] & c' & Hsel & [Ht Hm] & He).
  do 2 eexists. exists c'. split; [eapply on_db_run; [done|unfold bind; rewrite Hsel; reflexivity]|].
  cbn in *. split_and!; [done|done|done|]. destruct e as [e|]; cbn; [by destruct He|by subst].
Qed.
End Loads.

(** ** The property *)

(** The part of the property that concerns the log: the accepted appends are in it, in order. *)
Definition log_extended (early late : list MemoryEvent) (oks1 oks2 : option (list bool)) (rows1 rows2 : list EventRow)
    (t t' : Tables) : Prop :=
  Forall2 stored_as (accepted early oks1) rows1 ∧ Forall2 stored_as (accepted late oks2) rows2 ∧
  t_events t' = t_events t ++ rows1 ++ rows2.

Lemma appended_log_extended early late oks1 oks2 rows1 rows2 t1 t2 t3 t4 :
  appended early oks1 rows1 t1 t2 → appended late oks2 rows2 t2 t3 → t_events t4 = t_events t3 →
  log_extended early late oks1 oks2 rows1 rows2 t1 t4.
Proof.
  intros (Hev1 & _ & _ & Hr1 & _) (Hev2 & _ & _ & Hr2 & _) Hev. unfold log_extended.
  by rewrite Hev, Hev2, Hev1, <- app_assoc.
Qed.

(** Nothing fails and nothing throws: no database call; the metadata of every appended event has a text;
    and on the events that are pending when the run loads them, the model and the processor return and
    what is written for their update has texts. *)
Record undisturbed `{JsonText} `{SqlEnv} (rt : BuiltinMemoryRuntime) (request : MemoryConsolidationRequest)
    (model : option MemoryModelClient) (early late : list MemoryEvent) (t : Tables) : Prop := {
  un_reliable : ∀ n k, sql_fault n k = None;
  un_early : Forall event_writable early;
  un_late : Forall event_writable late;
  un_run : ∀ rows, Forall2 stored_as early rows →
    consolidates (rs_longTermProcessor (services rt)) model request
      (ReadEventRow <$> pending request t ++ scope_rows request rows);
  un_store : rs_store (services rt) = true;
  un_service : rs_consolidationService (services rt) = true
}.

Lemma undisturbed_not_faulty `{JsonText} `{SqlEnv} rt request model early late t :
  undisturbed rt request model early late t → ¬ faulty.
Proof. intros [Hr _ _ _ _ _] (n & k & f & Hf). by rewrite Hr in Hf. Qed.

Definition all_accepted (oks : option (list bool)) : Prop := ∃ l, oks = Some l ∧ Forall (λ ok, ok = true) l.

Definition run_succeeded (o : Outcome MemoryConsolidationResult) : bool :=
  match o with Ret res => cres_succeeded res | Throw _ => false end.

(** What becomes of the events that were pending before and of those appended before and after the run
    loaded them. *)
Definition pending_outcome `{JsonText} (request : MemoryConsolidationRequest) (rows1 rows2 : list EventRow)
    (t : Tables) (o : Outcome MemoryConsolidationResult) (t' : Tables) : Prop :=
  if run_succeeded o then
    ∃ res taken kept, o = Ret res ∧
      pending request t ++ scope_rows request rows1 = taken ++ kept ∧
      pending request t' = kept ++ scope_rows request rows2 ∧
      cres_processedEvents res = Z.of_nat (length (filter (λ r, eligible request r = true) taken)) ∧
      (kept ≠ [] → cres_processedEvents res = creq_maxEvents request)
  else pending request t' = pending request t ++ scope_rows request rows1 ++ scope_rows request rows2.

(** C6: whatever database calls fail and whatever the model or the processor throws, events that other
    threads append while a consolidation runs are neither lost nor processed twice: every append that
    was accepted is in the log, in order, behind the old events. If the run succeeds, what was pending
    before it followed by what was appended before it loaded the events is what it took followed by what
    it kept, and pending afterwards is what it kept followed by what was appended later; otherwise
    everything is still pending. If nothing is disturbed it succeeds and every append is accepted. *)
Theorem concurrent_appends_kept `{JsonText} `{SqlEnv} `{SqlPlan} `{FtsEngine} (rt : BuiltinMemoryRuntime)
    (request : MemoryConsolidationRequest) (model : option MemoryModelClient)
    (early late : list MemoryEvent) (s : MemorySqliteStore) (c : Conn Tables)
    (Hforce : creq_forceReprocess request = false)
    (Hmax : (0 < creq_maxEvents request)%Z) (Hint : in_int (creq_maxEvents request))
    (Hs : db_ s = Some c) (Hc : conn_txn c = None)
    (Hlog : log_room request (length early + length late) (conn_main c)) :
  ∃ oks1 oks2 o s' c' rows1 rows2,
    ConsolidateInterleaved (save_all early) (save_all late) rt request model s = (Ret (oks1, oks2, o), s') ∧
    db_ s' = Some c' ∧ log_extended early late oks1 oks2 rows1 rows2 (conn_main c) (conn_main c') ∧
    pending_outcome request rows1 rows2 (conn_main c) o (conn_main c') ∧
    (undisturbed rt request model early late (conn_main c) → run_succeeded o = true ∧ all_accepted oks1 ∧ all_accepted oks2).
Proof.
  unfold ConsolidateInterleaved. rewrite Hforce.
  assert (∀ oks1 oks2 o s' c' rows1 rows2 t2 t3, db_ s' = Some c' →
    run_succeeded o = false → ¬ undisturbed rt request model early late (conn_main c) →
    appended early oks1 rows1 (conn_main c) t2 → appended late oks2 rows2 t2 t3 → conn_main c' = t3 →
    ∃ oks1' oks2' o' s'' c' rows1 rows2,
      (Ret (oks1, oks2, o), s') = (Ret (oks1', oks2', o'), s'') ∧ db_ s'' = Some c' ∧
      log_extended early late oks1' oks2' rows1 rows2 (conn_main c) (conn_main c') ∧
      pending_outcome request rows1 rows2 (conn_main c) o' (conn_main c') ∧
      (undisturbed rt request model early late (conn_main c) → run_succeeded o' = true ∧ all_accepted oks1' ∧ all_accepted oks2')) as Hfail.
  { intros oks1 oks2 o s' c' rows1 rows2 t2 t3 Hs' Ho Hun Ha1 Ha2 Hm. exists oks1, oks2, o, s', c', rows1, rows2.
    destruct (appended_pending request _ _ _ _ _ _ Hlog Ha1) as [Hlog2 Hp2].
    rewrite <- (Nat.add_0_r (length late)) in Hlog2.
    destruct (appended_pending request _ _ _ _ _ _ Hlog2 Ha2) as [_ Hp3].
    split; [done|]. split; [done|]. split; [eapply appended_log_extended; [done..|by rewrite Hm]|].
    split; [|by intros ?%Hun]. unfold pending_outcome. by rewrite Ho, Hm, Hp3, Hp2, app_assoc. }
  destruct (rs_store (services rt)) eqn:Est; cbn [negb].
  2: { eapply Hfail; [done|done|by intros []; congruence|apply appended_nothing..|done]. }
  destruct (rs_consolidationService (services rt)) eqn:Ese; cbn [negb].
  2: { eapply Hfail; [done|done|by intros []; congruence|apply appended_nothing..|done]. }
  destruct (load_cursor_cases request s c Hs Hc) as (start & s1 & c1 & E1 & Hs1 & Hc1 & Hm1 & Hstart).
  rewrite (bind_run _ _ _ _ _ E1).
  destruct (save_all_cases early s1 c1 Hs1 Hc1) as (oks1 & s2 & c2 & rows1 & E2 & Hs2 & Hc2 & Hlen1 & Ha1 & Hall1).
  rewrite (bind_run _ _ _ _ _ E2). rewrite Hm1 in Ha1.
  destruct (cursor_succeeded start); cbn [negb].
  2: { eapply Hfail; [done|done|by intros ?%undisturbed_not_faulty|exact Ha1|apply appended_nothing|done]. }
  destruct (load_events_cases request (cursor_cursor start) s2 c2 Hs2 Hc2) as (ev & s3 & c3 & E3 & Hs3 & Hc3 & Hm3 & Hev).
  rewrite (bind_run _ _ _ _ _ E3).
  destruct (save_all_cases late s3 c3 Hs3 Hc3) as (oks2 & s4 & c4 & rows2 & E4 & Hs4 & Hc4 & _ & Ha2 & Hall2).
  rewrite (bind_run _ _ _ _ _ E4). rewrite Hm3 in Ha2.
  destruct (events_succeeded ev); cbn [negb].
  2: { eapply Hfail; [done|done|by intros ?%undisturbed_not_faulty|exact Ha1|exact Ha2|done]. }
  destruct (appended_pending request _ _ _ _ _ _ Hlog Ha1) as [Hlog2 Hp2].
  pose proof Hlog2 as Hlog2'. rewrite <- (Nat.add_0_r (length late)) in Hlog2'.
  destruct (appended_pending request _ _ _ _ _ _ Hlog2' Ha2) as [Hlog4 Hp4].
  rewrite events_after_cursor_filter_ids, Hstart in Hev by (first [apply Hlog2 | apply Hlog]).
  assert (filter (λ r, (saved_position request (conn_main c) < ev_id r)%Z ∧
    in_scope (creq_agentId request) (creq_sessionId request) (creq_excludedSessionIds request) r = true)
    (t_events (conn_main c2)) = pending request (conn_main c2)) as Hpend.
  { unfold pending, saved_position. by destruct Ha1 as (_ & -> & _). }
  rewrite Hpend in Hev. unfold bind, attempt. rewrite Hev.
  pose proof (Consolidate_outcome (Some (rs_longTermProcessor (services rt))) request
    (ReadEventRow <$> pending request (conn_main c2)) model s4 c4 Hs4 Hc4) as (c5 & Hs5 & Hres).
  destruct (Service.Consolidate _ _ _ _ s4) as [o s5] eqn:E5. cbn in Hs5, Hres.
  destruct (run_succeeded o) eqn:Eo.
  - destruct o as [res|w]; [|done].
    destruct (consolidated_loaded request Hforce Hmax Hint _ _ _ _ _ _ _ _ Hs4 Hc4 (proj1 Hlog4) Hp4 E5 Eo)
      as (c6 & Hs6 & Hc6 & Hev6 & _ & taken & kept & Hsplit & Hp6 & _ & Hcount & Hfull).
    exists (Some oks1), (Some oks2), (Ret res), s5, c6, rows1, rows2.
    split; [done|]. split; [done|]. split; [by eapply appended_log_extended|]. split.
    + unfold pending_outcome. rewrite Eo. exists res, taken, kept. rewrite <- Hp2. by split_and!.
    + intros Hun. pose proof (undisturbed_not_faulty _ _ _ _ _ _ Hun) as Hnf. destruct Hun as [_ Hearly Hlate _ _ _].
      split_and!; [done|exists oks1; auto|exists oks2; auto].
  - eapply Hfail; [exact Hs5|exact Eo| |exact Ha1|exact Ha2|].
    + intros Hun. pose proof (undisturbed_not_faulty _ _ _ _ _ _ Hun) as Hnf.
      destruct Hun as [Hrel Hearly _ Hrun _ _].
      assert (Forall2 stored_as early rows1) as Hrows.
      { rewrite <- (accepted_all early oks1) by auto. apply Ha1. }
      specialize (Hrun rows1 Hrows). rewrite <- Hp2 in Hrun.
      destruct (Consolidate_returns Hrel request model _
        (ReadEventRow <$> pending request (conn_main c2)) s4 c4 Hs4 Hc4 Hrun) as (res & s6 & E6 & Hok).
      rewrite E5 in E6. injection E6 as -> _. cbn in Eo. congruence.
    + destruct o as [res|w]; [|exact Hres]. destruct Hres as [_ Hres]. cbn in Eo. rewrite Eo in Hres. apply Hres.
Qed.

Definition late_event : MemoryEvent :=
  mkEvent MESSAGE_APPENDED "agent" "s" "user" "late" "" "" "" "" json_object "".

(** One event arrives while the model runs, and the transaction of the run fails: all is still pending. *)
Lemma concurrent_appends_kept_witness :
  let _ := document_json [] in
  let _ := failing_env 14 (mkFault 0 "database or disk is full" false) in
  let _ := sample_plan in let _ := sample_fts in
  let request := mkConsolidationRequest "agent" "" 9 false ["skip"] json_object in
  ∃ o s' c' row, ConsolidateInterleaved (save_all []) (save_all [late_event]) sample_runtime request None
      (opened pending_events) = (Ret (Some [], Some [true], Ret o), s') ∧
    cres_succeeded o = false ∧ db_ s' = Some c' ∧ stored_as late_event row ∧
    pending request (conn_main c') = pending request pending_events ++ [row].
Proof.
  intros Hj He Hp Hf request.
  edestruct (concurrent_appends_kept sample_runtime request None [] [late_event] (opened pending_events)
    (mkConn pending_events None 0 no_error_msg))
    as (oks1 & oks2 & o & s' & c' & rows1 & rows2 & E & Hs & Hext & Hpend).
  - reflexivity.
  - reflexivity.
  - by vm_compute.
  - reflexivity.
  - reflexivity.
  - split_and!; [split_and!; [split|..]|..]; try (repeat constructor; by vm_compute); by vm_compute.
  - set (run := ConsolidateInterleaved _ _ _ _ _ _) in E.
    assert (match run.1 with Ret (a, b, Ret r) => (a, b, cres_succeeded r) = (Some [], Some [true], false) | _ => False end)
      as Hrun by (vm_compute; reflexivity).
    rewrite E in Hrun. destruct o as [o|w]; [|by destruct Hrun]. injection Hrun as -> -> Ho.
    destruct Hext as (Hr1 & Hr2 & _). apply Forall2_nil_inv_l in Hr1 as ->.
    apply Forall2_cons_inv_l in Hr2 as (row & rest & Hrow & Hrest & ->). apply Forall2_nil_inv_l in Hrest as ->.
    destruct Hpend as [Hpend _]. unfold pending_outcome in Hpend. cbn [run_succeeded] in Hpend. rewrite Ho in Hpend.
    exists o, s', c', row. split_and!; [exact E|exact Ho|exact Hs|exact Hrow|].
    rewrite Hpend. cbn [scope_rows filter app conn_main]. f_equal.
    unfold scope_rows. rewrite filter_cons_True; [done|]. destruct Hrow as (Ha & Hse & _).
    unfold in_request_scope, in_scope. by rewrite Ha, Hse.
Defined.
